(* ===== verification/_CoqProject ===== *)
-Q . S2P
Prelude.v
Net.v
Config.v
Text.v
Management.v
Console.v
Frame.v
Open.v
Update.v
Validate.v
Grammar.v
RoundTrip.v
Planning.v
Export.v
Writer.v
Deadline.v
Withdrawal.v
Session.v
Interop.v
Live.v
Worker.v
Socket.v
Connection.v
Dispatch.v
Netsock.v
Netlink.v
Dump.v
Kernel.v
Staleness.v
System.v
Cli.v
Daemon.v
Process.v
Tests.v
TestsWire.v
TestsBgp.v
Witness.v
WitnessTime.v
