(* ===== verification/Prelude.v ===== *)
(** * ubgp: an announce-only BGP exporter

    ubgp (src/src/, Rust) watches the Linux routing tables, filters them through
    mandatory export ACLs and announces the result to BGP neighbours; it installs no
    received route. This library models the program's own logic as executable
    definitions over scripts of what its system calls return, and proves the theorems
    that make it correct.

    ** The parts of the program and their files

    - [Prelude] (this file): outcomes of Rust code ([res]: [Ok], [Err], [Panic], [Fuel]),
      computations that act and return ([Out]), slices, big-endian integers, loops, the
      outcome logic [wp], shared tactics, hints.
    - [Net]: [std::net] addresses, and the third-party ipnet crate as the class
      [IpNetApi] with its documented laws [IpNetLaws]; [model_api] is an instance.
    - [Config] (config.rs): the configuration, [validate], ACL matching, error redaction.
    - [Text]: what the program uses of core::fmt and core::str (decimal and hexadecimal
      numbers, addresses, UTF-8 decoding), and the printable text it produces.
    - [Management] (management.rs): peer status, the Telnet line reader, [safe].
    - [Console] (management.rs): commands, responses and their text, console sessions,
      [bind], the admission of clients by [run].
    - [Frame], [Open], [Update], [Validate] (wire.rs): framing and NOTIFICATION, OPEN
      and capability negotiation, UPDATE encoding, RFC 7606 validation and recovery.
    - [Grammar]: declarative grammars of NLRI and paths, and the validators on what the
      encoder writes; [RoundTrip]: encoder against validator, whole messages.
    - [Planning] (bgp.rs [Plan], [desired]): the diff between written and wanted routes.
    - [Export] (bgp.rs [Refresh], [transmit]): the writer task as a step relation
      ([own_step]) interleaved with publications and refresh requests ([env_step]); its
      specification is the set the peer holds ([peer_view]).
    - [Writer] (bgp.rs [transmit], [send]): the parts of its loop and the branches of its
      wait as executable functions, equal to the steps of [Export] ([own_step_work]), and
      with a clock ([timed_step]). [Deadline], [Withdrawal]: no program code; how
      long it takes to announce a change, and to withdraw what is no longer exported.
    - [Session] (bgp.rs): local-address checks, [handshake], [choose], [receive],
      [session].
    - [Interop]: no program code; one router's writer bytes read by another's [receive].
    - [Live] (bgp.rs [session]): the reader and the writer of an established session.
    - [Worker] (bgp.rs [peer_loop]): one peer's worker, over what its environment does in
      each iteration; its specification is the state machine [fsm_run].
    - [Socket] (transport.rs, tcp_md5.rs): socket addresses and TCP-MD5 keys.
    - [Connection] (bgp.rs [index], [configure], [connect], set-up of [run]): the
      operations on one BGP socket; the specification is a plan run to its first failure.
    - [Dispatch] (bgp.rs [run]): all listeners, the accept loops and the peers' queues.
    - [Netsock] (netlink.rs [Socket], [poll]): set-up of netlink sockets, the checks of
      [recv], [poll].
    - [Netlink] (netlink.rs): message walk, [route]. [Dump] (netlink.rs): [drain],
      [snapshot], [filter].
    - [Kernel] (netlink.rs [Freshness], [run], [Watchdog]): the reconciliation loop and
      the watchdog thread, interleaved with the clock and the stop flag ([kstep]).
    - [Staleness] (netlink.rs [run], main.rs [run]): the same with the watchdog's period
      ([ktimed_step]), and side by side with the writer of one session ([joint_step]).
    - [System] (main.rs [run], netlink.rs, bgp.rs): the kernel loop, the watchdog and the
      writer tasks of all sessions over one watch channel ([sys_step]).
    - [Process] (main.rs [run], bgp.rs [run]): the supervisor's actions interleaved with
      the workers of each generation and with the tasks that outlive the abort of earlier
      ones, over the interface [Exporter], which [System] implements.
    - [Cli] (cli.rs), [Daemon] (daemon.rs, main.rs): command line, syslog events,
      start-up and the supervisor of the workers.
    - [Tests], [TestsWire], [TestsBgp]: the unit tests of the source files and the
      documented example of lib.rs, translated under their names and run on the model
      (each [Example] evaluates one).
    - [Witness]: a concrete two-router deployment to which each property is applied;
      [WitnessTime]: a run of it in time, in which exports go stale and are withdrawn.

    The data flow of the program is [Dump.snapshot] -> [Dump.filter_exports] ->
    [Kernel.publish] (the watch channel) -> [Planning.desired] -> [Planning.plan_new] ->
    [Update.update]; received bytes flow through [Frame.read_frame] to [Open.parse_open]
    and [Validate.validate_update]; [Daemon.run] starts and stops the workers.

    ** How state and effects are represented

    Machine integers are [Z] with their wrap-around or range checks written out; the
    types of the fields give the ranges ([peer_typed], [config_typed]). Bytes are
    [list Z]. Sets and maps are stdpp's [gset] and [gmap]; the order in which a Rust
    [HashSet] is visited is an argument wherever it could matter. Time is milliseconds,
    supplied as input. A socket is the bytes it will deliver, or the list of the
    results of its [recv] calls; a write is an action in the output together with its
    outcome. An [anyhow] error is its protocol error or its message template. Panics
    are values, so that their absence is a theorem.

    ** What the theorems show

    - The whole exporter: only permitted prefixes are ever announced, a synchronised peer
      holds the last complete snapshot or nothing, and every session left alone comes to
      that ([announcements_permitted], [peers_hold_snapshot], [peers_converge]), in
      bounded time ([settles_in_time], and [withdrawn_in_time] while its peer asks for
      refreshes); while snapshots fail, peers hold nothing soon after the stale timeout
      ([expired_in_time], [stale_routes_leave]); across reloads each session keeps to the policy
      of its own generation, until its tasks are dropped ([policy_enforced]); two of these routers keep a session up
      ([session_stays_up], [session_interoperates]).
    - Wire formats: what is encoded is read back ([read_frame_frame], [parse_open_open],
      [update_accepted], [route_roundtrip]); no received byte string causes a panic or
      an endless loop ([read_frame_sound], [parse_open_sound], [validate_update_total],
      [receive_total], [line_bounded]); validators agree with grammars
      ([validate_path_spec], [validate_spec], [parse_grammar]).
    - Announcing: what was written determines what the peer holds, the end-of-RIB marker
      is truthful, the writer drains its plan, batches are minimal, refreshes are kept
      and answered ([transmit_view] and the other theorems of [Export] and [Planning]).
    - Sessions: collision resolution is symmetric, the FSM, the hold timer; a worker
      survives every transient failure and paces its retries ([worker_survives]).
    - Connections: no socket connects or listens before it is bound to its interface,
      limited to one hop and given every key ([connect_protected],
      [listeners_protected]); a worker is only given its peer's connections
      ([connections_delivered]).
    - Routes: a snapshot is complete or fails and comes from the kernel; dumps start
      in time ([dump_within]); stale exports are withdrawn whatever the dumps do
      ([stale_exports_withdrawn]); nothing a notification announced is forgotten
      ([kernel_invariant]).
    - Console: only printable text is written, every command is answered in order, only
      16 local clients are served ([console_clean], [console_answers], [clients_bounded]).
    - Operation: validated configurations only, generations of workers never overlap,
      keys reach only the kernel.

    ** Bounds and fuel

    Loops over a shrinking buffer run by [iterate] with a measure (the length of the
    buffer), and [wp_iterate] shows that [Fuel] is never the outcome; [messages_loop]
    has one unit more than there are bytes. [drain] and the dump's inner loop use the
    code's own bound of 128 calls. The other loops consume the script of their inputs.
    The writer's simulator in [TestsBgp] runs at most [SIM_FUEL] parts between two
    messages; the benchmark of a million routes runs on a few.

    In time, [latency] bounds what a part of the writer's loop takes besides its writes and
    how late a wake-up is; a write takes at most the peer's write timeout, after which the
    task ends. These are the only assumptions on the runtime in [session_stays_up],
    [settles_in_time] and [withdrawn_in_time]. In [Staleness] the watchdog's thread runs
    within [latency] of its 100 ms, the loop's clock readings are at most [latency] old,
    and a publication reaches the writer within one part of its loop ([busy_ms]).

    ** Not modelled

    What system calls do ([getifaddrs], socket calls, daemon(3), syslog(3)): their
    results are arguments or data. TOML deserialisation (its error is [TomlError]), the
    tokio runtime and its timers, which may drop the tasks of an aborted generation at
    any later time, and log output. Of the unit tests, [slow_writer_has_a_deadline] (that a write to
    a full pipe times out), since whether a write completes is an input of the model, and
    [snapshot_change_preserves_unfinished_refresh], whose 600 routes are too many to
    evaluate; [refresh_resends] covers it. A message
    whose write fails counts as not written; its session ends there. *)

From stdpp Require Export base tactics list numbers strings gmap sorting.
From Stdlib Require Export ZArith Lia.

#[export] Set Default Goal Selector "!".

Declare Scope rust_scope.
Delimit Scope rust_scope with rust.
Global Open Scope Z_scope.
Global Open Scope rust_scope.

(** ** Errors and outcomes of Rust code

    [ProtocolError] is the struct of src/src/wire.rs; every other
    [anyhow::Error] is a message template with its integer arguments. *)
Record ProtocolError := mkProtocolError {
  pe_code : Z;
  pe_subcode : Z;
  pe_data : list Z;
  pe_reason : string
}.

Inductive error :=
| EProtocol (e : ProtocolError)
| EMessage (template : string) (args : list Z).

(** [Ok] and [Err] are [anyhow::Result]; [Panic] is a Rust panic (an index out
    of range, a failed [assert!], [unwrap] or [expect]); [Fuel] is a loop whose
    model ran out of fuel. The theorems show that the last two never occur. *)
Inductive res (A : Type) :=
| Ok (a : A)
| Err (e : error)
| Panic
| Fuel.
Arguments Ok {A} a.
Arguments Err {A} e.
Arguments Panic {A}.
Arguments Fuel {A}.

#[export] Instance res_ret : MRet res := fun A a => Ok a.
#[export] Instance res_bind : MBind res := fun A B f r =>
  match r with
  | Ok a => f a
  | Err e => Err e
  | Panic => Panic
  | Fuel => Fuel
  end.

Definition bail {A} (template : string) : res A := Err (EMessage template []).
(** anyhow's [ensure!]. *)
Definition ensure (ok : bool) (template : string) : res unit :=
  if ok then Ok tt else bail template.
(** Rust's [assert!]. *)
Definition assert_ (ok : bool) : res unit := if ok then Ok tt else Panic.
(** [Option::unwrap] and [Option::expect]. *)
Definition unwrap {A} (o : option A) : res A :=
  match o with Some a => Ok a | None => Panic end.
(** A short-circuiting [&&] whose right operand can panic. *)
Definition and_then (a : bool) (b : res bool) : res bool := if a then b else Ok false.
Definition or_else (a : bool) (b : res bool) : res bool := if a then Ok true else b.

(** ** Effects

    A computation that acts on the outside, in order, and then returns, fails or
    panics. [E] is the type of the actions. *)
Definition Out (E A : Type) : Type := list E * res A.
Definition out_ret {E A} (r : res A) : Out E A := ([], r).
Definition out_bind {E A B} (o : Out E A) (f : A -> Out E B) : Out E B :=
  match o.2 with
  | Ok a => let '(acts, r) := f a in (o.1 ++ acts, r)
  | Err e => (o.1, Err e)
  | Panic => (o.1, Panic)
  | Fuel => (o.1, Fuel)
  end.
Notation "x <~ o ; k" := (out_bind o (fun x => k))
  (at level 20, o at level 100, k at level 200, only parsing) : rust_scope.

(** The caller looks at the error instead of passing it on. *)
Definition out_try {E A} (o : Out E A) : Out E (A + error) :=
  (o.1, match o.2 with Ok a => Ok (inl a) | Err e => Ok (inr e) | Panic => Panic | Fuel => Fuel end).

(** ** Slices and fixed-width integers *)
Definition len {A} (l : list A) : Z := Z.of_nat (length l).
Definition is_empty {A} (l : list A) : bool := match l with [] => true | _ => false end.
(** [l[i]] *)
Definition idx {A} (l : list A) (i : Z) : res A :=
  if 0 <=? i then unwrap (l !! Z.to_nat i) else Panic.
(** [l[lo..hi]] *)
Definition slice {A} (l : list A) (lo hi : Z) : res (list A) :=
  if (0 <=? lo) && (lo <=? hi) && (hi <=? len l)
  then Ok (take (Z.to_nat (hi - lo)) (drop (Z.to_nat lo) l)) else Panic.
(** [l[lo..]] and [l[..hi]] *)
Definition slice_from {A} (l : list A) (lo : Z) : res (list A) := slice l lo (len l).
Definition slice_to {A} (l : list A) (hi : Z) : res (list A) := slice l 0 hi.
(** [l[i] = x] *)
Definition set_idx {A} (l : list A) (i : Z) (x : A) : res (list A) :=
  if (0 <=? i) && (i <? len l) then Ok (<[Z.to_nat i := x]> l) else Panic.

Definition byte_ok (b : Z) : Prop := 0 <= b < 256.
Definition bytes_ok (l : list Z) : Prop := Forall byte_ok l.
Definition u_ok (w : Z) (x : Z) : Prop := 0 <= x < 2 ^ w.
Definition as_u8 (x : Z) : Z := x mod 256.
Definition as_u16 (x : Z) : Z := x mod 65536.
(** [to_be_bytes] and [from_be_bytes] of an integer of [n] bytes. *)
Fixpoint be_bytes (n : nat) (x : Z) : list Z :=
  match n with
  | O => []
  | S n => x / 256 ^ Z.of_nat n mod 256 :: be_bytes n x
  end.
Definition from_be (l : list Z) : Z := fold_left (fun acc b => acc * 256 + b) l 0.
(** [usize::div_ceil(8)]. *)
Definition div_ceil8 (x : Z) : Z := (x + 7) / 8.

(** ** Loops

    [loop fuel body s] runs [body] from [s] until it breaks with [inr]. *)
Fixpoint loop {S R} (fuel : nat) (body : S -> res (S + R)) (s : S) : res R :=
  match fuel with
  | O => Fuel
  | Datatypes.S fuel =>
      r ← body s;
      match r with
      | inl s' => loop fuel body s'
      | inr r => Ok r
      end
  end.

(** ** Outcome predicates *)
Definition wp {A} (r : res A) (Q : A -> Prop) (X : error -> Prop) : Prop :=
  match r with
  | Ok a => Q a
  | Err e => X e
  | Panic | Fuel => False
  end.
Definition total {A} (r : res A) : Prop := wp r (fun _ => True) (fun _ => True).

Create HintDb rust.
Create Rewrite HintDb rust.

(** *** Outcome logic *)
Section wp.
Context {A B : Type}.
Implicit Types (r : res A) (Q : A -> Prop) (X : error -> Prop).

Lemma wp_bind r (f : A -> res B) (Q : B -> Prop) X :
  wp r (fun a => wp (f a) Q X) X -> wp (r ≫= f) Q X.
Proof. by destruct r. Qed.

Lemma wp_mono r Q Q' X X' :
  wp r Q X -> (forall a, Q a -> Q' a) -> (forall e, X e -> X' e) -> wp r Q' X'.
Proof. destruct r; simpl; auto. Qed.

Lemma wp_post r Q Q' X : wp r Q X -> (forall a, Q a -> Q' a) -> wp r Q' X.
Proof. intros; eapply wp_mono; eauto. Qed.

Lemma wp_ok_inv r Q X a : wp r Q X -> r = Ok a -> Q a.
Proof. by intros H ->. Qed.

Lemma bind_ok_inv r (f : A -> res B) b :
  r ≫= f = Ok b -> exists a, r = Ok a /\ f a = Ok b.
Proof. destruct r; simpl; try discriminate. eauto. Qed.

Lemma res_bind_assoc {C} r (f : A -> res B) (g : B -> res C) :
  (x ← r; y ← f x; g y) = (y ← (x ← r; f x); g y).
Proof. by destruct r. Qed.

Lemma total_cases r : total r <-> (exists a, r = Ok a) \/ (exists e, r = Err e).
Proof.
  split; [|by intros [[? ->]|[? ->]]].
  destruct r; simpl; naive_solver.
Qed.
End wp.

Lemma wp_ensure ok msg (Q : unit -> Prop) X :
  (ok = true -> Q tt) -> (ok = false -> X (EMessage msg [])) -> wp (ensure ok msg) Q X.
Proof. destruct ok; simpl; auto. Qed.

Lemma wp_assert ok (Q : unit -> Prop) X : ok = true -> Q tt -> wp (assert_ ok) Q X.
Proof. by intros ->. Qed.

Lemma wp_and_then a b (Q : bool -> Prop) X :
  (a = false -> Q false) -> (a = true -> wp b Q X) -> wp (and_then a b) Q X.
Proof. destruct a; simpl; auto. Qed.

Lemma wp_or_else a b (Q : bool -> Prop) X :
  (a = true -> Q true) -> (a = false -> wp b Q X) -> wp (or_else a b) Q X.
Proof. destruct a; simpl; auto. Qed.

Lemma ensure_ok_inv ok msg u : ensure ok msg = Ok u -> ok = true.
Proof. by destruct ok. Qed.

(** *** Effects *)
Section out.
Context {E A B C : Type}.
Implicit Types (o : Out E A).

Lemma out_bind_ok o a (f : A -> Out E B) :
  o.2 = Ok a -> out_bind o f = (o.1 ++ (f a).1, (f a).2).
Proof. unfold out_bind. intros ->. by destruct (f a). Qed.
Lemma out_ret_bind a (f : A -> Out E B) : out_bind (out_ret (Ok a)) f = f a.
Proof. rewrite (out_bind_ok _ a) by done. by destruct (f a). Qed.
Lemma out_bind_inv o (f : A -> Out E B) b : (out_bind o f).2 = Ok b -> exists a, o.2 = Ok a /\ (f a).2 = Ok b.
Proof. destruct o as [acts [a|e| |]]; try done. rewrite (out_bind_ok _ a) by done. by exists a. Qed.
Lemma out_bind_split o (f : A -> Out E B) acts b :
  out_bind o f = (acts, Ok b) ->
  exists a acts1 acts2, o = (acts1, Ok a) /\ f a = (acts2, Ok b) /\ acts = acts1 ++ acts2.
Proof.
  destruct o as [acts1 [a|e| |]]; try done. rewrite (out_bind_ok _ a) by done. intros [= <- H].
  exists a, acts1, (f a).1. split_and!; [done| |done]. rewrite <- H. by destruct (f a).
Qed.
Lemma out_bind_assoc o (f : A -> Out E B) (g : B -> Out E C) :
  out_bind (out_bind o f) g = out_bind o (fun a => out_bind (f a) g).
Proof.
  destruct o as [acts [a|e| |]]; try done. unfold out_bind. cbn [fst snd].
  destruct (f a) as [acts' [b|e| |]]; try done. cbn [fst snd]. destruct (g b). by rewrite app_assoc.
Qed.
Lemma out_bind_ext o (f g : A -> Out E B) : (forall a, f a = g a) -> out_bind o f = out_bind o g.
Proof. intros H. destruct o as [acts [a|e| |]]; try done. unfold out_bind. cbn [fst snd]. by rewrite H. Qed.
End out.
Lemma out_bind_unit {E} (o : Out E unit) : out_bind o (fun _ => out_ret (Ok tt)) = o.
Proof. destruct o as [acts [[]|e| |]]; try done. unfold out_bind, out_ret. cbn [fst snd]. by rewrite app_nil_r. Qed.

(** *** Lengths *)
Section len.
Context {A : Type}.
Implicit Types l : list A.

Lemma len_nonneg l : 0 <= len l.
Proof. unfold len; lia. Qed.
Lemma len_nil : len (@nil A) = 0.
Proof. done. Qed.
Lemma len_cons (x : A) l : len (x :: l) = 1 + len l.
Proof. unfold len; simpl; lia. Qed.
Lemma len_app l1 l2 : len (l1 ++ l2) = len l1 + len l2.
Proof. unfold len; rewrite length_app; lia. Qed.
Lemma len_take l i : 0 <= i <= len l -> len (take (Z.to_nat i) l) = i.
Proof. unfold len; rewrite length_take; lia. Qed.
Lemma len_drop l i : 0 <= i <= len l -> len (drop (Z.to_nat i) l) = len l - i.
Proof. unfold len; rewrite length_drop; lia. Qed.
Lemma len_replicate n (x : A) : len (replicate n x) = Z.of_nat n.
Proof. unfold len; by rewrite length_replicate. Qed.
Lemma is_empty_false l : is_empty l = false <-> 0 < len l.
Proof.
  destruct l as [|x l]; rewrite ?len_nil, ?len_cons; simpl; [split; [done|lia]|].
  pose proof (len_nonneg l). split; [lia|done].
Qed.
Lemma is_empty_true l : is_empty l = true <-> l = [].
Proof. destruct l; naive_solver. Qed.
Lemma len_zero l : len l = 0 -> l = [].
Proof. destruct l as [|x l]; [done|]. rewrite len_cons. pose proof (len_nonneg l); lia. Qed.
Lemma to_nat_len l : Z.to_nat (len l) = length l.
Proof. unfold len; lia. Qed.
End len.
#[export] Hint Rewrite @len_nil @len_cons @len_app @len_replicate @to_nat_len : rust.

(** *** Indexing and slicing *)
Section slices.
Context {A : Type}.
Implicit Types l : list A.

Lemma idx_ok l i : 0 <= i < len l -> exists x, idx l i = Ok x /\ l !! Z.to_nat i = Some x.
Proof.
  unfold len; intros Hi.
  destruct (lookup_lt_is_Some_2 l (Z.to_nat i)) as [x Hx]; [lia|].
  exists x. unfold idx. rewrite (proj2 (Z.leb_le 0 i)) by lia. by rewrite Hx.
Qed.

Lemma idx_lookup l i x : 0 <= i -> l !! Z.to_nat i = Some x -> idx l i = Ok x.
Proof. intros Hi Hx. unfold idx. rewrite (proj2 (Z.leb_le 0 i)) by lia. by rewrite Hx. Qed.

Lemma idx_ok_inv l i x : idx l i = Ok x -> 0 <= i < len l /\ l !! Z.to_nat i = Some x.
Proof.
  unfold idx. destruct (Z.leb_spec 0 i); [|done].
  destruct (l !! Z.to_nat i) eqn:E; simpl; [|done].
  intros [= ->]. split; [|done]. apply lookup_lt_Some in E. unfold len; lia.
Qed.

Lemma slice_ok l lo hi :
  0 <= lo <= hi -> hi <= len l ->
  slice l lo hi = Ok (take (Z.to_nat (hi - lo)) (drop (Z.to_nat lo) l)).
Proof.
  intros. unfold slice.
  by rewrite (proj2 (Z.leb_le 0 lo)), (proj2 (Z.leb_le lo hi)), (proj2 (Z.leb_le hi (len l))) by lia.
Qed.

Lemma slice_ok_inv l lo hi s :
  slice l lo hi = Ok s ->
  0 <= lo <= hi /\ hi <= len l /\ s = take (Z.to_nat (hi - lo)) (drop (Z.to_nat lo) l).
Proof.
  unfold slice. destruct (0 <=? lo) eqn:?, (lo <=? hi) eqn:?, (hi <=? len l) eqn:?; simpl;
    try discriminate. intros [= <-]. split_and!; lia || done.
Qed.

(** The three shapes in which the encoders' outputs are sliced. *)
Lemma slice_middle l1 l2 l3 lo hi :
  lo = len l1 -> hi = len l1 + len l2 -> slice (l1 ++ l2 ++ l3) lo hi = Ok l2.
Proof.
  intros -> ->.
  pose proof (len_nonneg l1); pose proof (len_nonneg l2); pose proof (len_nonneg l3).
  rewrite slice_ok by (rewrite ?len_app; lia).
  rewrite to_nat_len, drop_app_length.
  replace (Z.to_nat _) with (length l2) by (unfold len in *; lia).
  by rewrite take_app_length.
Qed.

Lemma slice_from_app l1 l2 lo : lo = len l1 -> slice_from (l1 ++ l2) lo = Ok l2.
Proof.
  intros ->. unfold slice_from. rewrite <- (app_nil_r l2) at 1.
  apply slice_middle; [done|]. rewrite len_app. unfold len; simpl; lia.
Qed.

Lemma slice_to_app l1 l2 hi : hi = len l1 -> slice_to (l1 ++ l2) hi = Ok l1.
Proof. intros ->. unfold slice_to. by apply (slice_middle [] l1 l2). Qed.

Lemma set_idx_ok l i x : 0 <= i < len l -> set_idx l i x = Ok (<[Z.to_nat i := x]> l).
Proof.
  intros. unfold set_idx.
  by rewrite (proj2 (Z.leb_le 0 i)), (proj2 (Z.ltb_lt i (len l))) by lia.
Qed.

Lemma len_insert l i x : len (<[i := x]> l) = len l.
Proof. unfold len. by rewrite length_insert. Qed.

Lemma wp_set_idx l i x (Q : list A -> Prop) X :
  0 <= i < len l -> (forall l', len l' = len l -> l' = <[Z.to_nat i := x]> l -> Q l') ->
  wp (set_idx l i x) Q X.
Proof. intros Hi HQ. rewrite set_idx_ok by done. simpl. apply HQ; [apply len_insert|done]. Qed.

Lemma wp_idx l i (Q : A -> Prop) X :
  0 <= i < len l -> (forall x, l !! Z.to_nat i = Some x -> Q x) -> wp (idx l i) Q X.
Proof. intros Hi HQ. destruct (idx_ok l i Hi) as (x & -> & ?). by apply HQ. Qed.

Lemma wp_slice l lo hi (Q : list A -> Prop) X :
  0 <= lo <= hi /\ hi <= len l ->
  (forall s, len s = hi - lo ->
     s = take (Z.to_nat (hi - lo)) (drop (Z.to_nat lo) l) -> Q s) ->
  wp (slice l lo hi) Q X.
Proof.
  intros [H1 H2] HQ. rewrite slice_ok by lia. simpl. apply HQ; [|done].
  rewrite len_take; [done|]. rewrite len_drop; lia.
Qed.
End slices.

Lemma bytes_ok_app l1 l2 : bytes_ok (l1 ++ l2) <-> bytes_ok l1 /\ bytes_ok l2.
Proof. apply Forall_app. Qed.

Lemma bytes_ok_cons b l : bytes_ok (b :: l) <-> byte_ok b /\ bytes_ok l.
Proof. apply Forall_cons. Qed.

Lemma bytes_ok_sub l n m : bytes_ok l -> bytes_ok (take n (drop m l)).
Proof. intros. by apply Forall_take, Forall_drop. Qed.

Lemma wp_idx_byte l i (Q : Z -> Prop) X :
  bytes_ok l -> 0 <= i < len l ->
  (forall x, byte_ok x -> l !! Z.to_nat i = Some x -> Q x) -> wp (idx l i) Q X.
Proof.
  intros Hl Hi HQ. apply wp_idx; [done|]. intros x Hx.
  apply HQ; [|done]. eapply Forall_lookup_1; eauto.
Qed.

Lemma wp_slice_byte l lo hi (Q : list Z -> Prop) X :
  bytes_ok l -> 0 <= lo <= hi /\ hi <= len l ->
  (forall s, bytes_ok s -> len s = hi - lo ->
     s = take (Z.to_nat (hi - lo)) (drop (Z.to_nat lo) l) -> Q s) ->
  wp (slice l lo hi) Q X.
Proof.
  intros Hl Hi HQ. apply wp_slice; [done|]. intros s Hs ->.
  apply HQ; [|done|done]. by apply bytes_ok_sub.
Qed.
#[export] Hint Resolve bytes_ok_sub : rust.

(** *** Big-endian integers *)
Lemma from_be_acc l a : fold_left (fun acc b => acc * 256 + b) l a = a * 256 ^ len l + from_be l.
Proof.
  unfold from_be. revert a. induction l as [|b l IH]; intros a; cbn [fold_left].
  - unfold len; simpl. lia.
  - rewrite (IH (a * 256 + b)), (IH (0 * 256 + b)), len_cons.
    rewrite Z.pow_add_r by (pose proof (len_nonneg l); lia). lia.
Qed.

Lemma from_be_cons b l : from_be (b :: l) = b * 256 ^ len l + from_be l.
Proof. unfold from_be at 1. cbn [fold_left]. rewrite from_be_acc. lia. Qed.

Lemma from_be_bound l : bytes_ok l -> 0 <= from_be l < 256 ^ len l.
Proof.
  induction 1 as [|b l Hb Hl IH]; [done|].
  rewrite from_be_cons, len_cons, Z.pow_add_r by (pose proof (len_nonneg l); lia).
  unfold byte_ok in Hb. nia.
Qed.

Lemma length_be_bytes n x : length (be_bytes n x) = n.
Proof. induction n; simpl; auto. Qed.

Lemma len_be_bytes n x : len (be_bytes n x) = Z.of_nat n.
Proof. unfold len. by rewrite length_be_bytes. Qed.

Lemma be_bytes_ok n x : bytes_ok (be_bytes n x).
Proof.
  induction n; simpl; constructor; [|done]. apply Z.mod_pos_bound; lia.
Qed.

Lemma from_be_be_bytes n x : from_be (be_bytes n x) = x mod 256 ^ Z.of_nat n.
Proof.
  induction n as [|n IH]; cbn [be_bytes]; [by rewrite Z.mod_1_r|].
  rewrite from_be_cons, len_be_bytes, IH.
  replace (Z.of_nat (S n)) with (Z.of_nat n + 1) by lia.
  rewrite Z.pow_add_r, Z.pow_1_r by lia.
  rewrite (Z.rem_mul_r x (256 ^ Z.of_nat n) 256) by lia. lia.
Qed.

Lemma from_be_be_bytes_small n x : 0 <= x < 256 ^ Z.of_nat n -> from_be (be_bytes n x) = x.
Proof. intros. rewrite from_be_be_bytes. by apply Z.mod_small. Qed.

(** The leading bytes depend on the leading bits only. *)
Lemma be_bytes_mod n k x :
  (n <= k)%nat -> be_bytes n (x mod 256 ^ Z.of_nat k) = be_bytes n x.
Proof.
  induction n as [|n IH]; intros Hk; [done|]. cbn [be_bytes]. f_equal; [|apply IH; lia].
  replace (Z.of_nat k) with (Z.of_nat n + 1 + Z.of_nat (k - S n)) by lia.
  rewrite !Z.pow_add_r, Z.pow_1_r by lia.
  set (p := 256 ^ Z.of_nat n). set (q := 256 ^ Z.of_nat (k - S n)).
  assert (0 < p) by (apply Z.pow_pos_nonneg; lia).
  assert (0 < q) by (apply Z.pow_pos_nonneg; lia).
  rewrite (Z.rem_mul_r x (p * 256) q), (Z.rem_mul_r x p 256) by lia.
  replace (x mod p + p * (x / p mod 256) + p * 256 * (x / (p * 256) mod q))
    with (x mod p + (x / p mod 256 + 256 * (x / (p * 256) mod q)) * p) by lia.
  rewrite Z.div_add, (Z.div_small (x mod p)) by (try apply Z.mod_pos_bound; lia).
  rewrite Z.add_0_l, (Z.mul_comm 256), Z.mod_add, Z.mod_mod; lia.
Qed.

Lemma be_bytes_from_be l : bytes_ok l -> be_bytes (length l) (from_be l) = l.
Proof.
  induction 1 as [|b l Hb Hl IH]; [done|]. cbn [length be_bytes].
  pose proof (from_be_bound l Hl). rewrite from_be_cons. unfold len in *. f_equal.
  - rewrite Z.add_comm, Z.div_add, Z.div_small by lia. by apply Z.mod_small.
  - rewrite <- (be_bytes_mod _ (length l)) by lia.
    rewrite Z.add_comm, Z.mod_add, Z.mod_small by lia. done.
Qed.
#[export] Hint Rewrite len_be_bytes length_be_bytes : rust.
#[export] Hint Resolve be_bytes_ok : rust.

(** *** Loops: a measure gives the fuel, so the model never runs out of it *)
Definition iterate {S R} (m : S -> nat) (body : S -> res (S + R)) (s : S) : res R :=
  loop (Datatypes.S (m s)) body s.

(** On the states of [I], an iteration keeps [I] and decreases the measure. *)
Definition decreases_on {S R} (I : S -> Prop) (m : S -> nat) (body : S -> res (S + R)) : Prop :=
  forall s s', I s -> body s = Ok (inl s') -> I s' /\ (m s' < m s)%nat.
Definition decreases {S R} (m : S -> nat) (body : S -> res (S + R)) : Prop :=
  forall s s', body s = Ok (inl s') -> (m s' < m s)%nat.
(** The postcondition of one iteration. *)
Definition iter_post {S R} (I : S -> Prop) (m : S -> nat) (Q : R -> Prop) (s : S) (r : S + R) : Prop :=
  match r with inl s' => I s' /\ (m s' < m s)%nat | inr r => Q r end.

Section loops.
Context {S R : Type} (m : S -> nat) (body : S -> res (S + R)).

Lemma loop_enough I f1 f2 s :
  decreases_on I m body -> I s -> (m s < f1)%nat -> (m s < f2)%nat ->
  loop f1 body s = loop f2 body s.
Proof.
  intros Hm. revert f2 s. induction f1 as [|f1 IH]; intros [|f2] s HI H1 H2; try lia.
  simpl. destruct (body s) as [[s'|r]| | |] eqn:E; try done. simpl.
  apply Hm in E as [? ?]; [|done]. apply IH; [done|lia|lia].
Qed.

Lemma iterate_unfold_on I s :
  decreases_on I m body -> I s ->
  iterate m body s =
    r ← body s; match r with inl s' => iterate m body s' | inr r => Ok r end.
Proof.
  intros Hm HI. unfold iterate at 1. cbn [loop].
  destruct (body s) as [[s'|r]| | |] eqn:E; try done. simpl.
  destruct (Hm _ _ HI E). unfold iterate. apply (loop_enough I); [done|done|lia|lia].
Qed.

Lemma iterate_unfold s :
  decreases m body ->
  iterate m body s =
    r ← body s; match r with inl s' => iterate m body s' | inr r => Ok r end.
Proof.
  intros Hm. apply (iterate_unfold_on (fun _ => True)); [|done].
  intros s1 s2 _ E. split; [done|by apply Hm].
Qed.

Lemma wp_decreases_on I Q X :
  (forall s, I s -> wp (body s) (iter_post I m Q s) X) -> decreases_on I m body.
Proof. intros H s s' HI E. specialize (H s HI). by rewrite E in H. Qed.

(** The loop rule: an invariant kept by every iteration, which also decreases
    the measure, gives termination and the postcondition. *)
Lemma wp_iterate (I : S -> Prop) (Q : R -> Prop) (X : error -> Prop) s :
  I s ->
  (forall s, I s -> wp (body s) (iter_post I m Q s) X) ->
  wp (iterate m body s) Q X.
Proof.
  intros HI Hbody. unfold iterate.
  assert (Hgen : forall f s, I s -> (m s < f)%nat -> wp (loop f body s) Q X).
  { clear s HI. induction f as [|f IH]; intros s HI Hf; [lia|]. simpl.
    apply wp_bind. eapply wp_post; [by apply Hbody|].
    intros [s'|r]; [|done]. intros [HI' Hlt]. apply IH; [done|lia]. }
  apply Hgen; [done|lia].
Qed.
End loops.

Lemma len_lt_length {A} (l1 l2 : list A) : len l1 < len l2 -> (length l1 < length l2)%nat.
Proof. unfold len. lia. Qed.

(** *** Proof automation for outcome goals *)
Ltac rust_arith :=
  repeat match goal with H : is_empty _ = false |- _ => apply is_empty_false in H end;
  unfold byte_ok in *; autorewrite with rust in *; lia.

(** Two reads of one position yield one variable. *)
Ltac merge_lookups :=
  repeat match goal with
         | H1 : ?l !! ?i = Some ?x, H2 : ?l !! ?i = Some ?y |- _ =>
             rewrite H1 in H2; injection H2 as <-
         end.

(** One step of a goal [wp e Q X], guided by the head of [e]. *)
Ltac wp_step :=
  lazymatch goal with
  | |- wp (mbind _ _) _ _ => apply wp_bind
  | |- wp (idx ?l _) _ _ =>
      first [ apply wp_idx_byte; [by auto with rust | rust_arith | intros ? ? ?; merge_lookups]
            | apply wp_idx; [rust_arith | intros ? ?; merge_lookups] ]
  | |- wp (slice_from _ _) _ _ => unfold slice_from
  | |- wp (slice_to _ _) _ _ => unfold slice_to
  | |- wp (slice _ _ _) _ _ =>
      first [ apply wp_slice_byte; [by auto with rust | rust_arith | intros ? ? ? _]
            | apply wp_slice; [rust_arith | intros ? ? ?] ]
  | |- wp (set_idx _ _ _) _ _ => apply wp_set_idx; [rust_arith | intros ? ? ?]
  | |- wp (assert_ _) _ _ => apply wp_assert; [rust_arith|]
  | |- wp (ensure _ _) _ _ => apply wp_ensure; [intros ?|intros ?; simpl]
  | |- wp (and_then _ _) _ _ => apply wp_and_then; intros ?
  | |- wp (or_else _ _) _ _ => apply wp_or_else; intros ?
  | |- wp (Ok _) _ _ => simpl
  | |- wp (mret _) _ _ => simpl
  | |- wp (Err _) _ _ => simpl
  | |- wp (bail _) _ _ => simpl
  | |- wp (if ?c then _ else _) _ _ => destruct c eqn:?
  | |- wp (match ?c with _ => _ end) _ _ => destruct c eqn:?
  end.

(** *** Counted loops *)
Fixpoint for_each {A} (f : A -> res unit) (l : list A) : res unit :=
  match l with
  | [] => Ok tt
  | x :: l => _ ← f x; for_each f l
  end.

Fixpoint for_fold {S A} (f : S -> A -> res S) (s : S) (l : list A) : res S :=
  match l with
  | [] => Ok s
  | x :: l => s' ← f s x; for_fold f s' l
  end.

(** Rewriting rules that turn a chain of guards into a conjunction. *)
Lemma ensure_bind_ok {A} b msg (k : unit -> res A) a :
  ensure b msg ≫= k = Ok a <-> b = true /\ k tt = Ok a.
Proof. destruct b; simpl; naive_solver. Qed.

Lemma unit_bind_ok {A} (r : res unit) (k : unit -> res A) a :
  r ≫= k = Ok a <-> r = Ok tt /\ k tt = Ok a.
Proof. destruct r as [[]| | |]; simpl; naive_solver. Qed.

Lemma for_each_ok {A} (f : A -> res unit) l :
  for_each f l = Ok tt <-> Forall (fun x => f x = Ok tt) l.
Proof.
  induction l as [|x l IH]; simpl; [by split; [constructor|]|].
  rewrite unit_bind_ok, IH, Forall_cons. done.
Qed.

Lemma wp_for_fold {S A} (f : S -> A -> res S) (I : S -> Prop) X s l :
  I s -> (forall s x, x ∈ l -> I s -> wp (f s x) I X) -> wp (for_fold f s l) I X.
Proof.
  revert s. induction l as [|x l IH]; intros s HI Hf; simpl; [done|].
  apply wp_bind. eapply wp_post; [apply Hf; [by left|done]|].
  intros s' HI'. apply IH; [done|]. intros s'' y Hy. apply Hf. by right.
Qed.

(** [Option::is_none_or] and [Option::is_some_and]. *)
Definition is_none_or {A} (o : option A) (f : A -> bool) : bool :=
  match o with Some a => f a | None => true end.
Definition is_some_and {A} (o : option A) (f : A -> bool) : bool :=
  match o with Some a => f a | None => false end.
Definition is_some {A} (o : option A) : bool := match o with Some _ => true | None => false end.
Definition contains_range (lo hi x : Z) : bool := (lo <=? x) && (x <=? hi).

Lemma is_some_and_true {A} (o : option A) f :
  is_some_and o f = true <-> exists a, o = Some a /\ f a = true.
Proof. destruct o; naive_solver. Qed.

Lemma is_none_or_true {A} (o : option A) f :
  is_none_or o f = true <-> forall a, o = Some a -> f a = true.
Proof. destruct o; naive_solver. Qed.

Lemma contains_range_spec lo hi x : contains_range lo hi x = true <-> lo <= x <= hi.
Proof. unfold contains_range. lia. Qed.

(** Comparisons decided by arithmetic, as rewriting rules. *)
Lemma leb_true a b : a <= b -> (a <=? b) = true.
Proof. lia. Qed.
Lemma leb_false a b : b < a -> (a <=? b) = false.
Proof. lia. Qed.
Lemma ltb_true a b : a < b -> (a <? b) = true.
Proof. lia. Qed.
Lemma ltb_false a b : b <= a -> (a <? b) = false.
Proof. lia. Qed.
Lemma eqb_true a b : a = b -> (a =? b) = true.
Proof. lia. Qed.
Lemma eqb_false a b : a <> b -> (a =? b) = false.
Proof. lia. Qed.

(** Close the postcondition of a loop iteration over a shrinking byte slice. *)
Ltac iter_done := simpl; split; [by auto with rust | apply len_lt_length; rust_arith].

(** *** The last element *)
Lemma list_last_cons {A} (x d : A) l : List.last (x :: l) d = List.last l x.
Proof.
  revert x d. induction l as [|y l IH]; intros x d; [done|].
  change (List.last (x :: y :: l) d) with (List.last (y :: l) d). by rewrite (IH y d), (IH y x).
Qed.
Lemma list_last_app {A} (l1 l2 : list A) d : List.last (l1 ++ l2) d = List.last l2 (List.last l1 d).
Proof. revert d. induction l1 as [|x l1 IH]; intros d; [done|]. cbn [app]. by rewrite !list_last_cons. Qed.

(** *** Termination by three nested measures *)
Lemma acc_lex3 {A} (R : A -> A -> Prop) (f g h : A -> nat) :
  (forall x y, R y x ->
     (f y < f x)%nat \/ (f y = f x /\ (g y < g x)%nat) \/ (f y = f x /\ g y = g x /\ (h y < h x)%nat)) ->
  forall x, Acc R x.
Proof.
  intros HR x. remember (f x) as a eqn:Ea. revert x Ea.
  induction (lt_wf a) as [a _ IHa]. intros x Ea. remember (g x) as b eqn:Eb. revert x Ea Eb.
  induction (lt_wf b) as [b _ IHb]. intros x Ea Eb. remember (h x) as c eqn:Ec. revert x Ea Eb Ec.
  induction (lt_wf c) as [c _ IHc]. intros x -> -> ->.
  constructor. intros y [H|[[H1 H2]|(H1 & H2 & H3)]]%HR.
  - by eapply IHa.
  - by eapply IHb.
  - by eapply IHc.
Qed.

(** *** Inevitability: every run of [next] meets [goal] *)
Inductive inevitably {W} (next : W -> W -> Prop) (goal : W -> Prop) (w : W) : Prop :=
| inevitably_now : goal w -> inevitably next goal w
| inevitably_later :
    (exists w', next w w') -> (forall w', next w w' -> inevitably next goal w') -> inevitably next goal w.

(** Steps that terminate, keep [inv] and only stop at the goal lead to it. *)
Lemma inevitably_acc {W} (next : W -> W -> Prop) (goal inv : W -> Prop) :
  (forall w, inv w -> goal w \/ exists w', next w w') -> (forall w w', inv w -> next w w' -> inv w') ->
  forall w, Acc (fun w2 w1 => next w1 w2) w -> inv w -> inevitably next goal w.
Proof.
  intros Hprogress Hinv w Hacc. induction Hacc as [w _ IH]. intros Hw.
  destruct (Hprogress w Hw) as [Hgoal|Hnext]; [by apply inevitably_now|].
  apply inevitably_later; [done|]. intros w' Hstep. eapply IH; [done|by eapply Hinv].
Qed.
