(* ===== verification/Net.v ===== *)
(** * Network addresses and the ipnet interface

    [std::net] addresses are standard-library data and are defined here; the
    third-party [ipnet] crate is an interface: the class [IpNetApi] holds the
    operations the program calls and [IpNetLaws] the documented behaviour the
    program relies on. [model_api] is a concrete instance, used by witnesses. *)
From S2P Require Import Prelude.

(** ** std::net *)
Inductive IpAddr :=
| IpV4 (a : Z)
| IpV6 (a : Z).

#[export] Instance IpAddr_eq_dec : EqDecision IpAddr.
Proof. solve_decision. Defined.
#[export] Instance IpAddr_countable : Countable IpAddr.
Proof.
  refine (inj_countable'
    (fun a => match a with IpV4 x => inl x | IpV6 x => inr x end)
    (fun s => match s with inl x => IpV4 x | inr x => IpV6 x end) _).
  by intros [].
Defined.

Definition is_ipv4 (a : IpAddr) : bool := match a with IpV4 _ => true | _ => false end.
Definition is_ipv6 (a : IpAddr) : bool := match a with IpV6 _ => true | _ => false end.
Definition addr_value (a : IpAddr) : Z := match a with IpV4 x | IpV6 x => x end.
Definition addr_width (a : IpAddr) : Z := match a with IpV4 _ => 32 | IpV6 _ => 128 end.
Definition ip_ok (a : IpAddr) : Prop := u_ok (addr_width a) (addr_value a).

(** [Ipv4Addr::octets], [Ipv6Addr::octets] *)
Definition octets4 (a : Z) : list Z := be_bytes 4 a.
Definition octets6 (a : Z) : list Z := be_bytes 16 a.
(** [Ipv4Addr::new] and [Ipv6Addr::from([u8; 16])] *)
Definition ipv4_new (b0 b1 b2 b3 : Z) : Z := from_be [b0; b1; b2; b3].
Definition ipv6_from (b : list Z) : Z := from_be b.

(** Address predicates of the standard library. *)
Definition v4_is_unspecified (a : Z) : bool := a =? 0.
Definition v4_is_multicast (a : Z) : bool := (224 <=? a / 2 ^ 24) && (a / 2 ^ 24 <=? 239).
Definition v4_broadcast : Z := 2 ^ 32 - 1.
Definition v6_is_unspecified (a : Z) : bool := a =? 0.
Definition v6_is_multicast (a : Z) : bool := a / 2 ^ 120 =? 255.
(** [(segments()[0] & 0xffc0) == 0xfe80] *)
Definition v6_is_unicast_link_local (a : Z) : bool := Z.land (a / 2 ^ 112) 65472 =? 65152.
Definition is_loopback (a : IpAddr) : bool :=
  match a with IpV4 x => x / 2 ^ 24 =? 127 | IpV6 x => x =? 1 end.

(** [u16::try_from(u32)] *)
Definition u16_try_from (x : Z) : option Z := if x <=? 65535 then Some x else None.

(** ** The ipnet crate *)
Class IpNetApi := {
  IpNet : Type;
  IpNet_eq_dec :: EqDecision IpNet;
  IpNet_countable :: Countable IpNet;
  ipnet_new : IpAddr -> Z -> option IpNet;
  ipnet_addr : IpNet -> IpAddr;
  ipnet_prefix_len : IpNet -> Z;
  ipnet_network : IpNet -> IpAddr;
  ipnet_trunc : IpNet -> IpNet;
  ipnet_contains : IpNet -> IpNet -> bool
}.

(** Clear the host bits of an address. *)
Definition mask_value (w x l : Z) : Z := x / 2 ^ (w - l) * 2 ^ (w - l).
Definition mask_addr (a : IpAddr) (l : Z) : IpAddr :=
  match a with
  | IpV4 x => IpV4 (mask_value 32 x l)
  | IpV6 x => IpV6 (mask_value 128 x l)
  end.
Definition same_family (a b : IpAddr) : Prop := is_ipv4 a = is_ipv4 b.

Section api.
Context {api : IpNetApi}.
(** First and last address of a network. *)
Definition net_lo (n : IpNet) : Z := addr_value (ipnet_network n).
Definition net_hi (n : IpNet) : Z :=
  net_lo n + 2 ^ (addr_width (ipnet_addr n) - ipnet_prefix_len n) - 1.
Definition net_is_ipv6 (n : IpNet) : bool := is_ipv6 (ipnet_addr n).

(** The type aliases of src/src/netlink.rs that the tasks share: a set of
    prefixes, and the exports of each ACL by name. *)
Definition Prefixes : Type := gset IpNet.
Definition Exports : Type := gmap string Prefixes.
End api.

Class IpNetLaws `{!IpNetApi} : Prop := {
  ipnet_ext n1 n2 :
    ipnet_addr n1 = ipnet_addr n2 -> ipnet_prefix_len n1 = ipnet_prefix_len n2 -> n1 = n2;
  ipnet_addr_ok n : ip_ok (ipnet_addr n);
  ipnet_prefix_len_ok n : 0 <= ipnet_prefix_len n <= addr_width (ipnet_addr n);
  ipnet_new_some a l :
    ip_ok a -> 0 <= l <= addr_width a ->
    exists n, ipnet_new a l = Some n /\ ipnet_addr n = a /\ ipnet_prefix_len n = l;
  ipnet_new_none a l : addr_width a < l -> ipnet_new a l = None;
  ipnet_network_spec n : ipnet_network n = mask_addr (ipnet_addr n) (ipnet_prefix_len n);
  ipnet_trunc_addr n : ipnet_addr (ipnet_trunc n) = ipnet_network n;
  ipnet_trunc_len n : ipnet_prefix_len (ipnet_trunc n) = ipnet_prefix_len n;
  ipnet_contains_spec a b :
    ipnet_contains a b = true <->
    same_family (ipnet_addr a) (ipnet_addr b) /\ net_lo a <= net_lo b /\ net_hi b <= net_hi a
}.

(** ** Facts shared by the components *)
Lemma mask_value_bound w x l :
  0 <= l <= w -> 0 <= x < 2 ^ w -> 0 <= mask_value w x l <= x.
Proof.
  intros Hl Hx. unfold mask_value.
  assert (0 < 2 ^ (w - l)) by (apply Z.pow_pos_nonneg; lia).
  pose proof (Z.mul_div_le x (2 ^ (w - l))).
  assert (0 <= x / 2 ^ (w - l)) by (apply Z.div_pos; lia). nia.
Qed.

Lemma mask_value_idemp w x l l' :
  0 <= l <= l' -> l' <= w -> mask_value w (mask_value w x l') l = mask_value w x l.
Proof.
  intros Hl Hw. unfold mask_value. f_equal.
  replace (w - l) with ((w - l') + (l' - l)) by lia.
  rewrite Z.pow_add_r by lia.
  assert (0 < 2 ^ (w - l')) by (apply Z.pow_pos_nonneg; lia).
  assert (0 < 2 ^ (l' - l)) by (apply Z.pow_pos_nonneg; lia).
  rewrite <- !Z.div_div by lia. by rewrite Z.div_mul by lia.
Qed.

Lemma mask_addr_family a l : is_ipv6 (mask_addr a l) = is_ipv6 a.
Proof. by destruct a. Qed.
Lemma mask_addr_width a l : addr_width (mask_addr a l) = addr_width a.
Proof. by destruct a. Qed.
Lemma mask_addr_value a l : addr_value (mask_addr a l) = mask_value (addr_width a) (addr_value a) l.
Proof. by destruct a. Qed.
Lemma mask_addr_idemp a l l' :
  0 <= l <= l' -> l' <= addr_width a -> mask_addr (mask_addr a l') l = mask_addr a l.
Proof. destruct a; simpl; intros; f_equal; by apply mask_value_idemp. Qed.
Lemma mask_addr_ok a l : ip_ok a -> 0 <= l <= addr_width a -> ip_ok (mask_addr a l).
Proof.
  unfold ip_ok, u_ok. intros Ha Hl.
  rewrite mask_addr_width, mask_addr_value.
  pose proof (mask_value_bound (addr_width a) (addr_value a) l Hl Ha). lia.
Qed.

Section laws.
Context {api : IpNetApi} {laws : IpNetLaws}.
Implicit Types n : IpNet.

Lemma trunc_is_ipv6 n : net_is_ipv6 (ipnet_trunc n) = net_is_ipv6 n.
Proof.
  unfold net_is_ipv6. by rewrite ipnet_trunc_addr, ipnet_network_spec, mask_addr_family.
Qed.

Lemma network_trunc n : ipnet_network (ipnet_trunc n) = ipnet_network n.
Proof.
  pose proof (ipnet_prefix_len_ok n).
  rewrite !ipnet_network_spec, ipnet_trunc_addr, ipnet_trunc_len, ipnet_network_spec.
  apply mask_addr_idemp; lia.
Qed.

Lemma trunc_idemp n : ipnet_trunc (ipnet_trunc n) = ipnet_trunc n.
Proof.
  apply ipnet_ext; [|by rewrite !ipnet_trunc_len].
  by rewrite !ipnet_trunc_addr, network_trunc.
Qed.

Lemma network_is_ipv6 n : is_ipv6 (ipnet_network n) = net_is_ipv6 n.
Proof. by rewrite ipnet_network_spec, mask_addr_family. Qed.

Lemma network_ok n : ip_ok (ipnet_network n).
Proof.
  rewrite ipnet_network_spec. apply mask_addr_ok; [apply ipnet_addr_ok|apply ipnet_prefix_len_ok].
Qed.

(** A network rebuilt from its network address and length is its truncation. *)
Lemma new_network_trunc n m :
  ipnet_new (ipnet_network n) (ipnet_prefix_len n) = Some m -> ipnet_trunc m = ipnet_trunc n.
Proof.
  intros Hm. pose proof (ipnet_prefix_len_ok n) as Hl.
  destruct (ipnet_new_some (ipnet_network n) (ipnet_prefix_len n)) as (m' & Hm' & Ha & Hp).
  { apply network_ok. }
  { rewrite ipnet_network_spec, mask_addr_width. lia. }
  simplify_eq. apply ipnet_ext; rewrite ?ipnet_trunc_addr, ?ipnet_trunc_len; [|done].
  rewrite (ipnet_network_spec m), Ha, Hp, ipnet_network_spec.
  apply mask_addr_idemp; lia.
Qed.
End laws.

(** ** A concrete instance of the interface *)
Definition net_valid (p : IpAddr * Z) : bool :=
  (0 <=? addr_value p.1) && (addr_value p.1 <? 2 ^ addr_width p.1) &&
  (0 <=? p.2) && (p.2 <=? addr_width p.1).
Record model_net := mkNet { net_pair : IpAddr * Z; net_pair_valid : Is_true (net_valid net_pair) }.
Definition model_of (p : IpAddr * Z) : option model_net :=
  match decide (Is_true (net_valid p)) with
  | left H => Some (mkNet p H)
  | right _ => None
  end.
Definition model_make (a : IpAddr) (l : Z) : option model_net := model_of (a, l).
Definition model_network (n : model_net) : IpAddr := mask_addr (net_pair n).1 (net_pair n).2.
Definition model_trunc (n : model_net) : model_net :=
  match model_make (model_network n) (net_pair n).2 with Some m => m | None => n end.
Definition model_hi (n : model_net) : Z :=
  addr_value (model_network n) + 2 ^ (addr_width (net_pair n).1 - (net_pair n).2) - 1.
Definition model_contains (a b : model_net) : bool :=
  Bool.eqb (is_ipv4 (net_pair a).1) (is_ipv4 (net_pair b).1) &&
  (addr_value (model_network a) <=? addr_value (model_network b)) &&
  (model_hi b <=? model_hi a).

Lemma net_pair_inj n m : net_pair n = net_pair m -> n = m.
Proof. destruct n as [p H], m as [p' H']. cbn. intros ->. f_equal. apply proof_irrel. Qed.
Lemma model_of_pair n : model_of (net_pair n) = Some n.
Proof. destruct n as [p H]. unfold model_of. cbn. case_decide; [|done]. do 2 f_equal. apply proof_irrel. Qed.
#[export] Instance model_net_eq_dec : EqDecision model_net := fun n m =>
  match decide (net_pair n = net_pair m) with
  | left H => left (net_pair_inj n m H)
  | right H => right (fun E => H (f_equal net_pair E))
  end.
#[export] Instance model_net_countable : Countable model_net := inj_countable net_pair model_of model_of_pair.
Definition model_api : IpNetApi := {|
  IpNet := model_net;
  ipnet_new := model_make;
  ipnet_addr n := (net_pair n).1;
  ipnet_prefix_len n := (net_pair n).2;
  ipnet_network := model_network;
  ipnet_trunc := model_trunc;
  ipnet_contains := model_contains
|}.

Lemma net_valid_spec a l :
  Is_true (net_valid (a, l)) <-> ip_ok a /\ 0 <= l <= addr_width a.
Proof. unfold net_valid, ip_ok, u_ok. simpl. rewrite Is_true_true. lia. Qed.

Lemma model_net_spec (n : model_net) : ip_ok (net_pair n).1 /\ 0 <= (net_pair n).2 <= addr_width (net_pair n).1.
Proof. destruct n as [[a l] H]. by apply net_valid_spec. Qed.

Lemma model_make_some a l :
  ip_ok a -> 0 <= l <= addr_width a -> exists n, model_make a l = Some n /\ net_pair n = (a, l).
Proof.
  intros Ha Hl. unfold model_make, model_of. case_decide as H; [by eexists|].
  exfalso. apply H. by apply net_valid_spec.
Qed.

Lemma model_trunc_spec n : net_pair (model_trunc n) = (model_network n, (net_pair n).2).
Proof.
  destruct (model_net_spec n) as [Ha Hl]. unfold model_trunc.
  destruct (model_make_some (model_network n) (net_pair n).2) as (m & -> & Hm); [| |done].
  - by apply mask_addr_ok.
  - unfold model_network. rewrite mask_addr_width. lia.
Qed.

Lemma model_laws : @IpNetLaws model_api.
Proof.
  split; cbn.
  - intros n m H1 H2. apply net_pair_inj. by destruct (net_pair n), (net_pair m); cbn in *; subst.
  - intros n. apply model_net_spec.
  - intros n. apply model_net_spec.
  - intros a l Ha Hl. destruct (model_make_some a l Ha Hl) as (n & H & Hn).
    exists n. by rewrite Hn.
  - intros a l Hl. unfold model_make, model_of. case_decide as H; [|done].
    destruct (proj1 (net_valid_spec a l) H). lia.
  - done.
  - intros n. by rewrite model_trunc_spec.
  - intros n. by rewrite model_trunc_spec.
  - intros a b. unfold model_contains, same_family, net_hi, net_lo, model_hi; cbn.
    destruct (is_ipv4 (net_pair a).1), (is_ipv4 (net_pair b).1); simpl; lia.
Qed.

(** Shorthands for concrete networks in witnesses. *)
Definition net4 (a b c d l : Z) : option model_net := model_make (IpV4 (ipv4_new a b c d)) l.
Definition net6 (x l : Z) : option model_net := model_make (IpV6 x) l.
Definition net_default : model_net := mkNet (IpV4 0, 0) I.
Definition net4' (a b c d l : Z) : model_net := default net_default (net4 a b c d l).
Definition net6' (x l : Z) : model_net := default net_default (net6 x l).
Example net_contains_example :
  model_contains (net4' 10 0 0 0 8) (net4' 10 2 3 0 24) = true /\
  model_contains (net4' 10 2 3 0 24) (net4' 10 0 0 0 8) = false.
Proof. by vm_compute. Qed.
