(* ===== verification/Config.v ===== *)
(** * src/src/config.rs: configuration, export ACLs and their validation

    The records are the serde structs; TOML parsing is the third-party [toml]
    crate and is a parameter of [parse] and [load]; what its error offers to a caller,
    message and rendered source included, is [TomlError]. *)
From S2P Require Import Prelude Net.

Definition MAX_TIMEOUT_SECS : Z := 24 * 60 * 60.
(** Linux ABI constants, from the libc crate. *)
Definition TCP_MD5SIG_MAXKEYLEN : Z := 80.
Definition IFNAMSIZ : Z := 16.

(** [SocketAddr]: address and port. *)
Record Management := mkManagement {
  m_enabled : bool;
  m_listen : IpAddr * Z
}.
Definition default_management : Management :=
  {| m_enabled := true; m_listen := (IpV4 (ipv4_new 127 0 0 1), 65090) |}.

Record Kernel := mkKernel {
  k_tables : list Z;
  k_receive_buffer_bytes : Z;
  k_refresh_interval_ms : Z;
  k_reconcile_interval_secs : Z;
  k_stale_timeout_secs : Z;
  k_dump_timeout_secs : Z;
  k_max_prefixes : Z
}.
Definition default_kernel : Kernel := {|
  k_tables := [254];
  k_receive_buffer_bytes := 64 * 1024 * 1024;
  k_refresh_interval_ms := 250;
  k_reconcile_interval_secs := 300;
  k_stale_timeout_secs := 30;
  k_dump_timeout_secs := 10;
  k_max_prefixes := 2000000
|}.

(** [Md5Key] is a string, kept as its UTF-8 bytes. *)
Record Md5Key := mkMd5Key { as_bytes : list Z }.
(** [impl Debug for Md5Key] *)
Definition md5key_debug (k : Md5Key) : string := "<redacted>".

Record Peer := mkPeer {
  p_address : IpAddr;
  p_local_address : IpAddr;
  p_interface : string;
  p_remote_asn : Z;
  p_export_acl : string;
  p_md5_password : option Md5Key;
  p_port : Z;
  p_hold_time_secs : Z;
  p_connect_timeout_secs : Z;
  p_write_timeout_secs : Z;
  p_ipv6 : bool;
  p_ipv4 : bool;
  p_next_hop_v4 : option Z;
  p_next_hop_v6 : option Z;
  p_next_hop_v6_link_local : option Z
}.
Definition port : Z := 179.
Definition hold : Z := 90.
Definition connect_timeout : Z := 10.
Definition write_timeout : Z := 10.
Definition yes : bool := true.

Inductive Action := Permit | Deny.
#[export] Instance Action_eq_dec : EqDecision Action.
Proof. solve_decision. Defined.

(** Reject unspecified, multicast, and limited-broadcast IPv4 addresses. *)
Definition valid_v4 (a : Z) : bool :=
  negb (v4_is_unspecified a) && negb (v4_is_multicast a) && negb (a =? v4_broadcast).
Definition valid_router_id (id : Z) : bool := negb (v4_is_unspecified id).
Definition valid_v6 (a : Z) : bool := negb (v6_is_unspecified a) && negb (v6_is_multicast a).

(** [Option::or] *)
Definition opt_or {A} (o1 o2 : option A) : option A :=
  match o1 with Some a => Some a | None => o2 end.
Definition nh4 (p : Peer) : option Z :=
  opt_or (p_next_hop_v4 p) (match p_local_address p with IpV4 a => Some a | _ => None end).
Definition nh6 (p : Peer) : option Z :=
  opt_or (p_next_hop_v6 p) (match p_local_address p with IpV6 a => Some a | _ => None end).

(** [str::len] and [str::contains('\0')] on UTF-8 bytes. *)
Definition str_len (s : string) : Z := Z.of_nat (String.length s).
Fixpoint str_contains_nul (s : string) : bool :=
  match s with
  | EmptyString => false
  | String c s => bool_decide (c = Ascii.zero) || str_contains_nul s
  end.

Section config.
  Context {api : IpNetApi}.

Record Rule := mkRule {
  r_action : Action;
  r_prefix : IpNet;
  r_min_length : option Z;
  r_max_length : option Z
}.
Record Acl := mkAcl { rules : list Rule }.

Record Config := mkConfig {
  c_asn : Z;
  c_router_id : Z;
  c_ipv6 : bool;
  c_listen_port : Z;
  c_kernel : Kernel;
  c_management : Management;
  c_acls : gmap string Acl;
  c_peers : list Peer
}.

(** The predicate of [Acl::permits]'s [find]. *)
Definition rule_matches (r : Rule) (prefix : IpNet) : bool :=
  ipnet_contains (r_prefix r) prefix &&
  (default (ipnet_prefix_len (r_prefix r)) (r_min_length r) <=? ipnet_prefix_len prefix) &&
  (ipnet_prefix_len prefix <=? default (ipnet_prefix_len (r_prefix r)) (r_max_length r)).
Definition permits (acl : Acl) (prefix : IpNet) : bool :=
  is_some_and (List.find (fun r => rule_matches r prefix) (rules acl))
    (fun r => bool_decide (r_action r = Permit)).

Definition validate_rule (r : Rule) : res unit :=
  let base := ipnet_prefix_len (r_prefix r) in
  let lo := default base (r_min_length r) in
  let hi := default base (r_max_length r) in
  let max := if is_ipv4 (ipnet_addr (r_prefix r)) then 32 else 128 in
  _ ← ensure (bool_decide (r_prefix r = ipnet_trunc (r_prefix r)))
        "ACL {name}: prefix must have no host bits";
  ensure ((base <=? lo) && (lo <=? hi) && (hi <=? max))
    "ACL {name}: invalid prefix length range".

Definition validate_acl (entry : string * Acl) : res unit :=
  let '(name, acl) := entry in
  _ ← ensure (negb (bool_decide (name = EmptyString))) "ACL name must not be empty";
  for_each validate_rule (rules acl).

Definition valid_ip (a : IpAddr) : bool :=
  match a with IpV4 a => valid_v4 a | IpV6 a => valid_v6 a end.

Definition endpoint_key (p : Peer) : IpAddr * IpAddr * string :=
  (p_address p, p_local_address p, p_interface p).

(** One iteration of the peer loop; the state is the [endpoints] set. *)
Definition validate_peer (self : Config) (endpoints : gset (IpAddr * IpAddr * string)) (p : Peer)
  : res (gset (IpAddr * IpAddr * string)) :=
  _ ← ensure (is_none_or (p_md5_password p)
          (fun key => contains_range 1 TCP_MD5SIG_MAXKEYLEN (len (as_bytes key))))
        "peer {}: md5_password must contain 1..=80 UTF-8 bytes; omit it to disable authentication";
  _ ← ensure (bool_decide (is_Some (c_acls self !! p_export_acl p)))
        "peer {}: mandatory export ACL {:?} does not exist";
  _ ← ensure (negb (p_remote_asn p =? 0) && negb (p_remote_asn p =? 23456) && negb (p_port p =? 0))
        "invalid peer ASN or port";
  _ ← ensure (negb (bool_decide (p_address p = p_local_address p)) &&
          Bool.eqb (is_ipv4 (p_address p)) (is_ipv4 (p_local_address p)))
        "peer/local addresses must differ and use the same transport family";
  _ ← ensure (valid_ip (p_address p)) "invalid peer address";
  _ ← ensure (valid_ip (p_local_address p)) "invalid local address";
  _ ← ensure (negb (bool_decide (p_interface p = EmptyString)) &&
          (str_len (p_interface p) <? IFNAMSIZ) && negb (str_contains_nul (p_interface p)))
        "invalid peer interface";
  _ ← ensure (bool_decide (endpoint_key p ∉ endpoints)) "duplicate peer endpoint";
  _ ← ensure ((p_hold_time_secs p =? 0) || (3 <=? p_hold_time_secs p))
        "hold time must be zero or >= 3 seconds";
  _ ← for_each (fun seconds => ensure (contains_range 1 MAX_TIMEOUT_SECS seconds)
          "peer {}: {name} must be 1..={MAX_TIMEOUT_SECS} seconds")
        [p_connect_timeout_secs p; p_write_timeout_secs p];
  _ ← ensure (p_ipv4 p || p_ipv6 p) "peer must enable at least one address family";
  _ ← ensure (c_ipv6 self ||
          (negb (p_ipv6 p) && is_ipv4 (p_address p) && negb (is_some (p_next_hop_v6 p)) &&
           negb (is_some (p_next_hop_v6_link_local p))))
        "IPv6 must be enabled globally before using IPv6 settings";
  _ ← ensure (negb (p_ipv4 p) || is_some_and (nh4 p) valid_v4)
        "IPv4 export requires a valid local next_hop_v4";
  _ ← ensure (negb (p_ipv6 p) ||
          is_some_and (nh6 p) (fun a => valid_v6 a && negb (v6_is_unicast_link_local a)))
        "IPv6 export requires a non-link-local next_hop_v6";
  _ ← ensure (is_none_or (p_next_hop_v6_link_local p) v6_is_unicast_link_local)
        "next_hop_v6_link_local must be link-local";
  Ok (endpoints ∪ {[endpoint_key p]}).

(** [Config::validate]. The HashMap of ACLs is visited in one fixed order; the
    order decides only which error is reported first. *)
Definition validate (self : Config) : res unit :=
  let k := c_kernel self in
  _ ← ensure (is_loopback (m_listen (c_management self)).1)
        "management CLI must bind to a loopback address";
  _ ← ensure (negb ((m_listen (c_management self)).2 =? 0)) "management CLI port must be nonzero";
  _ ← ensure (negb (c_asn self =? 0) && negb (c_asn self =? 23456))
        "local ASN must be nonzero and not AS_TRANS";
  _ ← ensure (valid_router_id (c_router_id self)) "router_id must be nonzero";
  _ ← ensure (negb (c_listen_port self =? 0)) "listen_port must be nonzero";
  _ ← ensure (negb (is_empty (c_peers self))) "at least one peer is required";
  _ ← ensure (negb (is_empty (k_tables k)) && forallb (fun t => negb (t =? 0)) (k_tables k))
        "select at least one nonzero routing table";
  _ ← ensure (contains_range 65536 (1024 * 1024 * 1024) (k_receive_buffer_bytes k))
        "receive_buffer_bytes must be 64 KiB..1 GiB";
  _ ← ensure (contains_range 10 60000 (k_refresh_interval_ms k))
        "refresh_interval_ms must be 10..60000";
  _ ← for_each (fun seconds => ensure (contains_range 1 MAX_TIMEOUT_SECS seconds)
          "kernel {name} must be 1..={MAX_TIMEOUT_SECS} seconds")
        [k_reconcile_interval_secs k; k_stale_timeout_secs k; k_dump_timeout_secs k];
  _ ← ensure (k_dump_timeout_secs k <? k_stale_timeout_secs k)
        "dump timeout must be shorter than stale timeout";
  _ ← ensure (0 <? k_max_prefixes k) "max_prefixes must be positive";
  _ ← for_each validate_acl (map_to_list (c_acls self));
  _ ← for_fold (validate_peer self) ∅ (c_peers self);
  Ok tt.

(** ** Loading *)

(** [toml::de::Error]: [span()], a range of the text, [message()], which may quote
    values, and its [Display], which renders the message with lines of the text. *)
Record TomlError := mkTomlError {
  te_span : option (Z * Z);
  te_message : string;
  te_display : string
}.
(** [Config::parse]: the TOML parser either yields a configuration or an error. *)
Definition count_newlines (b : list Z) : Z := len (List.filter (fun c => c =? 10) b).
(** [iter().rposition(|b| *b == b'\n')] *)
Fixpoint rposition_newline (b : list Z) : option Z :=
  match b with
  | [] => None
  | c :: b =>
      match rposition_newline b with
      | Some i => Some (1 + i)
      | None => if c =? 10 then Some 0 else None
      end
  end.
Definition parse_message : string :=
  "parsing configuration at line {line}, column {column}: check TOML syntax, field names and types (source omitted to protect secrets)".
Definition parse_error (text : list Z) (error : TomlError) : res Config :=
  let start := Z.min (match te_span error with Some span => span.1 | None => 0 end) (len text) in
  before ← slice_to text start;
  let line := count_newlines before + 1 in
  let column := match rposition_newline before with
                | Some n => start - n
                | None => start + 1
                end in
  Err (EMessage parse_message [line; column]).
Definition parse (toml : list Z -> Config + TomlError) (text : list Z) : res Config :=
  match toml text with
  | inl cfg => Ok cfg
  | inr error => parse_error text error
  end.

(** [Config::load]; reading the file is the argument [read]. *)
Definition load (toml : list Z -> Config + TomlError) (read : res (list Z)) : res Config :=
  text ← read;
  cfg ← parse toml text;
  _ ← validate cfg;
  Ok cfg.

(** ** What validation guarantees *)
Definition timeout_ok (s : Z) : Prop := 1 <= s <= MAX_TIMEOUT_SECS.
Definition ip_usable (a : IpAddr) : Prop :=
  match a with
  | IpV4 a => a <> 0 /\ ~ (224 <= a / 2 ^ 24 <= 239) /\ a <> v4_broadcast
  | IpV6 a => a <> 0 /\ a / 2 ^ 120 <> 255
  end.

Record rule_ok (r : Rule) : Prop := {
  rule_no_host_bits : ipnet_trunc (r_prefix r) = r_prefix r;
  rule_range :
    ipnet_prefix_len (r_prefix r)
      <= default (ipnet_prefix_len (r_prefix r)) (r_min_length r)
      <= default (ipnet_prefix_len (r_prefix r)) (r_max_length r);
  rule_max :
    default (ipnet_prefix_len (r_prefix r)) (r_max_length r) <= addr_width (ipnet_addr (r_prefix r))
}.

Record peer_ok (self : Config) (p : Peer) : Prop := {
  peer_md5 : forall k, p_md5_password p = Some k -> 1 <= len (as_bytes k) <= 80;
  peer_acl : is_Some (c_acls self !! p_export_acl p);
  peer_asn : p_remote_asn p <> 0 /\ p_remote_asn p <> 23456;
  peer_port : p_port p <> 0;
  peer_distinct : p_address p <> p_local_address p;
  peer_family : is_ipv4 (p_address p) = is_ipv4 (p_local_address p);
  peer_address : ip_usable (p_address p);
  peer_local : ip_usable (p_local_address p);
  peer_interface : p_interface p <> EmptyString /\ str_len (p_interface p) < 16 /\
                   str_contains_nul (p_interface p) = false;
  peer_hold : p_hold_time_secs p = 0 \/ 3 <= p_hold_time_secs p;
  peer_connect_timeout : timeout_ok (p_connect_timeout_secs p);
  peer_write_timeout : timeout_ok (p_write_timeout_secs p);
  peer_some_family : p_ipv4 p = true \/ p_ipv6 p = true;
  peer_ipv6_gate : c_ipv6 self = true \/
    (p_ipv6 p = false /\ is_ipv4 (p_address p) = true /\
     p_next_hop_v6 p = None /\ p_next_hop_v6_link_local p = None);
  peer_nh4 : p_ipv4 p = true -> exists a, nh4 p = Some a /\ ip_usable (IpV4 a);
  peer_nh6 : p_ipv6 p = true -> exists a, nh6 p = Some a /\ ip_usable (IpV6 a) /\
                                          v6_is_unicast_link_local a = false;
  peer_link_local : forall a, p_next_hop_v6_link_local p = Some a ->
                              v6_is_unicast_link_local a = true
}.

Record kernel_ok (k : Kernel) : Prop := {
  kernel_tables : k_tables k <> [] /\ Forall (fun t => t <> 0) (k_tables k);
  kernel_buffer : 65536 <= k_receive_buffer_bytes k <= 2 ^ 30;
  kernel_refresh : 10 <= k_refresh_interval_ms k <= 60000;
  kernel_reconcile : timeout_ok (k_reconcile_interval_secs k);
  kernel_stale : timeout_ok (k_stale_timeout_secs k);
  kernel_dump : timeout_ok (k_dump_timeout_secs k);
  kernel_dump_stale : k_dump_timeout_secs k < k_stale_timeout_secs k;
  kernel_max_prefixes : 0 < k_max_prefixes k
}.

(** The machine-width ranges the Rust field types guarantee. *)
Record peer_typed (p : Peer) : Prop := {
  typed_address : ip_ok (p_address p);
  typed_local : ip_ok (p_local_address p);
  typed_asn : u_ok 32 (p_remote_asn p);
  typed_port : u_ok 16 (p_port p);
  typed_hold : u_ok 16 (p_hold_time_secs p);
  typed_connect : u_ok 64 (p_connect_timeout_secs p);
  typed_write : u_ok 64 (p_write_timeout_secs p);
  typed_nh4 : forall a, p_next_hop_v4 p = Some a -> u_ok 32 a;
  typed_nh6 : forall a, p_next_hop_v6 p = Some a -> u_ok 128 a;
  typed_ll : forall a, p_next_hop_v6_link_local p = Some a -> u_ok 128 a
}.
Record config_typed (self : Config) : Prop := {
  typed_local_asn : u_ok 32 (c_asn self);
  typed_router_id : u_ok 32 (c_router_id self);
  typed_listen_port : u_ok 16 (c_listen_port self);
  typed_peers : Forall peer_typed (c_peers self)
}.

(** The declarative reading of [Config::validate]. *)
Record config_ok (self : Config) : Prop := {
  ok_listen : is_loopback (m_listen (c_management self)).1 = true;
  ok_listen_port : (m_listen (c_management self)).2 <> 0;
  ok_asn : c_asn self <> 0 /\ c_asn self <> 23456;
  ok_router_id : c_router_id self <> 0;
  ok_bgp_port : c_listen_port self <> 0;
  ok_some_peer : c_peers self <> [];
  ok_kernel : kernel_ok (c_kernel self);
  ok_acls : forall name acl, c_acls self !! name = Some acl ->
              name <> EmptyString /\ Forall rule_ok (rules acl);
  ok_peers : Forall (peer_ok self) (c_peers self);
  ok_endpoints : NoDup (map endpoint_key (c_peers self))
}.
End config.

(** * Theorems *)
Lemma valid_v4_spec a : valid_v4 a = true <-> ip_usable (IpV4 a).
Proof. unfold valid_v4, v4_is_unspecified, v4_is_multicast. simpl. lia. Qed.

Lemma valid_v6_spec a : valid_v6 a = true <-> ip_usable (IpV6 a).
Proof. unfold valid_v6, v6_is_unspecified, v6_is_multicast. simpl. lia. Qed.

Lemma valid_ip_spec a : valid_ip a = true <-> ip_usable a.
Proof. destruct a; [apply valid_v4_spec|apply valid_v6_spec]. Qed.

Lemma timeouts_ok msg l :
  for_each (fun s => ensure (contains_range 1 MAX_TIMEOUT_SECS s) msg) l = Ok tt <->
  Forall timeout_ok l.
Proof.
  rewrite for_each_ok. apply Forall_iff. intros s.
  unfold ensure, timeout_ok, contains_range.
  destruct (1 <=? s) eqn:?, (s <=? MAX_TIMEOUT_SECS) eqn:?; simpl; split; try done; lia.
Qed.

Lemma ensure_ok b msg : ensure b msg = Ok tt <-> b = true.
Proof. by destruct b. Qed.

Lemma negb_decide_eq `{!EqDecision A} (x y : A) : negb (bool_decide (x = y)) = true <-> x <> y.
Proof. rewrite negb_true_iff. apply bool_decide_eq_false. Qed.

Lemma negb_is_some_true {A} (o : option A) : negb (is_some o) = true <-> o = None.
Proof. by destruct o. Qed.

Section config_theorems.
Context {api : IpNetApi} {laws : IpNetLaws}.
Implicit Types (self : Config) (p : Peer) (r : Rule).

Lemma validate_rule_ok r : validate_rule r = Ok tt <-> rule_ok r.
Proof.
  unfold validate_rule. rewrite ensure_bind_ok, ensure_ok, bool_decide_eq_true.
  assert (Hw : (if is_ipv4 (ipnet_addr (r_prefix r)) then 32 else 128)
             = addr_width (ipnet_addr (r_prefix r))) by by destruct (ipnet_addr _).
  rewrite Hw. split.
  - intros [H1 H2]. split; [done|lia|lia].
  - intros [H1 H2 H3]. split; [done|lia].
Qed.

Lemma validate_acl_ok name acl :
  validate_acl (name, acl) = Ok tt <-> name <> EmptyString /\ Forall rule_ok (rules acl).
Proof.
  unfold validate_acl. rewrite ensure_bind_ok, negb_decide_eq, for_each_ok.
  by setoid_rewrite validate_rule_ok.
Qed.

Lemma validate_acls_ok (acls : gmap string Acl) :
  for_each validate_acl (map_to_list acls) = Ok tt <->
  forall name acl, acls !! name = Some acl -> name <> EmptyString /\ Forall rule_ok (rules acl).
Proof.
  rewrite for_each_ok, Forall_forall. split.
  - intros H name acl Hl. apply validate_acl_ok, H. by apply elem_of_map_to_list.
  - intros H [name acl] Hl. apply validate_acl_ok, H. by apply elem_of_map_to_list.
Qed.

Lemma ipv6_gate_spec self p :
  c_ipv6 self || (negb (p_ipv6 p) && is_ipv4 (p_address p) && negb (is_some (p_next_hop_v6 p)) &&
                  negb (is_some (p_next_hop_v6_link_local p))) = true <->
  c_ipv6 self = true \/
    (p_ipv6 p = false /\ is_ipv4 (p_address p) = true /\
     p_next_hop_v6 p = None /\ p_next_hop_v6_link_local p = None).
Proof.
  rewrite orb_true_iff, !andb_true_iff, !negb_is_some_true, negb_true_iff. tauto.
Qed.

Lemma next_hop_spec (enabled : bool) (o : option Z) f (P : Z -> Prop) :
  (forall a, f a = true <-> P a) ->
  (negb enabled || is_some_and o f = true <-> (enabled = true -> exists a, o = Some a /\ P a)).
Proof.
  intros Hf. rewrite orb_true_iff, negb_true_iff, is_some_and_true.
  setoid_rewrite Hf. destruct enabled; naive_solver.
Qed.

Lemma interface_spec s :
  negb (bool_decide (s = EmptyString)) && (str_len s <? IFNAMSIZ) && negb (str_contains_nul s) = true
  <-> s <> EmptyString /\ str_len s < 16 /\ str_contains_nul s = false.
Proof.
  rewrite !andb_true_iff, negb_decide_eq, Z.ltb_lt, negb_true_iff. unfold IFNAMSIZ. tauto.
Qed.

Lemma md5_spec (o : option Md5Key) :
  is_none_or o (fun key => contains_range 1 TCP_MD5SIG_MAXKEYLEN (len (as_bytes key))) = true <->
  forall k, o = Some k -> 1 <= len (as_bytes k) <= 80.
Proof.
  rewrite is_none_or_true. split; intros H k Hk; specialize (H k Hk).
  - by apply contains_range_spec in H.
  - by apply contains_range_spec.
Qed.

Lemma validate_peer_ok self eps p eps' :
  (validate_peer self eps p = Ok eps') <->
  peer_ok self p /\ endpoint_key p ∉ eps /\ eps' = eps ∪ {[endpoint_key p]}.
Proof.
  unfold validate_peer.
  rewrite !ensure_bind_ok, unit_bind_ok, !ensure_bind_ok, timeouts_ok, md5_spec.
  rewrite (is_none_or_true (p_next_hop_v6_link_local p)), interface_spec, ipv6_gate_spec.
  rewrite (next_hop_spec (p_ipv4 p) _ _ _ valid_v4_spec).
  rewrite (next_hop_spec _ _ _ (fun a => ip_usable (IpV6 a) /\ v6_is_unicast_link_local a = false))
    by (intros; rewrite andb_true_iff, negb_true_iff, valid_v6_spec; done).
  rewrite !bool_decide_eq_true, !valid_ip_spec, !andb_true_iff, !orb_true_iff, negb_decide_eq.
  rewrite Bool.eqb_true_iff, !negb_true_iff, !Z.eqb_neq, Z.eqb_eq, Z.leb_le, !Forall_cons.
  split.
  - intros. destruct_and!. simplify_eq. split; [|done]. by constructor.
  - intros ([] & ? & ->). split_and!; try done; by destruct_and!.
Qed.

Lemma validate_peers_ok self eps ps eps' :
  for_fold (validate_peer self) eps ps = Ok eps' ->
  Forall (peer_ok self) ps /\ NoDup (map endpoint_key ps) /\
  Forall (fun p => endpoint_key p ∉ eps) ps.
Proof.
  revert eps. induction ps as [|p ps IH]; intros eps; simpl.
  { repeat constructor. }
  intros (eps1 & H1 & H2)%bind_ok_inv.
  apply validate_peer_ok in H1 as (Hp & Hnew & ->).
  destruct (IH _ H2) as (Hps & Hnd & Hout). split_and!.
  - by constructor.
  - constructor; [|done]. intros (q & Hq & Hin)%list_elem_of_fmap.
    rewrite Forall_forall in Hout. specialize (Hout _ Hin).
    apply Hout, elem_of_union_r. rewrite Hq. by apply elem_of_singleton.
  - constructor; [done|]. eapply Forall_impl; [done|].
    intros q Hq Hin. by apply Hq, elem_of_union_l.
Qed.

Lemma validate_peers_complete self eps ps :
  Forall (peer_ok self) ps -> NoDup (map endpoint_key ps) ->
  Forall (fun p => endpoint_key p ∉ eps) ps ->
  exists eps', for_fold (validate_peer self) eps ps = Ok eps'.
Proof.
  revert eps. induction ps as [|p ps IH]; intros eps Hok Hnd Hout; simpl; [by eexists|].
  apply Forall_cons in Hok as [Hp Hok]. apply Forall_cons in Hout as [Hnew Hout].
  apply NoDup_cons in Hnd as [Hnin Hnd].
  rewrite (proj2 (validate_peer_ok self eps p (eps ∪ {[endpoint_key p]}))) by done. simpl.
  apply IH; [done|done|]. rewrite Forall_forall in Hout |- *. intros q Hq.
  apply not_elem_of_union. split; [by apply Hout|]. intros Heq%elem_of_singleton.
  apply Hnin. rewrite <- Heq. by apply list_elem_of_fmap_2.
Qed.

Lemma kernel_checks_spec (k : Kernel) :
  (negb (is_empty (k_tables k)) && forallb (fun t => negb (t =? 0)) (k_tables k) = true /\
   contains_range 65536 (1024 * 1024 * 1024) (k_receive_buffer_bytes k) = true /\
   contains_range 10 60000 (k_refresh_interval_ms k) = true /\
   Forall timeout_ok [k_reconcile_interval_secs k; k_stale_timeout_secs k; k_dump_timeout_secs k] /\
   (k_dump_timeout_secs k <? k_stale_timeout_secs k) = true /\
   (0 <? k_max_prefixes k) = true) <-> kernel_ok k.
Proof.
  rewrite !contains_range_spec, andb_true_iff, !Z.ltb_lt, !Forall_cons, forallb_forall, negb_true_iff.
  rewrite is_empty_false. split.
  - intros ([Ht Hz] & ? & ? & (? & ? & ? & ?) & ? & ?). split; try done. split.
    + intros E. rewrite E in Ht. done.
    + apply Forall_forall. intros t Hin%list_elem_of_In. apply Hz in Hin. lia.
  - intros [[Ht Hz]]. split_and!; try done; try lia.
    + destruct (k_tables k); [done|]. rewrite len_cons. pose proof (len_nonneg l). lia.
    + intros t Hin%list_elem_of_In. rewrite Forall_forall in Hz. specialize (Hz t Hin). lia.
Qed.

Lemma validate_config_ok self : validate self = Ok tt <-> config_ok self.
Proof.
  unfold validate.
  rewrite !ensure_bind_ok, unit_bind_ok, !ensure_bind_ok, unit_bind_ok, timeouts_ok,
    validate_acls_ok.
  rewrite !andb_true_iff, !negb_true_iff, !Z.eqb_neq.
  pose proof (kernel_checks_spec (c_kernel self)) as Hk.
  rewrite andb_true_iff, negb_true_iff in Hk.
  split.
  - intros (? & ? & ? & Hr & ? & Hp & ? & ? & ? & ? & ? & ? & ? & Hl).
    apply bind_ok_inv in Hl as (eps & Hl & _).
    destruct (validate_peers_ok _ _ _ _ Hl) as (? & ? & _).
    unfold valid_router_id, v4_is_unspecified in Hr.
    split; try done; [lia| |by apply Hk].
    intros E. by rewrite E in Hp.
  - intros [? ? ? ? ? Hp Hkok ? ? ?]. apply Hk in Hkok as (? & ? & ? & ? & ? & ?).
    destruct (validate_peers_complete self ∅ (c_peers self)) as [eps Heps]; [done|done| |].
    { apply Forall_forall. intros p _. apply not_elem_of_empty. }
    rewrite Heps. split_and!; try done; try tauto.
    + unfold valid_router_id, v4_is_unspecified. lia.
    + by destruct (c_peers self).
Qed.

(** [C33] Validation accepts exactly the configurations that satisfy the
    declarative well-formedness predicate [config_ok]: every guard of
    [Config::validate] is necessary and together they are sufficient. *)
Theorem validate_spec self : validate self = Ok tt <-> config_ok self.
Proof. exact (validate_config_ok self). Qed.

(** The first-match reading of an ACL. *)
Lemma find_first_match (f : Rule -> bool) l r :
  List.find f l = Some r <->
  exists l1 l2, l = l1 ++ r :: l2 /\ Forall (fun x => f x = false) l1 /\ f r = true.
Proof.
  induction l as [|x l IH]; simpl.
  { split; [done|]. by intros ([|] & ? & ? & _). }
  destruct (f x) eqn:E.
  - split.
    + intros [= ->]. exists [], l. by repeat constructor.
    + intros (l1 & l2 & Heq & Hall & Hr). destruct l1 as [|y l1]; simplify_eq/=; [done|].
      apply Forall_cons in Hall as [? _]. congruence.
  - rewrite IH. split.
    + intros (l1 & l2 & -> & Hall & Hr). exists (x :: l1), l2. by repeat constructor.
    + intros (l1 & l2 & Heq & Hall & Hr). destruct l1 as [|y l1]; simplify_eq/=; [congruence|].
      apply Forall_cons in Hall as [_ ?]. by exists l1, l2.
Qed.

(** First match wins with implicit deny: a prefix is permitted exactly when
    some rule matches it, no earlier rule does, and that rule's action is
    [Permit]. *)
Theorem permits_first_match acl prefix :
  permits acl prefix = true <->
  exists l1 r l2, rules acl = l1 ++ r :: l2 /\
    Forall (fun x => rule_matches x prefix = false) l1 /\
    rule_matches r prefix = true /\ r_action r = Permit.
Proof.
  unfold permits. rewrite is_some_and_true. split.
  - intros (r & (l1 & l2 & ? & ? & ?)%find_first_match & ?%bool_decide_eq_true). eauto 10.
  - intros (l1 & r & l2 & ? & ? & ? & ?). exists r. rewrite bool_decide_eq_true.
    split; [|done]. apply find_first_match. eauto.
Qed.

Lemma contains_same_len a b :
  ipnet_prefix_len a = ipnet_prefix_len b ->
  (ipnet_contains a b = true <-> ipnet_network a = ipnet_network b).
Proof.
  intros Hl. rewrite ipnet_contains_spec. unfold net_hi, net_lo, same_family.
  pose proof (ipnet_prefix_len_ok a). pose proof (ipnet_prefix_len_ok b).
  rewrite !ipnet_network_spec, !mask_addr_value, Hl.
  destruct (ipnet_addr a), (ipnet_addr b); simpl in *;
    (split; [intros (? & ? & ?)|intros [= ->]]); try done; try (f_equal; lia).
  all: split_and!; [done|lia|lia].
Qed.

(** A validated rule without a length range matches its own prefix and
    nothing else: permitting a parent network does not permit its
    more-specifics, and a default route has to be listed itself. *)
Theorem exact_rule_matches_only_itself r prefix :
  validate_rule r = Ok tt -> r_min_length r = None -> r_max_length r = None ->
  (rule_matches r prefix = true <-> ipnet_trunc prefix = r_prefix r).
Proof.
  intros [Hb _ _]%validate_rule_ok Hmin Hmax.
  unfold rule_matches. rewrite Hmin, Hmax, !andb_true_iff. simpl. split.
  - intros ((Hc & ?) & ?). assert (Hl : ipnet_prefix_len (r_prefix r) = ipnet_prefix_len prefix) by lia.
    rewrite (contains_same_len _ _ Hl) in Hc. rewrite <- Hb.
    apply ipnet_ext; rewrite ?ipnet_trunc_addr, ?ipnet_trunc_len; congruence.
  - intros <-. rewrite ipnet_trunc_len, contains_same_len by apply ipnet_trunc_len.
    rewrite network_trunc. split; [split; [done|]|]; lia.
Qed.

(** ** Loading and error locations *)
Lemma rposition_spec b :
  match rposition_newline b with
  | Some i => exists pre last, b = pre ++ 10 :: last /\ i = len pre /\ 10 ∉ last
  | None => 10 ∉ b
  end.
Proof.
  induction b as [|c b IH]; simpl; [apply not_elem_of_nil|].
  destruct (rposition_newline b) as [i|].
  - destruct IH as (pre & last & -> & -> & Hl). exists (c :: pre), last. by rewrite len_cons.
  - destruct (Z.eqb_spec c 10) as [->|Hc].
    + by exists [], b.
    + by apply not_elem_of_cons.
Qed.

Lemma count_newlines_app b1 b2 :
  count_newlines (b1 ++ b2) = count_newlines b1 + count_newlines b2.
Proof. unfold count_newlines. by rewrite List.filter_app, len_app. Qed.

Lemma count_newlines_none b : 10 ∉ b -> count_newlines b = 0.
Proof.
  induction b as [|c b IH]; [done|]. intros [Hc Hb]%not_elem_of_cons.
  unfold count_newlines in *. simpl. destruct (Z.eqb_spec c 10); [congruence|by apply IH].
Qed.

(** Where a TOML error is: the start of its span, if it has one. *)
Definition span_start (e : TomlError) : Z := match te_span e with Some span => span.1 | None => 0 end.

(** The location of a TOML error is the 1-based line and column of the
    error's span start: the text before it splits into complete lines, one per
    line number, and the columns of the current line; computing it never
    panics. *)
Theorem parse_error_location (toml : list Z -> Config + TomlError) text error start :
  toml text = inr error -> start = span_start error -> 0 <= start <= len text ->
  exists pre last,
    take (Z.to_nat start) text = pre ++ last /\
    (pre = [] \/ exists pre', pre = pre' ++ [10]) /\ 10 ∉ last /\
    parse toml text = Err (EMessage parse_message [count_newlines pre + 1; len last + 1]).
Proof.
  intros Ht -> Hs. unfold parse. rewrite Ht. unfold parse_error, slice_to. fold (span_start error).
  rewrite Z.min_l, slice_ok by lia. simpl. rewrite Z.sub_0_r, drop_0.
  set (before := take _ text).
  assert (Hlen : len before = span_start error) by (by apply len_take).
  pose proof (rposition_spec before) as Hr. destruct (rposition_newline before) as [n|].
  - destruct Hr as (pre & last & Hb & -> & Hl). exists (pre ++ [10]), last.
    rewrite <- app_assoc. split_and!; [done|eauto|done|].
    rewrite Hb, cons_middle, app_assoc, count_newlines_app, (count_newlines_none last) by done.
    rewrite Z.add_0_r. rewrite Hb in Hlen. autorewrite with rust in Hlen.
    repeat f_equal. lia.
  - exists [], before. split_and!; [done|by left|done|].
    rewrite count_newlines_none by done. by rewrite Hlen.
Qed.

(** Texts that a reader of line numbers cannot tell apart. *)
Definition same_lines (t1 t2 : list Z) : Prop :=
  map (fun c => c =? 10) t1 = map (fun c => c =? 10) t2.

Lemma same_lines_count t1 t2 : same_lines t1 t2 -> count_newlines t1 = count_newlines t2.
Proof.
  unfold same_lines, count_newlines. revert t2.
  induction t1 as [|c1 t1 IH]; intros [|c2 t2] E; simplify_eq/=; [done|].
  specialize (IH _ H0). by destruct (c1 =? 10), (c2 =? 10); simplify_eq; rewrite ?len_cons, ?IH.
Qed.

Lemma same_lines_rposition t1 t2 :
  same_lines t1 t2 -> rposition_newline t1 = rposition_newline t2.
Proof.
  unfold same_lines. revert t2.
  induction t1 as [|c1 t1 IH]; intros [|c2 t2] E; simplify_eq/=; [done|].
  by rewrite (IH _ H0), H.
Qed.

Lemma same_lines_take n t1 t2 : same_lines t1 t2 -> same_lines (take n t1) (take n t2).
Proof. unfold same_lines. intros E. by rewrite <- !firstn_map, E. Qed.

(** [C34] A rejected configuration text leaks nothing but line structure. Whatever the
    TOML parser says about it in its message and its rendering of the source, the error
    of [parse], and so that of [load], is one fixed text with a line and a column; and
    two texts with newlines at the same places, rejected at the same place, give the
    same error, whatever their other bytes (keys included) and the parser's messages. *)
Theorem parse_error_redacts (toml : list Z -> Config + TomlError) t1 t2 e1 e2 :
  toml t1 = inr e1 -> toml t2 = inr e2 -> 0 <= span_start e1 -> span_start e1 = span_start e2 -> same_lines t1 t2 ->
  exists line column,
    let e := EMessage "parsing configuration at line {line}, column {column}: check TOML syntax, field names and types (source omitted to protect secrets)" [line; column] in
    parse toml t1 = Err e /\ parse toml t2 = Err e /\ load toml (Ok t1) = Err e /\ load toml (Ok t2) = Err e.
Proof.
  intros H1 H2 Hpos Hstart Hs.
  assert (Hl : len t1 = len t2).
  { unfold len. apply (f_equal length) in Hs. rewrite !length_map in Hs. by rewrite Hs. }
  assert (E : parse toml t1 = parse toml t2).
  { unfold parse. rewrite H1, H2. unfold parse_error, slice_to, slice. fold (span_start e1) (span_start e2).
    rewrite Hstart, Hl, !drop_0. destruct (_ && _); [|done]. simpl.
    set (n := Z.to_nat _). pose proof (same_lines_take n _ _ Hs) as Ht.
    by rewrite (same_lines_count _ _ Ht), (same_lines_rposition _ _ Ht). }
  assert (Hv : exists line column, parse toml t1 = Err (EMessage parse_message [line; column])).
  { unfold parse. rewrite H1. unfold parse_error, slice_to. fold (span_start e1). pose proof (len_nonneg t1).
    rewrite slice_ok by lia. cbn [mbind res_bind]. by eexists _, _. }
  destruct Hv as (line & column & Hv). exists line, column. unfold load. rewrite <- E. cbn [mbind res_bind].
  rewrite <- E, Hv. by split_and!.
Qed.

Lemma load_ok toml read cfg :
  load toml read = Ok cfg <->
  exists text, read = Ok text /\ toml text = inl cfg /\ config_ok cfg.
Proof.
  unfold load. split.
  - intros (text & Hr & (c & Hp & [Hv%validate_config_ok Hc]%unit_bind_ok)%bind_ok_inv)%bind_ok_inv.
    unfold parse in Hp. destruct (toml text) eqn:E; simplify_eq; [by eexists|].
    revert Hp. unfold parse_error. by destruct (slice_to _ _).
  - intros (text & -> & Ht & Hv%validate_config_ok). simpl. unfold parse. rewrite Ht. simpl.
    by rewrite Hv.
Qed.

(** [load] returns a configuration only if the file was read and parsed to
    it and it satisfies [config_ok]. *)
Theorem load_returns_valid toml read cfg :
  load toml read = Ok cfg <->
  exists text, read = Ok text /\ toml text = inl cfg /\ config_ok cfg.
Proof. exact (load_ok toml read cfg). Qed.
End config_theorems.
