(* ===== verification/Text.v ===== *)
(** * Text: what the program uses of core::fmt and core::str

    Text is a list of bytes; Unicode text is a list of scalar values. *)
From S2P Require Import Prelude Net.

(** ** Strings *)
(** The bytes of a string literal. *)
Fixpoint ascii_bytes (s : string) : list Z :=
  match s with
  | EmptyString => []
  | String c s => Z.of_N (Ascii.N_of_ascii c) :: ascii_bytes s
  end.
(** Names in the configuration are strings. *)
Fixpoint bytes_string (l : list Z) : string :=
  match l with
  | [] => EmptyString
  | c :: l => String (Ascii.ascii_of_N (Z.to_N c)) (bytes_string l)
  end.
(** [str::chars]: UTF-8 decoding. [acc] is the scalar value so far, [need] the number of
    continuation bytes to come. *)
Fixpoint chars_from (acc need : Z) (l : list Z) : list Z :=
  match l with
  | [] => []
  | b :: l =>
      if 0 <? need then
        let acc := acc * 64 + b mod 64 in
        if need =? 1 then acc :: chars_from 0 0 l else chars_from acc (need - 1) l
      else if b <? 128 then b :: chars_from 0 0 l
      else if b <? 224 then chars_from (b mod 32) 1 l
      else if b <? 240 then chars_from (b mod 16) 2 l
      else chars_from (b mod 8) 3 l
  end.
Definition chars (s : string) : list Z := chars_from 0 0 (ascii_bytes s).

(** ** Numbers *)
(** The digits of [x], most significant first; a [u64] has at most 20 decimal digits. *)
Definition digit (d : Z) : Z := if d <? 10 then 48 + d else 87 + d.
Fixpoint digits (base : Z) (fuel : nat) (x : Z) : list Z :=
  match fuel with
  | O => []
  | S fuel => (if x <? base then [] else digits base fuel (x / base)) ++ [digit (x mod base)]
  end.
Definition dec (x : Z) : list Z := digits 10 20 x.
(** [{:x}] of a [u16]. *)
Definition hex (x : Z) : list Z := digits 16 4 x.
Definition display_bool (b : bool) : list Z := ascii_bytes (if b then "true" else "false").

(** [sep] between the elements. *)
Fixpoint join (sep : list Z) (l : list (list Z)) : list Z :=
  match l with
  | [] => []
  | [x] => x
  | x :: l => x ++ sep ++ join sep l
  end.
(** [{:?}] of a slice of integers. *)
Definition debug_list (l : list Z) : list Z := [91] ++ join [44; 32] (map dec l) ++ [93].

(** ** Addresses *)
Definition display_v4 (a : Z) : list Z := join [46] (map dec (octets4 a)).
Definition segments (a : Z) : list Z := map (fun i => a / 2 ^ (16 * i) mod 65536) [7; 6; 5; 4; 3; 2; 1; 0].
(** The first longest run of zero segments, as start and length; [i] is the position,
    [current] the run ending there. *)
Fixpoint zero_span (i : nat) (current longest : nat * nat) (l : list Z) : nat * nat :=
  match l with
  | [] => longest
  | s :: l =>
      if s =? 0 then
        let current := (if (current.2 =? 0)%nat then i else current.1, S current.2) in
        zero_span (S i) current (if (longest.2 <? current.2)%nat then current else longest) l
      else zero_span (S i) (0, 0)%nat longest l
  end.
Definition display_segments (l : list Z) : list Z := join [58] (map hex l).
(** [to_ipv4_mapped] *)
Definition is_v4_mapped (a : Z) : bool := a / 2 ^ 32 =? 65535.
Definition display_v6 (a : Z) : list Z :=
  if is_v4_mapped a then ascii_bytes "::ffff:" ++ display_v4 (a mod 2 ^ 32) else
  let '(start, n) := zero_span 0 (0, 0)%nat (0, 0)%nat (segments a) in
  if (1 <? n)%nat then
    display_segments (take start (segments a)) ++ [58; 58] ++ display_segments (drop (start + n) (segments a))
  else display_segments (segments a).
Definition display_ip (a : IpAddr) : list Z := match a with IpV4 x => display_v4 x | IpV6 x => display_v6 x end.

(** ** Protocol errors *)
(** The [Display] of [ProtocolError] (src/src/wire.rs). *)
Definition display_protocol (e : ProtocolError) : list Z :=
  ascii_bytes "BGP " ++ dec (pe_code e) ++ [46] ++ dec (pe_subcode e) ++ ascii_bytes ": " ++ ascii_bytes (pe_reason e).

(** ** Terminal-safe text *)
Definition clean_byte (c : Z) : Prop := 32 <= c <= 126.
Definition clean (l : list Z) : Prop := Forall clean_byte l.

Create HintDb clean.

(** * Theorems *)
Example display_ip_v4 : display_ip (IpV4 (ipv4_new 10 0 0 1)) = ascii_bytes "10.0.0.1".
Proof. reflexivity. Qed.
Example display_ip_v6 : display_ip (IpV6 (42540766411282592856903984951653826561)) = ascii_bytes "2001:db8::1".
Proof. vm_compute. reflexivity. Qed.
Example display_ip_zero : display_ip (IpV6 0) = ascii_bytes "::".
Proof. vm_compute. reflexivity. Qed.
Example dec_max : dec (2 ^ 64 - 1) = ascii_bytes "18446744073709551615".
Proof. vm_compute. reflexivity. Qed.
Example display_hold_timer :
  display_protocol (mkProtocolError 4 0 [] "hold timer expired") = ascii_bytes "BGP 4.0: hold timer expired".
Proof. reflexivity. Qed.
(** A two-byte and a three-byte character. *)
Example chars_utf8 : chars (bytes_string [97; 195; 169; 226; 130; 172]) = [97; 233; 8364].
Proof. vm_compute. reflexivity. Qed.

Lemma clean_app l1 l2 : clean l1 -> clean l2 -> clean (l1 ++ l2).
Proof. intros. by apply Forall_app. Qed.
Lemma clean_decide l : forallb (fun c => (32 <=? c) && (c <=? 126)) l = true -> clean l.
Proof.
  rewrite forallb_forall. intros H. apply Forall_forall. intros c Hc%list_elem_of_In.
  specialize (H c Hc). unfold clean_byte. lia.
Qed.
Lemma clean_join sep l : clean sep -> Forall clean l -> clean (join sep l).
Proof.
  intros Hs. induction 1 as [|x l Hx Hl IH]; [by apply Forall_nil|]. destruct l as [|y l]; [done|].
  apply clean_app; [done|by apply clean_app].
Qed.
Lemma clean_digits base fuel x : 2 <= base <= 16 -> clean (digits base fuel x).
Proof.
  intros Hb. revert x. induction fuel as [|fuel IH]; intros x; cbn [digits]; [by apply Forall_nil|].
  apply clean_app; [destruct (x <? base); [by apply Forall_nil|apply IH]|].
  pose proof (Z.mod_pos_bound x base). apply Forall_singleton. unfold clean_byte, digit.
  destruct (Z.ltb_spec (x mod base) 10); lia.
Qed.
Lemma clean_dec x : clean (dec x).
Proof. by apply clean_digits. Qed.
Lemma clean_hex x : clean (hex x).
Proof. by apply clean_digits. Qed.
Lemma clean_map {A} (f : A -> list Z) l : (forall x, clean (f x)) -> Forall clean (map f l).
Proof. intros H. apply Forall_map, Forall_forall. intros x _. apply H. Qed.
Lemma clean_v4 a : clean (display_v4 a).
Proof. apply clean_join; [by apply clean_decide|apply clean_map, clean_dec]. Qed.
Lemma clean_ip a : clean (display_ip a).
Proof.
  assert (Hs : forall l, clean (display_segments l)).
  { intros l. apply clean_join; [by apply clean_decide|apply clean_map, clean_hex]. }
  destruct a as [x|x]; [apply clean_v4|]. cbn [display_ip]. unfold display_v6. destruct (is_v4_mapped x).
  { apply clean_app; [by apply clean_decide|apply clean_v4]. }
  destruct (zero_span _ _ _ _) as [start n]. destruct (1 <? n)%nat; [|apply Hs].
  apply clean_app; [apply Hs|]. apply clean_app; [by apply clean_decide|apply Hs].
Qed.
Lemma clean_debug_list l : clean (debug_list l).
Proof.
  apply clean_app; [by apply clean_decide|]. apply clean_app; [|by apply clean_decide].
  apply clean_join; [by apply clean_decide|apply clean_map, clean_dec].
Qed.
Lemma clean_bool b : clean (display_bool b).
Proof. destruct b; by apply clean_decide. Qed.
#[export] Hint Resolve clean_app clean_dec clean_v4 clean_ip clean_debug_list clean_bool : clean.

(** Decimal numbers are printed without loss. *)
Lemma digits_value base fuel x acc :
  2 <= base <= 10 -> 0 <= x < base ^ Z.of_nat fuel ->
  fold_left (fun acc c => acc * base + (c - 48)) (digits base fuel x) acc =
    acc * base ^ len (digits base fuel x) + x.
Proof.
  intros Hb. revert x acc. induction fuel as [|fuel IH]; intros x acc Hx.
  { cbn in *. rewrite len_nil. lia. }
  cbn [digits]. pose proof (Z.mod_pos_bound x base). pose proof (Z.div_mod x base).
  rewrite fold_left_app, len_app. cbn [fold_left]. unfold digit. rewrite (ltb_true (x mod base)) by lia.
  change (len [48 + x mod base]) with 1.
  rewrite Z.pow_add_r by (try apply len_nonneg; lia). destruct (Z.ltb_spec x base).
  - cbn [fold_left]. rewrite len_nil, Z.mod_small by lia. lia.
  - rewrite IH; [nia|]. split; [apply Z.div_pos; lia|]. apply Z.div_lt_upper_bound; [lia|].
    replace (Z.of_nat (S fuel)) with (Z.of_nat fuel + 1) in Hx by lia. rewrite Z.pow_add_r in Hx by lia. lia.
Qed.
Lemma dec_value x : 0 <= x < 2 ^ 64 -> fold_left (fun acc c => acc * 10 + (c - 48)) (dec x) 0 = x.
Proof. intros Hx. unfold dec. rewrite digits_value; [lia|lia|]. simpl. lia. Qed.
Lemma dec_inj x y : 0 <= x < 2 ^ 64 -> 0 <= y < 2 ^ 64 -> dec x = dec y -> x = y.
Proof. intros Hx Hy E. rewrite <- (dec_value x), <- (dec_value y) by done. by rewrite E. Qed.
