(* ===== verification/Management.v ===== *)
(** * src/src/management.rs: peer status and the console's line reader

    [line] is the Telnet state machine that reads one command from the bytes a client
    sends. Text is a list of bytes; Unicode text is a list of scalar values. *)
From S2P Require Import Prelude Net Config.

(** ** Peer status *)
Inductive PeerState := Idle | Connect | OpenConfirmState | EstablishedState | Active.
#[export] Instance PeerState_eq_dec : EqDecision PeerState.
Proof. solve_decision. Defined.
Record PeerStatus := mkPeerStatus {
  ps_state : PeerState;
  ps_since : Z;
  ps_last_error : option error
}.

Definition update (now : Z) (st : PeerState) (e : option error) (status : PeerStatus) : PeerStatus := {|
  ps_state := st;
  ps_since := now;
  ps_last_error := match e with Some e => Some e | None => ps_last_error status end
|}.

(** ** Output filtering *)
(** [char::is_ascii] and [char::is_ascii_control]. *)
Definition is_ascii (c : Z) : bool := c <? 128.
Definition is_ascii_control (c : Z) : bool := (c <? 32) || (c =? 127).
Definition safe (text : list Z) : list Z :=
  map (fun c => if is_ascii c && negb (is_ascii_control c) then c else 63) text.

(** ** [line] *)
Record LineState := mkLineState {
  ls_bytes : list Z;
  ls_state : Z;
  ls_option : Z;
  ls_wire : Z
}.
Definition line_init : LineState := mkLineState [] 0 0 0.

(** What one byte leads to: go on, or return the line. *)
Inductive LineNext :=
| LContinue (s : LineState) (skip_lf : bool)
| LReturn (bytes : list Z) (skip_lf : bool).

(** [Vec::pop] *)
Definition pop (l : list Z) : list Z := removelast l.

(** The inner [match b] of the default state. *)
Definition line_data (s : LineState) (skip_lf : bool) (b : Z) : res LineNext :=
  let set_state st := mkLineState (ls_bytes s) st (ls_option s) (ls_wire s) in
  let set_bytes l := mkLineState l (ls_state s) (ls_option s) (ls_wire s) in
  if b =? 255 then Ok (LContinue (set_state 1) skip_lf)
  else if b =? 10 then Ok (LReturn (ls_bytes s) skip_lf)
  else if b =? 13 then Ok (LReturn (ls_bytes s) true)
  else if b =? 0 then Ok (LContinue s skip_lf)
  else if (b =? 8) || (b =? 127) then Ok (LContinue (set_bytes (pop (ls_bytes s))) skip_lf)
  else if contains_range 32 126 b || (b =? 9) then
    let bytes := ls_bytes s ++ [b] in
    if 512 <? len bytes then bail "CLI command too long"
    else Ok (LContinue (set_bytes bytes) skip_lf)
  else Ok (LContinue s skip_lf).

(** One iteration of the loop on the byte [b]: the bytes written to the client,
    and the result. The write may fail; [wrote] is its outcome. *)
Definition line_step (wrote : res unit) (s : LineState) (skip_lf : bool) (b : Z)
  : list Z * res LineNext :=
  if skip_lf && ((b =? 10) || (b =? 0)) then ([], Ok (LContinue s false)) else
  let skip_lf := false in
  let s := mkLineState (ls_bytes s) (ls_state s) (ls_option s) (ls_wire s + 1) in
  let set_state st := mkLineState (ls_bytes s) st (ls_option s) (ls_wire s) in
  if 8192 <? ls_wire s then ([], bail "CLI input limit exceeded") else
  if ls_state s =? 1 then
    ([], Ok (LContinue
       (if contains_range 251 254 b then mkLineState (ls_bytes s) 2 b (ls_wire s)
        else if b =? 250 then set_state 3 else set_state 0) skip_lf))
  else if ls_state s =? 2 then
    if ls_option s =? 251 then ([255; 254; b], _ ← wrote; Ok (LContinue (set_state 0) skip_lf))
    else if ls_option s =? 253 then ([255; 252; b], _ ← wrote; Ok (LContinue (set_state 0) skip_lf))
    else ([], Ok (LContinue (set_state 0) skip_lf))
  else if ls_state s =? 3 then
    ([], Ok (LContinue (if b =? 255 then set_state 4 else s) skip_lf))
  else if ls_state s =? 4 then
    ([], Ok (LContinue (if b =? 240 then set_state 0 else set_state 3) skip_lf))
  else ([], line_data s skip_lf b).

(** [String::from_utf8]; the bytes collected by [line] are ASCII. *)
Definition from_utf8_ascii (bytes : list Z) : res (list Z) :=
  if forallb is_ascii bytes then Ok bytes else bail "invalid utf-8".

(** The loop over the client's bytes, ending at end of file. The result is the
    replies written, the remaining input, and the line ([None] at end of file)
    with the new [skip_lf]. *)
Fixpoint line_loop (wrote : res unit) (input : list Z) (s : LineState) (skip_lf : bool)
  : list Z * (list Z * res (option (list Z) * bool)) :=
  match input with
  | [] => ([], ([], Ok (None, skip_lf)))
  | b :: input =>
      let '(out, r) := line_step wrote s skip_lf b in
      match r with
      | Ok (LContinue s skip_lf) =>
          let '(out', result) := line_loop wrote input s skip_lf in (out ++ out', result)
      | Ok (LReturn bytes skip_lf) =>
          (out, (input, text ← from_utf8_ascii bytes; Ok (Some text, skip_lf)))
      | Err e => (out, (input, Err e))
      | Panic => (out, (input, Panic))
      | Fuel => (out, (input, Fuel))
      end
  end.
Definition line (wrote : res unit) (input : list Z) (skip_lf : bool) :=
  line_loop wrote input line_init skip_lf.

(** ** Well-formedness *)
(** The text so far is printable ASCII of at most 512 bytes. *)
Record line_ok (s : LineState) : Prop := {
  line_text : Forall (fun b => 32 <= b <= 126 \/ b = 9) (ls_bytes s);
  line_len : len (ls_bytes s) <= 512;
  line_state : 0 <= ls_state s <= 4;
  line_wire : 0 <= ls_wire s <= 8192
}.

(** The refusals [line] sends: DONT and WONT of an option. *)
Inductive refusal : list Z -> Prop :=
| refuse_will b : refusal [255; 254; b]
| refuse_do b : refusal [255; 252; b].
(** Text that can be typed without editing. *)
Definition printable (b : Z) : Prop := 32 <= b <= 126 \/ b = 9.

(** * Theorems *)
Lemma safe_char c :
  32 <= (if is_ascii c && negb (is_ascii_control c) then c else 63) <= 126.
Proof. unfold is_ascii, is_ascii_control. destruct (_ && _) eqn:E; lia. Qed.

(** Whatever a peer or an error message contains, what the console prints of
    it is printable ASCII, character by character; printable text is unchanged,
    so filtering twice is filtering once. *)
Theorem safe_spec text :
  length (safe text) = length text /\ Forall (fun c => 32 <= c <= 126) (safe text) /\
  (Forall (fun c => 32 <= c <= 126) text -> safe text = text) /\ safe (safe text) = safe text.
Proof.
  assert (Hid : forall l, Forall (fun c => 32 <= c <= 126) l -> safe l = l).
  { induction 1 as [|c l Hc _ IH]; [done|]. unfold safe in *. simpl. rewrite IH.
    unfold is_ascii, is_ascii_control. by replace (_ && _) with true by lia. }
  assert (Hp : Forall (fun c => 32 <= c <= 126) (safe text)).
  { apply Forall_forall. intros c (c' & -> & _)%list_elem_of_fmap. apply safe_char. }
  split_and!; [apply length_map|done|apply Hid|by apply Hid].
Qed.

(** ** The line reader *)
Lemma removelast_Forall {A} (P : A -> Prop) l : Forall P l -> Forall P (removelast l).
Proof.
  induction 1 as [|x l Hx Hl IH]; [done|]. simpl. destruct l; [done|]. by constructor.
Qed.
Lemma len_removelast {A} (l : list A) : len (removelast l) <= len l.
Proof.
  induction l as [|x l IH]; [done|]. cbn [removelast]. rewrite len_cons. destruct l as [|y l].
  - rewrite !len_nil. lia.
  - rewrite len_cons. lia.
Qed.

Lemma line_init_ok : line_ok line_init.
Proof. split; simpl; try done; by apply Forall_nil. Qed.

(** The result of one byte keeps the bounds. *)
Definition line_next_ok (r : LineNext) : Prop :=
  match r with
  | LContinue s _ => line_ok s
  | LReturn bytes _ => Forall printable bytes /\ len bytes <= 512
  end.

Lemma line_data_ok s skip b :
  line_ok s -> wp (line_data s skip b) line_next_ok (fun e => e = EMessage "CLI command too long" []).
Proof.
  intros [Ht Hl Hs Hw]. unfold line_data.
  destruct (b =? 255) eqn:?; [by split; simpl; try lia|].
  destruct (b =? 10) eqn:?; [by split|]. destruct (b =? 13) eqn:?; [by split|].
  destruct (b =? 0) eqn:?; [by split|].
  destruct ((b =? 8) || (b =? 127)) eqn:?.
  { split; simpl; [by apply removelast_Forall| |done|done].
    pose proof (len_removelast (ls_bytes s)). unfold pop. lia. }
  destruct (contains_range 32 126 b || (b =? 9)) eqn:Hp; [|by split].
  destruct (512 <? _) eqn:Hlong; [done|]. split; simpl; try done; [|lia].
  apply Forall_app. split; [done|]. apply Forall_singleton. unfold contains_range in Hp. lia.
Qed.

Definition line_error (wrote : res unit) (e : error) : Prop :=
  e = EMessage "CLI command too long" [] \/ e = EMessage "CLI input limit exceeded" [] \/ wrote = Err e.

Lemma line_step_ok wrote s skip b :
  line_ok s -> wrote = Ok tt \/ (exists e, wrote = Err e) ->
  wp (line_step wrote s skip b).2 line_next_ok (line_error wrote) /\
  ((line_step wrote s skip b).1 = [] \/ refusal (line_step wrote s skip b).1).
Proof.
  intros [Ht Hl Hs Hw] Hwrote. unfold line_step.
  destruct (skip && _); [by split; [|left]|]. cbn [ls_wire ls_state ls_bytes ls_option].
  destruct (Z.ltb_spec 8192 (ls_wire s + 1)); [split; [right|]; by left|].
  assert (Hok : forall bytes st o, Forall printable bytes -> len bytes <= 512 -> 0 <= st <= 4 ->
            line_ok (mkLineState bytes st o (ls_wire s + 1))) by (intros; split; simpl; done || lia).
  destruct (ls_state s =? 1).
  { split; [|by left]. cbn [snd wp line_next_ok].
    destruct (contains_range 251 254 b); [|destruct (b =? 250)]; apply Hok; done || lia. }
  destruct (ls_state s =? 2).
  { destruct (ls_option s =? 251); [|destruct (ls_option s =? 253)]; cbn [fst snd].
    - split; [|right; constructor]. destruct Hwrote as [->|[e ->]]; [by apply Hok|by right; right].
    - split; [|right; constructor]. destruct Hwrote as [->|[e ->]]; [by apply Hok|by right; right].
    - split; [by apply Hok|by left]. }
  destruct (ls_state s =? 3).
  { split; [|by left]. cbn [snd wp line_next_ok]. destruct (b =? 255); by apply Hok. }
  destruct (ls_state s =? 4).
  { split; [|by left]. cbn [snd wp line_next_ok]. destruct (b =? 240); by apply Hok. }
  cbn [fst snd]. split; [|by left]. eapply wp_mono; [apply line_data_ok; by apply Hok|done|].
  by left.
Qed.

Lemma from_utf8_printable bytes : Forall printable bytes -> from_utf8_ascii bytes = Ok bytes.
Proof.
  intros Hb. unfold from_utf8_ascii. replace (forallb is_ascii bytes) with true; [done|].
  symmetry. apply forallb_forall. intros x Hx%list_elem_of_In. rewrite Forall_forall in Hb.
  specialize (Hb x Hx). unfold is_ascii, printable in *. lia.
Qed.

Lemma line_loop_ok wrote input s skip :
  line_ok s -> wrote = Ok tt \/ (exists e, wrote = Err e) ->
  (exists replies, (line_loop wrote input s skip).1 = concat replies /\ Forall refusal replies) /\
  wp (line_loop wrote input s skip).2.2
    (fun r => forall text, r.1 = Some text -> Forall printable text /\ len text <= 512) (line_error wrote).
Proof.
  intros Hs Hw. revert s skip Hs. induction input as [|b input IH]; intros s skip Hs; simpl.
  { split; [by exists []|done]. }
  destruct (line_step_ok wrote s skip b Hs Hw) as [Hwp Hout].
  assert (Hone : forall l, l = [] \/ refusal l -> exists replies, l = concat replies /\ Forall refusal replies).
  { intros l [->|Hl]; [by exists []|]. exists [l]. simpl. rewrite app_nil_r.
    split; [done|by apply Forall_singleton]. }
  destruct (line_step wrote s skip b) as [out r]. cbn [fst snd] in *.
  destruct r as [[s' skip'|bytes skip']|e| |]; cbn [wp line_next_ok] in Hwp; try done.
  - destruct (IH s' skip' Hwp) as [(replies & E & Hr) Hres].
    destruct (line_loop wrote input s' skip') as [out' result]. cbn [fst snd] in *. split; [|done].
    destruct (Hone out Hout) as (r0 & -> & Hr0). exists (r0 ++ replies).
    rewrite concat_app, E. split; [done|by apply Forall_app].
  - cbn [fst snd]. split; [by apply Hone|]. destruct Hwp as [Hp Hl].
    rewrite from_utf8_printable by done. cbn. by intros text [= <-].
  - cbn [fst snd]. split; [by apply Hone|done].
Qed.

(** Reading a command from any client is safe and bounded: it never panics,
    every line returned is printable ASCII (and TAB) of at most 512 bytes, so the
    UTF-8 check never fails; the only errors are the two length limits and a
    failed write; and everything written meanwhile is a sequence of Telnet
    refusals. *)
Theorem line_bounded wrote input skip_lf :
  wrote = Ok tt \/ (exists e, wrote = Err e) ->
  (exists replies, (line wrote input skip_lf).1 = concat replies /\ Forall refusal replies) /\
  wp (line wrote input skip_lf).2.2
    (fun r => forall text, r.1 = Some text -> Forall printable text /\ len text <= 512) (line_error wrote).
Proof. intros Hw. apply line_loop_ok; [apply line_init_ok|done]. Qed.

(** ** Telnet and line endings *)
Lemma line_loop_refusals wrote rs s skip :
  Forall refusal rs -> ls_state s = 0 -> (line_loop wrote (concat rs) s skip).1 = [].
Proof.
  intros Hrs. revert s skip. induction Hrs as [|r rs Hr _ IH]; intros s skip Hs; [done|].
  assert (Hstep : forall o b, o = 252 \/ o = 254 ->
            (line_loop wrote ([255; o; b] ++ concat rs) s skip).1 = []).
  { intros o b Ho. cbn [app line_loop]. unfold line_step at 1. rewrite andb_false_r.
    cbn [ls_wire ls_state ls_bytes ls_option]. destruct (8192 <? _); [done|]. rewrite Hs.
    cbn [Z.eqb Pos.eqb line_data ls_state ls_bytes ls_option ls_wire].
    unfold line_step at 1. cbn [andb ls_wire ls_state ls_bytes ls_option].
    destruct (8192 <? _); [done|]. cbn [Z.eqb Pos.eqb].
    replace (contains_range 251 254 o) with true by (by destruct Ho as [->| ->]).
    unfold line_step at 1. cbn [andb ls_wire ls_state ls_bytes ls_option].
    destruct (8192 <? _); [done|]. cbn [Z.eqb Pos.eqb].
    rewrite (eqb_false o 251), (eqb_false o 253) by lia.
    pose proof (IH (mkLineState (ls_bytes s) 0 o (ls_wire s + 1 + 1 + 1)) false eq_refl) as E.
    destruct (line_loop wrote (concat rs) _ false) as [out res]. exact E. }
  destruct Hr as [b|b]; apply Hstep; auto.
Qed.

(** Refusals are never answered: input made of the DONT and WONT replies this
    console itself sends draws no reply, so two consoles cannot loop. *)
Theorem line_no_negotiation_loop wrote rs skip_lf :
  Forall refusal rs -> (line wrote (concat rs) skip_lf).1 = [].
Proof. intros Hrs. by apply line_loop_refusals. Qed.

Lemma line_step_printable wrote s skip b :
  ls_state s = 0 -> printable b -> ls_wire s < 8192 -> len (ls_bytes s) < 512 ->
  line_step wrote s skip b =
    ([], Ok (LContinue (mkLineState (ls_bytes s ++ [b]) 0 (ls_option s) (ls_wire s + 1)) false)).
Proof.
  intros Hs Hb Hw Hl. unfold line_step, printable in *.
  replace (skip && ((b =? 10) || (b =? 0))) with false by lia.
  cbn [ls_wire ls_state ls_bytes ls_option]. rewrite (ltb_false 8192), Hs by lia.
  cbn [Z.eqb Pos.eqb]. unfold line_data. cbn [ls_wire ls_state ls_bytes ls_option].
  rewrite (eqb_false b 255), (eqb_false b 10), (eqb_false b 13), (eqb_false b 0) by lia.
  replace ((b =? 8) || (b =? 127)) with false by lia.
  replace (contains_range 32 126 b || (b =? 9)) with true by (unfold contains_range; lia).
  rewrite ltb_false by (rewrite len_app; change (len [b]) with 1; lia). done.
Qed.

Lemma line_loop_printable wrote text rest s skip :
  Forall printable text -> ls_state s = 0 -> len (ls_bytes s) + len text <= 512 ->
  ls_wire s + len text <= 8192 -> text <> [] ->
  line_loop wrote (text ++ rest) s skip =
    line_loop wrote rest (mkLineState (ls_bytes s ++ text) 0 (ls_option s) (ls_wire s + len text)) false.
Proof.
  intros Ht. revert s skip. induction Ht as [|b text Hb Ht IH]; intros s skip Hs Hl Hw Hne; [done|]; clear Hne.
  rewrite len_cons in *. pose proof (len_nonneg text). pose proof (len_nonneg (ls_bytes s)).
  rewrite <- app_comm_cons. cbn [line_loop].
  rewrite line_step_printable by (done || lia).
  destruct text as [|b' text].
  - rewrite (@len_nil Z), app_nil_l, !Z.add_0_r. by destruct (line_loop _ rest _ _).
  - rewrite IH; cbn [ls_state ls_bytes ls_wire ls_option]; rewrite ?len_app; try done;
      try (change (len [b]) with 1; lia).
    rewrite <- app_assoc, Z.add_assoc. by destruct (line_loop _ rest _ _).
Qed.

Lemma line_loop_cr wrote bytes o w rest skip :
  Forall printable bytes -> w < 8192 ->
  line_loop wrote (13 :: rest) (mkLineState bytes 0 o w) skip = ([], (rest, Ok (Some bytes, true))).
Proof.
  intros Hb Hw. cbn [line_loop]. unfold line_step. rewrite andb_false_r.
  cbn [ls_wire ls_state ls_bytes ls_option]. rewrite (ltb_false 8192) by lia.
  cbn [Z.eqb Pos.eqb line_data ls_bytes]. by rewrite from_utf8_printable.
Qed.

(** A typed command is read back: printable text of at most 512 bytes ended by
    CR, CR LF or CR NUL is returned unchanged without any reply, whatever line
    ending came before, and the LF or NUL after the CR is dropped from the next
    command. *)
Theorem line_reads_command wrote text rest skip_lf :
  Forall printable text -> len text <= 512 ->
  line wrote (text ++ 13 :: rest) skip_lf = ([], (rest, Ok (Some text, true))) /\
  line wrote (10 :: rest) true = line wrote rest false /\
  line wrote (0 :: rest) true = line wrote rest false.
Proof.
  intros Ht Hl. split_and!.
  - unfold line. destruct text as [|b text]; [by apply line_loop_cr|].
    rewrite (line_loop_printable _ (b :: text)); try done; simpl ls_bytes; simpl ls_wire;
      rewrite ?len_nil; try lia.
    apply line_loop_cr; [done|lia].
  - unfold line. cbn [line_loop]. change (line_step wrote line_init true 10) with (@nil Z, Ok (LContinue line_init false)).
    cbv iota beta. by destruct (line_loop _ rest _ _).
  - unfold line. cbn [line_loop]. change (line_step wrote line_init true 0) with (@nil Z, Ok (LContinue line_init false)).
    cbv iota beta. by destruct (line_loop _ rest _ _).
Qed.
