(* ===== verification/Console.v ===== *)
(** * src/src/management.rs [console], [run], [bind]: the management console

    A console session is a function of what its client sends: it reads a command with
    [Management.line], writes the response chunk by chunk, and prompts. Each command has
    its environment: the bytes received for it, the statuses and exports at that time,
    the outcome of each write, whether the five minutes pass. *)
From S2P Require Import Prelude Net Config Text Management.

(** ** Commands *)
(** [split_whitespace] on ASCII text. *)
Definition is_ascii_space (c : Z) : bool := (c =? 32) || contains_range 9 13 c.
Fixpoint split_whitespace_from (word : list Z) (text : list Z) : list (list Z) :=
  match text with
  | [] => if is_empty word then [] else [word]
  | c :: text =>
      if is_ascii_space c
      then (if is_empty word then [] else [word]) ++ split_whitespace_from [] text
      else split_whitespace_from (word ++ [c]) text
  end.
Definition split_whitespace (text : list Z) : list (list Z) := split_whitespace_from [] text.

Section console.
Context {api : IpNetApi}.
(** Parameters: the orders in which a set and the map of ACLs are visited, ipnet's
    [FromStr] and [Display], and the text of an error that is not a [ProtocolError]. *)
Context (order : Prefixes -> list IpNet) (acl_names : gmap string Acl -> list string).
Context (parse_prefix : list Z -> option IpNet) (display_net : IpNet -> list Z).
Context (display_message : string -> list Z -> list Z).
Definition display_error (e : error) : list Z :=
  match e with EProtocol e => display_protocol e | EMessage template args => display_message template args end.

(** One line of [show peers]. *)
Record PeerRow := mkRow {
  row_address : IpAddr;
  row_interface : string;
  row_asn : Z;
  row_state : PeerState;
  row_age : Z;
  row_md5 : bool;
  row_error : option error
}.
(** What is written before the final prompt. *)
Inductive Response :=
| RBye
| RNothing
| RHelp
| RSummary (established : Z) (counts : list (string * Z))
| RPeers (rows : list PeerRow)
| RInvalidPrefix
| RUnknownAcl
| RRoutes (shown : list IpNet) (total : Z)
| RNoCandidates
| RUnknown.

Definition routes_response (cfg : Config) (snapshot : Exports) (acl : list Z) (filter : option IpNet) : Response :=
  if negb (is_some (c_acls cfg !! bytes_string acl)) then RUnknownAcl else
  match snapshot !! bytes_string acl with
  | Some routes =>
      let selected := match filter with
                      | Some prefix => if bool_decide (prefix ∈ routes) then [prefix] else []
                      | None => take 100 (order routes)
                      end in
      RRoutes selected (Z.of_nat (size routes))
  | None => RNoCandidates
  end.
Definition peer_row (now : Z) (ps : Peer * PeerStatus) : PeerRow :=
  let '(peer, status) := ps in
  mkRow (p_address peer) (p_interface peer) (p_remote_asn peer) (ps_state status)
    ((now - ps_since status) / 1000) (is_some (p_md5_password peer)) (ps_last_error status).
Definition console_command (cfg : Config) (now : Z) (statuses : list PeerStatus) (snapshot : Exports)
    (args : list (list Z)) : Response :=
  let eqw arg word := bool_decide (arg = ascii_bytes word) in
  match args with
  | [] => RNothing
  | [a] =>
      if eqw a "quit" || eqw a "exit" then RBye
      else if eqw a "help" || eqw a "?" then RHelp
      else RUnknown
  | a :: b :: rest =>
      if eqw a "show" then
        match rest with
        | [] =>
            if eqw b "summary" then
              RSummary (len (List.filter (fun s => bool_decide (ps_state s = EstablishedState)) statuses))
                (map (fun name => (name, match snapshot !! name with Some r => Z.of_nat (size r) | None => 0 end))
                   (acl_names (c_acls cfg)))
            else if eqw b "peers" then RPeers (map (peer_row now) (zip (c_peers cfg) statuses))
            else RUnknown
        | acl :: rest =>
            if eqw b "routes" then
              match rest with
              | [] => routes_response cfg snapshot acl None
              | [prefix] =>
                  match parse_prefix prefix with
                  | Some prefix => routes_response cfg snapshot acl (Some prefix)
                  | None => RInvalidPrefix
                  end
              | _ => RUnknown
              end
            else RUnknown
        end
      else RUnknown
  end.

(** ** Rendering: the chunks of each response, one per [write] *)
Definition crlf : list Z := [13; 10].
Definition text_line (s : string) : list Z := ascii_bytes s ++ crlf.
Definition prompt : list Z := ascii_bytes "ubgp> ".
Definition banner : list Z :=
  text_line "ubgp read-only management CLI" ++ text_line "Type help for commands." ++ prompt.
Definition HELP : list Z :=
  text_line "help                       Show commands" ++
  text_line "show summary               Router and session summary" ++
  text_line "show peers                 Peer state, state age and last error" ++
  text_line "show routes ACL [PREFIX]    ACL export candidates (maximum 100; not advertised RIB)" ++
  text_line "quit / exit                Close console".
Definition state_name (st : PeerState) : string :=
  match st with
  | Idle => "Idle"
  | Connect => "Connect"
  | OpenConfirmState => "OpenConfirm"
  | EstablishedState => "Established"
  | Active => "Active"
  end.
Definition summary_text (cfg : Config) (established : Z) : list Z :=
  ascii_bytes "Router ID " ++ display_v4 (c_router_id cfg) ++ ascii_bytes "  AS " ++ dec (c_asn cfg) ++
  ascii_bytes "  IPv6 " ++ display_bool (c_ipv6 cfg) ++ crlf ++
  ascii_bytes "Peers " ++ dec (len (c_peers cfg)) ++ ascii_bytes "  Established " ++ dec established ++ crlf ++
  ascii_bytes "Selected tables " ++ debug_list (k_tables (c_kernel cfg)) ++ crlf ++
  ascii_bytes "ACLs: " ++ dec (Z.of_nat (size (c_acls cfg))) ++ crlf.
Definition count_text (count : string * Z) : list Z :=
  ascii_bytes "  " ++ safe (chars count.1) ++ ascii_bytes ": " ++ dec count.2 ++ text_line " export candidates".
Definition row_text (row : PeerRow) : list Z :=
  display_ip (row_address row) ++ ascii_bytes " / " ++ safe (chars (row_interface row)) ++ ascii_bytes "  " ++
  dec (row_asn row) ++ ascii_bytes "  " ++ ascii_bytes (state_name (row_state row)) ++ ascii_bytes "  " ++
  dec (row_age row) ++ ascii_bytes "  " ++ display_bool (row_md5 row) ++ ascii_bytes "  " ++
  safe (match row_error row with Some e => display_error e | None => [45] end) ++ crlf.
Definition render (cfg : Config) (r : Response) : list (list Z) :=
  match r with
  | RBye => [text_line "Bye"]
  | RNothing => []
  | RHelp => [HELP]
  | RSummary established counts => summary_text cfg established :: map count_text counts
  | RPeers rows =>
      text_line "Peer / interface  Remote-AS  State  Age(s)  MD5  Last error" :: map row_text rows
  | RInvalidPrefix => [text_line "Invalid prefix" ++ prompt]
  | RUnknownAcl => [text_line "Unknown ACL; use show summary"]
  | RRoutes shown total =>
      [text_line "ACL export candidates; not confirmation of peer advertisement."] ++
      map (fun route => display_net route ++ crlf) shown ++
      [ascii_bytes "Shown " ++ dec (len shown) ++ ascii_bytes "; ACL total " ++ dec total ++
       text_line " (unordered, limit 100)"]
  | RNoCandidates => [text_line "No export candidates available"]
  | RUnknown => [text_line "Unknown command; type help"]
  end.
(** The prompt at the end of the loop, which "quit" and the [continue] of an invalid
    prefix skip. *)
Definition final_prompt (r : Response) : list (list Z) :=
  match r with RBye | RInvalidPrefix => [] | _ => [prompt] end.

(** ** A session *)
Record CommandEnv := mkCommand {
  ce_input : list Z;
  ce_timeout : bool;
  ce_refused : res unit;
  ce_now : Z;
  ce_statuses : list PeerStatus;
  ce_snapshot : Exports;
  ce_written : nat -> res unit
}.
(** One [write] per chunk; the first failure ends the session. *)
Fixpoint write_chunks (written : nat -> res unit) (chunks : list (list Z)) : Out (list Z) unit :=
  match chunks with
  | [] => out_ret (Ok tt)
  | chunk :: chunks => _ <~ ([chunk], written 0%nat); write_chunks (fun i => written (S i)) chunks
  end.
(** The loop: [input] is left from earlier commands, [None] means it still waits for
    the next one, [Some tt] that the session ended well. When the input ends before a
    line does, the client closed the connection or the five minutes passed. *)
Fixpoint console_loop (cfg : Config) (cmds : list CommandEnv) (input : list Z) (skip_lf : bool)
  : Out (list Z) (option unit) :=
  match cmds with
  | [] => out_ret (Ok None)
  | env :: cmds =>
      let '(replies, (rest, r)) := line (ce_refused env) (input ++ ce_input env) skip_lf in
      _ <~ (if is_empty replies then [] else [replies], Ok tt);
      r <~ out_ret r;
      match r with
      | (None, _) => out_ret (if ce_timeout env then bail "CLI input timeout" else Ok (Some tt))
      | (Some text, skip_lf) =>
          let response :=
            console_command cfg (ce_now env) (ce_statuses env) (ce_snapshot env) (split_whitespace text) in
          _ <~ write_chunks (ce_written env) (render cfg response ++ final_prompt response);
          match response with
          | RBye => out_ret (Ok (Some tt))
          | _ => console_loop cfg cmds rest skip_lf
          end
      end
  end.
Definition console (cfg : Config) (greeted : res unit) (cmds : list CommandEnv) : Out (list Z) (option unit) :=
  _ <~ ([banner], greeted);
  console_loop cfg cmds [] false.

(** ** [statuses], [bind] and [run] *)
Definition statuses (now : Z) (cfg : Config) : list PeerStatus :=
  map (fun _ => mkPeerStatus Idle now None) (c_peers cfg).
(** [listen] is the outcome of binding the address. *)
Definition bind (listen : IpAddr * Z -> res unit) (cfg : Config) : res (option (IpAddr * Z)) :=
  if negb (m_enabled (c_management cfg)) then Ok None else
  _ ← listen (m_listen (c_management cfg));
  Ok (Some (m_listen (c_management cfg))).
(** Whether an accepted client is served. *)
Definition accept_client (address : IpAddr) (clients : Z) : bool :=
  negb (negb (is_loopback address) || (16 <=? clients)).
(** The branches of [run]'s [select!]: a client is accepted or [accept] fails, or one
    of the consoles is found finished. The state is the addresses being served. *)
Inductive RunEvent :=
| REAccept (accepted : res IpAddr)
| REJoin (client : nat).
Definition run_step (clients : list IpAddr) (ev : RunEvent) : res (list IpAddr) :=
  match ev with
  | REAccept accepted =>
      address ← accepted;
      Ok (if accept_client address (len clients) then clients ++ [address] else clients)
  | REJoin client => Ok (delete client clients)
  end.
(** [None]: without a listener the task stays pending. *)
Definition run (listener : option (IpAddr * Z)) (events : list RunEvent) : option (res (list IpAddr)) :=
  match listener with
  | None => None
  | Some _ => Some (for_fold run_step [] events)
  end.

(** ** Specification *)
(** What a client can be sent: lines of printable ASCII, or Telnet refusals. *)
Definition line_byte (c : Z) : Prop := clean_byte c \/ c = 13 \/ c = 10.
Definition sent_ok (chunk : list Z) : Prop :=
  Forall line_byte chunk \/ exists replies, chunk = concat replies /\ Forall refusal replies.
(** A client that types [text] and ENTER (CR LF), and receives all that is written. *)
Record typed (text : list Z) (env : CommandEnv) : Prop := {
  ty_input : ce_input env = text ++ [13; 10];
  ty_text : Forall printable text;
  ty_len : len text <= 512;
  ty_written : forall i, ce_written env i = Ok tt
}.
(** The words of a text: maximal runs of other characters than white space. *)
Definition space (c : Z) : Prop := c = 32 \/ 9 <= c <= 13.
Inductive words_of : list Z -> list (list Z) -> Prop :=
| words_end gap : Forall space gap -> words_of gap []
| words_next gap w rest ws :
    Forall space gap -> w <> [] -> Forall (fun c => ~ space c) w -> (rest = [] \/ exists c l, rest = c :: l /\ space c) ->
    words_of rest ws -> words_of (gap ++ w ++ rest) (w :: ws).
(** Text, and a line of it. *)
Definition word (s : string) : list Z := ascii_bytes s.
Definition said (parts : list (list Z)) : list Z := concat parts ++ [13; 10].
Definition greeting : list Z :=
  said [word "ubgp read-only management CLI"] ++ said [word "Type help for commands."] ++ word "ubgp> ".
Definition help_lines : list string :=
  ["help                       Show commands";
   "show summary               Router and session summary";
   "show peers                 Peer state, state age and last error";
   "show routes ACL [PREFIX]    ACL export candidates (maximum 100; not advertised RIB)";
   "quit / exit                Close console"].
Definition quits (words : list (list Z)) : Prop := words = [word "quit"] \/ words = [word "exit"].
Definition known (words : list (list Z)) : Prop :=
  words = [] \/ quits words \/ words = [word "help"] \/ words = [word "?"] \/
  words = [word "show"; word "summary"] \/ words = [word "show"; word "peers"] \/
  exists acl rest, words = word "show" :: word "routes" :: acl :: rest /\ (length rest <= 1)%nat.
(** The routes shown of an ACL: the one asked for, if it is a candidate, or all the
    candidates up to a hundred. *)
Definition shows (routes : Prefixes) (filter : option IpNet) (shown : list IpNet) : Prop :=
  match filter with
  | Some q => shown = if decide (q ∈ routes) then [q] else []
  | None => NoDup shown /\ (forall q, q ∈ shown -> q ∈ routes) /\ length shown = Nat.min 100 (size routes)
  end.
(** The chunks a command is answered with, on the statuses and exports of the moment. *)
Inductive replies (cfg : Config) (env : CommandEnv) : list (list Z) -> list (list Z) -> Prop :=
| reply_nothing : replies cfg env [] [word "ubgp> "]
| reply_help w : w = word "help" \/ w = word "?" ->
    replies cfg env [w] [concat (map (fun l => said [word l]) help_lines); word "ubgp> "]
| reply_summary names : names ≡ₚ (map_to_list (c_acls cfg)).*1 ->
    replies cfg env [word "show"; word "summary"]
      ((said [word "Router ID "; display_v4 (c_router_id cfg); word "  AS "; dec (c_asn cfg);
              word "  IPv6 "; display_bool (c_ipv6 cfg)] ++
        said [word "Peers "; dec (len (c_peers cfg)); word "  Established ";
              dec (len (filter (fun s => ps_state s = EstablishedState) (ce_statuses env)))] ++
        said [word "Selected tables "; debug_list (k_tables (c_kernel cfg))] ++
        said [word "ACLs: "; dec (Z.of_nat (size (c_acls cfg)))]) ::
       map (fun name => said [word "  "; safe (chars name); word ": ";
                dec (Z.of_nat (size (default ∅ (ce_snapshot env !! name)))); word " export candidates"]) names ++
       [word "ubgp> "])
| reply_peers :
    replies cfg env [word "show"; word "peers"]
      (said [word "Peer / interface  Remote-AS  State  Age(s)  MD5  Last error"] ::
       map (fun '(peer, status) =>
         said [display_ip (p_address peer); word " / "; safe (chars (p_interface peer)); word "  ";
               dec (p_remote_asn peer); word "  "; word (state_name (ps_state status)); word "  ";
               dec ((ce_now env - ps_since status) / 1000); word "  "; display_bool (is_some (p_md5_password peer));
               word "  "; safe (match ps_last_error status with Some e => display_error e | None => word "-" end)])
         (zip (c_peers cfg) (ce_statuses env)) ++
       [word "ubgp> "])
| reply_invalid acl prefix : parse_prefix prefix = None ->
    replies cfg env [word "show"; word "routes"; acl; prefix] [said [word "Invalid prefix"] ++ word "ubgp> "]
| reply_unknown_acl acl prefix filter : map parse_prefix prefix = map Some filter -> (length filter <= 1)%nat ->
    c_acls cfg !! bytes_string acl = None ->
    replies cfg env (word "show" :: word "routes" :: acl :: prefix)
      [said [word "Unknown ACL; use show summary"]; word "ubgp> "]
| reply_no_candidates acl prefix filter : map parse_prefix prefix = map Some filter -> (length filter <= 1)%nat ->
    is_Some (c_acls cfg !! bytes_string acl) -> ce_snapshot env !! bytes_string acl = None ->
    replies cfg env (word "show" :: word "routes" :: acl :: prefix)
      [said [word "No export candidates available"]; word "ubgp> "]
| reply_routes acl prefix filter routes shown : map parse_prefix prefix = map Some filter -> (length filter <= 1)%nat ->
    is_Some (c_acls cfg !! bytes_string acl) -> ce_snapshot env !! bytes_string acl = Some routes ->
    shows routes (head filter) shown ->
    replies cfg env (word "show" :: word "routes" :: acl :: prefix)
      ([said [word "ACL export candidates; not confirmation of peer advertisement."]] ++
       map (fun q => said [display_net q]) shown ++
       [said [word "Shown "; dec (len shown); word "; ACL total "; dec (Z.of_nat (size routes));
              word " (unordered, limit 100)"]; word "ubgp> "])
| reply_unknown words : ~ known words ->
    replies cfg env words [said [word "Unknown command; type help"]; word "ubgp> "].

(** * Theorems *)
(** ** Commands *)
(** Route listings are bounded and truthful: [show routes] answers with routes
    exactly when the ACL is configured and has candidates, shows at most 100, each
    of them a candidate of that ACL (the requested one when a prefix is given),
    and reports the total. *)
Theorem routes_response_spec (cfg : Config) snapshot acl filter :
  (forall s, order s ≡ₚ elements s) ->
  match routes_response cfg snapshot acl filter with
  | RRoutes shown total =>
      exists routes, is_Some (c_acls cfg !! bytes_string acl) /\
        snapshot !! bytes_string acl = Some routes /\ len shown <= 100 /\ NoDup shown /\
        (forall q, q ∈ shown -> q ∈ routes /\ (forall f, filter = Some f -> q = f)) /\
        (filter = None -> (size routes <= 100)%nat -> shown ≡ₚ elements routes) /\
        (forall f, filter = Some f -> f ∈ routes -> shown = [f]) /\ total = Z.of_nat (size routes)
  | RUnknownAcl => c_acls cfg !! bytes_string acl = None
  | RNoCandidates => is_Some (c_acls cfg !! bytes_string acl) /\ snapshot !! bytes_string acl = None
  | _ => False
  end.
Proof.
  intros Ho. unfold routes_response.
  destruct (c_acls cfg !! bytes_string acl) as [a|]; simpl; [|done].
  destruct (snapshot !! bytes_string acl) as [routes|]; [|by split].
  exists routes. split; [by eexists|]. split; [done|]. destruct filter as [f|].
  - case_bool_decide as Hf.
    + split_and!; [done|apply NoDup_singleton| |done|by intros f' [= <-]|done].
      intros q ->%list_elem_of_singleton. split; [done|]. by intros f' [= <-].
    + split_and!; [done|by apply NoDup_nil| |done|by intros f' [= <-]|done].
      by intros q Hq%not_elem_of_nil.
  - split_and!; try done.
    + unfold len. rewrite length_take. lia.
    + eapply sublist_NoDup; [|apply sublist_take]. rewrite (Ho routes). apply NoDup_elements.
    + intros q Hq. split; [|done]. apply elem_of_elements. rewrite <- (Ho routes).
      rewrite <- (take_drop 100 (order routes)). apply elem_of_app. by left.
    + intros _ Hs. rewrite take_ge; [apply Ho|]. rewrite (Permutation_length (Ho routes)).
      change (length (elements routes)) with (size routes). lia.
Qed.

(** ** What a session writes *)
Definition response_to (cfg : Config) (text : list Z) (env : CommandEnv) : Response :=
  console_command cfg (ce_now env) (ce_statuses env) (ce_snapshot env) (split_whitespace text).
Definition answer (cfg : Config) (text : list Z) (env : CommandEnv) : list (list Z) :=
  render cfg (response_to cfg text env) ++ final_prompt (response_to cfg text env).

Lemma clean_line l : clean l -> Forall line_byte l.
Proof. intros H. eapply Forall_impl; [exact H|]. by left. Qed.
Lemma line_app l1 l2 : Forall line_byte l1 -> Forall line_byte l2 -> Forall line_byte (l1 ++ l2).
Proof. intros. by apply Forall_app. Qed.
Lemma line_crlf : Forall line_byte crlf.
Proof. repeat (apply Forall_cons; split; [by right; auto|]). by apply Forall_nil. Qed.
Lemma text_line_ok s : clean (ascii_bytes s) -> Forall line_byte (text_line s).
Proof. intros. apply line_app; [by apply clean_line|apply line_crlf]. Qed.
Lemma safe_clean text : clean (safe text).
Proof. apply Forall_forall. intros c (c' & -> & _)%list_elem_of_fmap. apply safe_char. Qed.
#[local] Hint Resolve safe_clean : clean.

(** Concatenations of clean text and line ends. *)
Ltac solve_lines :=
  lazymatch goal with
  | |- Forall line_byte (_ ++ _) => apply line_app; solve_lines
  | |- Forall line_byte crlf => apply line_crlf
  | |- Forall line_byte (text_line _) => apply text_line_ok; by apply clean_decide
  | |- Forall line_byte (ascii_bytes (state_name _)) => apply clean_line; auto with clean
  | |- Forall line_byte (ascii_bytes _) => apply clean_line; by apply clean_decide
  | |- Forall line_byte _ => apply clean_line; auto with clean
  end.

Hypothesis Hnet : forall q, clean (display_net q).

Lemma clean_state st : clean (ascii_bytes (state_name st)).
Proof. destruct st; by apply clean_decide. Qed.
#[local] Hint Resolve clean_state : clean.

Lemma summary_lines cfg n : Forall line_byte (summary_text cfg n).
Proof. unfold summary_text. solve_lines. Qed.
Lemma count_lines c : Forall line_byte (count_text c).
Proof. unfold count_text. solve_lines. Qed.
Lemma row_lines row : Forall line_byte (row_text row).
Proof. unfold row_text. solve_lines. Qed.

Lemma lines_map {A} (f : A -> list Z) l : (forall x, Forall line_byte (f x)) -> Forall (Forall line_byte) (map f l).
Proof. intros H. apply Forall_map, Forall_forall. intros x _. apply H. Qed.

Lemma render_lines cfg r : Forall (Forall line_byte) (render cfg r).
Proof.
  destruct r as [| | |n counts|rows| | |shown total| |]; cbn [render]; try by apply Forall_nil.
  all: try (apply Forall_singleton; unfold HELP, prompt; by solve_lines).
  - constructor; [apply summary_lines|apply lines_map, count_lines].
  - constructor; [solve_lines|apply lines_map, row_lines].
  - apply Forall_app. split; [apply Forall_singleton; solve_lines|].
    apply Forall_app. split; [|apply Forall_singleton; solve_lines].
    apply lines_map. intros q. apply line_app; [apply clean_line, Hnet|apply line_crlf].
Qed.

Lemma write_chunks_prefix written chunks : (write_chunks written chunks).1 `prefix_of` chunks.
Proof.
  revert written. induction chunks as [|chunk chunks IH]; intros written; [done|]. cbn [write_chunks].
  unfold out_bind. cbn [fst snd]. destruct (written 0%nat) as [[]| | |]; try by apply prefix_cons, prefix_nil.
  specialize (IH (fun i => written (S i))). destruct (write_chunks _ _) as [acts r]. by apply prefix_cons.
Qed.
Lemma write_chunks_total written chunks : (forall i, total (written i)) -> total (write_chunks written chunks).2.
Proof.
  revert written. induction chunks as [|chunk chunks IH]; intros written H; [done|]. cbn [write_chunks].
  unfold out_bind. cbn [fst snd]. pose proof (H 0%nat) as H0. destruct (written 0%nat) as [[]| | |]; try done.
  assert (Ht : total (write_chunks (fun i => written (S i)) chunks).2) by (apply IH; intros i; apply H).
  by destruct (write_chunks _ _).
Qed.
Lemma write_chunks_ok written chunks : (forall i, written i = Ok tt) -> write_chunks written chunks = (chunks, Ok tt).
Proof.
  revert written. induction chunks as [|chunk chunks IH]; intros written H; [done|]. cbn [write_chunks].
  unfold out_bind. cbn [fst snd]. rewrite H, IH by (intros; apply H). done.
Qed.

(** The writes and the outcome of a session's parts. *)
Definition session_ok {A} (o : Out (list Z) A) : Prop := Forall sent_ok o.1 /\ total o.2.
Lemma session_ok_bind {A B} (o : Out (list Z) A) (f : A -> Out (list Z) B) :
  session_ok o -> (forall a, o.2 = Ok a -> session_ok (f a)) -> session_ok (out_bind o f).
Proof.
  destruct o as [acts [a|e| |]]; intros [Ho Ht] Hf; try done. rewrite (out_bind_ok _ a) by done.
  destruct (Hf a eq_refl) as [Hf1 Hf2]. split; [by apply Forall_app|done].
Qed.

Lemma response_sent cfg r : Forall sent_ok (render cfg r ++ final_prompt r).
Proof.
  assert (H : Forall (Forall line_byte) (render cfg r ++ final_prompt r)).
  { apply Forall_app. split; [apply render_lines|]. destruct r; try apply Forall_nil; try done;
      apply Forall_singleton; unfold prompt; solve_lines. }
  eapply Forall_impl; [exact H|]. by left.
Qed.

(** The environment of a command: the outcomes of the writes are results. *)
Definition env_ok (env : CommandEnv) : Prop := total (ce_refused env) /\ forall i, total (ce_written env i).

(** [C38] The console is safe for its terminal and for the daemon: whatever bytes a
    client sends and whatever peers, errors and names contain, a session never panics,
    and each chunk it writes is lines of printable ASCII, or refusals of Telnet options;
    no control character reaches the terminal. *)
Theorem console_clean cfg greeted cmds :
  total greeted -> Forall env_ok cmds ->
  Forall sent_ok (console cfg greeted cmds).1 /\ total (console cfg greeted cmds).2.
Proof.
  intros Hg Hcmds. change (session_ok (console cfg greeted cmds)). unfold console. apply session_ok_bind.
  { split; [|done]. apply Forall_singleton. left. unfold banner, prompt. solve_lines. }
  intros [] _. generalize (@nil Z), false.
  induction Hcmds as [|env cmds [Hr Hw] _ IH]; intros input skip_lf; cbn [console_loop]; [by split|].
  assert (Hwrote : ce_refused env = Ok tt \/ exists e, ce_refused env = Err e)
    by (destruct (ce_refused env) as [[]|e| |]; eauto; done).
  destruct (line_loop_ok (ce_refused env) (input ++ ce_input env) line_init skip_lf line_init_ok Hwrote) as [Hrep Hres].
  unfold line. destruct (line_loop _ _ _ _) as [replies [rest r]]. cbn [fst snd] in Hrep, Hres.
  apply session_ok_bind.
  { split; [|done]. cbn [fst]. destruct (is_empty replies); [by apply Forall_nil|apply Forall_singleton; by right]. }
  intros [] _. apply session_ok_bind.
  { split; [by apply Forall_nil|]. by eapply wp_mono; [exact Hres| |]. }
  intros [[text|] skip'] _; [|split; [by apply Forall_nil|by destruct (ce_timeout env)]]. cbv zeta.
  apply session_ok_bind.
  - split; [|by apply write_chunks_total]. destruct (write_chunks_prefix (ce_written env)
      (render cfg (response_to cfg text env) ++ final_prompt (response_to cfg text env))) as [rest' E].
    pose proof (response_sent cfg (response_to cfg text env)) as H. rewrite E in H. by apply Forall_app in H as [H _].
  - intros [] _. destruct (console_command _ _ _ _ _); try apply IH. by split.
Qed.

(** ** Commands and answers *)
Lemma line_typed wrote text skip_lf (lf : bool) :
  Forall printable text -> len text <= 512 ->
  line wrote ((if lf then [10] else []) ++ text ++ [13; 10]) (lf || skip_lf) = ([], ([10], Ok (Some text, true))).
Proof.
  intros Ht Hl. destruct (line_reads_command wrote text [10] false Ht Hl) as (H1 & _ & _).
  destruct (line_reads_command wrote text [10] (lf || skip_lf) Ht Hl) as (H1' & _ & _).
  destruct lf; [|exact H1']. destruct (line_reads_command wrote text (text ++ [13; 10]) false Ht Hl) as (_ & H2 & _).
  cbn [orb app]. by rewrite H2.
Qed.

Lemma console_answered cfg texts cmds :
  Forall2 typed texts cmds ->
  Forall2 (fun text env => response_to cfg text env <> RBye) texts cmds ->
  console cfg (Ok tt) cmds = (banner :: concat (zip_with (answer cfg) texts cmds), Ok None) /\
  forall text env, typed text env -> response_to cfg text env = RBye ->
    console cfg (Ok tt) (cmds ++ [env]) =
      (banner :: concat (zip_with (answer cfg) texts cmds) ++ [text_line "Bye"], Ok (Some tt)).
Proof.
  intros Ht Hb.
  assert (Hstep : forall (lf : bool) text env cmds, typed text env ->
    console_loop cfg (env :: cmds) (if lf then [10] else []) lf =
      _ <~ (answer cfg text env, Ok tt);
      match response_to cfg text env with RBye => out_ret (Ok (Some tt)) | _ => console_loop cfg cmds [10] true end).
  { intros lf text env cmds' [Hi Hp Hl Hw]. cbn [console_loop]. rewrite Hi.
    pose proof (line_typed (ce_refused env) text false lf Hp Hl) as E. rewrite orb_false_r in E. rewrite E.
    cbn [is_empty]. rewrite !(out_bind_ok _ tt) by done. cbn [fst snd]. rewrite out_ret_bind. cbv zeta.
    rewrite write_chunks_ok by done. unfold answer, response_to.
    destruct (console_command _ _ _ _ _); by rewrite (out_bind_ok _ tt) by done. }
  assert (Hgen : forall rest (lf : bool),
    console_loop cfg (cmds ++ rest) (if lf then [10] else []) lf =
      _ <~ (concat (zip_with (answer cfg) texts cmds), Ok tt);
      console_loop cfg rest (if lf || negb (is_empty cmds) then [10] else []) (lf || negb (is_empty cmds))).
  { intros rest. induction Ht as [|text env texts cmds Hty Ht IH]; intros lf.
    - rewrite orb_false_r. cbn [app zip_with concat]. rewrite (out_bind_ok _ tt) by done. by destruct (console_loop _ _ _ _).
    - apply Forall2_cons in Hb as [Hne Hb]. cbn [app]. rewrite (Hstep lf text env _ Hty). specialize (IH Hb true).
      cbn [is_empty negb zip_with concat]. rewrite orb_true_r.
      replace (match response_to cfg text env with RBye => out_ret (Ok (Some tt)) | _ => console_loop cfg (cmds ++ rest) [10] true end)
        with (console_loop cfg (cmds ++ rest) [10] true) by by destruct (response_to cfg text env).
      rewrite IH. rewrite !(out_bind_ok _ tt) by done. cbn [fst snd orb]. by rewrite app_assoc. }
  unfold console. split.
  - pose proof (Hgen [] false) as E. rewrite app_nil_r in E. cbn [orb] in E. rewrite E.
    cbn [console_loop]. rewrite !(out_bind_ok _ tt) by done. cbn. by rewrite app_nil_r.
  - intros text env Hty Hbye. rewrite (Hgen [env] false). cbn [orb].
    rewrite (Hstep _ text env [] Hty), Hbye. rewrite !(out_bind_ok _ tt) by done. cbn [fst snd app out_ret].
    unfold answer. rewrite Hbye. done.
Qed.

(** *** Words *)
Lemma space_ascii c : is_ascii_space c = true <-> space c.
Proof. unfold is_ascii_space, space. rewrite orb_true_iff, contains_range_spec, Z.eqb_eq. done. Qed.
Lemma space_ascii_false c : is_ascii_space c = false <-> ~ space c.
Proof. rewrite <- space_ascii. by destruct (is_ascii_space c). Qed.
Lemma split_gap gap text : Forall space gap -> split_whitespace_from [] (gap ++ text) = split_whitespace_from [] text.
Proof. induction 1 as [|c gap Hc _ IH]; [done|]. cbn. apply space_ascii in Hc. by rewrite Hc. Qed.
Lemma split_word acc w text :
  Forall (fun c => ~ space c) w -> split_whitespace_from acc (w ++ text) = split_whitespace_from (acc ++ w) text.
Proof.
  intros Hw. revert acc. induction Hw as [|c w Hc _ IH]; intros acc; [by rewrite app_nil_r|].
  cbn. apply space_ascii_false in Hc. by rewrite Hc, IH, <- app_assoc.
Qed.
Lemma words_split text ws : words_of text ws -> ws = split_whitespace text.
Proof.
  unfold split_whitespace. induction 1 as [gap Hg|gap w rest ws Hg Hne Hw Hrest _ IH].
  - rewrite <- (app_nil_r gap). by rewrite split_gap.
  - rewrite split_gap, split_word by done. cbn [app]. subst ws.
    destruct w as [|c0 w]; [done|]. destruct Hrest as [->|(c & l & -> & Hc)]; [done|].
    cbn. apply space_ascii in Hc. by rewrite Hc.
Qed.
Lemma words_gap c text ws : space c -> words_of text ws -> words_of (c :: text) ws.
Proof.
  intros Hc. destruct 1 as [gap Hg|gap w rest ws Hg Hne Hw Hrest Hws].
  - apply words_end. by apply Forall_cons.
  - apply (words_next (c :: gap)); [by apply Forall_cons|done..].
Qed.
Lemma split_words_from acc text :
  Forall (fun c => ~ space c) acc -> words_of (acc ++ text) (split_whitespace_from acc text).
Proof.
  revert acc. induction text as [|c text IH]; intros acc Ha.
  - cbn. destruct acc as [|a acc]; [by apply words_end|]. apply (words_next [] (a :: acc) [] []); [done|done|done|by left|by apply words_end].
  - cbn. destruct (is_ascii_space c) eqn:E.
    + apply space_ascii in E. specialize (IH [] (Forall_nil_2 _)). destruct acc as [|a acc]; [by apply words_gap|].
      apply (words_next [] (a :: acc) (c :: text)); [done|done|done|right; by exists c, text|by apply words_gap].
    + apply space_ascii_false in E. rewrite cons_middle, app_assoc. apply IH. apply Forall_app. by split; [|apply Forall_singleton].
Qed.
Lemma split_words text : words_of text (split_whitespace text).
Proof. by apply (split_words_from []). Qed.

(** *** Answers *)
Ltac spell := unfold summary_text, said, word, text_line, crlf; cbn [concat]; rewrite ?app_nil_r, <- ?app_assoc.
Lemma said_line s : text_line s = said [word s].
Proof. unfold text_line, said, word, crlf. cbn [concat]. by rewrite app_nil_r. Qed.
Lemma established_count (l : list PeerStatus) :
  List.filter (fun s => bool_decide (ps_state s = EstablishedState)) l = filter (fun s => ps_state s = EstablishedState) l.
Proof.
  induction l as [|x l IH]; [done|]. rewrite filter_cons. cbn. by case_bool_decide; case_decide; rewrite IH.
Qed.
Hypothesis Horder : forall s, order s ≡ₚ elements s.
Hypothesis Hnames : forall m, acl_names m ≡ₚ (map_to_list m).*1.

Lemma routes_reply cfg env acl prefix filter :
  map parse_prefix prefix = map Some filter -> (length filter <= 1)%nat ->
  let r := routes_response cfg (ce_snapshot env) acl (head filter) in
  replies cfg env (word "show" :: word "routes" :: acl :: prefix) (render cfg r ++ final_prompt r).
Proof.
  intros Hp Hl r. subst r. unfold routes_response.
  destruct (c_acls cfg !! bytes_string acl) as [a|] eqn:Ea; cbn [is_some negb]; [|by eapply reply_unknown_acl].
  destruct (ce_snapshot env !! bytes_string acl) as [routes|] eqn:Es; [|eapply reply_no_candidates; [done|done|by eexists|done]].
  cbn [render final_prompt]. rewrite <- !app_assoc. rewrite !said_line.
  match goal with |- context [map _ ?l ++ _] => set (shown := l) end.
  assert (Hs : shows routes (head filter) shown).
  { subst shown. unfold shows. destruct (head filter) as [q|].
    - by case_bool_decide; case_decide.
    - split_and!.
      + eapply sublist_NoDup; [|apply sublist_take]. rewrite (Horder routes). apply NoDup_elements.
      + intros q Hq. apply elem_of_elements. rewrite <- (Horder routes), <- (take_drop 100 (order routes)). apply elem_of_app. by left.
      + rewrite length_take. by rewrite (Permutation_length (Horder routes)). }
  assert (Hr : is_Some (c_acls cfg !! bytes_string acl)) by by eexists.
  refine (eq_ind _ (replies cfg env _) (reply_routes cfg env acl prefix filter routes shown Hp Hl Hr Es Hs) _ _).
  f_equal. f_equal.
  - apply map_ext. intros q. unfold said. cbn [concat]. by rewrite app_nil_r.
  - cbn [app]. f_equal. by spell.
Qed.

Lemma command_reply cfg env words :
  ~ quits words ->
  let r := console_command cfg (ce_now env) (ce_statuses env) (ce_snapshot env) words in
  replies cfg env words (render cfg r ++ final_prompt r) /\ r <> RBye.
Proof.
  intros Hq r. subst r. unfold console_command.
  assert (Hun : ~ known words -> replies cfg env words (render cfg RUnknown ++ final_prompt RUnknown) /\ RUnknown <> RBye).
  { intros Hk. split; [|done]. cbn [render final_prompt app]. rewrite said_line. by apply reply_unknown. }
  assert (Hshow : forall a b rest, words = a :: b :: rest -> a <> word "show" -> ~ known words).
  { intros a b rest -> Ha. unfold known, quits. intros [?|[[?|?]|[?|[?|[?|[?|(acl & l & E & _)]]]]]]; simplify_eq. }
  destruct words as [|a [|b rest]].
  - split; [apply reply_nothing|done].
  - change (ascii_bytes) with word.
    assert (H1 : a <> word "quit") by (intros ->; apply Hq; by left).
    assert (H2 : a <> word "exit") by (intros ->; apply Hq; by right).
    rewrite (bool_decide_eq_false_2 _ H1), (bool_decide_eq_false_2 _ H2). cbn [orb].
    assert (Hhelp : a = word "help" \/ a = word "?" ->
      replies cfg env [a] (render cfg RHelp ++ final_prompt RHelp) /\ RHelp <> RBye).
    { intros Ha. split; [|done]. change (render cfg RHelp) with [concat (map (fun l => said [word l]) help_lines)]. by apply reply_help. }
    destruct (decide (a = word "help")) as [E|H3]; [rewrite (bool_decide_eq_true_2 _ E); cbn [orb]; apply Hhelp; by left|].
    rewrite (bool_decide_eq_false_2 _ H3). cbn [orb].
    case_bool_decide as H4; [apply Hhelp; by right|].
    apply Hun. unfold known, quits. intros [?|[[?|?]|[?|[?|[?|[?|(acl & l & E' & _)]]]]]]; simplify_eq.
  - change (ascii_bytes) with word. case_bool_decide as Ea; [subst a|by apply Hun, (Hshow a b rest)].
    destruct rest as [|acl rest].
    + case_bool_decide as Es; [subst b|case_bool_decide as Ep; [subst b|]].
      * split; [|done]. refine (eq_ind _ (replies cfg env _) (reply_summary cfg env (acl_names (c_acls cfg)) (Hnames _)) _ _).
        cbn [render final_prompt app]. rewrite established_count. f_equal; [by spell|]. f_equal. rewrite map_map.
        apply map_ext. intros name. unfold count_text. cbn [fst snd].
        replace (match ce_snapshot env !! name with Some r => Z.of_nat (size r) | None => 0 end)
          with (Z.of_nat (size (default ∅ (ce_snapshot env !! name)))) by by destruct (ce_snapshot env !! name).
        by spell.
      * split; [|done]. refine (eq_ind _ (replies cfg env _) (reply_peers cfg env) _ _).
        cbn [render final_prompt app]. rewrite said_line. f_equal. f_equal. rewrite map_map.
        apply map_ext. intros [peer status]. unfold row_text, peer_row.
        cbn [row_address row_interface row_asn row_state row_age row_md5 row_error]. by spell.
      * apply Hun. unfold known, quits. intros [?|[[?|?]|[?|[?|[?|[?|(acl & l & E' & _)]]]]]]; simplify_eq.
    + case_bool_decide as Eb; [subst b|].
      * assert (Hroutes : forall filter, map parse_prefix rest = map Some filter -> (length filter <= 1)%nat ->
          replies cfg env (word "show" :: word "routes" :: acl :: rest)
            (render cfg (routes_response cfg (ce_snapshot env) acl (head filter)) ++
             final_prompt (routes_response cfg (ce_snapshot env) acl (head filter))) /\
          routes_response cfg (ce_snapshot env) acl (head filter) <> RBye).
        { intros filter Hp Hl. split; [by apply routes_reply|]. unfold routes_response.
          destruct (negb _); [done|]. by destruct (ce_snapshot env !! bytes_string acl). }
        destruct rest as [|prefix [|? ?]].
        -- by apply (Hroutes []); [|cbn; lia].
        -- destruct (parse_prefix prefix) as [q|] eqn:Epx; [apply (Hroutes [q]); [cbn; by rewrite Epx|cbn; lia]|].
           split; [|done]. cbn [render final_prompt app]. by apply reply_invalid.
        -- apply Hun. unfold known, quits.
           intros [?|[[?|?]|[?|[?|[?|[?|(acl' & l' & E' & Hl')]]]]]]; simplify_eq; cbn in Hl'; lia.
      * apply Hun. unfold known, quits. intros [?|[[?|?]|[?|[?|[?|[?|(acl' & l' & E' & _)]]]]]]; simplify_eq.
Qed.

(** [C39] Every command is answered, in order: when a client types lines and receives
    what is written, the session writes its greeting and then, for each line, the answer
    to its words ([replies]) on the statuses and exports of that moment: the summary, the
    peers, the routes of an ACL or the help it asks for, or why there is none, each
    followed by a prompt; "quit" or "exit" is answered by "Bye" and ends the session. *)
Theorem console_answers cfg texts cmds :
  Forall2 typed texts cmds -> Forall (fun text => forall words, words_of text words -> ~ quits words) texts ->
  exists answers,
    Forall2 (fun te chunks => exists words, words_of te.1 words /\ replies cfg te.2 words chunks) (zip texts cmds) answers /\
    console cfg (Ok tt) cmds = (greeting :: concat answers, Ok None) /\
    forall text env words, typed text env -> words_of text words -> quits words ->
      console cfg (Ok tt) (cmds ++ [env]) = (greeting :: concat answers ++ [said [word "Bye"]], Ok (Some tt)).
Proof.
  intros Ht Hq. exists (zip_with (answer cfg) texts cmds).
  assert (Hr : Forall2 (fun text env => response_to cfg text env <> RBye) texts cmds /\
    Forall2 (fun te chunks => exists words, words_of te.1 words /\ replies cfg te.2 words chunks)
      (zip texts cmds) (zip_with (answer cfg) texts cmds)).
  { induction Ht as [|text env texts cmds _ _ IH]; [by split|]. apply Forall_cons in Hq as [Hq Hqs].
    destruct (IH Hqs) as [IH1 IH2]. destruct (command_reply cfg env (split_whitespace text)) as [Hc Hb].
    { apply Hq, split_words. }
    split; [by apply Forall2_cons|]. apply Forall2_cons. split; [|done]. exists (split_whitespace text). by split; [apply split_words|]. }
  destruct Hr as [Hr1 Hr2]. destruct (console_answered cfg texts cmds Ht Hr1) as [E1 E2].
  split; [done|]. split; [exact E1|]. intros text env words Hty Hw Hquit. apply (E2 text env Hty).
  unfold response_to. rewrite <- (words_split _ _ Hw). by destruct Hquit as [-> | ->].
Qed.

(** ** Who is served *)
Lemma clients_step clients ev :
  len clients <= 16 /\ Forall (fun a => is_loopback a = true) clients ->
  match ev with REAccept accepted => total accepted | _ => True end ->
  wp (run_step clients ev) (fun clients => len clients <= 16 /\ Forall (fun a => is_loopback a = true) clients)
    (fun e => ev = REAccept (Err e)).
Proof.
  intros [Hl Hc] Hev. destruct ev as [[address|e| |]|client]; try done; cbn [run_step mbind res_bind wp].
  - unfold accept_client. destruct (is_loopback address) eqn:Ea; [|by split].
    destruct (Z.leb_spec 16 (len clients)); [by split|]. cbn. rewrite len_app. change (len [address]) with 1.
    split; [lia|]. apply Forall_app. split; [done|by apply Forall_singleton].
  - split; [|by apply Forall_delete]. unfold len in *. pose proof (sublist_length _ _ (sublist_delete clients client)). lia.
Qed.

(** Only local operators reach the console, and only so many: for a validated
    configuration an enabled console listens on its loopback address and a disabled one
    on none; whatever connections arrive and consoles end in whatever order, at most 16
    clients are served at a time, all from loopback addresses, and only a failing
    listener ends the task. *)
Theorem clients_bounded cfg listen events :
  config_ok cfg -> Forall (fun ev => match ev with REAccept accepted => total accepted | _ => True end) events ->
  match bind listen cfg with
  | Ok (Some address) => m_enabled (c_management cfg) = true /\ address = m_listen (c_management cfg) /\
                         is_loopback address.1 = true /\ address.2 <> 0
  | Ok None => m_enabled (c_management cfg) = false
  | r => listen (m_listen (c_management cfg)) = (_ ← r; Ok tt)
  end /\
  (forall listener, bind listen cfg = Ok listener ->
    match run listener events with
    | None => m_enabled (c_management cfg) = false
    | Some r => wp r (fun clients => len clients <= 16 /\ Forall (fun a => is_loopback a = true) clients)
                  (fun e => REAccept (Err e) ∈ events)
    end).
Proof.
  intros Hok Hev. unfold bind. destruct (m_enabled (c_management cfg)) eqn:Em; cbn [negb].
  - destruct (listen _) as [[]|e| |] eqn:El; cbn [mbind res_bind]; (split; [|intros listener [= <-]]); try done.
    { split_and!; [done|done|exact (ok_listen _ Hok)|exact (ok_listen_port _ Hok)]. }
    cbn [run]. apply wp_for_fold; [by split|]. intros clients ev Hin Hc.
    eapply wp_mono; [apply clients_step; [done|]|done|].
    + exact (proj1 (Forall_forall _ _) Hev ev Hin).
    + intros e ->. done.
  - split; [done|]. by intros listener [= <-].
Qed.
End console.
