(* ===== verification/Frame.v ===== *)
(** * src/src/wire.rs, message framing

    Frames, NOTIFICATIONs, ROUTE-REFRESH bodies and the FSM error of an
    unexpected message. A reader is the list of bytes still to come before end
    of file. *)
From S2P Require Import Prelude Net.

Definition MAX_MESSAGE : Z := 4096.
Definition MAX_UPDATE_PREFIXES : Z := 200.
Definition KEEPALIVE : Z := 4.
Definition UPDATE : Z := 2.
Definition ROUTE_REFRESH : Z := 5.

Definition err {A} (code subcode : Z) (reason : string) : res A :=
  Err (EProtocol (mkProtocolError code subcode [] reason)).
Definition err_data {A} (code subcode : Z) (data : list Z) (reason : string) : res A :=
  Err (EProtocol (mkProtocolError code subcode data reason)).
Definition require (ok : bool) (code subcode : Z) (reason : string) : res unit :=
  if ok then Ok tt else err code subcode reason.
Definition u16b (b : list Z) : res Z :=
  b0 ← idx b 0;
  b1 ← idx b 1;
  Ok (from_be [b0; b1]).

Definition frame (kind : Z) (body : list Z) : res (list Z) :=
  _ ← assert_ (len body + 19 <=? MAX_MESSAGE);
  Ok (replicate 16 255 ++ be_bytes 2 (as_u16 (len body + 19)) ++ [kind] ++ body).

Definition notification (code subcode : Z) (data : list Z) : res (list Z) :=
  d ← slice_to data (Z.min (len data) (MAX_MESSAGE - 21));
  frame 3 ([code; subcode] ++ d).

(** [AsyncReadExt::read_exact] on a stream that ends. *)
Definition read_exact (reader : list Z) (n : Z) : res (list Z * list Z) :=
  if len reader <? n then bail "early eof"
  else Ok (take (Z.to_nat n) reader, drop (Z.to_nat n) reader).

Definition valid_type_length (kind len : Z) : bool :=
  match kind with
  | 1 => 29 <=? len
  | 2 => 23 <=? len
  | 3 => 21 <=? len
  | 4 => len =? 19
  | 5 => len =? 23
  | _ => false
  end.

(** Returns the kind, the body and the rest of the stream. *)
Definition read_frame (reader : list Z) : res (Z * list Z * list Z) :=
  '(header, reader) ← read_exact reader 19;
  marker ← slice_to header 16;
  _ ← require (bool_decide (marker = replicate 16 255)) 1 1 "invalid marker";
  lb ← slice header 16 18;
  len ← u16b lb;
  if negb (contains_range 19 MAX_MESSAGE len)
  then err_data 1 2 lb "invalid message length" else
  kind ← idx header 18;
  if negb (contains_range 1 5 kind) then err_data 1 3 [kind] "invalid message type" else
  if negb (valid_type_length kind len)
  then err_data 1 2 lb "invalid length for message type" else
  '(body, reader) ← read_exact reader (len - 19);
  Ok (kind, body, reader).

Record Negotiated := mkNegotiated {
  n_router_id : Z;
  n_hold : Z;
  n_asn4 : bool;
  n_internal : bool;
  n_ipv4 : bool;
  n_ipv6 : bool
}.

Definition refresh_family (b : list Z) (n : Negotiated) : res (option bool) :=
  _ ← ensure (len b =? 4) "invalid ROUTE-REFRESH length";
  b2 ← idx b 2;
  skip ← or_else (negb (b2 =? 0)) (b3 ← idx b 3; Ok (negb (b3 =? 1)));
  if (skip : bool) then Ok None else
  afi ← u16b b;
  Ok (if (afi =? 1) && n_ipv4 n then Some false
      else if (afi =? 2) && n_ipv6 n then Some true
      else None).

Inductive FsmState := OpenSent | OpenConfirm | Established.
(** [#[repr(u8)]] discriminants. *)
Definition fsm_code (s : FsmState) : Z :=
  match s with OpenSent => 1 | OpenConfirm => 2 | Established => 3 end.

Definition unexpected (state : FsmState) (kind : Z) (body : list Z) : res error :=
  if kind =? 3 then
    if 2 <=? len body then
      b0 ← idx body 0;
      b1 ← idx body 1;
      Ok (EMessage "peer sent NOTIFICATION code={} subcode={}" [b0; b1])
    else Ok (EMessage "peer sent truncated NOTIFICATION" [])
  else Ok (EProtocol (mkProtocolError 5 (fsm_code state) [kind] "unexpected message in BGP state")).

(** ** Specification: messages on the wire (RFC 4271 4.1, RFC 2918) *)
(** The lengths of each type of message, with its header. *)
Inductive message_length : Z -> Z -> Prop :=
| length_open l : 29 <= l <= 4096 -> message_length 1 l
| length_update l : 23 <= l <= 4096 -> message_length 2 l
| length_notification l : 21 <= l <= 4096 -> message_length 3 l
| length_keepalive : message_length 4 19
| length_refresh : message_length 5 23.
Definition header_bytes (h l kind : Z) : list Z := replicate 16 255 ++ [h; l; kind].
Definition message_bytes (kind : Z) (body : list Z) : list Z :=
  header_bytes ((len body + 19) / 256) ((len body + 19) mod 256) kind ++ body.
(** What makes a header of 19 bytes invalid, with the subcode and data of its error. *)
Inductive header_error : list Z -> Z -> list Z -> Prop :=
| error_marker header : take 16 header <> replicate 16 255 -> header_error header 1 []
| error_length h l kind : ~ 19 <= 256 * h + l <= 4096 -> header_error (header_bytes h l kind) 2 [h; l]
| error_type h l kind : 19 <= 256 * h + l <= 4096 -> ~ 1 <= kind <= 5 -> header_error (header_bytes h l kind) 3 [kind]
| error_type_length h l kind : 19 <= 256 * h + l <= 4096 -> 1 <= kind <= 5 ->
    ~ message_length kind (256 * h + l) -> header_error (header_bytes h l kind) 2 [h; l].
(** A stream that ends before its first message does. *)
Definition incomplete (stream : list Z) : Prop :=
  len stream < 19 \/
  exists h l kind body, stream = header_bytes h l kind ++ body /\ message_length kind (256 * h + l) /\
    len body + 19 < 256 * h + l.
(** What reading one message from a stream gives. *)
Inductive reads : list Z -> res (Z * list Z * list Z) -> Prop :=
| reads_message kind body rest :
    message_length kind (len body + 19) -> reads (message_bytes kind body ++ rest) (Ok (kind, body, rest))
| reads_refused header rest subcode data reason :
    len header = 19 -> header_error header subcode data ->
    reads (header ++ rest) (Err (EProtocol (mkProtocolError 1 subcode data reason)))
| reads_end stream : incomplete stream -> reads stream (Err (EMessage "early eof" [])).

(** * Theorems *)
Definition protocol_code (code : Z) (e : error) : Prop :=
  match e with EProtocol pe => pe_code pe = code | EMessage _ _ => False end.

Lemma wp_require ok code subcode reason (Q : unit -> Prop) (X : error -> Prop) :
  (ok = true -> Q tt) -> (ok = false -> X (EProtocol (mkProtocolError code subcode [] reason))) ->
  wp (require ok code subcode reason) Q X.
Proof. destruct ok; simpl; auto. Qed.

Lemma require_bind_ok {A} b c s m (k : unit -> res A) a :
  require b c s m ≫= k = Ok a <-> b = true /\ k tt = Ok a.
Proof. destruct b; simpl; naive_solver. Qed.

Lemma wp_u16b b (Q : Z -> Prop) X :
  bytes_ok b -> 2 <= len b -> (forall x, 0 <= x < 65536 -> Q x) -> wp (u16b b) Q X.
Proof.
  intros Hb Hl HQ. unfold u16b. repeat wp_step. apply HQ. unfold from_be; simpl.
  unfold byte_ok in *. lia.
Qed.

Lemma u16b_be_bytes x rest : 0 <= x < 65536 -> u16b (be_bytes 2 x ++ rest) = Ok x.
Proof.
  intros Hx. transitivity (Ok (from_be (be_bytes 2 x))); [done|].
  by rewrite from_be_be_bytes_small.
Qed.

Lemma wp_read_exact reader n (Q : list Z * list Z -> Prop) (X : error -> Prop) :
  bytes_ok reader -> 0 <= n ->
  (forall b r, reader = b ++ r -> len b = n -> bytes_ok b -> bytes_ok r -> Q (b, r)) ->
  (len reader < n -> X (EMessage "early eof" [])) ->
  wp (read_exact reader n) Q X.
Proof.
  intros Hr Hn HQ HX. unfold read_exact. destruct (Z.ltb_spec (len reader) n); [by apply HX|].
  simpl. apply HQ; [by rewrite take_drop|apply len_take; lia|by apply Forall_take|by apply Forall_drop].
Qed.

Lemma read_exact_app b r : read_exact (b ++ r) (len b) = Ok (b, r).
Proof.
  unfold read_exact. rewrite len_app. pose proof (len_nonneg r).
  rewrite ltb_false by lia.
  by rewrite to_nat_len, take_app_length, drop_app_length.
Qed.

(** ** Frames *)
Lemma valid_type_length_kind kind l : valid_type_length kind l = true -> 1 <= kind <= 5.
Proof.
  unfold valid_type_length. intros H.
  destruct kind as [|p|p]; try done. do 3 (destruct p as [p|p|]; try done); lia.
Qed.

Lemma frame_value kind body :
  len body + 19 <= MAX_MESSAGE ->
  frame kind body =
    Ok (replicate 16 255 ++ be_bytes 2 (len body + 19) ++ [kind] ++ body).
Proof.
  intros Hl. pose proof (len_nonneg body). unfold frame, assert_, as_u16, MAX_MESSAGE in *.
  by rewrite leb_true, (Z.mod_small (len body + 19)) by lia.
Qed.

Lemma frame_inv kind body f :
  frame kind body = Ok f ->
  len body + 19 <= MAX_MESSAGE /\
  f = replicate 16 255 ++ be_bytes 2 (len body + 19) ++ [kind] ++ body.
Proof.
  intros Hf. destruct (Z.le_gt_cases (len body + 19) MAX_MESSAGE) as [Hl|Hl].
  - split; [done|]. rewrite frame_value in Hf by done. congruence.
  - unfold frame in Hf. by rewrite leb_false in Hf by lia.
Qed.

Lemma len_frame kind body f :
  frame kind body = Ok f -> len f = len body + 19 /\ len f <= MAX_MESSAGE.
Proof.
  intros [Hl ->]%frame_inv. autorewrite with rust. lia.
Qed.

(** The four header fields of an encoded frame. *)
Lemma read_header kind body rest (f := replicate 16 255 ++ be_bytes 2 (len body + 19) ++ [kind]) :
  len body + 19 <= MAX_MESSAGE ->
  read_exact (f ++ body ++ rest) 19 = Ok (f, body ++ rest) /\
  slice_to f 16 = Ok (replicate 16 255) /\
  slice f 16 18 = Ok (be_bytes 2 (len body + 19)) /\
  idx f 18 = Ok kind.
Proof.
  intros Hl. split_and!; [|done|done|done].
  assert (Hf : len f = 19) by done. rewrite <- Hf. apply read_exact_app.
Qed.

Lemma read_encoded kind body :
  valid_type_length kind (len body + 19) = true -> len body + 19 <= MAX_MESSAGE ->
  exists f, frame kind body = Ok f /\ len f <= MAX_MESSAGE /\
    forall rest, read_frame (f ++ rest) = Ok (kind, body, rest).
Proof.
  intros Hv Hl. pose proof (valid_type_length_kind _ _ Hv) as Hk. pose proof (len_nonneg body).
  eexists. split; [by apply frame_value|]. split.
  { by apply (len_frame kind body), frame_value. }
  intros rest. rewrite <- !app_assoc.
  destruct (read_header kind body rest Hl) as (H1 & H2 & H3 & H4). unfold read_frame.
  rewrite !app_assoc in *. rewrite H1. cbn [mbind res_bind]. rewrite H2. cbn [mbind res_bind].
  rewrite bool_decide_eq_true_2 by done. cbn [mbind res_bind require]. rewrite H3. cbn [mbind res_bind].
  rewrite <- (app_nil_r (be_bytes 2 _)) at 1. unfold MAX_MESSAGE in *.
  rewrite u16b_be_bytes by lia. cbn [mbind res_bind].
  rewrite (proj2 (contains_range_spec 19 4096 _)) by lia. cbn [negb]. rewrite H4. cbn [mbind res_bind].
  rewrite (proj2 (contains_range_spec 1 5 _)) by lia. cbn [negb]. rewrite Hv. cbn [negb].
  replace (len body + 19 - 19) with (len body) by lia. by rewrite read_exact_app.
Qed.

(** Framing round trip: a body of a valid length for its type is encoded
    within the message limit, and reading the encoding back, whatever follows it
    on the stream, yields the type, the body and exactly the following bytes. *)
Theorem read_frame_frame kind body :
  valid_type_length kind (len body + 19) = true -> len body + 19 <= MAX_MESSAGE ->
  exists f, frame kind body = Ok f /\ len f <= MAX_MESSAGE /\
    forall rest, read_frame (f ++ rest) = Ok (kind, body, rest).
Proof. exact (read_encoded kind body). Qed.

(** A 19-byte header with the marker is the header of its own fields. *)
Lemma header_fields header l kind :
  bytes_ok header -> len header = 19 ->
  slice_to header 16 = Ok (replicate 16 255) -> 
  (lb ← slice header 16 18; u16b lb) = Ok l -> idx header 18 = Ok kind ->
  header = replicate 16 255 ++ be_bytes 2 l ++ [kind].
Proof.
  intros Hb Hl Hm Hlb Hk. unfold slice_to in Hm.
  rewrite slice_ok in Hm, Hlb by lia. cbn [mbind res_bind] in Hlb.
  apply idx_ok_inv in Hk as [_ Hk]. injection Hm as Hm.
  change (Z.to_nat (16 - 0)) with 16%nat in Hm. change (Z.to_nat 0) with 0%nat in Hm.
  change (Z.to_nat (18 - 16)) with 2%nat in Hlb. change (Z.to_nat 16) with 16%nat in Hlb.
  change (Z.to_nat 18) with 18%nat in Hk.
  rewrite drop_0 in Hm. rewrite <- (take_drop 16 header), Hm. f_equal.
  assert (Hd : length (drop 16 header) = 3%nat) by (rewrite length_drop; unfold len in Hl; lia).
  rewrite <- (take_drop 16 header), lookup_app_r in Hk by (rewrite length_take; unfold len in Hl; lia).
  replace (18 - _)%nat with 2%nat in Hk by (rewrite length_take; unfold len in Hl; lia).
  pose proof (Forall_drop _ 16 _ Hb) as Hb'.
  destruct (drop 16 header) as [|b0 [|b1 [|b2 [|]]]]; try done. simplify_eq/=.
  unfold u16b in Hlb. cbn in Hlb. injection Hlb as <-.
  assert (E : be_bytes 2 (from_be [b0; b1]) = [b0; b1]).
  { apply (be_bytes_from_be [b0; b1]). by apply (Forall_take _ 2) in Hb'. }
  exact (f_equal (fun l => l ++ [kind]) (eq_sym E)).
Qed.

Definition eof_or_header_error (e : error) : Prop :=
  e = EMessage "early eof" [] \/
  exists pe, e = EProtocol pe /\ pe_code pe = 1 /\ 1 <= pe_subcode pe <= 3.

Lemma read_frame_inv reader :
  bytes_ok reader ->
  wp (read_frame reader)
     (fun '(kind, body, rest) =>
        valid_type_length kind (len body + 19) = true /\
        exists f, frame kind body = Ok f /\ reader = f ++ rest)
     eof_or_header_error.
Proof.
  intros Hr. unfold read_frame. apply wp_bind.
  apply wp_read_exact; [done|lia| |by left]. intros header r -> Hl Hb Hr'.
  apply wp_bind. destruct (slice_to header 16) as [marker| | |] eqn:Em;
    try by (unfold slice_to in Em; rewrite slice_ok in Em by lia).
  simpl. apply wp_bind, wp_require; [|intros _; right; eexists; by split_and!].
  intros ->%bool_decide_eq_true. apply wp_bind.
  destruct (slice header 16 18) as [lb| | |] eqn:Elb; try by (rewrite slice_ok in Elb by lia).
  pose proof Elb as Elb'. rewrite slice_ok in Elb' by lia. injection Elb' as Elb'.
  assert (Hlb : bytes_ok lb) by (subst lb; by apply bytes_ok_sub).
  assert (Hll : len lb = 2) by (subst lb; rewrite len_take; [done|rewrite len_drop; lia]).
  simpl. apply wp_bind. destruct (u16b lb) as [l| | |] eqn:El.
  2-4: by pose proof (wp_u16b lb (fun _ => True) (fun _ => False) Hlb ltac:(lia) ltac:(done)) as W;
       rewrite El in W.
  simpl. wp_step; [right; eexists; by split_and!|].
  apply negb_false_iff, contains_range_spec in Heqb. unfold MAX_MESSAGE in Heqb.
  apply wp_bind. destruct (idx_ok header 18) as (kind & Ek & _); [lia|]. rewrite Ek. simpl.
  wp_step; [right; eexists; by split_and!|]. wp_step; [right; eexists; by split_and!|].
  apply negb_false_iff in Heqb1. apply wp_bind.
  apply wp_read_exact; [done|lia| |by left]. intros body rest -> Hbl _ _. simpl.
  replace (len body + 19) with l by lia. split; [done|].
  eexists. split; [apply frame_value; unfold MAX_MESSAGE; lia|].
  rewrite <- !app_assoc, (header_fields header l kind), Hbl; [|done|done|done|by rewrite Elb|done].
  replace (l - 19 + 19) with l by lia. by rewrite <- !app_assoc.
Qed.

Lemma read_frame_safe reader :
  bytes_ok reader ->
  wp (read_frame reader)
    (fun r => bytes_ok r.1.2 /\ len r.1.2 + 19 <= MAX_MESSAGE /\ bytes_ok r.2) eof_or_header_error.
Proof.
  intros Hr. eapply wp_post; [by apply read_frame_inv|].
  intros [[kind body] rest] (_ & f & [Hl ->]%frame_inv & ->). cbn [fst snd].
  rewrite !bytes_ok_app in Hr. by destruct_and!.
Qed.

Lemma valid_length kind l : 19 <= l <= 4096 -> (valid_type_length kind l = true <-> message_length kind l).
Proof.
  intros Hl. split.
  - intros H. pose proof (valid_type_length_kind _ _ H) as Hk. unfold valid_type_length in H.
    assert (kind = 1 \/ kind = 2 \/ kind = 3 \/ kind = 4 \/ kind = 5) as [->|[->|[->|[->| ->]]]] by lia.
    + apply length_open. lia.
    + apply length_update. lia.
    + apply length_notification. lia.
    + assert (l = 19) as -> by lia. apply length_keepalive.
    + assert (l = 23) as -> by lia. apply length_refresh.
  - destruct 1; unfold valid_type_length; lia.
Qed.
Lemma message_length_bound kind l : message_length kind l -> 19 <= l <= 4096 /\ 1 <= kind <= 5.
Proof. destruct 1; lia. Qed.
Lemma frame_message kind body : len body + 19 <= MAX_MESSAGE -> frame kind body = Ok (message_bytes kind body).
Proof.
  intros Hl. pose proof (len_nonneg body). unfold MAX_MESSAGE in *. rewrite frame_value by done.
  unfold message_bytes, header_bytes. rewrite <- !app_assoc. do 2 f_equal. cbn [be_bytes app Z.of_nat].
  change (256 ^ Z.of_nat 1) with 256. change (256 ^ 0) with 1. rewrite Z.div_1_r, (Z.mod_small (_ / 256)); [done|].
  split; [apply Z.div_pos; lia|]. apply Z.div_lt_upper_bound; lia.
Qed.

(** The header decides. *)
Lemma read_header_value marker h l kind r :
  len marker = 16 ->
  read_frame (marker ++ [h; l; kind] ++ r) =
    if negb (bool_decide (marker = replicate 16 255)) then err 1 1 "invalid marker"
    else if negb (contains_range 19 4096 (256 * h + l)) then err_data 1 2 [h; l] "invalid message length"
    else if negb (contains_range 1 5 kind) then err_data 1 3 [kind] "invalid message type"
    else if negb (valid_type_length kind (256 * h + l)) then err_data 1 2 [h; l] "invalid length for message type"
    else '(body, reader) ← read_exact r (256 * h + l - 19); Ok (kind, body, reader).
Proof.
  intros Hm. unfold read_frame. rewrite app_assoc.
  assert (H19 : len (marker ++ [h; l; kind]) = 19) by (rewrite len_app, Hm; done).
  rewrite <- H19 at 1. rewrite read_exact_app. cbn [mbind res_bind]. unfold slice_to.
  assert (E1 : slice (marker ++ [h; l; kind]) 0 16 = Ok marker).
  { rewrite <- Hm. exact (slice_middle [] marker [h; l; kind] 0 (len marker) eq_refl eq_refl). }
  assert (E2 : slice (marker ++ [h; l; kind]) 16 18 = Ok [h; l]).
  { apply (slice_middle marker [h; l] [kind] 16 18); [done|]. rewrite Hm. done. }
  assert (E3 : idx (marker ++ [h; l; kind]) 18 = Ok kind).
  { apply idx_lookup; [lia|]. unfold len in Hm. rewrite lookup_app_r by lia.
    replace (Z.to_nat 18 - length marker)%nat with 2%nat by lia. done. }
  rewrite E1. cbn [mbind res_bind]. case_bool_decide; [|done]. cbn [require mbind res_bind negb].
  rewrite E2. cbn [mbind res_bind]. change (u16b [h; l]) with (Ok ((0 * 256 + h) * 256 + l)). cbn [mbind res_bind].
  replace ((0 * 256 + h) * 256 + l) with (256 * h + l) by lia. unfold MAX_MESSAGE.
  destruct (negb (contains_range 19 4096 _)); [done|]. by rewrite E3.
Qed.

Lemma read_frame_reads reader : bytes_ok reader -> reads reader (read_frame reader).
Proof.
  intros Hb. destruct (Z.lt_ge_cases (len reader) 19) as [Hlt|Hge].
  { unfold read_frame, read_exact. rewrite ltb_true by done. apply reads_end. by left. }
  assert (exists marker h l kind r, reader = marker ++ [h; l; kind] ++ r /\ len marker = 16) as (marker & h & l & kind & r & -> & Hm).
  { exists (take 16 reader). unfold len in *. pose proof (length_drop reader 16) as Hd.
    destruct (drop 16 reader) as [|h [|l [|kind r]]] eqn:Ed; cbn [length] in Hd; try lia.
    exists h, l, kind, r. split; [|rewrite length_take; lia]. by rewrite <- (take_drop 16 reader), Ed at 1. }
  assert (H19 : len (marker ++ [h; l; kind]) = 19) by (rewrite len_app, Hm; done).
  rewrite (read_header_value marker h l kind r Hm). rewrite app_assoc.
  case_bool_decide as Emk; cbn [negb].
  2: { apply reads_refused; [done|]. apply error_marker. rewrite take_app_length'; [done|]. unfold len in Hm. lia. }
  subst marker. fold (header_bytes h l kind) in *.
  destruct (contains_range 19 4096 (256 * h + l)) eqn:El; cbn [negb].
  2: { apply reads_refused; [done|]. apply error_length. intros Hl. apply contains_range_spec in Hl. congruence. }
  apply contains_range_spec in El. destruct (contains_range 1 5 kind) eqn:Ek; cbn [negb].
  2: { apply reads_refused; [done|]. apply error_type; [done|]. intros Hk. apply contains_range_spec in Hk. congruence. }
  apply contains_range_spec in Ek. destruct (valid_type_length kind (256 * h + l)) eqn:Ev; cbn [negb].
  2: { apply reads_refused; [done|]. apply error_type_length; [done|done|]. intros Hv%valid_length; [congruence|done]. }
  apply valid_length in Ev; [|done]. unfold read_exact.
  destruct (Z.ltb_spec (len r) (256 * h + l - 19)) as [Hs|Hs]; cbn [mbind res_bind bail].
  { apply reads_end. right. exists h, l, kind, r. split_and!; [done|done|lia]. }
  set (body := take (Z.to_nat (256 * h + l - 19)) r).
  assert (Hbody : len body + 19 = 256 * h + l) by (subst body; rewrite len_take; lia).
  rewrite <- (take_drop (Z.to_nat (256 * h + l - 19)) r) at 1. fold body. rewrite app_assoc.
  rewrite !bytes_ok_app in Hb. destruct Hb as (_ & Hh & _). unfold bytes_ok, byte_ok in Hh.
  assert (E : message_bytes kind body = header_bytes h l kind ++ body).
  { unfold message_bytes. rewrite Hbody. apply Forall_cons in Hh as [_ Hh]. apply Forall_cons in Hh as [Hh _].
    do 2 f_equal; [rewrite Z.mul_comm, Z.div_add_l by lia; rewrite Z.div_small by lia; lia|].
    rewrite Z.add_comm, Z.mul_comm, Z.mod_add, Z.mod_small by lia. done. }
  rewrite <- E. apply reads_message. by rewrite Hbody.
Qed.

(** [C31] Reading a stream gives its first message, and nothing else: [read_frame]
    accepts exactly the streams that start with the marker, the length and the type of
    a message of one of the five types, with a length its type may have, followed by
    its body, and leaves what comes after. Any other stream is refused with the header
    error of its first defect, carrying the offending bytes, or ends too early; no
    stream causes a panic. *)
Theorem read_frame_sound reader :
  bytes_ok reader ->
  reads reader (read_frame reader) /\
  forall kind body rest, read_frame reader = Ok (kind, body, rest) <->
    message_length kind (len body + 19) /\ reader = message_bytes kind body ++ rest.
Proof.
  intros Hb. pose proof (read_frame_reads reader Hb) as Hr. split; [done|]. intros kind body rest. split.
  - intros E. rewrite E in Hr. by inversion Hr.
  - intros [Hl ->]. destruct (message_length_bound _ _ Hl) as [Hb' _]. pose proof (valid_length kind _ Hb') as Hv.
    destruct (read_encoded kind body) as (f & Hf & _ & Hread); [by apply Hv|unfold MAX_MESSAGE; lia|].
    rewrite frame_message in Hf by (unfold MAX_MESSAGE; lia). injection Hf as <-. apply Hread.
Qed.

(** A NOTIFICATION is always encodable: its data is cut to what fits, and
    the peer reads back the code, the subcode and the retained data. *)
Theorem notification_roundtrip code subcode data :
  exists f, notification code subcode data = Ok f /\ len f <= MAX_MESSAGE /\
    forall rest, read_frame (f ++ rest) =
      Ok (3, [code; subcode] ++ take (Z.to_nat (MAX_MESSAGE - 21)) data, rest).
Proof.
  pose proof (len_nonneg data) as Hd.
  unfold notification, slice_to. rewrite slice_ok by (unfold MAX_MESSAGE in *; lia).
  cbn [mbind res_bind]. rewrite drop_0, Z.sub_0_r.
  assert (Ht : take (Z.to_nat (Z.min (len data) (MAX_MESSAGE - 21))) data
             = take (Z.to_nat (MAX_MESSAGE - 21)) data).
  { destruct (Z.min_spec (len data) (MAX_MESSAGE - 21)) as [[? ->]|[_ ->]]; [|done].
    rewrite to_nat_len, firstn_all, take_ge; [done|]. unfold len in *; lia. }
  rewrite Ht. set (body := [code; subcode] ++ _).
  assert (Hb : 2 <= len body <= 4077).
  { subst body. unfold len, MAX_MESSAGE. rewrite length_app, length_take. simpl length. lia. }
  destruct (read_encoded 3 body) as (f & Hf & Hm & Hread).
  - unfold valid_type_length. lia.
  - unfold MAX_MESSAGE. lia.
  - by exists f.
Qed.

(** A ROUTE-REFRESH body of four bytes requests a family exactly when its
    subtype is 0, its SAFI is unicast and its AFI is a negotiated family; other
    bodies of that length are ignored, any other length is an error. *)
Theorem refresh_family_spec b n :
  refresh_family b n =
    match b with
    | [a0; a1; sub; safi] =>
        Ok (if negb (sub =? 0) || negb (safi =? 1) then None
            else if (a0 * 256 + a1 =? 1) && n_ipv4 n then Some false
            else if (a0 * 256 + a1 =? 2) && n_ipv6 n then Some true
            else None)
    | _ => Err (EMessage "invalid ROUTE-REFRESH length" [])
    end.
Proof.
  unfold refresh_family, ensure.
  destruct b as [|a0 [|a1 [|a2 [|a3 [|a4 b]]]]]; try done.
  - change (len [a0; a1; a2; a3] =? 4) with true. cbn [mbind res_bind].
    change (idx [a0; a1; a2; a3] 2) with (Ok a2). cbn [mbind res_bind].
    change (idx [a0; a1; a2; a3] 3) with (Ok a3).
    change (u16b [a0; a1; a2; a3]) with (Ok ((0 * 256 + a0) * 256 + a1)).
    destruct (a2 =? 0); cbn; [|done]. by destruct (a3 =? 1).
  - rewrite !len_cons, eqb_false; [done|]. pose proof (len_nonneg b). lia.
Qed.

(** A message that is unexpected in a state never panics: a NOTIFICATION
    from the peer is only described (nothing is sent back for it), anything else
    is the state's FSM error of RFC 6608 carrying the message type. *)
Theorem unexpected_spec state kind body :
  exists e, unexpected state kind body = Ok e /\
    if kind =? 3 then ~ (exists pe, e = EProtocol pe)
    else e = EProtocol (mkProtocolError 5 (fsm_code state) [kind] "unexpected message in BGP state").
Proof.
  unfold unexpected. destruct (kind =? 3); [|eexists; by split].
  destruct (Z.leb_spec 2 (len body)) as [Hl|]; [|eexists; split; [reflexivity|]; by intros [? ?]].
  destruct (idx_ok body 0) as (b0 & -> & _); [lia|].
  destruct (idx_ok body 1) as (b1 & -> & _); [lia|].
  eexists. split; [reflexivity|]. by intros [? ?].
Qed.
