(* ===== verification/Open.v ===== *)
(** * src/src/wire.rs, OPEN: encoding, parsing and negotiation *)
From S2P Require Import Prelude Net Config Frame.

Section open.
Context {api : IpNetApi}.

Definition AS_TRANS : Z := 23456.
Definition short_asn (asn : Z) : Z := default AS_TRANS (u16_try_from asn).

Definition open_caps (cfg : Config) (peer : Peer) : list Z :=
  [65; 4] ++ be_bytes 4 (c_asn cfg) ++ [2; 0] ++
  (if p_ipv4 peer then [1; 4; 0; 1; 0; 1] else []) ++
  (if p_ipv6 peer then [1; 4; 0; 2; 0; 1] else []).
Definition open_body (cfg : Config) (peer : Peer) : list Z :=
  let caps := open_caps cfg peer in
  [4] ++ be_bytes 2 (short_asn (c_asn cfg)) ++ be_bytes 2 (p_hold_time_secs peer) ++
  octets4 (c_router_id cfg) ++ [as_u8 (len caps + 2); 2; as_u8 (len caps)] ++ caps.
Definition open (cfg : Config) (peer : Peer) : res (list Z) := frame 1 (open_body cfg peer).

(** The variables [as4], [mp], [v4] and [v6] of [parse_open]. *)
Record CapState := mkCapState { as4 : option Z; mp : bool; v4 : bool; v6 : bool }.

(** The [match caps[0]] of the capability loop. *)
Definition apply_cap (code : Z) (data : list Z) (st : CapState) : res CapState :=
  if code =? 1 then
    _ ← require (len data =? 4) 2 0 "invalid multiprotocol capability";
    d3 ← idx data 3;
    if d3 =? 1 then
      afi ← u16b data;
      Ok (mkCapState (as4 st) true (v4 st || (afi =? 1)) (v6 st || (afi =? 2)))
    else Ok (mkCapState (as4 st) true (v4 st) (v6 st))
  else if code =? 2 then
    _ ← require (is_empty data) 2 0 "invalid route refresh capability";
    Ok st
  else if code =? 65 then
    _ ← require (len data =? 4) 2 0 "invalid four-octet ASN capability";
    _ ← assert_ (len data =? 4);
    let value := from_be data in
    _ ← require (is_none_or (as4 st) (fun a => a =? value)) 2 2 "conflicting ASN capabilities";
    Ok (mkCapState (Some value) (mp st) (v4 st) (v6 st))
  else Ok st.

(** One iteration of [while !caps.is_empty()]. *)
Definition caps_step (s : list Z * CapState) : res ((list Z * CapState) + CapState) :=
  let '(caps, st) := s in
  if is_empty caps then Ok (inr st) else
  fits ← and_then (2 <=? len caps) (c1 ← idx caps 1; Ok (c1 + 2 <=? len caps));
  _ ← require fits 2 0 "invalid capability length";
  c1 ← idx caps 1;
  data ← slice caps 2 (2 + c1);
  c0 ← idx caps 0;
  st ← apply_cap c0 data st;
  caps ← slice_from caps (2 + c1);
  Ok (inl (caps, st)).
Definition parse_caps (caps : list Z) (st : CapState) : res CapState :=
  iterate (fun s => length s.1) caps_step (caps, st).

(** One iteration of [while !params.is_empty()]. *)
Definition params_step (extended : bool) (s : list Z * CapState)
  : res ((list Z * CapState) + CapState) :=
  let '(params, st) := s in
  let parameter_header := if extended then 3 else 2 in
  if is_empty params then Ok (inr st) else
  _ ← require (parameter_header <=? len params) 2 0 "short optional parameter header";
  length ← (if extended then (s ← slice params 1 3; u16b s) else idx params 1);
  let end_ := parameter_header + length in
  _ ← require (end_ <=? len params) 2 0 "invalid optional parameter";
  p0 ← idx params 0;
  if negb (p0 =? 2)
  then (d ← slice_to params end_; err_data 2 4 d "unsupported optional parameter") else
  caps ← slice params parameter_header end_;
  st ← parse_caps caps st;
  params ← slice_from params end_;
  Ok (inl (params, st)).
Definition parse_params (extended : bool) (params : list Z) (st : CapState) : res CapState :=
  iterate (fun s => length s.1) (params_step extended) (params, st).

(** The capability data of the no-common-family error. *)
Definition family_caps (p : Peer) : list Z :=
  (if p_ipv4 p then [1; 4; 0; 1; 0; 1] else []) ++ (if p_ipv6 p then [1; 4; 0; 2; 0; 1] else []).

Definition parse_open (b : list Z) (cfg : Config) (p : Peer) : res Negotiated :=
  _ ← require (10 <=? len b) 2 0 "short OPEN";
  b0 ← idx b 0;
  if negb (b0 =? 4) then err_data 2 1 [0; 4] "unsupported version" else
  old_asn ← (s ← slice b 1 3; u16b s);
  hold ← (s ← slice b 3 5; u16b s);
  _ ← require ((hold =? 0) || (3 <=? hold)) 2 6 "unacceptable hold time";
  r0 ← idx b 5;
  r1 ← idx b 6;
  r2 ← idx b 7;
  r3 ← idx b 8;
  let router_id := ipv4_new r0 r1 r2 r3 in
  _ ← require (valid_router_id router_id &&
               (negb (c_asn cfg =? p_remote_asn p) || negb (router_id =? c_router_id cfg)))
        2 3 "invalid or duplicate router ID";
  b9 ← idx b 9;
  let extended := negb (b9 =? 0) && bool_decide (b !! 10%nat = Some 255) in
  params ←
    (if extended then
       _ ← require (13 <=? len b) 2 0 "short extended OPEN length";
       l ← (s ← slice b 11 13; u16b s);
       _ ← require (l + 13 =? len b) 2 0 "invalid extended OPEN parameter length";
       slice_from b 13
     else
       _ ← require (b9 + 10 =? len b) 2 0 "invalid OPEN parameter length";
       slice_from b 10);
  st ← parse_params extended params (mkCapState None false false false);
  _ ← require (default old_asn (as4 st) =? p_remote_asn p) 2 2 "unexpected peer ASN";
  _ ← require (old_asn =? short_asn (p_remote_asn p)) 2 2 "inconsistent two-octet peer ASN";
  let n := {|
    n_router_id := router_id;
    n_hold := Z.min hold (p_hold_time_secs p);
    n_asn4 := is_some (as4 st);
    n_internal := c_asn cfg =? p_remote_asn p;
    n_ipv4 := p_ipv4 p && (v4 st || negb (mp st));
    n_ipv6 := p_ipv6 p && v6 st
  |} in
  if negb (n_ipv4 n) && negb (n_ipv6 n)
  then err_data 2 7 (family_caps p) "no common address family"
  else Ok n.

(** What a successful negotiation guarantees. *)
Record negotiated_ok (cfg : Config) (p : Peer) (n : Negotiated) : Prop := {
  neg_router_id : n_router_id n <> 0;
  neg_internal : n_internal n = (c_asn cfg =? p_remote_asn p);
  neg_distinct : n_internal n = true -> n_router_id n <> c_router_id cfg;
  neg_hold_le : 0 <= n_hold n <= p_hold_time_secs p;
  neg_hold : p_hold_time_secs p = 0 \/ 3 <= p_hold_time_secs p -> n_hold n = 0 \/ 3 <= n_hold n;
  neg_asn : n_asn4 n = false -> p_remote_asn p <= 65535;
  neg_ipv4 : n_ipv4 n = true -> p_ipv4 p = true;
  neg_ipv6 : n_ipv6 n = true -> p_ipv6 p = true;
  neg_family : n_ipv4 n = true \/ n_ipv6 n = true
}.
End open.

(** * Theorems *)

(** The router ID, ASN, and hold time of a parsed OPEN are decided by its fixed
    part; every failure is an OPEN message error (code 2). *)
Ltac open_step :=
  first [ wp_step
        | apply wp_u16b; [by auto with rust | rust_arith | intros ? ?]
        | apply wp_require; [intros ?|intros ?; simpl; try done]; try discriminate ].

Section open_theorems.
Context {api : IpNetApi}.

Lemma wp_apply_cap code data st :
  bytes_ok data -> wp (apply_cap code data st) (fun _ => True) (protocol_code 2).
Proof.
  intros Hd. unfold apply_cap.
  destruct (code =? 1); [|destruct (code =? 2); [|destruct (code =? 65); [|done]]].
  - by repeat open_step.
  - by repeat open_step.
  - by repeat open_step.
Qed.

Lemma wp_caps_step s :
  bytes_ok s.1 ->
  wp (caps_step s)
    (iter_post (fun s => bytes_ok s.1) (fun s => length s.1) (fun _ => True) s) (protocol_code 2).
Proof.
  destruct s as [caps st]; simpl. intros Hb. unfold caps_step. repeat (open_step; try done).
  eapply wp_post; [by apply wp_apply_cap|]. intros st' _. repeat open_step. iter_done.
Qed.

Lemma wp_parse_caps caps st :
  bytes_ok caps -> wp (parse_caps caps st) (fun _ => True) (protocol_code 2).
Proof.
  intros Hb. unfold parse_caps. apply (wp_iterate _ _ (fun s => bytes_ok s.1)); [done|].
  by apply wp_caps_step.
Qed.

Lemma wp_params_step extended s :
  bytes_ok s.1 ->
  wp (params_step extended s)
    (iter_post (fun s => bytes_ok s.1) (fun s => length s.1) (fun _ => True) s) (protocol_code 2).
Proof.
  destruct s as [params st]; simpl. intros Hb. unfold params_step. open_step; [done|].
  set (h := if extended then 3 else 2). assert (Hh : 2 <= h <= 3) by (subst h; destruct extended; lia).
  do 2 open_step. open_step.
  apply (wp_post _ (fun l => 0 <= l)).
  { subst h. destruct extended; repeat open_step; rust_arith. }
  intros l Hl. repeat (open_step; try done).
  eapply wp_post; [by apply wp_parse_caps|]. intros st' _. repeat open_step. iter_done.
Qed.

Lemma wp_parse_params extended params st :
  bytes_ok params -> wp (parse_params extended params st) (fun _ => True) (protocol_code 2).
Proof.
  intros Hb. unfold parse_params. apply (wp_iterate _ _ (fun s => bytes_ok s.1)); [done|].
  by apply wp_params_step.
Qed.

Lemma parse_open_safe b (cfg : Config) p :
  bytes_ok b -> 0 <= p_hold_time_secs p ->
  wp (parse_open b cfg p) (negotiated_ok cfg p) (protocol_code 2).
Proof.
  intros Hb Hp. unfold parse_open. repeat (open_step; try done).
  all: eapply wp_post; [by apply wp_parse_params|]; intros st _.
  all: repeat (open_step; try done).
  all: unfold valid_router_id, v4_is_unspecified, short_asn, u16_try_from in *.
  all: match goal with
       | H : negb (n_ipv4 ?n) && negb (n_ipv6 ?n) = false |- _ =>
           cbn [n_ipv4 n_ipv6] in H; rewrite <- negb_orb, negb_false_iff, orb_true_iff in H
       end.
  all: split; cbn [n_router_id n_internal n_hold n_asn4 n_ipv4 n_ipv6]; try lia; try done.
  all: try by intros [? _]%andb_true_iff.
  all: intros Hasn; destruct (as4 st); [done|]; simpl in *.
  all: destruct (Z.leb_spec (p_remote_asn p) 65535); simpl in *; unfold AS_TRANS in *; lia.
Qed.

(** [C30] Parsing any OPEN body terminates without a panic: the result is an OPEN
    message error (code 2), or a negotiation whose identifier is nonzero (and not
    our own for iBGP), whose hold time is the acceptable minimum of both sides,
    and which enables at least one locally enabled family. *)
Theorem parse_open_sound b (cfg : Config) p :
  bytes_ok b -> 0 <= p_hold_time_secs p ->
  wp (parse_open b cfg p) (negotiated_ok cfg p) (protocol_code 2).
Proof. exact (parse_open_safe b cfg p). Qed.

(** ** Round trip *)
Lemma caps_step_decreases : decreases (fun s : list Z * CapState => length s.1) caps_step.
Proof.
  intros [caps st] s' H. unfold caps_step in H. destruct (is_empty caps) eqn:He; [done|].
  apply is_empty_false in He.
  repeat match goal with
         | H : _ ≫= _ = Ok _ |- _ => apply bind_ok_inv in H as (? & ? & ?)
         end.
  simplify_eq. simpl. unfold slice_from in *.
  repeat match goal with H : slice _ _ _ = Ok _ |- _ => apply slice_ok_inv in H as (? & ? & ->) end.
  apply len_lt_length. rewrite len_take; rewrite ?len_drop; lia.
Qed.

Definition cap_block (code : Z) (data : list Z) : list Z := code :: len data :: data.

Lemma caps_step_block code data rest st :
  caps_step (cap_block code data ++ rest, st) =
    st' ← apply_cap code data st; Ok (inl (rest, st')).
Proof.
  unfold caps_step, cap_block. cbn [is_empty app].
  pose proof (len_nonneg data). pose proof (len_nonneg rest).
  rewrite leb_true by (autorewrite with rust; lia). unfold and_then.
  change (idx (code :: len data :: data ++ rest) 1) with (Ok (len data)). cbn [mbind res_bind].
  rewrite leb_true by (autorewrite with rust; lia). cbn [mbind res_bind require].
  assert (Hs : slice (code :: len data :: data ++ rest) 2 (2 + len data) = Ok data).
  { by apply (slice_middle [code; len data] data rest). }
  rewrite Hs. cbn [mbind res_bind].
  change (idx (code :: len data :: data ++ rest) 0) with (Ok code). cbn [mbind res_bind].
  destruct (apply_cap code data st); try done. cbn [mbind res_bind].
  change (code :: len data :: data ++ rest) with (cap_block code data ++ rest).
  rewrite slice_from_app by (unfold cap_block; autorewrite with rust; lia). done.
Qed.

Lemma parse_caps_block code data rest st :
  parse_caps (cap_block code data ++ rest) st = st' ← apply_cap code data st; parse_caps rest st'.
Proof.
  unfold parse_caps. rewrite iterate_unfold by apply caps_step_decreases.
  rewrite caps_step_block. by destruct (apply_cap code data st).
Qed.

Lemma params_step_decreases extended :
  decreases (fun s : list Z * CapState => length s.1) (params_step extended).
Proof.
  intros [params st] s' H. unfold params_step in H. destruct (is_empty params) eqn:He; [done|].
  apply is_empty_false in He.
  apply bind_ok_inv in H as (? & ? & H). apply bind_ok_inv in H as (l & ? & H).
  apply bind_ok_inv in H as (? & ? & H). apply bind_ok_inv in H as (p0 & ? & H).
  destruct (negb (p0 =? 2)); [by apply bind_ok_inv in H as (? & ? & ?)|].
  repeat match goal with
         | H : _ ≫= _ = Ok (inl _) |- _ => apply bind_ok_inv in H as (? & ? & ?)
         end.
  simplify_eq. simpl. unfold slice_from in *.
  repeat match goal with H : slice _ _ _ = Ok _ |- _ => apply slice_ok_inv in H as (? & ? & ->) end.
  apply len_lt_length. rewrite len_take; rewrite ?len_drop; destruct extended; lia.
Qed.

(** One two-octet-header parameter holding capabilities. *)
Lemma params_step_single caps st :
  params_step false ([2; len caps] ++ caps, st) = st' ← parse_caps caps st; Ok (inl ([], st')).
Proof.
  unfold params_step. cbn [is_empty app]. pose proof (len_nonneg caps).
  rewrite leb_true by (autorewrite with rust; lia). cbn [mbind res_bind require].
  change (idx (2 :: len caps :: caps) 1) with (Ok (len caps)). cbn [mbind res_bind].
  rewrite leb_true by (autorewrite with rust; lia). cbn [mbind res_bind require].
  change (idx (2 :: len caps :: caps) 0) with (Ok 2). cbn [mbind res_bind negb Z.eqb Pos.eqb].
  change (2 :: len caps :: caps) with ([2; len caps] ++ caps).
  assert (Hs : slice ([2; len caps] ++ caps) 2 (2 + len caps) = Ok caps).
  { rewrite <- (app_nil_r caps) at 2. by rewrite slice_middle. }
  rewrite Hs. cbn [mbind res_bind]. destruct (parse_caps caps st); try done. cbn [mbind res_bind].
  rewrite <- (app_nil_r ([2; len caps] ++ caps)).
  by rewrite slice_from_app by (autorewrite with rust; lia).
Qed.

Lemma parse_params_single caps st :
  parse_params false ([2; len caps] ++ caps) st = parse_caps caps st.
Proof.
  unfold parse_params. rewrite iterate_unfold by apply params_step_decreases.
  rewrite params_step_single. by destruct (parse_caps caps st).
Qed.

Lemma short_asn_bound asn : 0 <= asn -> 0 <= short_asn asn < 65536.
Proof.
  unfold short_asn, u16_try_from, AS_TRANS. destruct (Z.leb_spec asn 65535); simpl; lia.
Qed.

(** The capabilities advertised by [open]. *)
Lemma parse_open_caps (cfg : Config) p :
  u_ok 32 (c_asn cfg) ->
  parse_caps (open_caps cfg p) (mkCapState None false false false) =
    Ok (mkCapState (Some (c_asn cfg)) (p_ipv4 p || p_ipv6 p) (p_ipv4 p) (p_ipv6 p)).
Proof.
  intros Ha. unfold u_ok in Ha. unfold open_caps.
  rewrite (app_assoc [65; 4]).
  change ([65; 4] ++ be_bytes 4 (c_asn cfg)) with (cap_block 65 (be_bytes 4 (c_asn cfg))).
  rewrite parse_caps_block. unfold apply_cap. cbn [Z.eqb Pos.eqb].
  change (len (be_bytes 4 (c_asn cfg)) =? 4) with true. cbn [mbind res_bind require assert_ is_none_or as4].
  rewrite from_be_be_bytes_small by lia.
  change [2; 0] with (cap_block 2 []). rewrite parse_caps_block. cbn.
  by destruct (p_ipv4 p), (p_ipv6 p).
Qed.
Lemma len_open_caps (cfg : Config) p : 0 <= len (open_caps cfg p) <= 20.
Proof. unfold open_caps. destruct (p_ipv4 p), (p_ipv6 p); vm_compute; split; discriminate. Qed.

Lemma open_body_shape (cfg : Config) p (caps := open_caps cfg p) :
  open_body cfg p =
    [4] ++ be_bytes 2 (short_asn (c_asn cfg)) ++ be_bytes 2 (p_hold_time_secs p) ++
    be_bytes 4 (c_router_id cfg) ++ [len caps + 2; 2; len caps] ++ caps.
Proof.
  unfold open_body, as_u8, octets4. pose proof (len_open_caps cfg p). fold caps in H |- *.
  by rewrite !Z.mod_small by lia.
Qed.

Lemma open_body_fields (cfg : Config) p (b := open_body cfg p) (caps := open_caps cfg p) :
  len b = 12 + len caps /\
  idx b 0 = Ok 4 /\
  slice b 1 3 = Ok (be_bytes 2 (short_asn (c_asn cfg))) /\
  slice b 3 5 = Ok (be_bytes 2 (p_hold_time_secs p)) /\
  idx b 9 = Ok (len caps + 2) /\ b !! 10%nat = Some 2 /\
  slice_from b 10 = Ok ([2; len caps] ++ caps).
Proof.
  subst b caps. rewrite open_body_shape. set (caps := open_caps cfg p).
  split_and!; try done.
  - autorewrite with rust. lia.
  - by apply slice_middle.
  - rewrite (app_assoc [4]). by apply slice_middle.
  - exact (slice_from_app
      ([4] ++ be_bytes 2 (short_asn (c_asn cfg)) ++ be_bytes 2 (p_hold_time_secs p) ++
       be_bytes 4 (c_router_id cfg) ++ [len caps + 2]) ([2; len caps] ++ caps) 10 eq_refl).
Qed.

Lemma open_body_router_id (cfg : Config) p (b := open_body cfg p) :
  u_ok 32 (c_router_id cfg) ->
  exists r0 r1 r2 r3, idx b 5 = Ok r0 /\ idx b 6 = Ok r1 /\ idx b 7 = Ok r2 /\ idx b 8 = Ok r3 /\
    ipv4_new r0 r1 r2 r3 = c_router_id cfg.
Proof.
  intros Hr. subst b. rewrite open_body_shape. do 4 eexists. split_and!; try reflexivity.
  exact (from_be_be_bytes_small 4 (c_router_id cfg) Hr).
Qed.

(** [C15] Two configured routers understand each other's OPEN. For a well-typed
    sender (local ASN, router ID, peer entry [p']) whose OPEN is received by a
    router whose peer entry [p] names the sender's ASN, the OPEN is encoded,
    framed and parsed to a negotiation with the sender's router ID, the smaller
    hold time, four-octet ASNs, and exactly the families both sides enable; if
    there is none, the OPEN is refused with the receiver's capabilities. *)
Theorem parse_open_open (cfg cfg' : Config) p p' :
  config_typed cfg' -> peer_typed p' -> peer_ok cfg' p' -> c_router_id cfg' <> 0 ->
  p_remote_asn p = c_asn cfg' ->
  (c_asn cfg = c_asn cfg' -> c_router_id cfg' <> c_router_id cfg) ->
  exists f body, open cfg' p' = Ok f /\ (forall rest, read_frame (f ++ rest) = Ok (1, body, rest)) /\
    parse_open body cfg p =
      if (p_ipv4 p && p_ipv4 p') || (p_ipv6 p && p_ipv6 p')
      then Ok (mkNegotiated (c_router_id cfg') (Z.min (p_hold_time_secs p') (p_hold_time_secs p))
                 true (c_asn cfg =? c_asn cfg') (p_ipv4 p && p_ipv4 p') (p_ipv6 p && p_ipv6 p'))
      else err_data 2 7 (family_caps p) "no common address family".
Proof.
  intros [Hasn Hrid _ _] Htp Hok Hrid0 Hremote Hdistinct.
  destruct (open_body_fields cfg' p') as (Hlen & H0 & H13 & H35 & H9 & H10 & Hfrom).
  destruct (open_body_router_id cfg' p' Hrid) as (r0 & r1 & r2 & r3 & H5 & H6 & H7 & H8 & Hnew).
  pose proof (len_open_caps cfg' p') as Hcaps. set (caps := open_caps cfg' p') in *.
  destruct (read_encoded 1 (open_body cfg' p')) as (f & Hf & _ & Hread).
  { unfold valid_type_length. lia. }
  { unfold MAX_MESSAGE. lia. }
  exists f, (open_body cfg' p'). split; [done|]. split; [done|].
  pose proof (short_asn_bound (c_asn cfg') ltac:(apply Hasn)) as Hshort.
  pose proof (typed_hold _ Htp) as Hh. unfold u_ok in Hh. pose proof (peer_hold _ _ Hok) as Hhold.
  set (b := open_body cfg' p') in *. unfold parse_open. rewrite (leb_true 10 (len b)) by lia. cbn [mbind res_bind require].
  rewrite H0. cbn [mbind res_bind negb Z.eqb Pos.eqb]. rewrite H13, H35. cbn [mbind res_bind].
  rewrite <- (app_nil_r (be_bytes 2 (short_asn _))), u16b_be_bytes by lia.
  rewrite <- (app_nil_r (be_bytes 2 (p_hold_time_secs _))), u16b_be_bytes by lia.
  cbn [mbind res_bind]. replace (_ || _) with true by lia. cbn [mbind res_bind require].
  rewrite H5, H6, H7, H8. cbn [mbind res_bind]. rewrite Hnew.
  unfold valid_router_id, v4_is_unspecified. rewrite (eqb_false (c_router_id cfg') 0) by done.
  replace (negb false && _) with true by lia. cbn [mbind res_bind require].
  rewrite H9. cbn [mbind res_bind]. rewrite H10. rewrite bool_decide_eq_false_2 by done.
  rewrite andb_false_r, (eqb_true (len caps + 2 + 10)) by lia. cbn [mbind res_bind require]. rewrite Hfrom.
  cbn [mbind res_bind]. rewrite parse_params_single. unfold caps. rewrite parse_open_caps by done.
  cbn [mbind res_bind as4 mp v4 v6 default is_some].
  rewrite Hremote, (eqb_true (c_asn cfg')), (eqb_true (short_asn _)) by done. cbn [mbind res_bind require n_ipv4 n_ipv6].
  destruct (peer_some_family _ _ Hok) as [Hfam|Hfam]; rewrite Hfam;
    destruct (p_ipv4 p'), (p_ipv6 p'), (p_ipv4 p), (p_ipv6 p); done.
Qed.
End open_theorems.
