(* ===== verification/Update.v ===== *)
(** * src/src/wire.rs, UPDATE encoding: attributes, NLRI and batches *)
From S2P Require Import Prelude Net Config Frame Open.

(** [attr]: append a path attribute to [out]. *)
Definition attr (out : list Z) (flags kind : Z) (data : list Z) : list Z :=
  out ++ [Z.lor flags (if 255 <? len data then 16 else 0); kind] ++
  (if 255 <? len data then be_bytes 2 (as_u16 (len data)) else [as_u8 (len data)]) ++ data.

Section update.
Context {api : IpNetApi}.

(** The octets of [p.network()]. *)
Definition network_octets (p : IpNet) : list Z :=
  match ipnet_network p with IpV4 a => octets4 a | IpV6 a => octets6 a end.

(** [nlri]: append the prefix length and the leading bytes of the network. *)
Definition nlri (out : list Z) (p : IpNet) : res (list Z) :=
  let n := div_ceil8 (ipnet_prefix_len p) in
  bytes ← slice_to (network_octets p) n;
  Ok (out ++ [ipnet_prefix_len p] ++ bytes).

(** The MP_REACH_NLRI or MP_UNREACH_NLRI value of an IPv6 batch. *)
Definition mp_value (p : Peer) (encoded : list Z) (withdraw : bool) : res (list Z) :=
  if withdraw then Ok ([0; 2; 1] ++ encoded) else
  nh ← unwrap (nh6 p);
  let mp := [0; 2; 1] ++ [if is_some (p_next_hop_v6_link_local p) then 32 else 16] ++ octets6 nh ++
            match p_next_hop_v6_link_local p with Some ll => octets6 ll | None => [] end ++ [0] in
  Ok (mp ++ encoded).

(** The AS_PATH value. *)
Definition as_path (cfg : Config) (p : Peer) (n : Negotiated) : list Z :=
  if negb (c_asn cfg =? p_remote_asn p) then
    [2; 1] ++ (if n_asn4 n then be_bytes 4 (c_asn cfg) else be_bytes 2 (short_asn (c_asn cfg)))
  else [].

(** The attributes of an announcement, after any MP attribute. *)
Definition announce_attrs (cfg : Config) (p : Peer) (n : Negotiated) (v6 : bool) (attrs : list Z)
  : res (list Z) :=
  let attrs := attr attrs 64 1 [2] in
  let attrs := attr attrs 64 2 (as_path cfg p n) in
  let attrs :=
    if negb (n_asn4 n) && (65535 <? c_asn cfg) && negb (c_asn cfg =? p_remote_asn p)
    then attr attrs 192 17 ([2; 1] ++ be_bytes 4 (c_asn cfg)) else attrs in
  let attrs := if c_asn cfg =? p_remote_asn p then attr attrs 64 5 (be_bytes 4 100) else attrs in
  if v6 then Ok attrs else
  nh ← unwrap (nh4 p);
  Ok (attr attrs 64 3 (octets4 nh)).

Definition update (cfg : Config) (p : Peer) (n : Negotiated) (prefixes : list IpNet)
    (withdraw : bool) : res (list Z) :=
  _ ← assert_ (negb (is_empty prefixes) && (len prefixes <=? MAX_UPDATE_PREFIXES));
  first ← idx prefixes 0;
  let v6 := net_is_ipv6 first in
  _ ← assert_ (forallb (fun p => Bool.eqb (net_is_ipv6 p) v6) prefixes);
  encoded ← for_fold nlri [] prefixes;
  attrs ← (if v6 then
             mp ← mp_value p encoded withdraw;
             Ok (attr [] 128 (if withdraw then 15 else 14) mp)
           else Ok []);
  attrs ← (if withdraw then Ok attrs else announce_attrs cfg p n v6 attrs);
  let body :=
    (if withdraw && negb v6 then be_bytes 2 (as_u16 (len encoded)) ++ encoded else [0; 0]) ++
    be_bytes 2 (as_u16 (len attrs)) ++ attrs ++
    (if negb withdraw && negb v6 then encoded else []) in
  frame UPDATE body.

Definition end_of_rib (v6 : bool) : res (list Z) :=
  if v6 then frame UPDATE [0; 0; 0; 6; 128; 15; 3; 0; 2; 1] else frame UPDATE [0; 0; 0; 0].
End update.
