(* ===== verification/Validate.v ===== *)
(** * src/src/wire.rs, validation of received UPDATEs (RFC 7606) *)
From S2P Require Import Prelude Net Config Frame Open Update.

(** [validate_nlri]: one iteration of [while !b.is_empty()]. *)
Definition nlri_step (bits : Z) (b : list Z) : res (list Z + unit) :=
  if is_empty b then Ok (inr tt) else
  b0 ← idx b 0;
  let n := div_ceil8 b0 in
  _ ← require ((b0 <=? bits) && (n <? len b)) 3 10 "invalid NLRI";
  b ← slice_from b (n + 1);
  Ok (inl b).
Definition validate_nlri (b : list Z) (bits : Z) : res unit := iterate length (nlri_step bits) b.

(** [validate_path]: one iteration of [while !b.is_empty()]. *)
Definition path_step (width : Z) (b : list Z) : res (list Z + unit) :=
  if is_empty b then Ok (inr tt) else
  ok ← and_then (2 <=? len b)
         (b0 ← idx b 0;
          and_then (contains_range 1 4 b0) (b1 ← idx b 1; Ok (0 <? b1)));
  _ ← require ok 3 11 "invalid AS_PATH segment";
  b1 ← idx b 1;
  let l := 2 + width * b1 in
  _ ← require (l <=? len b) 3 11 "truncated AS_PATH";
  b ← slice_from b l;
  Ok (inl b).
Definition validate_path (b : list Z) (width : Z) : res unit := iterate length (path_step width) b.
(** [Result::is_ok] *)
Definition is_ok {A} (r : res A) : res bool :=
  match r with Ok _ => Ok true | Err _ => Ok false | Panic => Panic | Fuel => Fuel end.

Inductive UpdateAction := Valid | AttributeDiscard | TreatAsWithdraw.
#[export] Instance UpdateAction_eq_dec : EqDecision UpdateAction.
Proof. solve_decision. Defined.
(** The derived [Ord]: declaration order. *)
Definition action_rank (a : UpdateAction) : Z :=
  match a with Valid => 0 | AttributeDiscard => 1 | TreatAsWithdraw => 2 end.
Definition action_max (a b : UpdateAction) : UpdateAction :=
  if action_rank a <=? action_rank b then b else a.

(** The variables of the attribute loop of [validate_update]. *)
Record UpdState := mkUpdState {
  us_attrs : list Z;
  us_seen : list bool;
  us_mp_reach : bool;
  us_action : UpdateAction
}.

(** [let expected = match kind] *)
Definition expected_flags (kind : Z) : option Z :=
  if bool_decide (kind ∈ [1; 2; 3; 5; 6]) then Some 64
  else if bool_decide (kind ∈ [4; 9; 10; 14; 15]) then Some 128
  else if bool_decide (kind ∈ [7; 8; 16; 17; 18; 32]) then Some 192
  else None.
Definition flags_ok (kind flags : Z) : bool :=
  is_none_or (expected_flags kind)
    (fun e => (Z.land flags 192 =? e) && ((Z.land flags 32 =? 0) || (e =? 192))).

(** Attributes discarded regardless of value and flags. *)
Definition always_discarded (n : Negotiated) (kind : Z) : bool :=
  (n_asn4 n && bool_decide (kind ∈ [17; 18])) || (negb (n_internal n) && bool_decide (kind ∈ [5; 9; 10])).

(** The multiprotocol branch; returns the new [mp_reach]. *)
Definition check_mp (kind flags : Z) (data : list Z) (mp_reach : bool) : res bool :=
  let l := len data in
  _ ← require (flags_ok kind flags) 3 9 "invalid multiprotocol attribute flags";
  _ ← require (3 <=? l) 3 9 "short multiprotocol attribute";
  afi ← u16b data;
  d2 ← idx data 2;
  let known := (d2 =? 1) && ((afi =? 1) || (afi =? 2)) in
  start ←
    (if kind =? 14 then
       fits ← and_then (5 <=? l) (d3 ← idx data 3; Ok (d3 + 5 <=? l));
       _ ← require fits 3 9 "invalid MP_REACH next hop";
       d3 ← idx data 3;
       _ ← (if known
            then require (if afi =? 2 then (d3 =? 16) || (d3 =? 32) else d3 =? 4) 3 9
                   "invalid MP_REACH next-hop size"
            else Ok tt);
       Ok (5 + d3)
     else Ok 3);
  if known then
    rest ← slice_from data start;
    _ ← validate_nlri rest (if afi =? 1 then 32 else 128);
    Ok (mp_reach || ((kind =? 14) && (start <? l)))
  else Ok mp_reach.

(** [let valid = match kind]; [attribute] is [attrs[..h + l]], the data of the
    unknown well-known attribute error. *)
Definition check_value (n : Negotiated) (kind flags : Z) (data attribute : list Z) : res bool :=
  let l := len data in
  if kind =? 1 then and_then (l =? 1) (d0 ← idx data 0; Ok (d0 <=? 2))
  else if kind =? 2 then is_ok (validate_path data (if n_asn4 n then 4 else 2))
  else if kind =? 3 then
    and_then (l =? 4)
      (d0 ← idx data 0; d1 ← idx data 1; d2 ← idx data 2; d3 ← idx data 3;
       Ok (valid_v4 (ipv4_new d0 d1 d2 d3)))
  else if bool_decide (kind ∈ [4; 5; 9]) then Ok (l =? 4)
  else if kind =? 6 then Ok (l =? 0)
  else if kind =? 7 then Ok (l =? if n_asn4 n then 8 else 6)
  else if bool_decide (kind ∈ [8; 10]) then Ok (negb (l =? 0) && (l mod 4 =? 0))
  else if kind =? 16 then Ok (negb (l =? 0) && (l mod 8 =? 0))
  else if kind =? 17 then and_then ((6 <=? l) && (l mod 2 =? 0)) (is_ok (validate_path data 4))
  else if kind =? 18 then Ok (l =? 8)
  else if kind =? 32 then Ok (negb (l =? 0) && (l mod 12 =? 0))
  else if Z.land flags 128 =? 0
  then err_data 3 2 attribute "unknown well-known attribute"
  else Ok true.

(** [let h = if flags & 0x10 != 0 { 4 } else { 3 }] *)
Definition attr_header (flags : Z) : Z := if negb (Z.land flags 16 =? 0) then 4 else 3.

(** One iteration of [while !attrs.is_empty()]; [inr] is a break. *)
Definition attr_step (n : Negotiated) (s : UpdState) : res (UpdState + UpdState) :=
  let attrs := us_attrs s in
  let break_withdraw := mkUpdState attrs (us_seen s) (us_mp_reach s) TreatAsWithdraw in
  if is_empty attrs then Ok (inr s) else
  if len attrs <? 3 then Ok (inr break_withdraw) else
  flags ← idx attrs 0;
  kind ← idx attrs 1;
  let h := attr_header flags in
  let mp := (kind =? 14) || (kind =? 15) in
  if len attrs <? h then
    _ ← require (negb mp) 3 9 "short multiprotocol attribute header";
    Ok (inr break_withdraw) else
  l ← (if h =? 4 then (t ← slice_from attrs 2; u16b t) else idx attrs 2);
  if len attrs <? h + l then
    _ ← require (negb mp) 3 9 "truncated multiprotocol attribute";
    Ok (inr break_withdraw) else
  data ← slice attrs h (h + l);
  seen_kind ← idx (us_seen s) kind;
  if (seen_kind : bool) then
    _ ← require (negb mp) 3 1 "duplicate multiprotocol attribute";
    attrs ← slice_from attrs (h + l);
    Ok (inl (mkUpdState attrs (us_seen s) (us_mp_reach s)
               (action_max (us_action s) AttributeDiscard))) else
  seen ← set_idx (us_seen s) kind true;
  if always_discarded n kind then
    attrs ← slice_from attrs (h + l);
    Ok (inl (mkUpdState attrs seen (us_mp_reach s) (action_max (us_action s) AttributeDiscard))) else
  if mp then
    mp_reach ← check_mp kind flags data (us_mp_reach s);
    attrs ← slice_from attrs (h + l);
    Ok (inl (mkUpdState attrs seen mp_reach (us_action s))) else
  attribute ← slice_to attrs (h + l);
  valid ← check_value n kind flags data attribute;
  let action :=
    if negb (flags_ok kind flags) || negb valid
    then action_max (us_action s)
           (if bool_decide (kind ∈ [6; 7; 17; 18]) then AttributeDiscard else TreatAsWithdraw)
    else us_action s in
  attrs ← slice_from attrs (h + l);
  Ok (inl (mkUpdState attrs seen (us_mp_reach s) action)).
Definition check_attrs (n : Negotiated) (attrs : list Z) : res UpdState :=
  iterate (fun s => length (us_attrs s)) (attr_step n)
    (mkUpdState attrs (replicate 256 false) false Valid).

(** The checks after the attribute loop. *)
Definition finish_update (n : Negotiated) (tail : list Z) (s : UpdState) : res UpdateAction :=
  let reachable := negb (is_empty tail) || us_mp_reach s in
  s1 ← idx (us_seen s) 1;
  s2 ← idx (us_seen s) 2;
  s3 ← idx (us_seen s) 3;
  s5 ← idx (us_seen s) 5;
  let action :=
    if reachable && (negb s1 || negb s2 || (n_internal n && negb s5))
    then TreatAsWithdraw else us_action s in
  let action := if negb (is_empty tail) && negb s3 then TreatAsWithdraw else action in
  _ ← require (negb (bool_decide (action = TreatAsWithdraw)) || reachable) 3 1
        "cannot recover UPDATE without reachable NLRI";
  Ok action.

Definition validate_update (b : list Z) (n : Negotiated) : res UpdateAction :=
  _ ← require (4 <=? len b) 3 1 "short UPDATE";
  w ← u16b b;
  _ ← require (w + 4 <=? len b) 3 1 "invalid withdrawn length";
  withdrawn ← slice b 2 (2 + w);
  _ ← validate_nlri withdrawn 32;
  a ← (t ← slice_from b (2 + w); u16b t);
  _ ← require (w + a + 4 <=? len b) 3 1 "invalid attributes length";
  tail ← slice_from b (4 + w + a);
  _ ← validate_nlri tail 32;
  attrs ← slice b (4 + w) (4 + w + a);
  s ← check_attrs n attrs;
  finish_update n tail s.

(** The address in a zero-padded buffer of 16 bytes. *)
Definition nlri_ip (v6 : bool) (bytes : list Z) : IpAddr :=
  if v6 then IpV6 (ipv6_from bytes)
  else IpV4 (ipv4_new (nth 0 bytes 0) (nth 1 bytes 0) (nth 2 bytes 0) (nth 3 bytes 0)).
Definition nlri_bits (v6 : bool) : Z := if v6 then 128 else 32.

Section prefixes.
Context {api : IpNetApi}.

(** The nested [append] of [update_prefixes]: one loop iteration on the bytes
    and [out]. *)
Definition append_step (v6 : bool) (s : list Z * list IpNet)
  : res ((list Z * list IpNet) + list IpNet) :=
  let '(b, out) := s in
  if is_empty b then Ok (inr out) else
  bits ← idx b 0;
  let size := div_ceil8 bits in
  if (nlri_bits v6 <? bits) || (len b <? size + 1) then Ok (inr out) else
  src ← slice b 1 (1 + size);
  _ ← assert_ (size <=? 16);
  let bytes := src ++ replicate (Z.to_nat (16 - size)) 0 in
  net ← unwrap (ipnet_new (nlri_ip v6 bytes) bits);
  b ← slice_from b (1 + size);
  Ok (inl (b, out ++ [ipnet_trunc net])).
Definition append (b : list Z) (v6 : bool) (out : list IpNet) : res (list IpNet) :=
  iterate (fun s => length s.1) (append_step v6) (b, out).

(** The part of an iteration that decodes an MP_REACH value of [l] bytes. *)
Definition prefixes_attr (a1 : Z) (data : list Z) (out : list IpNet) : res (list IpNet) :=
  let l := len data in
  mp ← and_then ((a1 =? 14) && (5 <=? l)) (d2 ← idx data 2; Ok (d2 =? 1));
  if (mp : bool) then
    d3 ← idx data 3;
    let start := 5 + d3 in
    afi ← u16b data;
    if (start <=? l) && ((afi =? 1) || (afi =? 2)) then
      rest ← slice_from data start;
      append rest (afi =? 2) out
    else Ok out
  else Ok out.
(** One iteration of [while attrs.len() >= 3]. *)
Definition prefixes_step (s : list Z * list IpNet) : res ((list Z * list IpNet) + list IpNet) :=
  let '(attrs, out) := s in
  if len attrs <? 3 then Ok (inr out) else
  a0 ← idx attrs 0;
  let h := attr_header a0 in
  if len attrs <? h then Ok (inr out) else
  l ← (if h =? 4 then (t ← slice_from attrs 2; u16b t) else idx attrs 2);
  if len attrs <? h + l then Ok (inr out) else
  data ← slice attrs h (h + l);
  a1 ← idx attrs 1;
  out ← prefixes_attr a1 data out;
  attrs ← slice_from attrs (h + l);
  Ok (inl (attrs, out)).

Definition update_prefixes (b : list Z) : res (list IpNet) :=
  if len b <? 4 then Ok [] else
  w ← u16b b;
  if len b <? w + 4 then Ok [] else
  a ← (t ← slice_from b (2 + w); u16b t);
  if len b <? w + a + 4 then Ok [] else
  tail ← slice_from b (4 + w + a);
  out ← append tail false [];
  attrs ← slice b (4 + w) (4 + w + a);
  iterate (fun s => length s.1) prefixes_step (attrs, out).
End prefixes.

(** * Theorems *)
Lemma div_ceil8_spec x : 8 * div_ceil8 x - 7 <= x <= 8 * div_ceil8 x.
Proof.
  unfold div_ceil8. pose proof (Z.div_mod (x + 7) 8). pose proof (Z.mod_pos_bound (x + 7) 8). lia.
Qed.

Lemma attr_header_bound flags : 3 <= attr_header flags <= 4.
Proof. unfold attr_header. destruct (negb _); lia. Qed.

(** Pose the range of a derived length once. *)
Ltac pose_range x lem :=
  lazymatch goal with
  | _ : _ <= x <= _ |- _ => fail
  | _ : _ <= _ <= 8 * x |- _ => fail
  | _ => pose proof lem
  end.
Ltac upd_range :=
  match goal with
  | |- context [div_ceil8 ?x] => pose_range (div_ceil8 x) (div_ceil8_spec x)
  | |- context [attr_header ?x] => pose_range (attr_header x) (attr_header_bound x)
  end.
Ltac upd_step := first [ upd_range | open_step ].

(** ** Every loop terminates without a panic *)
Lemma wp_nlri_step bits b :
  bytes_ok b -> wp (nlri_step bits b) (iter_post bytes_ok length (fun _ => True) b) (protocol_code 3).
Proof.
  intros Hb. unfold nlri_step. repeat (upd_step; try done).
  iter_done.
Qed.

Lemma wp_validate_nlri b bits :
  bytes_ok b -> wp (validate_nlri b bits) (fun _ => True) (protocol_code 3).
Proof. intros Hb. by apply (wp_iterate _ _ bytes_ok), wp_nlri_step. Qed.

Lemma wp_path_step width b :
  0 <= width -> bytes_ok b ->
  wp (path_step width b) (iter_post bytes_ok length (fun _ => True) b) (protocol_code 3).
Proof.
  intros Hw Hb. unfold path_step. repeat (upd_step; try done).
  iter_done.
Qed.

Lemma wp_validate_path b width :
  0 <= width -> bytes_ok b -> wp (validate_path b width) (fun _ => True) (protocol_code 3).
Proof. intros Hw Hb. by apply (wp_iterate _ _ bytes_ok); [|intros; apply wp_path_step]. Qed.

Lemma wp_is_ok {A} (r : res A) X : total r -> wp (is_ok r) (fun _ => True) X.
Proof. by destruct r. Qed.

Lemma wp_path_is_ok b width X :
  0 <= width -> bytes_ok b -> wp (is_ok (validate_path b width)) (fun _ => True) X.
Proof.
  intros Hw Hb. apply wp_is_ok. by eapply wp_mono; [apply wp_validate_path| |].
Qed.

Lemma wp_check_mp kind flags data mp_reach :
  bytes_ok data -> wp (check_mp kind flags data mp_reach) (fun _ => True) (protocol_code 3).
Proof.
  intros Hd. unfold check_mp. repeat (upd_step; try done).
  all: eapply wp_post; [by apply wp_validate_nlri|done].
Qed.

Lemma wp_check_value n kind flags data attribute :
  bytes_ok data -> wp (check_value n kind flags data attribute) (fun _ => True) (protocol_code 3).
Proof.
  intros Hd. unfold check_value. repeat (upd_step; try done).
  - apply wp_path_is_ok; [by destruct (n_asn4 n)|done].
  - by apply wp_path_is_ok.
Qed.

(** The well-formedness of the attribute loop's state. *)
Definition upd_ok (s : UpdState) : Prop := bytes_ok (us_attrs s) /\ len (us_seen s) = 256.

Ltac upd_done :=
  simpl; split; [split; [by auto with rust|simpl; lia] | apply len_lt_length; rust_arith].

Lemma wp_attr_step n s :
  upd_ok s ->
  wp (attr_step n s) (iter_post upd_ok (fun s => length (us_attrs s)) upd_ok s) (protocol_code 3).
Proof.
  intros [Hb Hs]. unfold attr_step. repeat (upd_step; try done).
  all: try upd_done.
  all: eapply wp_post; [first [by apply wp_check_mp | by apply wp_check_value]|].
  all: intros ? _; repeat upd_step; upd_done.
Qed.

Lemma attr_step_decreases n :
  decreases_on upd_ok (fun s => length (us_attrs s)) (attr_step n).
Proof. eapply wp_decreases_on. apply wp_attr_step. Qed.

Lemma wp_check_attrs n attrs :
  bytes_ok attrs -> wp (check_attrs n attrs) upd_ok (protocol_code 3).
Proof.
  intros Hb. apply (wp_iterate _ _ upd_ok); [by split|apply wp_attr_step].
Qed.

Lemma wp_finish_update n tail s :
  upd_ok s -> wp (finish_update n tail s) (fun _ => True) (protocol_code 3).
Proof. intros [_ Hs]. unfold finish_update. by repeat upd_step. Qed.

Lemma validate_update_safe b n :
  bytes_ok b -> wp (validate_update b n) (fun _ => True) (protocol_code 3).
Proof.
  intros Hb. unfold validate_update. repeat (upd_step; try done).
  eapply wp_post; [by apply wp_validate_nlri|intros [] _]. repeat (upd_step; try done).
  eapply wp_post; [by apply wp_validate_nlri|intros [] _]. repeat (upd_step; try done).
  eapply wp_post; [by apply wp_check_attrs|intros st Hst]. by apply wp_finish_update.
Qed.

(** [C11] Validating any UPDATE body terminates without a panic, whatever its
    bytes and the negotiated options: no slice, index or [seen] lookup is out of
    range, and every error is an UPDATE message error (code 3). *)
Theorem validate_update_total b n :
  bytes_ok b -> wp (validate_update b n) (fun _ => True) (protocol_code 3).
Proof. exact (validate_update_safe b n). Qed.

(** ** Reachable prefixes of an UPDATE *)
Section prefix_theorems.
Context {api : IpNetApi} {laws : IpNetLaws}.

Lemma nth_byte_ok l i : bytes_ok l -> byte_ok (nth i l 0).
Proof.
  intros Hl. destruct (nth_in_or_default i l 0) as [Hin| ->]; [|done].
  unfold bytes_ok in Hl. rewrite Forall_forall in Hl. by apply Hl, list_elem_of_In.
Qed.

Lemma nlri_ip_ok v6 bytes : bytes_ok bytes -> len bytes = 16 -> ip_ok (nlri_ip v6 bytes).
Proof.
  intros Hb Hl. unfold ip_ok, u_ok, nlri_ip. destruct v6; cbn [addr_value addr_width].
  - pose proof (from_be_bound bytes Hb) as H. by rewrite Hl in H.
  - assert (H : bytes_ok [nth 0 bytes 0; nth 1 bytes 0; nth 2 bytes 0; nth 3 bytes 0]).
    { repeat (apply Forall_cons; split; [by apply nth_byte_ok|]). by apply Forall_nil. }
    exact (from_be_bound _ H).
Qed.

Lemma nlri_ip_width v6 bytes : addr_width (nlri_ip v6 bytes) = nlri_bits v6.
Proof. by destruct v6. Qed.

Lemma nlri_bits_bound v6 : 32 <= nlri_bits v6 <= 128.
Proof. by destruct v6. Qed.

(** The prefixes decoded so far are only ever extended. *)
Definition extends {A} (out out' : list A) : Prop := exists l, out' = out ++ l.
#[local] Instance extends_preorder {A} : PreOrder (@extends A).
Proof.
  split.
  - intros l. exists []. by rewrite app_nil_r.
  - intros l1 l2 l3 [a ->] [b ->]. exists (a ++ b). by rewrite app_assoc.
Qed.

Definition append_inv (out : list IpNet) (s : list Z * list IpNet) : Prop :=
  bytes_ok s.1 /\ extends out s.2.

Lemma wp_append_step v6 out s :
  append_inv out s ->
  wp (append_step v6 s) (iter_post (append_inv out) (fun s => length s.1) (extends out) s)
    (fun _ => False).
Proof.
  destruct s as [b out']. intros [Hb Hout]. unfold append_step; cbn [fst snd] in *.
  pose proof (nlri_bits_bound v6). repeat (upd_step; try done).
  set (bytes := s ++ _).
  destruct (ipnet_new_some (nlri_ip v6 bytes) x) as (net & -> & _).
  { apply nlri_ip_ok; subst bytes; [|rust_arith].
    apply bytes_ok_app. split; [done|]. by apply Forall_replicate. }
  { rewrite nlri_ip_width. rust_arith. }
  simpl. repeat upd_step. simpl. split; [|apply len_lt_length; rust_arith].
  split; [done|]. transitivity out'; [done|]. by eexists.
Qed.

Lemma append_decreases v6 :
  decreases_on (fun s : list Z * list IpNet => bytes_ok s.1) (fun s => length s.1) (append_step v6).
Proof.
  intros [b out] s' Hb E. pose proof (wp_append_step v6 out (b, out)) as H.
  rewrite E in H. by destruct H as [[? _] ?]; [by split|].
Qed.

Lemma wp_append v6 b out :
  bytes_ok b -> wp (append b v6 out) (extends out) (fun _ => False).
Proof.
  intros Hb. apply (wp_iterate _ _ (append_inv out)); [by split|apply wp_append_step].
Qed.

Lemma wp_prefixes_attr kind data out :
  bytes_ok data -> wp (prefixes_attr kind data out) (extends out) (fun _ => False).
Proof. intros Hd. unfold prefixes_attr. repeat (upd_step; try done). by apply wp_append. Qed.

Lemma wp_prefixes_step out s :
  append_inv out s ->
  wp (prefixes_step s) (iter_post (append_inv out) (fun s => length s.1) (extends out) s)
    (fun _ => False).
Proof.
  destruct s as [attrs out']. intros [Hb Hout]. unfold prefixes_step; cbn [fst snd] in *.
  repeat (upd_step; try done).
  all: eapply wp_post; [by apply wp_prefixes_attr|]; intros out'' Hout'.
  all: repeat upd_step; simpl; (split; [split; [done|by etransitivity]|apply len_lt_length; rust_arith]).
Qed.

Lemma prefixes_step_decreases :
  decreases_on (fun s : list Z * list IpNet => bytes_ok s.1) (fun s => length s.1) prefixes_step.
Proof.
  intros [b out] s' Hb E. pose proof (wp_prefixes_step out (b, out)) as H.
  rewrite E in H. by destruct H as [[? _] ?]; [by split|].
Qed.

Definition attr_prefixes (attrs : list Z) (out : list IpNet) : res (list IpNet) :=
  iterate (fun s => length s.1) prefixes_step (attrs, out).

Lemma wp_attr_prefixes attrs out :
  bytes_ok attrs -> wp (attr_prefixes attrs out) (extends out) (fun _ => False).
Proof.
  intros Hb. apply (wp_iterate _ _ (append_inv out)); [by split|apply wp_prefixes_step].
Qed.

Lemma update_prefixes_safe b :
  bytes_ok b -> exists ps, update_prefixes b = Ok ps.
Proof.
  intros Hb. assert (H : wp (update_prefixes b) (fun _ => True) (fun _ => False)).
  { unfold update_prefixes. repeat (upd_step; try done).
    eapply wp_post; [by apply wp_append|intros out _]. repeat (upd_step; try done).
    by eapply wp_post; [apply wp_attr_prefixes|]. }
  destruct (update_prefixes b); try done. by eexists.
Qed.

(** The recovery diagnostics decode any UPDATE body without a panic or an
    error: every slice is in range and every [IpNet::new(..).unwrap()] succeeds. *)
Theorem update_prefixes_total b :
  bytes_ok b -> exists ps, update_prefixes b = Ok ps.
Proof. exact (update_prefixes_safe b). Qed.

(** *** A recoverable error leaves something to report *)
Lemma nlri_nonempty_inv bits b :
  validate_nlri b bits = Ok tt -> b <> [] ->
  exists b0 rest, b = b0 :: rest /\ b0 <= bits /\ div_ceil8 b0 < len b.
Proof.
  destruct b as [|b0 rest]; [done|]. intros H _. exists b0, rest. split; [done|].
  unfold validate_nlri, iterate in H. cbn [loop length] in H.
  apply bind_ok_inv in H as (r & H & _). unfold nlri_step in H. cbn [is_empty] in H.
  change (idx (b0 :: rest) 0) with (Ok b0) in H. cbn [mbind res_bind] in H.
  apply require_bind_ok in H as [H _]. lia.
Qed.

Lemma wp_append_step_valid v6 b0 rest out :
  bytes_ok (b0 :: rest) -> b0 <= nlri_bits v6 -> div_ceil8 b0 < len (b0 :: rest) ->
  wp (append_step v6 (b0 :: rest, out))
    (fun r => exists b' p, r = inl (b', out ++ [p]) /\ bytes_ok b') (fun _ => False).
Proof.
  intros Hb H0 Hn. pose proof (wp_append_step v6 out (b0 :: rest, out)) as H.
  unfold append_step in *. cbn [is_empty] in *.
  change (idx (b0 :: rest) 0) with (Ok b0) in *. cbn [mbind res_bind] in *.
  rewrite (ltb_false (nlri_bits v6)), (ltb_false (len _)) in * by lia. cbn [orb] in *.
  specialize (H ltac:(by split)).
  repeat match type of H with
         | wp (?e ≫= _) _ _ => destruct e; try done; cbn [mbind res_bind] in *
         end.
  destruct H as [[Hb' _] _]. by do 2 eexists.
Qed.

(** Valid, nonempty NLRI yield at least one prefix. *)
Lemma append_nonempty v6 b out :
  bytes_ok b -> validate_nlri b (nlri_bits v6) = Ok tt -> b <> [] ->
  wp (append b v6 out) (fun out' => exists p l, out' = out ++ p :: l) (fun _ => False).
Proof.
  intros Hb Hv (b0 & rest & -> & H0 & Hn)%(nlri_nonempty_inv _ b Hv).
  unfold append. rewrite (iterate_unfold_on _ _ _ _ (append_decreases v6)) by done.
  apply wp_bind. eapply wp_post; [by apply wp_append_step_valid|].
  intros r (b' & p & -> & Hb'). eapply wp_post; [by apply wp_append|].
  intros out' [l ->]. exists p, l. by rewrite <- app_assoc.
Qed.

(** A [check_mp] that reports reachable NLRI found a known family with
    nonempty, well-formed NLRI in an MP_REACH attribute. *)
Lemma check_mp_reach_inv kind flags data mp r :
  check_mp kind flags data mp = Ok r -> r = true ->
  mp = true \/
  exists afi d3 rest, kind = 14 /\ 5 <= len data /\ idx data 2 = Ok 1 /\ u16b data = Ok afi /\
    (afi = 1 \/ afi = 2) /\ idx data 3 = Ok d3 /\ 5 + d3 < len data /\
    slice_from data (5 + d3) = Ok rest /\ validate_nlri rest (nlri_bits (afi =? 2)) = Ok tt.
Proof.
  unfold check_mp. rewrite !require_bind_ok. intros (_ & Hl & H) ->.
  apply bind_ok_inv in H as (afi & Hafi & H). apply bind_ok_inv in H as (d2 & Hd2 & H).
  apply bind_ok_inv in H as (start & Hstart & H).
  destruct ((d2 =? 1) && _) eqn:Hk; [|left; congruence].
  apply bind_ok_inv in H as (rest & Hrest & H). apply unit_bind_ok in H as [Hv H].
  injection H as [?|[H14 Hlt]%andb_true_iff]%orb_true_iff; [by left|right].
  rewrite H14 in Hstart. apply bind_ok_inv in Hstart as (fits & Hfits & H).
  apply require_bind_ok in H as [-> H]. apply bind_ok_inv in H as (d3 & Hd3 & H).
  apply unit_bind_ok in H as [_ [= <-]]. exists afi, d3, rest.
  unfold and_then in Hfits. destruct (Z.leb_spec 5 (len data)); [|done].
  assert (d2 = 1) as -> by lia. assert (afi = 1 \/ afi = 2) by lia.
  split_and!; try done; try lia.
  by replace (nlri_bits (afi =? 2)) with (if afi =? 1 then 32 else 128)
    by (destruct (Z.eqb_spec afi 1), (Z.eqb_spec afi 2); subst; done || lia).
Qed.

(** What [update_prefixes] decodes from an attribute [check_mp] accepted. *)
Lemma prefixes_attr_reach kind flags data mp out :
  bytes_ok data -> check_mp kind flags data mp = Ok true ->
  mp = true \/
  wp (prefixes_attr kind data out) (fun out1 => exists p l, out1 = out ++ p :: l) (fun _ => False).
Proof.
  intros Hd H. destruct (check_mp_reach_inv _ _ _ _ _ H eq_refl)
    as [|(afi & d3 & rest & -> & Hl & H2 & Hafi & Hk & H3 & Hlt & Hrest & Hv)]; [by left|right].
  unfold prefixes_attr. rewrite leb_true, H2, H3, Hafi by lia.
  cbn [and_then mbind res_bind andb Z.eqb Pos.eqb].
  rewrite (leb_true (5 + d3)) by lia.
  replace ((afi =? 1) || (afi =? 2)) with true by lia. cbn [andb]. rewrite Hrest. cbn [mbind res_bind].
  unfold slice_from in Hrest. apply slice_ok_inv in Hrest as (H5 & _ & ->).
  apply append_nonempty; [by auto with rust|done|].
  intros E. apply (f_equal len) in E. rewrite len_take in E; [|rewrite len_drop; lia].
  rewrite len_nil in E. lia.
Qed.

Definition reach_post (s s1 : UpdState) (out out1 : list IpNet) : Prop :=
  extends out out1 /\ (us_mp_reach s1 = true -> us_mp_reach s = true \/ exists p l, out1 = out ++ p :: l).

(** The two attribute loops walk the same attributes. *)
Lemma attr_step_prefixes n s s1 out :
  bytes_ok (us_attrs s) -> attr_step n s = Ok (inl s1) ->
  exists out1, prefixes_step (us_attrs s, out) = Ok (inl (us_attrs s1, out1)) /\
    reach_post s s1 out out1.
Proof.
  intros Hb. unfold attr_step, prefixes_step. set (attrs := us_attrs s) in *.
  destruct (is_empty attrs); [done|]. destruct (len attrs <? 3); [done|]. intros H.
  apply bind_ok_inv in H as (flags & -> & H). apply bind_ok_inv in H as (kind & -> & H).
  cbn [mbind res_bind].
  destruct (len attrs <? attr_header flags); [by apply require_bind_ok in H as [_ H]|].
  apply bind_ok_inv in H as (l & -> & H). cbn [mbind res_bind].
  destruct (len attrs <? attr_header flags + l); [by apply require_bind_ok in H as [_ H]|].
  apply bind_ok_inv in H as (data & Hdata & H). rewrite Hdata. cbn [mbind res_bind].
  assert (Hd : bytes_ok data) by (apply slice_ok_inv in Hdata as (_ & _ & ->); by auto with rust).
  pose proof (wp_prefixes_attr kind data out Hd) as Hout.
  pose proof (prefixes_attr_reach kind flags data (us_mp_reach s) out Hd) as Hreach.
  destruct (prefixes_attr kind data out) as [out1| | |]; try done. cbn [mbind res_bind].
  apply bind_ok_inv in H as (sk & _ & H).
  assert (Hkeep : forall r m, r = Ok (inl s1 : UpdState + UpdState) ->
    r = (x ← slice_from attrs (attr_header flags + l); Ok (inl (m x))) ->
    (forall x, us_attrs (m x) = x) ->
    (forall x, us_mp_reach (m x) = true -> us_mp_reach s = true \/ exists p l, out1 = out ++ p :: l) ->
    exists out1', (x ← slice_from attrs (attr_header flags + l); Ok (inl (x, out1)))
       = Ok (inl (us_attrs s1, out1') : _ + list IpNet) /\ reach_post s s1 out out1').
  { intros r m -> E Hm Hr. symmetry in E. apply bind_ok_inv in E as (x & -> & [= <-]).
    exists out1. rewrite Hm. by split_and!; [|split; [|apply Hr]]. }
  destruct sk; [apply require_bind_ok in H as [_ H]; eapply (Hkeep _ (fun x => mkUpdState x _ _ _) H eq_refl); [done|simpl]; auto|].
  apply bind_ok_inv in H as (seen & _ & H).
  destruct (always_discarded n kind); [eapply (Hkeep _ (fun x => mkUpdState x _ _ _) H eq_refl); [done|simpl]; auto|].
  destruct ((kind =? 14) || (kind =? 15)).
  - apply bind_ok_inv in H as (mp' & Hmp & H). eapply (Hkeep _ (fun x => mkUpdState x _ _ _) H eq_refl); [done|simpl].
    intros _ ->. by apply Hreach.
  - apply bind_ok_inv in H as (at_ & _ & H). apply bind_ok_inv in H as (valid & _ & H).
    eapply (Hkeep _ (fun x => mkUpdState x _ _ _) H eq_refl); [done|simpl]; auto.
Qed.

(** A break of the attribute loop keeps [mp_reach]. *)
Lemma attr_step_break n s s1 : attr_step n s = Ok (inr s1) -> us_mp_reach s1 = us_mp_reach s.
Proof.
  unfold attr_step. destruct (is_empty _); [by intros [= ->]|].
  destruct (_ <? 3); [by intros [= <-]|].
  intros H. apply bind_ok_inv in H as (flags & _ & H). apply bind_ok_inv in H as (kind & _ & H).
  destruct (_ <? attr_header flags); [by apply require_bind_ok in H as [_ [= <-]]|].
  apply bind_ok_inv in H as (l & _ & H).
  destruct (_ <? _ + l); [by apply require_bind_ok in H as [_ [= <-]]|].
  apply bind_ok_inv in H as (data & _ & H). apply bind_ok_inv in H as ([] & _ & H).
  { apply require_bind_ok in H as [_ H]. by apply bind_ok_inv in H as (x & _ & H). }
  apply bind_ok_inv in H as (seen & _ & H).
  destruct (always_discarded n kind); [by apply bind_ok_inv in H as (x & _ & H)|].
  destruct ((kind =? 14) || (kind =? 15)).
  - apply bind_ok_inv in H as (mp & _ & H). by apply bind_ok_inv in H as (x & _ & H).
  - apply bind_ok_inv in H as (at_ & _ & H). apply bind_ok_inv in H as (valid & _ & H).
    by apply bind_ok_inv in H as (x & _ & H).
Qed.

Lemma attr_prefixes_reach n s s' out :
  upd_ok s -> iterate (fun s => length (us_attrs s)) (attr_step n) s = Ok s' ->
  us_mp_reach s' = true -> us_mp_reach s = true \/
  exists p l, attr_prefixes (us_attrs s) out = Ok (out ++ p :: l).
Proof.
  remember (length (us_attrs s)) as m eqn:Hm. revert s out Hm.
  induction (lt_wf m) as [m _ IH]; intros s out -> Hs H Hr.
  rewrite (iterate_unfold_on _ _ _ _ (attr_step_decreases n) Hs) in H.
  apply bind_ok_inv in H as ([s1|s1] & Hstep & H);
    [|left; injection H as ->; by rewrite <- (attr_step_break _ _ _ Hstep)].
  destruct (attr_step_decreases n _ _ Hs Hstep) as [Hs1 Hlt].
  destruct (attr_step_prefixes n s s1 out (proj1 Hs) Hstep) as (out1 & Hp & [l0 ->] & Hr1).
  unfold attr_prefixes.
  rewrite (iterate_unfold_on _ _ _ _ prefixes_step_decreases), Hp by apply Hs.
  cbn [mbind res_bind].
  destruct (IH _ Hlt s1 (out ++ l0) eq_refl Hs1 H Hr) as [Hr2|(p & l & E)].
  - destruct (Hr1 Hr2) as [|(p & l & E)]; [by left|right].
    pose proof (wp_attr_prefixes (us_attrs s1) (out ++ l0) (proj1 Hs1)) as W.
    unfold attr_prefixes in W. destruct (iterate _ prefixes_step _) as [ps| | |]; try done.
    destruct W as [l' ->]. rewrite E. exists p, (l ++ l'). by rewrite <- app_assoc.
  - right. fold (attr_prefixes (us_attrs s1) (out ++ l0)). rewrite E.
    destruct l0 as [|p0 l0]; [exists p, l; by rewrite app_nil_r|].
    exists p0, (l0 ++ p :: l). by rewrite <- app_assoc.
Qed.

Lemma finish_update_withdraw n tail s :
  finish_update n tail s = Ok TreatAsWithdraw -> tail <> [] \/ us_mp_reach s = true.
Proof.
  unfold finish_update. intros H.
  do 4 (apply bind_ok_inv in H as (? & _ & H)).
  apply require_bind_ok in H as [H [= E]]. rewrite E in H.
  rewrite bool_decide_eq_true_2 in H by done. simpl in H.
  apply orb_true_iff in H as [H|]; [left|by right]. by destruct tail.
Qed.

(** A recoverable UPDATE error (treat-as-withdraw) is only ever returned for
    a message whose diagnostics can name a route: [update_prefixes] decodes at
    least one prefix from the same body. *)
Theorem treat_as_withdraw_has_prefixes b n :
  bytes_ok b -> validate_update b n = Ok TreatAsWithdraw ->
  exists p ps, update_prefixes b = Ok (p :: ps).
Proof.
  intros Hb H. unfold validate_update in H. apply require_bind_ok in H as [H4 H].
  apply bind_ok_inv in H as (w & Hw & H). apply require_bind_ok in H as [Hwl H].
  apply bind_ok_inv in H as (wd & _ & H). apply bind_ok_inv in H as ([] & _ & H).
  apply bind_ok_inv in H as (a & Ha & H). apply require_bind_ok in H as [Hal H].
  apply bind_ok_inv in H as (tail & Htail & H). apply bind_ok_inv in H as ([] & Hv & H).
  apply bind_ok_inv in H as (attrs & Hattrs & H). apply bind_ok_inv in H as (s & Hs & H).
  apply finish_update_withdraw in H. unfold update_prefixes.
  rewrite (ltb_false (len b) 4), Hw by lia. cbn [mbind res_bind].
  rewrite (ltb_false (len b) (w + 4)), Ha by lia. cbn [mbind res_bind].
  rewrite (ltb_false (len b)), Htail by lia. cbn [mbind res_bind].
  assert (Ht : bytes_ok tail)
    by (unfold slice_from in Htail; apply slice_ok_inv in Htail as (_ & _ & ->); by auto with rust).
  assert (Hat : bytes_ok attrs) by (apply slice_ok_inv in Hattrs as (_ & _ & ->); by auto with rust).
  pose proof (wp_append false tail [] Ht) as Wa.
  destruct (append tail false []) as [out| | |] eqn:Eo; try done. cbn [mbind res_bind].
  rewrite Hattrs. cbn [mbind res_bind].
  pose proof (wp_attr_prefixes attrs out Hat) as Wp. unfold attr_prefixes in Wp.
  destruct H as [Hne|Hr].
  - pose proof (append_nonempty false tail [] Ht Hv Hne) as W. rewrite Eo in W.
    destruct W as (p & l & ->). destruct (iterate _ prefixes_step _) as [ps| | |]; try done.
    destruct Wp as [l' ->]. by exists p, (l ++ l').
  - assert (Hok : upd_ok (mkUpdState attrs (replicate 256 false) false Valid)) by (by split).
    destruct (attr_prefixes_reach n _ s out Hok Hs Hr) as [[=]|(p & l & E)].
    unfold attr_prefixes in E. cbn [us_attrs] in E. rewrite E.
    destruct out as [|p0 out]; [by exists p, l|]. by exists p0, (out ++ p :: l).
Qed.
End prefix_theorems.
