(* ===== verification/Grammar.v ===== *)
(** * What UPDATEs look like (src/src/wire.rs)

    No definitions of the program: the grammars of packed prefixes and AS paths, which
    the validators decide; one prefix, one attribute and a list of attributes as the
    encoder writes them, read back by [validate_update] and [update_prefixes]. *)
From S2P Require Import Prelude Net Config Frame Open Update Validate.

(** The wire form of one prefix, and of a list of them. *)
Section encoding.
Context {api : IpNetApi}.

Definition nlri_entry (p : IpNet) : list Z :=
  ipnet_prefix_len p :: take (Z.to_nat (div_ceil8 (ipnet_prefix_len p))) (network_octets p).
Definition nlri_entries (ps : list IpNet) : list Z := concat (map nlri_entry ps).
End encoding.

(** A list of packed prefixes of at most [bits] bits. *)
Inductive packed_prefixes (bits : Z) : list Z -> Prop :=
| packed_nil : packed_prefixes bits []
| packed_cons l octets rest :
    l <= bits -> len octets = div_ceil8 l -> packed_prefixes bits rest ->
    packed_prefixes bits (l :: octets ++ rest).
(** A list of AS_PATH segments: type, a nonzero count, and that many ASNs. *)
Inductive path_segments (width : Z) : list Z -> Prop :=
| segments_nil : path_segments width []
| segments_cons kind count asns rest :
    1 <= kind <= 4 -> 0 < count -> len asns = width * count -> path_segments width rest ->
    path_segments width (kind :: count :: asns ++ rest).

(** An attribute: its flags, type and value. *)
Definition attr_triple : Type := Z * Z * list Z.
Definition attr_kind (a : attr_triple) : Z := a.1.2.
(** A list of path attributes; flag 16 announces a length of two bytes (RFC 4271 4.3). *)
Inductive path_attributes : list Z -> list attr_triple -> Prop :=
| attributes_nil : path_attributes [] []
| attributes_short f k d rest l :
    Z.testbit f 4 = false -> len d < 256 -> path_attributes rest l ->
    path_attributes ([f; k; len d] ++ d ++ rest) ((f, k, d) :: l)
| attributes_extended f k d rest l :
    Z.testbit f 4 = true -> len d < 65536 -> path_attributes rest l ->
    path_attributes ([f; k; len d / 256; len d mod 256] ++ d ++ rest) ((f, k, d) :: l).

(** What an UPDATE says (RFC 4271 4.3, RFC 4760 3 and 4). *)
Section meaning.
Context {api : IpNetApi}.
(** The networks of one family that packed prefixes name. *)
Inductive names (v6 : bool) : list Z -> list IpNet -> Prop :=
| names_nil : names v6 [] []
| names_cons q rest qs : net_is_ipv6 q = v6 -> names v6 rest qs -> names v6 (nlri_entry q ++ rest) (ipnet_trunc q :: qs).
(** IPv6 networks withdrawn by MP_UNREACH_NLRI, type 15: AFI 2, SAFI 1. *)
Inductive withdraws6 (l : list attr_triple) : list IpNet -> Prop :=
| withdraws6_none : 15 ∉ map attr_kind l -> withdraws6 l []
| withdraws6_some f e qs : (f, 15, [0; 2; 1] ++ e) ∈ l -> names true e qs -> withdraws6 l qs.
(** Networks announced with the octets of their next hop: IPv4 ones after the
    attributes with NEXT_HOP, type 3, IPv6 ones in MP_REACH_NLRI, type 14. *)
Inductive announces4 (l : list attr_triple) : list Z -> list (list Z * IpNet) -> Prop :=
| announces4_none : announces4 l [] []
| announces4_some f hop e qs : (f, 3, hop) ∈ l -> names false e qs -> announces4 l e (map (pair hop) qs).
Inductive announces6 (l : list attr_triple) : list (list Z * IpNet) -> Prop :=
| announces6_none : 14 ∉ map attr_kind l -> announces6 l []
| announces6_some f hop e qs :
    (f, 14, [0; 2; 1; len hop] ++ hop ++ [0] ++ e) ∈ l -> names true e qs -> announces6 l (map (pair hop) qs).
Inductive update_says : list Z -> list IpNet -> list (list Z * IpNet) -> Prop :=
| says w attrs tail l w4 w6 a4 a6 :
    len w < 65536 -> len attrs < 65536 -> path_attributes attrs l -> NoDup (map attr_kind l) ->
    names false w w4 -> withdraws6 l w6 -> announces4 l tail a4 -> announces6 l a6 ->
    update_says ([len w / 256; len w mod 256] ++ w ++ [len attrs / 256; len attrs mod 256] ++ attrs ++ tail)
      (w4 ++ w6) (a4 ++ a6).
End meaning.

(** * Theorems *)
(** ** Grammars *)
Lemma nlri_step_decreases bits :
  decreases_on bytes_ok length (nlri_step bits).
Proof. eapply wp_decreases_on. intros s. apply wp_nlri_step. Qed.

Lemma path_step_decreases width :
  0 <= width -> decreases_on bytes_ok length (path_step width).
Proof. intros Hw. eapply wp_decreases_on. intros s. by apply wp_path_step. Qed.

Lemma nlri_step_cons bits l octets rest :
  l <= bits -> 0 <= l -> len octets = div_ceil8 l ->
  nlri_step bits (l :: octets ++ rest) = Ok (inl rest).
Proof.
  intros Hl H0 Ho. unfold nlri_step. cbn [is_empty].
  change (idx (l :: octets ++ rest) 0) with (Ok l). cbn [mbind res_bind].
  pose proof (div_ceil8_spec l). pose proof (len_nonneg rest).
  rewrite leb_true, ltb_true by (autorewrite with rust; lia). cbn [mbind res_bind require andb].
  change (l :: octets ++ rest) with ((l :: octets) ++ rest).
  by rewrite slice_from_app by (autorewrite with rust; lia).
Qed.

Lemma validate_nlri_cons bits l octets rest :
  bytes_ok (l :: octets ++ rest) -> l <= bits -> len octets = div_ceil8 l ->
  validate_nlri (l :: octets ++ rest) bits = validate_nlri rest bits.
Proof.
  intros Hb Hl Ho. pose proof (proj1 (bytes_ok_cons _ _) Hb) as [[H0 _] _]. unfold validate_nlri.
  rewrite (iterate_unfold_on _ _ _ _ (nlri_step_decreases bits) Hb).
  by rewrite nlri_step_cons.
Qed.

(** Split a byte list after a header and a known number of bytes. *)
Lemma split_at {A} (b : list A) n :
  0 <= n <= len b -> exists l1 l2, b = l1 ++ l2 /\ len l1 = n.
Proof.
  intros Hn. exists (take (Z.to_nat n) b), (drop (Z.to_nat n) b).
  split; [by rewrite take_drop|by apply len_take].
Qed.

(** [validate_nlri] accepts exactly the lists of packed prefixes whose
    lengths are at most the address width and whose octets are all there. *)
Theorem validate_nlri_spec b bits :
  bytes_ok b -> (validate_nlri b bits = Ok tt <-> packed_prefixes bits b).
Proof.
  intros Hb. split.
  - remember (length b) as m eqn:Hm. revert b Hm Hb.
    induction (lt_wf m) as [m _ IH]. intros b -> Hb H.
    destruct b as [|l b]; [constructor|].
    destruct (nlri_nonempty_inv _ _ H ltac:(done)) as (? & ? & [= <- <-] & Hl & Hn).
    pose proof (div_ceil8_spec l). pose proof (proj1 (bytes_ok_cons _ _) Hb) as [[Hl0 _] Hb'].
    rewrite len_cons in Hn.
    destruct (split_at b (div_ceil8 l)) as (octets & rest & -> & Ho); [lia|].
    rewrite validate_nlri_cons in H by done.
    constructor; [done|done|]. eapply IH; [|reflexivity| |done].
    + simpl. rewrite length_app. lia.
    + by apply bytes_ok_app in Hb' as [_ ?].
  - induction 1 as [|l octets rest Hl Ho _ IH]; [done|].
    rewrite validate_nlri_cons by done. apply IH.
    apply bytes_ok_cons in Hb as [_ Hb]. by apply bytes_ok_app in Hb as [_ ?].
Qed.

Lemma path_step_cons width kind count asns rest :
  0 <= width -> 1 <= kind <= 4 -> 0 < count -> len asns = width * count ->
  path_step width (kind :: count :: asns ++ rest) = Ok (inl rest).
Proof.
  intros Hw Hk Hc Ha. unfold path_step. cbn [is_empty].
  pose proof (len_nonneg rest). pose proof (len_nonneg asns).
  rewrite leb_true by (autorewrite with rust; lia). cbn [and_then].
  change (idx (kind :: count :: asns ++ rest) 0) with (Ok kind).
  change (idx (kind :: count :: asns ++ rest) 1) with (Ok count). cbn [mbind res_bind].
  rewrite (proj2 (contains_range_spec 1 4 kind)), ltb_true by lia. cbn [and_then mbind res_bind require].
  rewrite leb_true by (autorewrite with rust; lia). cbn [mbind res_bind require].
  change (kind :: count :: asns ++ rest) with ((kind :: count :: asns) ++ rest).
  by rewrite slice_from_app by (autorewrite with rust; lia).
Qed.

Lemma validate_path_cons width kind count asns rest :
  bytes_ok (kind :: count :: asns ++ rest) ->
  0 <= width -> 1 <= kind <= 4 -> 0 < count -> len asns = width * count ->
  validate_path (kind :: count :: asns ++ rest) width = validate_path rest width.
Proof.
  intros Hb ? ? ? ?. unfold validate_path.
  rewrite (iterate_unfold_on _ _ _ _ (path_step_decreases width ltac:(done)) Hb).
  by rewrite path_step_cons.
Qed.

(** [C32] [validate_path] accepts exactly the sequences of well-formed AS_PATH
    segments of the given ASN width. *)
Theorem validate_path_spec b width :
  bytes_ok b -> 0 <= width -> (validate_path b width = Ok tt <-> path_segments width b).
Proof.
  intros Hb Hw. split.
  - remember (length b) as m eqn:Hm. revert b Hm Hb.
    induction (lt_wf m) as [m _ IH]. intros b -> Hb H.
    pose proof H as Hv. unfold validate_path in H.
    rewrite (iterate_unfold_on _ _ _ _ (path_step_decreases width Hw) Hb) in H.
    apply bind_ok_inv in H as (r & Hr & H). unfold path_step in Hr.
    destruct b as [|kind b]; [constructor|]. cbn [is_empty] in Hr.
    apply bind_ok_inv in Hr as (ok & Hok & Hr). apply require_bind_ok in Hr as [-> Hr].
    unfold and_then in Hok. destruct (Z.leb_spec 2 (len (kind :: b))) as [H2|]; [|done].
    destruct b as [|count b]; [done|].
    change (idx (kind :: count :: b) 0) with (Ok kind) in Hok.
    change (idx (kind :: count :: b) 1) with (Ok count) in *. cbn [mbind res_bind] in *.
    destruct (contains_range 1 4 kind) eqn:Hk; [|done]. injection Hok as Hc.
    apply contains_range_spec in Hk. apply require_bind_ok in Hr as [Hl _].
    rewrite !len_cons in Hl.
    destruct (split_at b (width * count)) as (asns & rest & -> & Ha); [lia|].
    assert (Hbr : bytes_ok rest).
    { apply bytes_ok_cons in Hb as [_ Hb]. apply bytes_ok_cons in Hb as [_ Hb].
      by apply bytes_ok_app in Hb as [_ ?]. }
    constructor; [done|lia|done|].
    eapply IH; [|reflexivity|done|].
    + simpl. rewrite length_app. lia.
    + by rewrite validate_path_cons in Hv by (done || lia).
  - induction 1 as [|kind count asns rest Hk Hc Ha _ IH]; [done|].
    rewrite validate_path_cons by done. apply IH.
    apply bytes_ok_cons in Hb as [_ Hb]. apply bytes_ok_cons in Hb as [_ Hb].
    by apply bytes_ok_app in Hb as [_ ?].
Qed.

(** ** Packing and unpacking one prefix *)
Lemma be_bytes_app n m x : be_bytes (n + m) x = be_bytes n (x / 256 ^ Z.of_nat m) ++ be_bytes m x.
Proof.
  induction n as [|n IH]; [done|]. cbn [be_bytes Nat.add app]. rewrite IH. f_equal.
  rewrite Nat2Z.inj_add, Z.pow_add_r by lia.
  rewrite (Z.mul_comm (256 ^ Z.of_nat n)), Z.div_div by lia. done.
Qed.

Lemma be_bytes_zero n x : x mod 256 ^ Z.of_nat n = 0 -> be_bytes n x = replicate n 0.
Proof.
  intros Hx. rewrite <- (be_bytes_mod n n) by done. rewrite Hx. clear Hx.
  induction n as [|n IH]; [done|]. cbn [be_bytes replicate]. by rewrite Z.div_0_l, IH by lia.
Qed.

(** Dropping zero trailing bytes and padding again is the identity. *)
Lemma take_pad k n x :
  (n <= k)%nat -> x mod 256 ^ Z.of_nat (k - n) = 0 ->
  take n (be_bytes k x) ++ replicate (k - n) 0 = be_bytes k x.
Proof.
  intros Hn Hx. replace k with (n + (k - n))%nat at 1 3 by lia.
  rewrite be_bytes_app, take_app_length' by by rewrite length_be_bytes.
  by rewrite (be_bytes_zero (k - n)) by done.
Qed.

Lemma mask_value_low w x l n :
  0 <= l <= 8 * n -> 8 * n <= w -> mask_value w x l mod 256 ^ (w / 8 - n) = 0 \/ w mod 8 <> 0.
Proof.
  intros Hl Hw. destruct (Z.eq_dec (w mod 8) 0) as [Hm|]; [left|by right].
  pose proof (Z.div_mod w 8). unfold mask_value.
  replace (256 ^ (w / 8 - n)) with (2 ^ (8 * (w / 8 - n)))
    by (rewrite Z.pow_mul_r by lia; done).
  replace (w - l) with ((8 * n - l) + 8 * (w / 8 - n)) by lia.
  rewrite Z.pow_add_r, Z.mul_assoc by lia. apply Z.mod_mul.
  pose proof (Z.pow_pos_nonneg 2 (8 * (w / 8 - n))). lia.
Qed.

Section nlri.
Context {api : IpNetApi} {laws : IpNetLaws}.
Implicit Types (p : IpNet) (ps : list IpNet).

Lemma network_octets_ok p : bytes_ok (network_octets p).
Proof. unfold network_octets. destruct (ipnet_network p); apply be_bytes_ok. Qed.

Lemma network_family p :
  exists x, 
    (net_is_ipv6 p = false /\ ipnet_network p = IpV4 x /\ 0 <= ipnet_prefix_len p <= 32 /\
     0 <= x < 2 ^ 32 /\ exists y, x = mask_value 32 y (ipnet_prefix_len p)) \/
    (net_is_ipv6 p = true /\ ipnet_network p = IpV6 x /\ 0 <= ipnet_prefix_len p <= 128 /\
     0 <= x < 2 ^ 128 /\ exists y, x = mask_value 128 y (ipnet_prefix_len p)).
Proof.
  pose proof (network_ok p) as Hok. pose proof (ipnet_prefix_len_ok p).
  unfold net_is_ipv6. rewrite ipnet_network_spec in *.
  destruct (ipnet_addr p) as [y|y]; simpl in *; eexists; [left|right]; eauto 10.
Qed.

Lemma len_nlri_octets p :
  len (take (Z.to_nat (div_ceil8 (ipnet_prefix_len p))) (network_octets p))
    = div_ceil8 (ipnet_prefix_len p).
Proof.
  pose proof (div_ceil8_spec (ipnet_prefix_len p)).
  apply len_take. unfold network_octets.
  destruct (network_family p) as (x & [(_ & -> & ? & _)|(_ & -> & ? & _)]);
    unfold octets4, octets6; rewrite len_be_bytes; lia.
Qed.

Lemma nlri_value out p : nlri out p = Ok (out ++ nlri_entry p).
Proof.
  unfold nlri, nlri_entry, slice_to. pose proof (div_ceil8_spec (ipnet_prefix_len p)).
  pose proof (ipnet_prefix_len_ok p).
  rewrite slice_ok; [by rewrite Z.sub_0_r|lia|]. rewrite <- len_nlri_octets at 1.
  unfold len. rewrite length_take. lia.
Qed.

Lemma nlri_entries_cons p ps : nlri_entries (p :: ps) = nlri_entry p ++ nlri_entries ps.
Proof. done. Qed.

Lemma nlri_list out ps : for_fold nlri out ps = Ok (out ++ nlri_entries ps).
Proof.
  revert out. induction ps as [|p ps IH]; intros out; simpl; [by rewrite app_nil_r|].
  rewrite nlri_value. cbn [mbind res_bind].
  by rewrite IH, nlri_entries_cons, <- app_assoc.
Qed.

Lemma nlri_entry_ok p : bytes_ok (nlri_entry p).
Proof.
  constructor; [|apply Forall_take, network_octets_ok]. pose proof (ipnet_prefix_len_ok p).
  unfold byte_ok. destruct (ipnet_addr p); simpl in *; lia.
Qed.

Lemma nlri_entries_ok ps : bytes_ok (nlri_entries ps).
Proof.
  induction ps as [|p ps IH]; [by constructor|]. rewrite nlri_entries_cons.
  apply bytes_ok_app. split; [apply nlri_entry_ok|done].
Qed.

Definition all_family (v6 : bool) (ps : list IpNet) : Prop :=
  Forall (fun p => net_is_ipv6 p = v6) ps.

Lemma prefix_len_family p v6 :
  net_is_ipv6 p = v6 -> 0 <= ipnet_prefix_len p <= nlri_bits v6.
Proof. intros <-. destruct (network_family p) as (x & [(-> & _ & ? & _)|(-> & _ & ? & _)]); done. Qed.

(** At most 5 bytes per IPv4 prefix and 17 per IPv6 prefix. *)
Lemma len_nlri_entries v6 ps :
  all_family v6 ps -> 0 <= len (nlri_entries ps) <= (1 + nlri_bits v6 / 8) * len ps.
Proof.
  induction 1 as [|p ps Hp Hps IH]; [by destruct v6|].
  rewrite nlri_entries_cons. unfold nlri_entry. rewrite len_app, !len_cons, len_nlri_octets.
  pose proof (prefix_len_family p v6 Hp). pose proof (div_ceil8_spec (ipnet_prefix_len p)).
  assert (nlri_bits v6 = 8 * (nlri_bits v6 / 8)) by by destruct v6. lia.
Qed.

Lemma validate_nlri_entries v6 ps :
  all_family v6 ps -> validate_nlri (nlri_entries ps) (nlri_bits v6) = Ok tt.
Proof.
  induction 1 as [|p ps Hp Hps IH]; [done|].
  pose proof (nlri_entries_ok (p :: ps)) as Hok. rewrite nlri_entries_cons in *.
  unfold nlri_entry in *. rewrite <- app_comm_cons in *.
  rewrite validate_nlri_cons; [done|done|by apply (prefix_len_family p v6 Hp)|apply len_nlri_octets].
Qed.

(** The zero-padded address buffer of [append] holds the network address. *)
Lemma nlri_ip_network p v6 :
  net_is_ipv6 p = v6 ->
  nlri_ip v6 (take (Z.to_nat (div_ceil8 (ipnet_prefix_len p))) (network_octets p) ++
              replicate (Z.to_nat (16 - div_ceil8 (ipnet_prefix_len p))) 0) = ipnet_network p.
Proof.
  intros Hv. unfold network_octets, nlri_ip.
  pose proof (div_ceil8_spec (ipnet_prefix_len p)) as Hc.
  set (l := ipnet_prefix_len p) in *. set (n := div_ceil8 l) in *.
  destruct (network_family p) as (x & [(Hf & Hx & Hl & Hb & y & Hy)|(Hf & Hx & Hl & Hb & y & Hy)]);
    fold l in Hl, Hy; rewrite Hf in Hv; subst v6; rewrite Hx; f_equal.
  - unfold octets4. replace (Z.to_nat (16 - n)) with (4 - Z.to_nat n + 12)%nat by lia.
    rewrite replicate_add, app_assoc, take_pad.
    + exact (from_be_be_bytes_small 4 x Hb).
    + lia.
    + replace (Z.of_nat (4 - Z.to_nat n)) with (4 - n) by (clearbody n; lia).
      destruct (mask_value_low 32 y l n) as [Hm|[]]; [lia|lia| |done].
      change (32 / 8) with 4 in Hm. by rewrite Hy.
  - unfold octets6, ipv6_from. replace (Z.to_nat (16 - n)) with (16 - Z.to_nat n)%nat by lia.
    rewrite take_pad.
    + exact (from_be_be_bytes_small 16 x Hb).
    + lia.
    + replace (Z.of_nat (16 - Z.to_nat n)) with (16 - n) by (clearbody n; lia).
      destruct (mask_value_low 128 y l n) as [Hm|[]]; [lia|lia| |done].
      change (128 / 8) with 16 in Hm. by rewrite Hy.
Qed.

Lemma append_step_entry p v6 rest out :
  net_is_ipv6 p = v6 -> append_step v6 (nlri_entry p ++ rest, out) = Ok (inl (rest, out ++ [ipnet_trunc p])).
Proof.
  intros Hv. pose proof (nlri_ip_network p v6 Hv) as Hip. pose proof (len_nlri_octets p) as Ho.
  pose proof (prefix_len_family p v6 Hv) as Hl. pose proof (nlri_bits_bound v6).
  pose proof (div_ceil8_spec (ipnet_prefix_len p)). pose proof (len_nonneg rest).
  unfold nlri_entry, append_step.
  set (octets := take _ (network_octets p)) in *. set (l := ipnet_prefix_len p) in *.
  rewrite <- app_comm_cons. cbn [is_empty].
  change (idx (l :: octets ++ rest) 0) with (Ok l). cbn [mbind res_bind].
  rewrite (ltb_false (nlri_bits v6)), ltb_false by (autorewrite with rust; lia). cbn [orb].
  assert (Hs : slice (l :: octets ++ rest) 1 (1 + div_ceil8 l) = Ok octets).
  { apply (slice_middle [l] octets rest); [done|]. change (len [l]) with 1. lia. }
  rewrite Hs. unfold assert_. cbn [mbind res_bind]. rewrite leb_true by lia.
  cbn [mbind res_bind]. rewrite Hip.
  destruct (ipnet_new_some (ipnet_network p) l) as (m & Hm & _).
  { apply network_ok. }
  { rewrite ipnet_network_spec, mask_addr_width. apply ipnet_prefix_len_ok. }
  rewrite Hm. cbn [mbind res_bind unwrap]. rewrite (new_network_trunc p m Hm).
  change (l :: octets ++ rest) with ((l :: octets) ++ rest).
  by rewrite slice_from_app by (autorewrite with rust; lia).
Qed.

Lemma append_entries ps v6 out :
  all_family v6 ps -> append (nlri_entries ps) v6 out = Ok (out ++ map ipnet_trunc ps).
Proof.
  intros Hps. revert out. induction Hps as [|p ps Hp Hps IH]; intros out.
  { simpl. by rewrite app_nil_r. }
  unfold append. rewrite (iterate_unfold_on _ _ _ _ (append_decreases v6)) by apply nlri_entries_ok.
  rewrite nlri_entries_cons, append_step_entry by done. cbn [mbind res_bind].
  fold (append (nlri_entries ps) v6 (out ++ [ipnet_trunc p])). rewrite IH.
  simpl. by rewrite <- app_assoc.
Qed.
End nlri.

(** ** Path attributes *)
Lemma attr_app out f k d : attr out f k d = out ++ attr [] f k d.
Proof. done. Qed.

(** The flags octet [attr] writes. *)
Definition sent_flags (f : Z) (d : list Z) : Z := Z.lor f (if 255 <? len d then 16 else 0).

Lemma sent_flags_spec f d k :
  f ∈ [64; 128; 192] ->
  attr_header (sent_flags f d) = (if 255 <? len d then 4 else 3) /\
  flags_ok k (sent_flags f d) = flags_ok k f /\ byte_ok (sent_flags f d).
Proof.
  unfold sent_flags. rewrite !elem_of_cons. intros Hf. destruct (255 <? len d);
    destruct Hf as [->|[->|[->|Hf]]]; try (by apply not_elem_of_nil in Hf); by split_and!.
Qed.

Section attr_fields.
Context (f k : Z) (d rest : list Z).
Hypothesis Hf : f ∈ [64; 128; 192].
Hypothesis Hd : len d < 65536.
Let b := attr [] f k d ++ rest.
Let h := attr_header (sent_flags f d).

Lemma attr_split :
  exists hdr, b = hdr ++ d ++ rest /\ len hdr = h /\
    idx b 0 = Ok (sent_flags f d) /\ idx b 1 = Ok k /\
    (if h =? 4 then (t ← slice_from b 2; u16b t) else idx b 2) = Ok (len d).
Proof.
  pose proof (len_nonneg d). destruct (sent_flags_spec f d k Hf) as (Hh & _ & _).
  subst b h. rewrite Hh. unfold attr. fold (sent_flags f d). rewrite app_nil_l.
  destruct (Z.ltb_spec 255 (len d)).
  - exists ([sent_flags f d; k] ++ be_bytes 2 (len d)). unfold as_u16. rewrite Z.mod_small by lia.
    rewrite <- !app_assoc. split_and!; try done. cbn [Z.eqb Pos.eqb].
    rewrite slice_from_app by done. cbn [mbind res_bind]. by apply u16b_be_bytes.
  - exists ([sent_flags f d; k] ++ [len d]). unfold as_u8. rewrite Z.mod_small by lia.
    rewrite <- !app_assoc. by split_and!.
Qed.

Lemma attr_fields :
  3 <= h <= 4 /\ len b = h + len d + len rest /\
  idx b 0 = Ok (sent_flags f d) /\ idx b 1 = Ok k /\
  (if h =? 4 then (t ← slice_from b 2; u16b t) else idx b 2) = Ok (len d) /\
  slice b h (h + len d) = Ok d /\ slice_to b (h + len d) = Ok (attr [] f k d) /\
  slice_from b (h + len d) = Ok rest.
Proof.
  destruct attr_split as (hdr & Hb & Hh & H0 & H1 & Hl). pose proof (attr_header_bound (sent_flags f d)).
  assert (Ha : attr [] f k d = hdr ++ d).
  { subst b. rewrite app_assoc in Hb. by apply app_inv_tail in Hb. }
  split_and!; try done; try (subst h; lia).
  - rewrite Hb, !len_app. lia.
  - rewrite Hb. apply slice_middle; lia.
  - subst b. rewrite Ha. apply slice_to_app. rewrite len_app. lia.
  - subst b. rewrite Ha. apply slice_from_app. rewrite len_app. lia.
Qed.

Lemma is_empty_attr : is_empty b = false.
Proof.
  apply is_empty_false. destruct attr_fields as (? & -> & _).
  pose proof (len_nonneg d). pose proof (len_nonneg rest). lia.
Qed.

(** One iteration of the attribute loop on an attribute [attr] encoded. *)
Lemma attr_step_attr n seen mp action :
  len seen = 256 -> 0 <= k < 256 -> seen !! Z.to_nat k = Some false ->
  always_discarded n k = false -> flags_ok k f = true ->
  attr_step n (mkUpdState b seen mp action) =
    (if (k =? 14) || (k =? 15) then
       mp' ← check_mp k (sent_flags f d) d mp;
       Ok (inl (mkUpdState rest (<[Z.to_nat k := true]> seen) mp' action))
     else
       valid ← check_value n k (sent_flags f d) d (attr [] f k d);
       Ok (inl (mkUpdState rest (<[Z.to_nat k := true]> seen) mp
         (if (valid : bool) then action
          else action_max action
                 (if bool_decide (k ∈ [6; 7; 17; 18]) then AttributeDiscard else TreatAsWithdraw))))).
Proof.
  intros Hs Hk Hseen Hdisc Hfl. destruct attr_fields as (Hh & Hlen & H0 & H1 & Hl & Hdata & Hto & Hfrom).
  pose proof (len_nonneg d). pose proof (len_nonneg rest).
  unfold attr_step. cbn [us_attrs us_seen us_mp_reach us_action].
  rewrite is_empty_attr, (ltb_false (len b) 3), H0 by lia. cbn [mbind res_bind]. fold h.
  rewrite H1. cbn [mbind res_bind]. rewrite (ltb_false (len b) h), Hl by lia. cbn [mbind res_bind].
  rewrite (ltb_false (len b)), Hdata by lia. cbn [mbind res_bind].
  rewrite (idx_lookup seen k false), set_idx_ok by (done || lia). cbn [mbind res_bind].
  rewrite Hdisc, Hto, Hfrom. destruct (sent_flags_spec f d k Hf) as (_ & -> & _). rewrite Hfl.
  destruct ((k =? 14) || (k =? 15)); cbn [mbind res_bind negb orb].
  - done.
  - destruct (check_value _ _ _ _ _) as [[]| | |]; done.
Qed.

Lemma prefixes_step_attr {api : IpNetApi} (out : list IpNet) :
  prefixes_step (b, out) = out' ← prefixes_attr k d out; Ok (inl (rest, out')).
Proof.
  destruct attr_fields as (Hh & Hlen & H0 & H1 & Hl & Hdata & Hto & Hfrom).
  pose proof (len_nonneg d). pose proof (len_nonneg rest).
  unfold prefixes_step. rewrite (ltb_false (len b) 3), H0 by lia. cbn [mbind res_bind]. fold h.
  rewrite (ltb_false (len b) h), Hl by lia. cbn [mbind res_bind].
  rewrite (ltb_false (len b)), Hdata, H1 by lia. cbn [mbind res_bind].
  by rewrite Hfrom.
Qed.
End attr_fields.

Lemma attr_bytes_ok f k d :
  f ∈ [64; 128; 192] -> byte_ok k -> bytes_ok d -> bytes_ok (attr [] f k d).
Proof.
  intros Hf Hk Hd. destruct (sent_flags_spec f d k Hf) as (_ & _ & Hb).
  unfold attr. rewrite app_nil_l, !bytes_ok_app.
  split_and!; [by apply Forall_cons; split; [|apply Forall_singleton]| |done].
  destruct (255 <? len d); [apply be_bytes_ok|]. apply Forall_singleton, Z.mod_pos_bound; lia.
Qed.

(** ** Attribute lists *)
Definition encode_attr (a : attr_triple) : list Z := let '(f, k, d) := a in attr [] f k d.
Definition encode_attrs (l : list attr_triple) : list Z := concat (map encode_attr l).

(** An attribute the loop accepts without any action; [reach] says that it
    carries reachable NLRI. *)
Record attr_accepted (n : Negotiated) (a : attr_triple) (reach : bool) : Prop := {
  acc_flags : a.1.1 ∈ [64; 128; 192];
  acc_kind : byte_ok a.1.2;
  acc_data : bytes_ok a.2;
  acc_len : len a.2 < 65536;
  acc_kept : always_discarded n a.1.2 = false;
  acc_flags_ok : flags_ok a.1.2 a.1.1 = true;
  acc_check :
    if (a.1.2 =? 14) || (a.1.2 =? 15)
    then forall mp, check_mp a.1.2 (sent_flags a.1.1 a.2) a.2 mp = Ok (mp || reach)
    else reach = false /\
         check_value n a.1.2 (sent_flags a.1.1 a.2) a.2 (attr [] a.1.1 a.1.2 a.2) = Ok true
}.

Lemma encode_attrs_ok n l rs : Forall2 (attr_accepted n) l rs -> bytes_ok (encode_attrs l).
Proof.
  induction 1 as [|[[f k] d] r l rs [] _ IH]; [by constructor|].
  unfold encode_attrs. apply bytes_ok_app. split; [by apply attr_bytes_ok|done].
Qed.

Lemma kinds_ok n l rs : Forall2 (attr_accepted n) l rs -> Forall byte_ok (map attr_kind l).
Proof. induction 1 as [|[[f k] d] r l rs [] _ IH]; by constructor. Qed.

Lemma check_attrs_encode n l rs seen mp :
  Forall2 (attr_accepted n) l rs -> NoDup (map attr_kind l) -> len seen = 256 ->
  Forall (fun k => seen !! Z.to_nat k = Some false) (map attr_kind l) ->
  exists seen',
    iterate (fun s => length (us_attrs s)) (attr_step n) (mkUpdState (encode_attrs l) seen mp Valid)
      = Ok (mkUpdState [] seen' (mp || existsb id rs) Valid) /\ len seen' = 256 /\
    (forall k, 0 <= k < 256 -> seen' !! Z.to_nat k =
       if bool_decide (k ∈ map attr_kind l) then Some true else seen !! Z.to_nat k).
Proof.
  intros Hall. revert seen mp. induction Hall as [|[[f k] d] r l rs Ha Hl IH]; intros seen mp Hnd Hs Hun.
  { exists seen. simpl. rewrite orb_false_r. split_and!; try done. }
  simpl in Hnd, Hun. apply NoDup_cons in Hnd as [Hnk Hnd]. apply Forall_cons in Hun as [Hk Hun].
  destruct Ha as [Hf Hb Hd Hlen Hdisc Hfl Hcheck]. cbn [fst snd attr_kind] in *.
  pose proof (kinds_ok n l rs Hl) as Hbs. rewrite Forall_forall in Hbs.
  rewrite (iterate_unfold_on _ _ _ _ (attr_step_decreases n)).
  2: { split; [|done]. apply (encode_attrs_ok n ((f, k, d) :: l) (r :: rs)). by constructor; [split|]. }
  change (encode_attrs ((f, k, d) :: l)) with (attr [] f k d ++ encode_attrs l).
  rewrite attr_step_attr by done.
  destruct (IH (<[Z.to_nat k := true]> seen) (mp || r)) as (seen' & Hit & Hs' & Hseen).
  { done. }
  { by rewrite len_insert. }
  { rewrite Forall_forall in Hun |- *. intros k' Hin. rewrite list_lookup_insert_ne; [by apply Hun|].
    intros E. assert (k = k') as <-; [|done]. apply Hbs in Hin. unfold byte_ok in *. lia. }
  exists seen'. change (existsb id (r :: rs)) with (r || existsb id rs).
  rewrite orb_assoc. split_and!; [|done|].
  - destruct ((k =? 14) || (k =? 15)).
    + rewrite Hcheck. cbn [mbind res_bind]. exact Hit.
    + destruct Hcheck as [-> ->]. rewrite orb_false_r in Hit. cbn [mbind res_bind]. rewrite Hit.
      by rewrite orb_false_r.
  - intros k' Hk'. rewrite Hseen by done. change (map attr_kind ((f, k, d) :: l)) with (k :: map attr_kind l).
    destruct (decide (k' = k)) as [->|Hne].
    + rewrite (bool_decide_eq_true_2 (k ∈ k :: _)) by by left.
      rewrite list_lookup_insert_eq by (unfold byte_ok, len in *; lia). by case_bool_decide.
    + rewrite list_lookup_insert_ne by (unfold byte_ok in *; lia).
      rewrite (bool_decide_ext (k' ∈ map attr_kind l) (k' ∈ k :: map attr_kind l)); [done|].
      rewrite elem_of_cons. naive_solver.
Qed.

(** The encoder's attribute lists are in the grammar. *)
Lemma two_bytes x : 0 <= x < 65536 -> be_bytes 2 x = [x / 256; x mod 256].
Proof.
  intros Hx. cbn [be_bytes Z.of_nat]. change (256 ^ Z.of_nat 1) with 256. change (256 ^ 0) with 1.
  rewrite Z.div_1_r, (Z.mod_small (x / 256)); [done|].
  split; [apply Z.div_pos; lia|]. apply Z.div_lt_upper_bound; lia.
Qed.
Definition sent_triple (a : attr_triple) : attr_triple := (sent_flags a.1.1 a.2, a.1.2, a.2).
Lemma path_attributes_encode n l rs :
  Forall2 (attr_accepted n) l rs -> path_attributes (encode_attrs l) (map sent_triple l).
Proof.
  induction 1 as [|[[f k] d] r l rs [Hf _ _ Hlen _ _ _] _ IH]; [apply attributes_nil|]. cbn [fst snd] in *.
  change (encode_attrs ((f, k, d) :: l)) with (attr [] f k d ++ encode_attrs l). cbn [map]. unfold sent_triple at 1.
  cbn [fst snd]. pose proof (len_nonneg d). unfold attr. fold (sent_flags f d). rewrite app_nil_l.
  assert (Hbit : Z.testbit (sent_flags f d) 4 = (255 <? len d)).
  { unfold sent_flags. rewrite !elem_of_cons in Hf. destruct (255 <? len d);
      destruct Hf as [->|[->|[->|Hf]]]; try (by apply not_elem_of_nil in Hf); by vm_compute. }
  destruct (Z.ltb_spec 255 (len d)).
  - unfold as_u16. rewrite Z.mod_small, two_bytes, <- !app_assoc by lia. by apply attributes_extended.
  - unfold as_u8. rewrite Z.mod_small, <- !app_assoc by lia. apply attributes_short; [done|lia|done].
Qed.
Lemma kinds_sent l : map attr_kind (map sent_triple l) = map attr_kind l.
Proof. rewrite map_map. by apply map_ext. Qed.
Lemma names_entries {api : IpNetApi} v6 (ps : list IpNet) :
  all_family v6 ps -> names v6 (nlri_entries ps) (map ipnet_trunc ps).
Proof. induction 1 as [|q ps Hq _ IH]; [apply names_nil|]. by apply names_cons. Qed.

(** ** Whole bodies *)
Definition update_body (withdrawn attrs tail : list Z) : list Z :=
  be_bytes 2 (len withdrawn) ++ withdrawn ++ be_bytes 2 (len attrs) ++ attrs ++ tail.

Section body.
Context (withdrawn attrs tail : list Z).
Hypothesis Hfit : len withdrawn + len attrs + len tail + 4 <= 4077.
Let b := update_body withdrawn attrs tail.
Let w := len withdrawn.
Let a := len attrs.

Lemma body_fields :
  len b = w + a + len tail + 4 /\ u16b b = Ok w /\ slice b 2 (2 + w) = Ok withdrawn /\
  (t ← slice_from b (2 + w); u16b t) = Ok a /\ slice_from b (4 + w + a) = Ok tail /\
  slice b (4 + w) (4 + w + a) = Ok attrs.
Proof.
  pose proof (len_nonneg withdrawn). pose proof (len_nonneg attrs). pose proof (len_nonneg tail).
  subst b w a. unfold update_body. split_and!.
  - autorewrite with rust. lia.
  - apply u16b_be_bytes. lia.
  - by apply slice_middle.
  - rewrite (app_assoc (be_bytes 2 _)), slice_from_app by (autorewrite with rust; lia).
    apply u16b_be_bytes. lia.
  - rewrite (app_assoc (be_bytes 2 _)), (app_assoc (be_bytes 2 (len attrs))),
      (app_assoc (_ ++ withdrawn)).
    apply slice_from_app. autorewrite with rust. lia.
  - rewrite (app_assoc (be_bytes 2 _)), (app_assoc (_ ++ withdrawn)).
    apply slice_middle; autorewrite with rust; lia.
Qed.

Lemma validate_update_body n :
  validate_nlri withdrawn 32 = Ok tt -> validate_nlri tail 32 = Ok tt ->
  validate_update b n = s ← check_attrs n attrs; finish_update n tail s.
Proof.
  intros Hw Ht. destruct body_fields as (Hl & H1 & H2 & H3 & H4 & H5). unfold validate_update.
  pose proof (len_nonneg withdrawn). pose proof (len_nonneg attrs). pose proof (len_nonneg tail).
  rewrite leb_true, H1 by lia. cbn [mbind res_bind require]. rewrite leb_true by lia.
  cbn [mbind res_bind require]. rewrite H2. cbn [mbind res_bind]. rewrite Hw, H3. cbn [mbind res_bind].
  rewrite leb_true by lia. cbn [mbind res_bind require]. rewrite H4. cbn [mbind res_bind].
  rewrite Ht, H5. done.
Qed.

Lemma update_prefixes_body {api : IpNetApi} :
  update_prefixes b = out ← append tail false []; attr_prefixes attrs out.
Proof.
  destruct body_fields as (Hl & H1 & _ & H3 & H4 & H5). unfold update_prefixes.
  pose proof (len_nonneg withdrawn). pose proof (len_nonneg attrs). pose proof (len_nonneg tail).
  rewrite (ltb_false (len b) 4), H1 by lia. cbn [mbind res_bind].
  rewrite (ltb_false (len b) (w + 4)), H3 by lia. cbn [mbind res_bind].
  rewrite (ltb_false (len b)), H4 by lia. cbn [mbind res_bind].
  rewrite H5. by destruct (append tail false []).
Qed.
End body.

Lemma attr_prefixes_encode {api : IpNetApi} {laws : IpNetLaws} n l rs out :
  Forall2 (attr_accepted n) l rs ->
  attr_prefixes (encode_attrs l) out =
    for_fold (fun out a => prefixes_attr (attr_kind a) a.2 out) out l.
Proof.
  intros Hall. revert out. induction Hall as [|[[f k] d] r l rs Ha Hl IH]; intros out; [done|].
  assert (Hok : bytes_ok (encode_attrs ((f, k, d) :: l))).
  { apply (encode_attrs_ok n _ (r :: rs)). by constructor. }
  destruct Ha as [Hf Hb Hd Hlen _ _ _]. cbn [fst snd] in *.
  unfold attr_prefixes. rewrite (iterate_unfold_on _ _ _ _ prefixes_step_decreases) by done.
  change (encode_attrs ((f, k, d) :: l)) with (attr [] f k d ++ encode_attrs l).
  rewrite prefixes_step_attr by done. cbn [for_fold attr_kind fst snd].
  destruct (prefixes_attr k d out) as [out'| | |]; try done. cbn [mbind res_bind]. apply IH.
Qed.

Lemma prefixes_attr_other {api : IpNetApi} k d out : k <> 14 -> prefixes_attr k d out = Ok out.
Proof. intros Hk. unfold prefixes_attr. by rewrite eqb_false. Qed.
