(* ===== verification/RoundTrip.v ===== *)
(** * UPDATE encoding against UPDATE validation (src/src/wire.rs)

    No definitions of the program: what [update] sends is within the message
    limit, is accepted unconditionally by [validate_update], and is decoded by
    [update_prefixes] to the networks that were announced. *)
From S2P Require Import Prelude Net Config Frame Open Update Validate Grammar.

(** ** The attributes of an announcement *)
Section announce.
Context {api : IpNetApi} {laws : IpNetLaws} (cfg : Config) (p : Peer) (n : Negotiated).
Hypothesis Htyped : config_typed cfg.
Hypothesis Hptyped : peer_typed p.
Hypothesis Hok : peer_ok cfg p.
Hypothesis Hneg : negotiated_ok cfg p n.

Definition base_triples (nh : option Z) : list attr_triple :=
  [(64, 1, [2]); (64, 2, as_path cfg p n)] ++
  (if negb (n_asn4 n) && (65535 <? c_asn cfg) && negb (c_asn cfg =? p_remote_asn p)
   then [(192, 17, [2; 1] ++ be_bytes 4 (c_asn cfg))] else []) ++
  (if c_asn cfg =? p_remote_asn p then [(64, 5, be_bytes 4 100)] else []) ++
  match nh with Some a => [(64, 3, octets4 a)] | None => [] end.

Lemma encode_attrs_app l1 l2 : encode_attrs (l1 ++ l2) = encode_attrs l1 ++ encode_attrs l2.
Proof. unfold encode_attrs. by rewrite map_app, concat_app. Qed.
Lemma encode_attrs_single a : encode_attrs [a] = encode_attr a.
Proof. apply app_nil_r. Qed.

Lemma announce_attrs_value v6 attrs :
  (v6 = false -> is_Some (nh4 p)) ->
  announce_attrs cfg p n v6 attrs =
    Ok (attrs ++ encode_attrs (base_triples (if v6 then None else nh4 p))).
Proof.
  intros Hnh. unfold announce_attrs, base_triples. rewrite !(attr_app attrs), !(attr_app (_ ++ _)).
  rewrite !encode_attrs_app.
  change (encode_attrs [(64, 1, [2]); (64, 2, as_path cfg p n)])
    with (attr [] 64 1 [2] ++ attr [] 64 2 (as_path cfg p n) ++ []). rewrite app_nil_r.
  assert (Hnil : encode_attrs [] = []) by done.
  destruct v6; [|destruct Hnh as [nh ->]; [done|]];
    destruct (negb (n_asn4 n) && _ && _), (c_asn cfg =? p_remote_asn p);
    cbn [mbind res_bind unwrap];
    rewrite ?encode_attrs_single, ?Hnil, ?(attr_app (_ ++ _)), ?app_nil_r, ?app_nil_l;
    cbn [encode_attr]; by rewrite <- ?app_assoc.
Qed.

Lemma as_path_ok : bytes_ok (as_path cfg p n) /\ 0 <= len (as_path cfg p n) <= 6.
Proof.
  unfold as_path. destruct (negb _), (n_asn4 n); (split; [|done]);
    try (apply bytes_ok_app; split; [by repeat constructor|apply be_bytes_ok]); by constructor.
Qed.

Lemma validate_as_path width (v : list Z) :
  0 <= width -> bytes_ok v -> len v = width -> validate_path ([2; 1] ++ v) width = Ok tt.
Proof.
  intros Hw Hv Hl. rewrite <- (app_nil_r v). cbn [app]. rewrite validate_path_cons; try done; try lia.
  apply bytes_ok_cons. split; [done|]. apply bytes_ok_cons. split; [done|]. by rewrite app_nil_r.
Qed.

Ltac small_attr :=
  split; cbn [fst snd]; [by rewrite !elem_of_cons; auto| by vm_compute| | |  | done | ].

Lemma origin_accepted : attr_accepted n (64, 1, [2]) false.
Proof.
  small_attr; [by apply Forall_singleton|done| |done].
  unfold always_discarded. by destruct (n_asn4 n), (n_internal n).
Qed.

Lemma as_path_accepted : attr_accepted n (64, 2, as_path cfg p n) false.
Proof.
  destruct as_path_ok as [Hb Hl].
  small_attr; [done|lia| |].
  - unfold always_discarded. by destruct (n_asn4 n), (n_internal n).
  - cbn [Z.eqb Pos.eqb orb]. split; [done|]. unfold check_value. cbn [Z.eqb Pos.eqb].
    unfold as_path. destruct (negb _); [|done].
    destruct (n_asn4 n); by rewrite validate_as_path by (done || apply be_bytes_ok).
Qed.

Lemma as4_path_accepted :
  n_asn4 n = false -> attr_accepted n (192, 17, [2; 1] ++ be_bytes 4 (c_asn cfg)) false.
Proof.
  intros Hn. small_attr.
  - apply bytes_ok_app. split; [by repeat constructor|apply be_bytes_ok].
  - done.
  - unfold always_discarded. rewrite Hn. by destruct (n_internal n).
  - cbn [Z.eqb Pos.eqb orb]. split; [done|]. unfold check_value. cbn [Z.eqb Pos.eqb].
    rewrite bool_decide_eq_false_2 by (rewrite !elem_of_cons, elem_of_nil; lia).
    rewrite bool_decide_eq_false_2 by (rewrite !elem_of_cons, elem_of_nil; lia).
    by rewrite validate_as_path by (done || apply be_bytes_ok).
Qed.

Lemma local_pref_accepted :
  n_internal n = true -> attr_accepted n (64, 5, be_bytes 4 100) false.
Proof.
  intros Hn. small_attr; [apply be_bytes_ok|done| |done].
  unfold always_discarded. rewrite Hn. by destruct (n_asn4 n).
Qed.

Lemma next_hop_accepted a :
  u_ok 32 a -> ip_usable (IpV4 a) -> attr_accepted n (64, 3, octets4 a) false.
Proof.
  intros Ha Hu. small_attr; [apply be_bytes_ok|done| |].
  - unfold always_discarded. by destruct (n_asn4 n), (n_internal n).
  - cbn [Z.eqb Pos.eqb orb]. split; [done|].
    assert (Hv : valid_v4 (from_be (octets4 a)) = true).
    { unfold octets4. rewrite from_be_be_bytes_small by exact Ha. by apply valid_v4_spec. }
    change (Ok (valid_v4 (from_be (octets4 a))) = Ok true). by rewrite Hv.
Qed.

Lemma accepted_single a r : attr_accepted n a r -> Forall2 (attr_accepted n) [a] [r].
Proof. intros Ha. apply Forall2_cons. by split; [|apply Forall2_nil]. Qed.

Lemma base_accepted nh :
  (forall a, nh = Some a -> u_ok 32 a /\ ip_usable (IpV4 a)) ->
  exists rs, Forall2 (attr_accepted n) (base_triples nh) rs /\ existsb id rs = false.
Proof.
  intros Hnh. pose proof (neg_internal _ _ _ Hneg) as Hint. unfold base_triples.
  exists ([false; false] ++
    (if negb (n_asn4 n) && (65535 <? c_asn cfg) && negb (c_asn cfg =? p_remote_asn p)
     then [false] else []) ++
    (if c_asn cfg =? p_remote_asn p then [false] else []) ++
    (if is_some nh then [false] else [])).
  split; [|by destruct (negb _ && _ && _), (c_asn cfg =? _), nh].
  repeat apply Forall2_app.
  - apply Forall2_cons; split; [apply origin_accepted|]. apply accepted_single, as_path_accepted.
  - destruct (negb (n_asn4 n)) eqn:E; [|constructor]. apply negb_true_iff in E. cbn [andb].
    destruct (_ && _); [|constructor]. by apply accepted_single, as4_path_accepted.
  - destruct (c_asn cfg =? p_remote_asn p); [|constructor]. by apply accepted_single, local_pref_accepted.
  - destruct nh as [a|]; [|constructor].
    by apply accepted_single, next_hop_accepted; apply Hnh.
Qed.

(** The bytes of a list of attributes, with headers of four bytes. *)
Definition attrs_size (l : list attr_triple) : Z := fold_right (fun a m => 4 + len a.2 + m) 0 l.

Lemma attrs_size_app l1 l2 : attrs_size (l1 ++ l2) = attrs_size l1 + attrs_size l2.
Proof. induction l1 as [|a l1 IH]; [done|]. unfold attrs_size in *. simpl. lia. Qed.

Lemma base_size nh : attrs_size (base_triples nh) <= 42.
Proof.
  unfold base_triples. rewrite !attrs_size_app. destruct as_path_ok as [_ Hl].
  assert (H1 : attrs_size [(64, 1, [2]); (64, 2, as_path cfg p n)] = 9 + len (as_path cfg p n)).
  { unfold attrs_size. cbn [fold_right snd]. change (len [2]) with 1. lia. }
  rewrite H1.
  assert (H2 : forall b : bool, attrs_size (if b then [(192, 17, [2; 1] ++ be_bytes 4 (c_asn cfg))] else []) <= 10)
    by (by intros []).
  assert (H3 : forall b : bool, attrs_size (if b then [(64, 5, be_bytes 4 100)] else []) <= 8)
    by (by intros []).
  assert (H4 : attrs_size (match nh with Some a => [(64, 3, octets4 a)] | None => [] end) <= 8)
    by (by destruct nh).
  apply (Z.le_trans _ (15 + (10 + (8 + 8)))); [|done].
  repeat apply Z.add_le_mono; first [apply H2|apply H3|apply H4|lia].
Qed.

(** The kinds of an announcement are distinct and include what is mandatory. *)
Lemma base_kinds nh (kinds := map attr_kind (base_triples nh)) :
  NoDup kinds /\ 14 ∉ kinds /\ 1 ∈ kinds /\ 2 ∈ kinds /\
  (n_internal n = true -> 5 ∈ kinds) /\ (nh <> None -> 3 ∈ kinds).
Proof.
  pose proof (neg_internal _ _ _ Hneg) as Hint.
  subst kinds. unfold base_triples. rewrite Hint.
  destruct (negb (n_asn4 n) && _ && _), (c_asn cfg =? p_remote_asn p), nh; cbn [map attr_kind fst snd app];
    (split_and!; [apply (bool_decide_unpack (NoDup _)); by vm_compute| | | | |]);
    rewrite ?elem_of_cons, ?elem_of_nil; try lia; try done; intros; try lia; try done.
Qed.

Lemma base_not15 nh : 15 ∉ map attr_kind (base_triples nh).
Proof.
  unfold base_triples. destruct (negb (n_asn4 n) && _ && _), (c_asn cfg =? p_remote_asn p), nh; cbn [map attr_kind fst snd app];
    apply (bool_decide_unpack (_ ∉ _)); by vm_compute.
Qed.
Lemma base_hop a : (64, 3, octets4 a) ∈ base_triples (Some a).
Proof. unfold base_triples. rewrite !elem_of_app. right. right. right. by left. Qed.

Lemma base_prefixes nh out :
  for_fold (fun out a => prefixes_attr (attr_kind a) a.2 out) out (base_triples nh) = Ok out.
Proof.
  assert (H : Forall (fun a => attr_kind a <> 14) (base_triples nh)).
  { destruct (base_kinds nh) as (_ & Hk & _). apply Forall_forall. intros a Ha E.
    apply Hk. rewrite <- E. by apply list_elem_of_fmap_2. }
  induction H as [|a l Ha _ IH]; [done|]. cbn [for_fold].
  rewrite prefixes_attr_other by done. exact IH.
Qed.

(** MP_REACH_NLRI and MP_UNREACH_NLRI of an IPv6 batch. *)
Definition mp_head (nh : Z) : list Z :=
  [0; 2; 1] ++ [if is_some (p_next_hop_v6_link_local p) then 32 else 16] ++ octets6 nh ++
  match p_next_hop_v6_link_local p with Some ll => octets6 ll | None => [] end ++ [0].

Lemma mp_head_ok nh : bytes_ok (mp_head nh) /\ 21 <= len (mp_head nh) <= 37.
Proof.
  unfold mp_head, octets6. destruct (p_next_hop_v6_link_local p); cbn [is_some]; split;
    rewrite ?bytes_ok_app; split_and!; try apply be_bytes_ok; try (by repeat constructor); done.
Qed.

Lemma mp_reach_accepted nh ps :
  all_family true ps -> ps <> [] -> len ps <= MAX_UPDATE_PREFIXES ->
  attr_accepted n (128, 14, mp_head nh ++ nlri_entries ps) true.
Proof.
  intros Hf Hne Hl. destruct (mp_head_ok nh) as [Hb Hh].
  pose proof (len_nlri_entries true ps Hf) as He. unfold MAX_UPDATE_PREFIXES in Hl.
  change (1 + nlri_bits true / 8) with 17 in He.
  assert (H0 : 0 < len (nlri_entries ps)).
  { destruct ps as [|q ps]; [done|]. rewrite nlri_entries_cons. unfold nlri_entry.
    rewrite len_app, len_cons. pose proof (len_nonneg (nlri_entries ps)).
    match goal with |- context [len (take ?a ?b)] => pose proof (len_nonneg (take a b)) end. lia. }
  split; cbn [fst snd]; [by rewrite !elem_of_cons; auto|by vm_compute| | | |done|].
  - apply bytes_ok_app. split; [done|apply nlri_entries_ok].
  - rewrite len_app. lia.
  - unfold always_discarded. by destruct (n_asn4 n), (n_internal n).
  - cbn [Z.eqb Pos.eqb orb]. intros mp. unfold check_mp. set (data := _ ++ _).
    destruct (sent_flags_spec 128 data 14) as (_ & -> & _); [by rewrite !elem_of_cons; auto|].
    change (flags_ok 14 128) with true. cbn [mbind res_bind require].
    assert (Hdl : len data = len (mp_head nh) + len (nlri_entries ps)) by apply len_app.
    rewrite (leb_true 3), (leb_true 5) by lia. cbn [and_then mbind res_bind require].
    change (u16b data) with (Ok 2). change (idx data 2) with (Ok 1).
    set (d3 := len (mp_head nh) - 5).
    assert (H3 : idx data 3 = Ok d3 /\ (d3 = 16 \/ d3 = 32)).
    { subst data d3. unfold mp_head. destruct (p_next_hop_v6_link_local p); split; try done; auto. }
    destruct H3 as [-> Hd3]. cbn [mbind res_bind andb orb Z.eqb Pos.eqb].
    rewrite leb_true by lia. cbn [mbind res_bind require].
    replace ((d3 =? 16) || (d3 =? 32)) with true by lia. cbn [mbind res_bind require].
    subst data. rewrite slice_from_app by lia. cbn [mbind res_bind].
    pose proof (validate_nlri_entries true ps Hf) as Hv. cbn [nlri_bits] in Hv. rewrite Hv.
    cbn [mbind res_bind]. by rewrite ltb_true by lia.
Qed.

Lemma mp_unreach_accepted ps :
  all_family true ps -> len ps <= MAX_UPDATE_PREFIXES ->
  attr_accepted n (128, 15, [0; 2; 1] ++ nlri_entries ps) false.
Proof.
  intros Hf Hl. pose proof (len_nlri_entries true ps Hf) as He. unfold MAX_UPDATE_PREFIXES in Hl.
  change (1 + nlri_bits true / 8) with 17 in He.
  split; cbn [fst snd]; [by rewrite !elem_of_cons; auto|by vm_compute| | | |done|].
  - apply bytes_ok_app. split; [by repeat constructor|apply nlri_entries_ok].
  - rewrite len_app. change (len [0; 2; 1]) with 3. lia.
  - unfold always_discarded. by destruct (n_asn4 n), (n_internal n).
  - cbn [Z.eqb Pos.eqb orb]. intros mp. unfold check_mp. set (data := _ ++ _).
    destruct (sent_flags_spec 128 data 15) as (_ & -> & _); [by rewrite !elem_of_cons; auto|].
    change (flags_ok 15 128) with true. cbn [mbind res_bind require].
    assert (Hdl : len data = 3 + len (nlri_entries ps)) by apply len_app.
    rewrite (leb_true 3) by lia. cbn [mbind res_bind require].
    change (u16b data) with (Ok 2). change (idx data 2) with (Ok 1).
    cbn [mbind res_bind andb orb Z.eqb Pos.eqb].
    subst data. rewrite slice_from_app by done. cbn [mbind res_bind].
    pose proof (validate_nlri_entries true ps Hf) as Hv. cbn [nlri_bits] in Hv. rewrite Hv. done.
Qed.

Lemma prefixes_attr_reach_value nh ps out :
  all_family true ps ->
  prefixes_attr 14 (mp_head nh ++ nlri_entries ps) out = Ok (out ++ map ipnet_trunc ps).
Proof.
  intros Hf. destruct (mp_head_ok nh) as [Hb Hh].
  unfold prefixes_attr. set (data := _ ++ _).
  assert (Hdl : len data = len (mp_head nh) + len (nlri_entries ps)) by apply len_app.
  pose proof (len_nonneg (nlri_entries ps)).
  rewrite (leb_true 5) by lia. cbn [Z.eqb Pos.eqb andb and_then].
  change (u16b data) with (Ok 2). change (idx data 2) with (Ok 1).
  assert (H3 : idx data 3 = Ok (len (mp_head nh) - 5)).
  { subst data. unfold mp_head. by destruct (p_next_hop_v6_link_local p). }
  rewrite H3. cbn [mbind res_bind andb orb Z.eqb Pos.eqb].
  rewrite leb_true by lia. cbn [andb].
  subst data. rewrite slice_from_app by lia. cbn [mbind res_bind]. by apply append_entries.
Qed.

(** The attributes of a message accepted without an action. *)
Lemma finish_accepted l rs tail :
  Forall2 (attr_accepted n) l rs -> NoDup (map attr_kind l) ->
  (tail <> [] \/ existsb id rs = true ->
     1 ∈ map attr_kind l /\ 2 ∈ map attr_kind l /\ (n_internal n = true -> 5 ∈ map attr_kind l)) ->
  (tail <> [] -> 3 ∈ map attr_kind l) ->
  (s ← check_attrs n (encode_attrs l); finish_update n tail s) = Ok Valid.
Proof.
  intros Hall Hnd Hmand Hnh. pose proof (kinds_ok n l rs Hall) as Hks.
  destruct (check_attrs_encode n l rs (replicate 256 false) false Hall Hnd eq_refl) as (seen & E & Hl & Hseen).
  { eapply Forall_impl; [done|]. intros k Hk. apply lookup_replicate_2. unfold byte_ok in Hk. lia. }
  unfold check_attrs. rewrite E. cbn [mbind res_bind orb].
  assert (Hidx : forall k, 0 <= k < 256 -> exists v, idx seen k = Ok v /\ (k ∈ map attr_kind l -> v = true)).
  { intros k Hk. specialize (Hseen k Hk). case_bool_decide as Hin.
    - exists true. split; [|done]. by apply idx_lookup; [lia|].
    - exists false. split; [|done]. apply idx_lookup; [lia|]. rewrite Hseen.
      apply lookup_replicate_2. lia. }
  unfold finish_update. cbn [us_seen us_mp_reach us_action].
  destruct (Hidx 1) as (v1 & -> & H1); [lia|]. destruct (Hidx 2) as (v2 & -> & H2); [lia|].
  destruct (Hidx 3) as (v3 & -> & H3); [lia|]. destruct (Hidx 5) as (v5 & -> & H5); [lia|].
  cbn [mbind res_bind].
  assert (Hr : negb (is_empty tail) || existsb id rs = true ->
               negb v1 || negb v2 || n_internal n && negb v5 = false).
  { intros Hr. destruct Hmand as (? & ? & Hint).
    { destruct tail; [by right|by left]. }
    rewrite H1, H2 by done. destruct (n_internal n); [|done]. by rewrite H5 by auto. }
  assert (Ht : negb (is_empty tail) && negb v3 = false).
  { destruct tail; [done|]. by rewrite H3 by (by apply Hnh). }
  rewrite Ht. destruct (negb (is_empty tail) || existsb id rs); [rewrite Hr by done|]; done.
Qed.
End announce.

Section update_theorems.
Context {api : IpNetApi} {laws : IpNetLaws}.

Lemma network_octets_family v6 ps :
  all_family v6 ps -> forallb (fun p => Bool.eqb (net_is_ipv6 p) v6) ps = true.
Proof.
  intros Hps. apply forallb_forall. intros p Hp%list_elem_of_In.
  unfold all_family in Hps. rewrite Forall_forall in Hps. rewrite (Hps p Hp). by destruct v6.
Qed.

(** The body of an UPDATE, by direction and family. *)
Definition sent_attrs (cfg : Config) (p : Peer) (n : Negotiated) (v6 withdraw : bool)
    (ps : list IpNet) : list attr_triple :=
  (if v6 then
     [if withdraw then (128, 15, [0; 2; 1] ++ nlri_entries ps)
      else (128, 14, mp_head p (default 0 (nh6 p)) ++ nlri_entries ps)]
   else []) ++
  (if withdraw then [] else base_triples cfg p n (if v6 then None else nh4 p)).
Definition sent_body (cfg : Config) (p : Peer) (n : Negotiated) (v6 withdraw : bool)
    (ps : list IpNet) : list Z :=
  update_body (if withdraw && negb v6 then nlri_entries ps else [])
    (encode_attrs (sent_attrs cfg p n v6 withdraw ps))
    (if negb withdraw && negb v6 then nlri_entries ps else []).

Lemma len_encode_attrs n l rs :
  Forall2 (attr_accepted n) l rs ->
  len (encode_attrs l) <= attrs_size l.
Proof.
  induction 1 as [|[[f k] d] r l rs Ha Hl IH]; [done|].
  change (encode_attrs ((f, k, d) :: l)) with (attr [] f k d ++ encode_attrs l).
  destruct Ha as [Hf _ _ Hlen _ _ _]. unfold attrs_size in *. cbn [fst snd fold_right] in *.
  destruct (attr_fields f k d (encode_attrs l) Hf Hlen) as (Hh & -> & _). lia.
Qed.

Section sent.
Context (cfg : Config) (p : Peer) (n : Negotiated) (v6 withdraw : bool) (ps : list IpNet).
Hypothesis Hneg : negotiated_ok cfg p n.
Hypothesis Hfam : all_family v6 ps.
Hypothesis Hne : ps <> [].
Hypothesis Hmax : len ps <= MAX_UPDATE_PREFIXES.
Hypothesis Hnh : withdraw = false ->
  if v6 then is_Some (nh6 p) else exists a, nh4 p = Some a /\ u_ok 32 a /\ ip_usable (IpV4 a).
Let attrs := sent_attrs cfg p n v6 withdraw ps.

Lemma sent_attrs_accepted :
  exists rs, Forall2 (attr_accepted n) attrs rs /\ existsb id rs = v6 && negb withdraw.
Proof.
  subst attrs. unfold sent_attrs.
  destruct withdraw.
  - exists (if v6 then [false] else []). rewrite app_nil_r, andb_false_r.
    destruct v6; [|done]. split; [|done]. by apply accepted_single, mp_unreach_accepted.
  - specialize (Hnh eq_refl).
    destruct (base_accepted cfg p n Hneg (if v6 then None else nh4 p)) as (rs & Hrs & Er).
    { intros a Ha. destruct v6; [done|]. destruct Hnh as (a' & Ha' & ? & ?). by simplify_eq. }
    exists ((if v6 then [true] else []) ++ rs). rewrite existsb_app, Er.
    split; [|by destruct v6]. apply Forall2_app; [|done].
    destruct v6; [|constructor]. by apply accepted_single, mp_reach_accepted.
Qed.

Lemma sent_attrs_kinds (kinds := map attr_kind attrs) :
  NoDup kinds /\
  (withdraw = false -> 1 ∈ kinds /\ 2 ∈ kinds /\ (n_internal n = true -> 5 ∈ kinds) /\
                       (v6 = false -> 3 ∈ kinds)).
Proof.
  subst kinds attrs. unfold sent_attrs. rewrite map_app. destruct withdraw.
  { split; [|done]. destruct v6; simpl; [apply NoDup_singleton|constructor]. }
  destruct (base_kinds cfg p n Hneg (if v6 then None else nh4 p)) as (Hnd & H14 & H1 & H2 & H5 & H3).
  rewrite !elem_of_app. split.
  - destruct v6; [|done]. by apply NoDup_cons.
  - intros _. split_and!; auto. intros ->. destruct (Hnh eq_refl) as (a & Ha & _). right.
    apply H3. by rewrite Ha.
Qed.

Lemma sent_attrs_len : 0 <= len (encode_attrs attrs) <= 42 + (if v6 then 3441 else 0).
Proof.
  split; [apply len_nonneg|]. destruct sent_attrs_accepted as (rs & Hrs & _).
  etransitivity; [by eapply len_encode_attrs|]. clear Hrs. subst attrs. unfold sent_attrs.
  pose proof (len_nlri_entries v6 ps Hfam) as He. unfold MAX_UPDATE_PREFIXES in Hmax.
  destruct (mp_head_ok p (default 0 (nh6 p))) as [_ Hh].
  pose proof (base_size cfg p n (if v6 then None else nh4 p)) as Hb.
  rewrite attrs_size_app.
  assert (H1 : attrs_size (if withdraw then [] else base_triples cfg p n (if v6 then None else nh4 p)) <= 42)
    by (by destruct withdraw).
  assert (H2 : forall (b : bool) (x y : attr_triple), len x.2 <= 3437 -> len y.2 <= 3437 ->
            attrs_size [if b then x else y] <= 3441).
  { intros [] x y ? ?; unfold attrs_size; cbn [fold_right]; lia. }
  destruct v6; [|exact H1]. change (1 + nlri_bits true / 8) with 17 in He.
  apply (Z.le_trans _ (3441 + 42)); [|done]. apply Z.add_le_mono; [|exact H1].
  apply H2; cbn [snd]; rewrite len_app; [change (len [0; 2; 1]) with 3|]; lia.
Qed.

Lemma sent_fit :
  len (if withdraw && negb v6 then nlri_entries ps else []) + len (encode_attrs attrs) +
  len (if negb withdraw && negb v6 then nlri_entries ps else []) + 4 <= 4077.
Proof.
  pose proof sent_attrs_len as Ha. pose proof (len_nlri_entries v6 ps Hfam) as He.
  unfold MAX_UPDATE_PREFIXES in Hmax.
  destruct v6, withdraw; cbn [andb negb]; rewrite ?(@len_nil Z); try lia;
    change (1 + nlri_bits false / 8) with 5 in He; lia.
Qed.

Lemma sent_body_len : 4 <= len (sent_body cfg p n v6 withdraw ps) <= 4077.
Proof.
  destruct (body_fields _ _ _ sent_fit) as (Hl & _). pose proof sent_fit as Hfit.
  unfold sent_body. fold attrs. rewrite Hl.
  repeat match goal with |- context [len (if ?b then _ else _)] => destruct b end;
    pose proof (len_nonneg (nlri_entries ps)); pose proof (len_nonneg (encode_attrs attrs));
    rewrite ?(@len_nil Z) in *; lia.
Qed.

Lemma sent_attrs_value :
  (l ← (if v6 then
          mp ← mp_value p (nlri_entries ps) withdraw;
          Ok (attr [] 128 (if withdraw then 15 else 14) mp)
        else Ok []);
   if withdraw then Ok l else announce_attrs cfg p n v6 l) = Ok (encode_attrs attrs).
Proof.
  subst attrs. unfold sent_attrs. rewrite encode_attrs_app. destruct withdraw.
  - destruct v6; [|done]. cbn [mp_value mbind res_bind]. by rewrite encode_attrs_single, app_nil_r.
  - specialize (Hnh eq_refl). destruct v6.
    + destruct Hnh as [nh E]. unfold mp_value. rewrite E. cbn [unwrap mbind res_bind default].
      rewrite announce_attrs_value by done. by rewrite encode_attrs_single.
    + cbn [mbind res_bind]. rewrite announce_attrs_value; [done|].
      destruct Hnh as (a & -> & _). by eexists.
Qed.

(** [update] encodes [sent_body]. *)
Lemma update_value : update cfg p n ps withdraw = frame UPDATE (sent_body cfg p n v6 withdraw ps).
Proof.
  pose proof sent_fit as Hfit. pose proof (len_nonneg (nlri_entries ps)).
  pose proof (len_nonneg (encode_attrs attrs)).
  assert (exists q qs, ps = q :: qs) as (q & qs & Eps) by (destruct ps; [done|eauto]).
  unfold update.
  assert (Hq : net_is_ipv6 q = v6) by (rewrite Eps in Hfam; by apply Forall_cons in Hfam as [? _]).
  replace (negb (is_empty ps)) with true by (by rewrite Eps).
  rewrite leb_true by done. cbn [andb assert_ mbind res_bind].
  replace (idx ps 0) with (Ok q) by (by rewrite Eps). cbn [mbind res_bind].
  rewrite Hq, network_octets_family by done. cbn [assert_ mbind res_bind].
  rewrite nlri_list, app_nil_l. cbn [mbind res_bind].
  rewrite res_bind_assoc, sent_attrs_value. cbn [mbind res_bind].
  unfold sent_body, update_body, as_u16. fold attrs.
  assert (Hw : withdraw && negb v6 = true -> len (nlri_entries ps) <= 4077).
  { intros E. rewrite E in Hfit. destruct (negb withdraw && negb v6);
      rewrite ?(@len_nil Z) in Hfit; lia. }
  assert (Ha : 0 <= len (encode_attrs attrs) <= 4077).
  { pose proof sent_attrs_len. destruct v6; lia. }
  rewrite (Z.mod_small (len (encode_attrs attrs))) by lia.
  destruct (withdraw && negb v6).
  - rewrite Z.mod_small by (specialize (Hw eq_refl); lia). by rewrite <- !app_assoc.
  - done.
Qed.

Lemma sent_valid : validate_update (sent_body cfg p n v6 withdraw ps) n = Ok Valid.
Proof.
  destruct sent_attrs_accepted as (rs & Hrs & Er). destruct sent_attrs_kinds as [Hnd Hk].
  assert (Hv : forall b : bool,
    validate_nlri (if b && negb v6 then nlri_entries ps else []) 32 = Ok tt).
  { intros b. destruct (b && negb v6) eqn:E; [|done].
    destruct v6; [by rewrite andb_false_r in E|]. by apply (validate_nlri_entries false). }
  unfold sent_body. rewrite validate_update_body;
    [|exact sent_fit|apply Hv|apply Hv].
  apply (finish_accepted n attrs rs); [done|done| |].
  all: destruct withdraw; cbn [andb negb].
  - rewrite Er, andb_false_r. by intros [|].
  - intros _. by destruct (Hk eq_refl) as (? & ? & ? & _).
  - done.
  - destruct v6; [done|]. intros _. by destruct (Hk eq_refl) as (_ & _ & _ & ?); auto.
Qed.

Lemma sent_prefixes :
  update_prefixes (sent_body cfg p n v6 withdraw ps) =
    Ok (if withdraw then [] else map ipnet_trunc ps).
Proof.
  destruct sent_attrs_accepted as (rs & Hrs & Er). unfold sent_body.
  rewrite update_prefixes_body by exact sent_fit.
  assert (Ht : append (if negb withdraw && negb v6 then nlri_entries ps else []) false [] =
               Ok (if negb withdraw && negb v6 then map ipnet_trunc ps else [])).
  { destruct withdraw, v6; try done. by apply (append_entries ps false []). }
  rewrite Ht. cbn [mbind res_bind]. fold attrs. rewrite (attr_prefixes_encode n attrs rs) by done.
  subst attrs. unfold sent_attrs. destruct withdraw.
  - by destruct v6.
  - destruct v6; cbn [negb andb app for_fold attr_kind fst snd].
    + rewrite prefixes_attr_reach_value by done. cbn [mbind res_bind app].
      by apply (base_prefixes cfg p n Hneg).
    + by apply (base_prefixes cfg p n Hneg).
Qed.
(** The next hop of the configuration, in octets. *)
Definition hop_octets (p : Peer) (v6 : bool) : list Z :=
  if v6 then
    match nh6 p with Some a => octets6 a | None => [] end ++
    match p_next_hop_v6_link_local p with Some a => octets6 a | None => [] end
  else match nh4 p with Some a => octets4 a | None => [] end.

Lemma sent_says :
  update_says (sent_body cfg p n v6 withdraw ps) (if withdraw then map ipnet_trunc ps else [])
    (if withdraw then [] else map (fun q => (hop_octets p v6, ipnet_trunc q)) ps).
Proof.
  destruct sent_attrs_accepted as (rs & Hrs & _). destruct sent_attrs_kinds as [Hnd _].
  pose proof sent_fit as Hfit. pose proof (names_entries v6 ps Hfam) as Hnames.
  pose proof (len_nonneg (encode_attrs attrs)) as H0. pose proof (len_nonneg (nlri_entries ps)) as H1.
  unfold sent_body. fold attrs. unfold update_body.
  set (w := if withdraw && negb v6 then nlri_entries ps else []) in *.
  set (tail := if negb withdraw && negb v6 then nlri_entries ps else []) in *.
  pose proof (len_nonneg w). pose proof (len_nonneg tail).
  rewrite !two_bytes by lia.
  assert (Hin : forall a, a ∈ attrs -> sent_triple a ∈ map sent_triple attrs) by (intros a Ha; by apply list_elem_of_fmap_2).
  assert (Hnot : forall k, k ∉ map attr_kind attrs -> k ∉ map attr_kind (map sent_triple attrs)) by (intros k Hk; by rewrite kinds_sent).
  assert (Hmap : map (fun q => (hop_octets p v6, ipnet_trunc q)) ps = map (pair (hop_octets p v6)) (map ipnet_trunc ps)) by by rewrite map_map.
  rewrite Hmap.
  replace (if withdraw then map ipnet_trunc ps else [])
    with ((if withdraw && negb v6 then map ipnet_trunc ps else []) ++ (if withdraw && v6 then map ipnet_trunc ps else []))
    by (destruct withdraw, v6; by rewrite ?app_nil_r).
  replace (if withdraw then [] else map (pair (hop_octets p v6)) (map ipnet_trunc ps))
    with ((if negb withdraw && negb v6 then map (pair (hop_octets p v6)) (map ipnet_trunc ps) else []) ++
          (if negb withdraw && v6 then map (pair (hop_octets p v6)) (map ipnet_trunc ps) else []))
    by (destruct withdraw, v6; by rewrite ?app_nil_r).
  apply (says w (encode_attrs attrs) tail (map sent_triple attrs)); [lia|lia|by eapply path_attributes_encode|by rewrite kinds_sent|..].
  - subst w. destruct withdraw, v6; try apply names_nil. exact Hnames.
  - destruct (withdraw && v6) eqn:E.
    + apply andb_true_iff in E as [E1 E2]. subst attrs. unfold sent_attrs in *. rewrite E1, E2 in *.
      eapply withdraws6_some; [|exact Hnames]. by apply (Hin (128, 15, _)); left.
    + apply withdraws6_none, Hnot. subst attrs. unfold sent_attrs. destruct withdraw; [destruct v6; [done|by apply not_elem_of_nil]|].
      rewrite map_app, elem_of_app. intros [H'|H'].
      * destruct v6; [|by apply not_elem_of_nil in H']. by apply list_elem_of_singleton in H'.
      * by apply (base_not15 cfg p n) in H'.
  - subst tail. destruct (negb withdraw && negb v6) eqn:E; [|apply announces4_none].
    apply andb_true_iff in E as [E1%negb_true_iff E2%negb_true_iff]. eapply announces4_some; [|by rewrite E2 in Hnames].
    assert (Ha : (64, 3, hop_octets p v6) ∈ attrs).
    { specialize (Hnh E1). subst attrs. unfold sent_attrs, hop_octets. rewrite E1, E2 in *. destruct Hnh as (a & -> & _).
      apply (base_hop cfg p n). }
    exact (Hin _ Ha).
  - destruct (negb withdraw && v6) eqn:E.
    + apply andb_true_iff in E as [E1%negb_true_iff E2]. specialize (Hnh E1). rewrite E2 in *. destruct Hnh as [nh Enh].
      eapply announces6_some; [|exact Hnames].
      assert (Ha : (128, 14, [0; 2; 1; len (hop_octets p true)] ++ hop_octets p true ++ [0] ++ nlri_entries ps) ∈ attrs).
      { subst attrs. unfold sent_attrs. rewrite E1, E2, Enh. cbn [default]. apply elem_of_app. left.
        apply list_elem_of_singleton. f_equal. unfold mp_head, hop_octets. rewrite Enh.
        destruct (p_next_hop_v6_link_local p); cbn [is_some]; by rewrite <- !app_assoc. }
      exact (Hin _ Ha).
    + apply announces6_none, Hnot. subst attrs. unfold sent_attrs. rewrite map_app, elem_of_app. intros [H'|H'].
      * destruct v6; [|by apply not_elem_of_nil in H']. rewrite andb_true_r in E. apply negb_false_iff in E. rewrite E in H'.
        by apply list_elem_of_singleton in H'.
      * destruct withdraw; [by apply not_elem_of_nil in H'|]. by apply (base_kinds cfg p n Hneg) in H'.
Qed.
End sent.

(** The next hops an accepted configuration provides for an enabled family. *)
Lemma validated_next_hop (cfg : Config) p n (v6 : bool) :
  peer_typed p -> peer_ok cfg p -> negotiated_ok cfg p n ->
  (if v6 then n_ipv6 n else n_ipv4 n) = true ->
  if v6 then is_Some (nh6 p) else exists a, nh4 p = Some a /\ u_ok 32 a /\ ip_usable (IpV4 a).
Proof.
  intros Ht Hok Hneg Hen. destruct v6.
  - destruct (peer_nh6 _ _ Hok) as (a & Ha & _); [by eapply neg_ipv6|]. by exists a.
  - destruct (peer_nh4 _ _ Hok) as (a & Ha & Hu); [by eapply neg_ipv4|].
    exists a. split_and!; [done| |by apply Hu..].
    unfold nh4, opt_or in Ha. pose proof (typed_nh4 _ Ht) as H4. pose proof (typed_local _ Ht) as Hl.
    destruct (p_next_hop_v4 p); simplify_eq; [by apply H4|].
    destruct (p_local_address p); simplify_eq. exact Hl.
Qed.

(** [C10] What this exporter sends, its peer understands. For a validated configuration
    and a completed negotiation, an announcement or withdrawal of 1 to 200 prefixes of
    one enabled family is encoded without a panic in one message of at most 4096 bytes;
    reading it back from any stream gives a body that, read by the rules of RFC 4271 and
    RFC 4760 ([update_says]), withdraws exactly the networks of a withdrawal, or
    announces exactly those of an announcement with the configured next hop, in order.
    The daemon's own validator accepts it without any action, and its decoder finds the
    announced networks. *)
Theorem update_accepted (cfg : Config) p n (v6 withdraw : bool) ps :
  peer_typed p -> peer_ok cfg p -> negotiated_ok cfg p n ->
  (if v6 then n_ipv6 n else n_ipv4 n) = true ->
  all_family v6 ps -> ps <> [] -> len ps <= MAX_UPDATE_PREFIXES ->
  exists f body, update cfg p n ps withdraw = Ok f /\ len f <= MAX_MESSAGE /\
    (forall rest, read_frame (f ++ rest) = Ok (UPDATE, body, rest)) /\
    update_says body (if withdraw then map ipnet_trunc ps else [])
      (if withdraw then [] else map (fun q => (hop_octets p v6, ipnet_trunc q)) ps) /\
    validate_update body n = Ok Valid /\
    update_prefixes body = Ok (if withdraw then [] else map ipnet_trunc ps).
Proof.
  intros Ht Hok Hneg Hen Hf Hne Hl.
  pose proof (validated_next_hop cfg p n v6 Ht Hok Hneg Hen) as Hnh.
  pose proof (sent_body_len cfg p n v6 withdraw ps Hneg Hf Hne Hl (fun _ => Hnh)) as Hb.
  destruct (read_encoded UPDATE (sent_body cfg p n v6 withdraw ps)) as (f & Hfr & Hm & Hread).
  { unfold valid_type_length, UPDATE. lia. }
  { unfold MAX_MESSAGE. lia. }
  exists f, (sent_body cfg p n v6 withdraw ps). split_and!; [|done|done|..].
  - by rewrite (update_value cfg p n v6).
  - by apply sent_says.
  - by apply sent_valid.
  - by apply sent_prefixes.
Qed.

(** Packing and unpacking NLRI: the encoding of any single-family list of
    prefixes passes [validate_nlri], and decoding it gives back the networks
    (host bits cleared), in order. *)
Theorem nlri_roundtrip v6 ps :
  all_family v6 ps ->
  exists e, for_fold nlri [] ps = Ok e /\ validate_nlri e (nlri_bits v6) = Ok tt /\
    append e v6 [] = Ok (map ipnet_trunc ps).
Proof.
  intros Hf. exists (nlri_entries ps). split_and!.
  - apply (nlri_list []).
  - by apply validate_nlri_entries.
  - by apply (append_entries ps v6 []).
Qed.

(** The end-of-RIB markers are fixed frames that are accepted without an
    action by any peer and name no prefix. *)
Theorem end_of_rib_accepted v6 n :
  exists f body, end_of_rib v6 = Ok f /\
    (forall rest, read_frame (f ++ rest) = Ok (UPDATE, body, rest)) /\
    validate_update body n = Ok Valid /\ update_prefixes body = Ok [].
Proof.
  set (body := if v6 then [0; 0; 0; 6; 128; 15; 3; 0; 2; 1] else [0; 0; 0; 0]).
  assert (Hl : 4 <= len body <= 10) by by destruct v6.
  destruct (read_encoded UPDATE body) as (f & Hf & _ & Hread).
  { unfold valid_type_length, UPDATE. lia. }
  { unfold MAX_MESSAGE. lia. }
  exists f, body. split_and!; [by destruct v6|done| |by destruct v6].
  by destruct v6, n as [? ? [] [] ? ?].
Qed.
End update_theorems.
