(* ===== verification/Planning.v ===== *)
(** * src/src/bgp.rs, export planning

    [Plan] is the diff between what was written and what is wanted. A [HashSet] is
    visited in an order that the program does not control, so every operation that visits
    one takes the order as an argument. *)
From S2P Require Import Prelude Net Config Frame.

Section planning.
Context {api : IpNetApi}.

(** The order in which a [HashSet] is visited. *)
Definition Order : Type := Prefixes -> list IpNet.
Definition order_ok (order : Order) : Prop := forall s, order s ≡ₚ elements s.

Record Plan := mkPlan { withdrawals : list IpNet; additions : list IpNet }.

(** The closure [enabled] of [Plan::new]. *)
Definition enabled (n : Negotiated) (p : IpNet) : bool :=
  if is_ipv4 (ipnet_addr p) then n_ipv4 n else n_ipv6 n.
(** [sort_unstable_by_key] with a boolean key. *)
Definition sort_by_family (l : list IpNet) : list IpNet :=
  List.filter (fun p => negb (net_is_ipv6 p)) l ++ List.filter net_is_ipv6 l.
Definition plan_new (order : Order) (advertised desired : Prefixes) (n : Negotiated)
    (replay : Prefixes) : Plan := {|
  withdrawals := sort_by_family
    (List.filter (fun p => negb (bool_decide (p ∈ desired)) || negb (enabled n p)) (order advertised));
  additions := sort_by_family
    (List.filter (fun p => enabled n p && (bool_decide (p ∈ replay) || negb (bool_decide (p ∈ advertised))))
       (order desired))
|}.

(** The [while] loop of [Plan::next]; [room] is the capacity left in the batch. *)
Fixpoint take_batch (room : nat) (v6 : bool) (queue : list IpNet) : list IpNet * list IpNet :=
  match room, queue with
  | S room, p :: rest =>
      if Bool.eqb (net_is_ipv6 p) v6
      then let '(batch, rest) := take_batch room v6 rest in (p :: batch, rest)
      else ([], queue)
  | _, _ => ([], queue)
  end.
Definition plan_next (plan : Plan) : option (bool * list IpNet) * Plan :=
  let withdraw := negb (is_empty (withdrawals plan)) in
  let queue := if withdraw then withdrawals plan else additions plan in
  match queue with
  | [] => (None, plan)
  | front :: _ =>
      let '(batch, rest) := take_batch (Z.to_nat MAX_UPDATE_PREFIXES) (net_is_ipv6 front) queue in
      (Some (withdraw, batch),
       if withdraw then mkPlan rest (additions plan) else mkPlan (withdrawals plan) rest)
  end.

(** Exports selected by the ACL, defaulting to empty. *)
Definition desired (exports : Exports) (acl : string) : Prefixes := default ∅ (exports !! acl).

(** The least number of UPDATEs for a queue and for a plan. *)
Definition batches_of (k : Z) : Z := (k + MAX_UPDATE_PREFIXES - 1) / MAX_UPDATE_PREFIXES.
Definition queue_cost (l : list IpNet) : Z :=
  batches_of (len (List.filter (fun p => negb (net_is_ipv6 p)) l)) +
  batches_of (len (List.filter net_is_ipv6 l)).
Definition plan_cost (pl : Plan) : Z := queue_cost (withdrawals pl) + queue_cost (additions pl).

(** A queue whose families are contiguous. *)
Definition grouped (l : list IpNet) : Prop :=
  exists l4 l6, l = l4 ++ l6 /\ Forall (fun p => net_is_ipv6 p = false) l4 /\
                Forall (fun p => net_is_ipv6 p = true) l6.

(** A plan is the exact difference between [adv] and the enabled part of [tgt],
    with [rep] sent again. *)
Record plan_ok (n : Negotiated) (adv tgt rep : Prefixes) (pl : Plan) : Prop := {
  plan_withdrawals q : q ∈ withdrawals pl <-> q ∈ adv /\ (q ∉ tgt \/ enabled n q = false);
  plan_additions q : q ∈ additions pl <-> q ∈ tgt /\ enabled n q = true /\ (q ∈ rep \/ q ∉ adv);
  plan_nodup_w : NoDup (withdrawals pl);
  plan_nodup_a : NoDup (additions pl);
  plan_grouped_w : grouped (withdrawals pl);
  plan_grouped_a : grouped (additions pl)
}.
End planning.

(** * Theorems *)
Section plan_theorems.
Context {api : IpNetApi}.
Implicit Types (q : IpNet) (l : list IpNet).

Lemma enabled_spec n q : enabled n q = if net_is_ipv6 q then n_ipv6 n else n_ipv4 n.
Proof. unfold enabled, net_is_ipv6. by destruct (ipnet_addr q). Qed.

Lemma elem_of_List_filter (f : IpNet -> bool) l q : q ∈ List.filter f l <-> q ∈ l /\ f q = true.
Proof. rewrite !list_elem_of_In, filter_In. done. Qed.

Lemma NoDup_List_filter (f : IpNet -> bool) l : NoDup l -> NoDup (List.filter f l).
Proof. rewrite !NoDup_ListNoDup. apply List.NoDup_filter. Qed.

Lemma elem_of_sort_by_family l q : q ∈ sort_by_family l <-> q ∈ l.
Proof.
  unfold sort_by_family. rewrite elem_of_app, !elem_of_List_filter.
  destruct (net_is_ipv6 q); naive_solver.
Qed.

Lemma NoDup_sort_by_family l : NoDup l -> NoDup (sort_by_family l).
Proof.
  intros Hl. apply NoDup_app. split_and!; [by apply NoDup_List_filter| |by apply NoDup_List_filter].
  intros q [_ H1]%elem_of_List_filter [_ H2]%elem_of_List_filter. by rewrite H2 in H1.
Qed.

Lemma Forall_List_filter (f : IpNet -> bool) l : Forall (fun q => f q = true) (List.filter f l).
Proof. apply Forall_forall. by intros q [_ ?]%elem_of_List_filter. Qed.

Lemma grouped_sort_by_family l : grouped (sort_by_family l).
Proof.
  do 2 eexists. split; [reflexivity|]. split; [|apply Forall_List_filter].
  eapply Forall_impl; [apply Forall_List_filter|]. intros q. simpl. by destruct (net_is_ipv6 q).
Qed.

Lemma plan_new_ok order adv tgt n rep :
  order_ok order -> plan_ok n adv tgt rep (plan_new order adv tgt n rep).
Proof.
  intros Ho. assert (Hin : forall s q, q ∈ order s <-> q ∈ s) by (intros; by rewrite (Ho s), elem_of_elements).
  assert (Hnd : forall s, NoDup (order s)) by (intros s; rewrite (Ho s); apply NoDup_elements).
  split; simpl; try apply grouped_sort_by_family; try by apply NoDup_sort_by_family, NoDup_List_filter.
  - intros q. rewrite elem_of_sort_by_family, elem_of_List_filter, Hin, orb_true_iff, !negb_true_iff.
    by rewrite bool_decide_eq_false.
  - intros q. rewrite elem_of_sort_by_family, elem_of_List_filter, Hin, andb_true_iff, orb_true_iff.
    by rewrite negb_true_iff, bool_decide_eq_true, bool_decide_eq_false.
Qed.

Lemma take_batch_spec room v6 queue batch rest :
  take_batch room v6 queue = (batch, rest) ->
  queue = batch ++ rest /\ Forall (fun q => net_is_ipv6 q = v6) batch /\ (length batch <= room)%nat.
Proof.
  revert queue batch rest. induction room as [|room IH]; intros queue batch rest; simpl.
  { intros [= <- <-]. by split_and!; [|apply Forall_nil|]. }
  destruct queue as [|q queue]; [intros [= <- <-]; split_and!; [done|by apply Forall_nil|simpl; lia]|].
  destruct (Bool.eqb _ v6) eqn:E; [|intros [= <- <-]; split_and!; [done|by apply Forall_nil|simpl; lia]].
  destruct (take_batch room v6 queue) as [b r] eqn:Eb. intros [= <- <-].
  apply IH in Eb as (-> & Hb & Hl). apply Bool.eqb_prop in E.
  split_and!; [done|by constructor|simpl; lia].
Qed.

Lemma take_batch_front room q queue batch rest :
  (0 < room)%nat -> take_batch room (net_is_ipv6 q) (q :: queue) = (batch, rest) ->
  exists b, batch = q :: b.
Proof.
  destruct room as [|room]; [lia|]. simpl. rewrite Bool.eqb_reflx.
  destruct (take_batch _ _ queue). intros _ [= <- _]. by eexists.
Qed.

Lemma grouped_app_r l1 l2 : grouped (l1 ++ l2) -> grouped l2.
Proof.
  induction l1 as [|q l1 IH]; [done|]. intros (l4 & l6 & E & H4 & H6). apply IH.
  destruct l4 as [|q4 l4]; simpl in E.
  - exists [], (l1 ++ l2). destruct l6 as [|q6 l6]; simplify_eq. apply Forall_cons in H6 as [_ H6]. by repeat constructor.
  - simplify_eq. apply Forall_cons in H4 as [_ H4]. by exists l4, l6.
Qed.

Lemma fold_difference batch (s : Prefixes) :
  fold_left (fun s prefix => s ∖ {[prefix]}) batch s = s ∖ list_to_set batch.
Proof. revert s. induction batch as [|q batch IH]; intros s; simpl; [|rewrite IH]; set_solver. Qed.

Lemma fold_union batch (s : Prefixes) :
  fold_left (fun s prefix => {[prefix]} ∪ s) batch s = list_to_set batch ∪ s.
Proof. revert s. induction batch as [|q batch IH]; intros s; simpl; [|rewrite IH]; set_solver. Qed.

(** The new [advertised] after a batch. *)
Definition after_batch (withdraw : bool) (batch : list IpNet) (adv : Prefixes) : Prefixes :=
  if withdraw then adv ∖ list_to_set batch else list_to_set batch ∪ adv.

Lemma plan_next_none n adv tgt rep pl pl' :
  plan_ok n adv tgt rep pl -> plan_next pl = (None, pl') ->
  pl' = pl /\ withdrawals pl = [] /\ additions pl = [].
Proof.
  intros _. unfold plan_next. destruct pl as [w a]. cbn [withdrawals additions].
  destruct w as [|q w]; cbn [is_empty negb]; [destruct a as [|q a]; [by intros [= <-]|]|];
    by destruct (take_batch (Z.to_nat MAX_UPDATE_PREFIXES) (net_is_ipv6 q) _).
Qed.

Lemma batch_room : (0 < Z.to_nat MAX_UPDATE_PREFIXES)%nat.
Proof. unfold MAX_UPDATE_PREFIXES. lia. Qed.

Lemma plan_next_queue pl withdraw batch pl' :
  plan_next pl = (Some (withdraw, batch), pl') ->
  batch <> [] /\ len batch <= MAX_UPDATE_PREFIXES /\
  (exists v6, Forall (fun q => net_is_ipv6 q = v6) batch) /\
  if withdraw then withdrawals pl = batch ++ withdrawals pl' /\ additions pl' = additions pl
  else withdrawals pl = [] /\ withdrawals pl' = [] /\ additions pl = batch ++ additions pl'.
Proof.
  unfold plan_next. destruct pl as [w a]. cbn [withdrawals additions].
  destruct w as [|q w]; cbn [is_empty negb]; [destruct a as [|q a]; [done|]|];
    destruct (take_batch (Z.to_nat MAX_UPDATE_PREFIXES) (net_is_ipv6 q) _) as [b r] eqn:E; intros [= <- <- <-];
    destruct (take_batch_front _ _ _ _ _ batch_room E) as (b' & Hb');
    apply take_batch_spec in E as (E & Hf & Hl); cbn [withdrawals additions];
    (split_and!; [by rewrite Hb'|unfold len, MAX_UPDATE_PREFIXES in *; lia|by eexists|..]); done.
Qed.

Lemma NoDup_app_disjoint l1 l2 q : NoDup (l1 ++ l2) -> q ∈ l1 -> q ∉ l2.
Proof. intros (_ & H & _)%NoDup_app. by apply H. Qed.

Lemma plan_next_ok n adv tgt rep pl withdraw batch pl' :
  (forall q, q ∈ adv -> enabled n q = true) ->
  plan_ok n adv tgt rep pl -> plan_next pl = (Some (withdraw, batch), pl') ->
  (forall q, q ∈ batch -> if withdraw then q ∈ adv /\ q ∉ tgt else q ∈ tgt /\ enabled n q = true) /\
  plan_ok n (after_batch withdraw batch adv) tgt (rep ∖ list_to_set batch) pl'.
Proof.
  intros Hen [Hw Ha Hnw Hna Hgw Hga] (Hne & _ & _ & Hq)%plan_next_queue.
  destruct withdraw; simpl.
  - destruct Hq as [Eq Ea]. rewrite Eq in *.
    assert (Hb : forall q, q ∈ batch -> q ∈ adv /\ q ∉ tgt).
    { intros q Hq. destruct (proj1 (Hw q)) as [? [?|E]]; [apply elem_of_app; by left|done|].
      rewrite Hen in E; done. }
    split; [done|]. split.
    + intros q. rewrite elem_of_difference, elem_of_list_to_set.
      pose proof (NoDup_app_disjoint _ _ q Hnw). specialize (Hw q). rewrite elem_of_app in Hw.
      destruct (decide (q ∈ batch)); naive_solver.
    + intros q. rewrite Ea, Ha, !elem_of_difference, elem_of_list_to_set. specialize (Hb q).
      destruct (decide (q ∈ batch)); naive_solver.
    + by apply NoDup_app in Hnw as (_ & _ & ?).
    + by rewrite Ea.
    + by eapply grouped_app_r.
    + by rewrite Ea.
  - destruct Hq as (Ew & Ew' & Ea). rewrite Ew, Ea in *.
    assert (Hb : forall q, q ∈ batch -> q ∈ tgt /\ enabled n q = true).
    { intros q Hq. destruct (proj1 (Ha q)) as (? & ? & _); [apply elem_of_app; by left|done]. }
    split; [done|]. split; rewrite ?Ew'; try done.
    + intros q. rewrite elem_of_union, elem_of_list_to_set. specialize (Hw q). specialize (Hb q).
      split; [set_solver|]. intros [[Hq|Hq] Hn]; [|by apply Hw].
      destruct (Hb Hq) as [? E]. rewrite E in Hn. naive_solver.
    + intros q. rewrite elem_of_difference, not_elem_of_union, elem_of_list_to_set.
      pose proof (NoDup_app_disjoint _ _ q Hna). specialize (Ha q). rewrite elem_of_app in Ha.
      destruct (decide (q ∈ batch)); naive_solver.
    + by apply NoDup_app in Hna as (_ & _ & ?).
    + by eapply grouped_app_r.
Qed.

(** ** Full batches *)
Lemma batches_of_step k : MAX_UPDATE_PREFIXES <= k -> batches_of (k - MAX_UPDATE_PREFIXES) = batches_of k - 1.
Proof.
  intros Hk. unfold batches_of, MAX_UPDATE_PREFIXES in *.
  replace (k - 200 + 200 - 1) with ((k + 200 - 1) + (-1) * 200) by lia. rewrite Z.div_add by lia. lia.
Qed.
Lemma batches_of_one k : 0 < k <= MAX_UPDATE_PREFIXES -> batches_of k = 1.
Proof.
  intros Hk. unfold batches_of, MAX_UPDATE_PREFIXES in *.
  symmetry. apply (Z.div_unique _ _ _ (k - 1)); lia.
Qed.

(** A batch is full unless it takes the whole front family. *)
Lemma take_batch_maximal room v6 queue batch rest :
  take_batch room v6 queue = (batch, rest) ->
  length batch = room \/ (forall q rest', rest = q :: rest' -> net_is_ipv6 q <> v6).
Proof.
  revert queue batch. induction room as [|room IH]; intros queue batch; simpl.
  { intros [= <- <-]. by left. }
  destruct queue as [|q queue]; [intros [= <- <-]; by right|].
  destruct (Bool.eqb (net_is_ipv6 q) v6) eqn:E.
  - destruct (take_batch room v6 queue) as [b r] eqn:Eb. intros [= <- <-].
    destruct (IH _ _ Eb) as [<-|]; [by left|by right].
  - intros [= <- <-]. right. intros q' rest' [= -> ->] E'. by rewrite E', Bool.eqb_reflx in E.
Qed.

Lemma filter_all (f : IpNet -> bool) (l : list IpNet) b :
  Forall (fun q => f q = b) l -> List.filter f l = if b then l else [].
Proof. induction 1 as [|q l Hq _ IH]; [by destruct b|]. simpl. rewrite Hq, IH. by destruct b. Qed.

Lemma grouped_cost l4 l6 :
  Forall (fun p => net_is_ipv6 p = false) l4 -> Forall (fun p => net_is_ipv6 p = true) l6 ->
  queue_cost (l4 ++ l6) = batches_of (len l4) + batches_of (len l6).
Proof.
  intros H4 H6. unfold queue_cost. rewrite !List.filter_app.
  rewrite (filter_all net_is_ipv6 l4 false), (filter_all net_is_ipv6 l6 true) by done.
  rewrite (filter_all (fun p => negb (net_is_ipv6 p)) l4 true), (filter_all (fun p => negb (net_is_ipv6 p)) l6 false).
  - by rewrite app_nil_r.
  - eapply Forall_impl; [done|]. by intros q ->.
  - eapply Forall_impl; [done|]. by intros q ->.
Qed.

Lemma take_batch_cost q queue batch rest :
  grouped (q :: queue) -> take_batch (Z.to_nat MAX_UPDATE_PREFIXES) (net_is_ipv6 q) (q :: queue) = (batch, rest) ->
  queue_cost rest = queue_cost (q :: queue) - 1.
Proof.
  intros (l4 & l6 & E & H4 & H6) Ht. pose proof (take_batch_maximal _ _ _ _ _ Ht) as Hmax.
  destruct (take_batch_front _ _ _ _ _ batch_room Ht) as (b' & Hb').
  destruct (take_batch_spec _ _ _ _ _ Ht) as (Es & Hf & Hl).
  assert (Hlen : 0 < len batch <= MAX_UPDATE_PREFIXES).
  { rewrite Hb' in *. rewrite len_cons. pose proof (len_nonneg b'). unfold len in *. simpl in Hl. lia. }
  assert (Hcase : forall (b : bool) (l : list IpNet) tail, net_is_ipv6 q = b -> batch ++ rest = l ++ tail ->
            Forall (fun p => net_is_ipv6 p = b) l -> Forall (fun p => net_is_ipv6 p = negb b) tail ->
            exists l', rest = l' ++ tail /\ Forall (fun p => net_is_ipv6 p = b) l' /\
                       batches_of (len l') = batches_of (len l) - 1).
  { intros b l tail <- Ea Hall Htail.
    assert (Hpre : exists l', l = batch ++ l' /\ rest = l' ++ tail).
    { apply app_eq_inv in Ea as [(k & Ek & Er)|(k & Ek & Er)]; [|by exists k].
      destruct k as [|x k]; [exists []; by rewrite app_nil_r in *|]. exfalso.
      rewrite Ek in Hf. apply Forall_app in Hf as [_ Hf]. apply Forall_cons in Hf as [Hx _].
      rewrite Er in Htail. apply Forall_cons in Htail as [Hx' _]. rewrite Hx in Hx'.
      by destruct (net_is_ipv6 q). }
    destruct Hpre as (l' & -> & ->). exists l'. apply Forall_app in Hall as [_ Hl'].
    split_and!; [done|done|]. rewrite len_app. destruct Hmax as [Hfull|Hother].
    - replace (len batch) with MAX_UPDATE_PREFIXES by (unfold len, MAX_UPDATE_PREFIXES in *; lia).
      pose proof (len_nonneg l').
      rewrite <- (batches_of_step (MAX_UPDATE_PREFIXES + len l')) by lia. f_equal. lia.
    - destruct l' as [|x l']; [by rewrite (batches_of_one (len batch + _)) by (unfold len in *; simpl in *; lia)|].
      apply Forall_cons in Hl' as [Hx _]. by destruct (Hother x (l' ++ tail)). }
  rewrite Es in E. rewrite Es. rewrite E. rewrite grouped_cost by done.
  destruct (net_is_ipv6 q) eqn:Eq.
  - destruct l4 as [|x l4].
    + destruct (Hcase true l6 []) as (l' & -> & Hl' & Hc); [done|by rewrite app_nil_r|done|done|].
      rewrite app_nil_r. pose proof (grouped_cost [] l' H4 Hl') as Hg.
      change ([] ++ l') with l' in Hg. rewrite Hg, Hc. lia.
    + exfalso. rewrite Hb' in E. simpl in E. apply Forall_cons in H4 as [Hx _]. simplify_eq. by rewrite Eq in Hx.
  - destruct (Hcase false l4 l6) as (l' & -> & Hl' & Hc); [done|done|done|done|].
    rewrite grouped_cost by done. lia.
Qed.

Section cost.
Context (n : Negotiated).
Lemma plan_next_cost adv tgt rep pl withdraw batch pl' :
  plan_ok n adv tgt rep pl -> plan_next pl = (Some (withdraw, batch), pl') -> plan_cost pl' = plan_cost pl - 1.
Proof.
  intros [_ _ _ _ Hgw Hga] Hnext. unfold plan_next in Hnext. destruct pl as [wd ad].
  unfold plan_cost. cbn [withdrawals additions] in *.
  destruct wd as [|q wd]; cbn [is_empty negb] in Hnext; [destruct ad as [|q ad]; [done|]|].
  - destruct (take_batch (Z.to_nat MAX_UPDATE_PREFIXES) (net_is_ipv6 q) (q :: ad)) as [b rest] eqn:E. simplify_eq.
    cbn [withdrawals additions]. rewrite (take_batch_cost _ _ _ _ Hga E). lia.
  - destruct (take_batch (Z.to_nat MAX_UPDATE_PREFIXES) (net_is_ipv6 q) (q :: wd)) as [b rest] eqn:E. simplify_eq.
    cbn [withdrawals additions]. rewrite (take_batch_cost _ _ _ _ Hgw E). lia.
Qed.

(** [C28] Batching is optimal and never mixes families: each batch taken from a plan
    of the writer is nonempty, of one family, at most 200 prefixes long, and
    lowers the least number of UPDATEs still needed by exactly one; a plan with no
    batch left needs none. *)
Theorem plan_next_optimal adv tgt rep pl r pl' :
  plan_ok n adv tgt rep pl -> plan_next pl = (r, pl') ->
  match r with
  | Some (withdraw, batch) =>
      batch <> [] /\ len batch <= MAX_UPDATE_PREFIXES /\
      (exists v6, Forall (fun q => net_is_ipv6 q = v6) batch) /\ plan_cost pl' = plan_cost pl - 1
  | None => plan_cost pl = 0
  end.
Proof.
  intros Hok Hnext. destruct r as [[withdraw batch]|].
  - destruct (plan_next_queue _ _ _ _ Hnext) as (Hne & Hl & Hv & _). split_and!; [done..|by eapply plan_next_cost].
  - destruct (plan_next_none _ _ _ _ _ _ Hok Hnext) as (_ & Hw & Ha). unfold plan_cost. by rewrite Hw, Ha.
Qed.
End cost.
End plan_theorems.
