(* ===== verification/Export.v ===== *)
(** * src/src/bgp.rs, transmission

    [transmit] is the writer task as a state machine whose steps are the parts of its
    loop. Other tasks act between any two parts: the netlink worker publishes exports,
    the reader requests refreshes. *)
From S2P Require Import Prelude Net Config Frame Open Update Validate Grammar RoundTrip Planning.

(** [Refresh::request] on the [pending] bits. *)
Definition family_bit (v6 : bool) : Z := if v6 then 2 else 1.
Definition request (pending : Z) (v6 : bool) : Z := Z.lor pending (family_bit v6).
(** [u8::from(n.ipv4) | (u8::from(n.ipv6) << 1)] *)
Definition negotiated_bits (n : Negotiated) : Z :=
  Z.lor (if n_ipv4 n then 1 else 0) (Z.shiftl (if n_ipv6 n then 1 else 0) 1).
(** [Duration::from_secs((n.hold as u64 / 3).max(1))], in milliseconds. *)
Definition keepalive_ms (n : Negotiated) : Z := Z.max (n_hold n / 3) 1 * 1000.

Section export.
Context {api : IpNetApi}.

(** ** [transmit] *)
(** Its local variables; instants are milliseconds. *)
Record Tx := mkTx {
  advertised : Prefixes;
  target : Prefixes;
  replay : Prefixes;
  plan : Plan;
  eor : Z;
  last_replan : Z;
  next_refresh : Z;
  next_keepalive : Z
}.

(** The watch channel (latest value, unseen flag) and [Refresh::pending]. *)
Record Shared := mkShared { watch : Exports; changed : bool; pending : Z }.

(** What is written to the peer. *)
Inductive Msg :=
| MKeepalive
| MUpdate (withdraw : bool) (batch : list IpNet)
| MEndOfRib (v6 : bool).
Definition encode_msg (cfg : Config) (p : Peer) (n : Negotiated) (m : Msg) : res (list Z) :=
  match m with
  | MKeepalive => frame KEEPALIVE []
  | MUpdate withdraw batch => update cfg p n batch withdraw
  | MEndOfRib v6 => end_of_rib v6
  end.

Definition tx_init (order : Order) (p : Peer) (n : Negotiated) (now : Z) (exports : Exports) : Tx :=
  let target := desired exports (p_export_acl p) in {|
    advertised := ∅;
    target := target;
    replay := ∅;
    plan := plan_new order ∅ target n ∅;
    eor := negotiated_bits n;
    last_replan := now;
    next_refresh := now;
    next_keepalive := now + keepalive_ms n
  |}.

(** Take the latest snapshot; the same statements in both places. *)
Definition retarget (order : Order) (p : Peer) (n : Negotiated) (now : Z) (exports : Exports) (t : Tx) : Tx :=
  let target := desired exports (p_export_acl p) in
  let replay := filter (fun prefix => prefix ∈ target) (replay t) in {|
    advertised := advertised t;
    target := target;
    replay := replay;
    plan := plan_new order (advertised t) target n replay;
    eor := eor t;
    last_replan := now;
    next_refresh := next_refresh t;
    next_keepalive := next_keepalive t
  |}.
Definition replan_due (now : Z) (sh : Shared) (t : Tx) : bool :=
  changed sh && (100 <=? now - last_replan t).

(** The start of a refresh at [now], and the check, which reads the clock at [now] and
    again at [later]; the second component is the new [pending]. *)
Definition start_refresh (order : Order) (n : Negotiated) (now families : Z) (t : Tx) : Tx :=
  let replay := filter (fun prefix => Z.land families (family_bit (net_is_ipv6 prefix)) <> 0) (target t) in {|
    advertised := advertised t;
    target := target t;
    replay := replay;
    plan := plan_new order (advertised t) (target t) n replay;
    eor := Z.land families (negotiated_bits n);
    last_replan := last_replan t;
    next_refresh := now + 1000;
    next_keepalive := next_keepalive t
  |}.
Definition check_refresh (order : Order) (n : Negotiated) (now later : Z) (pending : Z) (t : Tx) : Tx * Z :=
  if (eor t =? 0) && (next_refresh t <=? now) then
    let families := pending in
    if negb (families =? 0) then (start_refresh order n later families t, 0) else (t, 0)
  else (t, pending).

Definition keepalive_due (n : Negotiated) (now : Z) (t : Tx) : bool :=
  negb (n_hold n =? 0) && (next_keepalive t <=? now).
Definition set_next_keepalive (n : Negotiated) (now : Z) (t : Tx) : Tx :=
  mkTx (advertised t) (target t) (replay t) (plan t) (eor t) (last_replan t) (next_refresh t)
    (now + keepalive_ms n).

(** The loop over a written batch. *)
Definition mark_sent (withdraw : bool) (batch : list IpNet) (t : Tx) : Tx :=
  mkTx
    (fold_left (fun s prefix => if withdraw then s ∖ {[prefix]} else {[prefix]} ∪ s) batch (advertised t))
    (target t)
    (fold_left (fun s prefix => s ∖ {[prefix]}) batch (replay t))
    (plan t) (eor t) (last_replan t) (next_refresh t) (next_keepalive t).
Definition set_plan (pl : Plan) (t : Tx) : Tx :=
  mkTx (advertised t) (target t) (replay t) pl (eor t) (last_replan t) (next_refresh t) (next_keepalive t).

Definition eor_msgs (eor : Z) : list Msg :=
  (if negb (Z.land eor 1 =? 0) then [MEndOfRib false] else []) ++
  (if negb (Z.land eor 2 =? 0) then [MEndOfRib true] else []).
Definition clear_eor (t : Tx) : Tx :=
  mkTx (advertised t) (target t) (replay t) (plan t) 0 (last_replan t) (next_refresh t) (next_keepalive t).

(** The parts of the loop body, in order; [Stopped] is the task's return. *)
Inductive Phase := PReplan | PRefresh | PKeepalive | PBatch | PEor | PSelect | Stopped.
#[export] Instance phase_eq_dec : EqDecision Phase.
Proof. solve_decision. Defined.

(** The task with its environment; [sent] is everything written so far. *)
Record World := mkWorld { phase : Phase; tx : Tx; shared : Shared; sent : list Msg }.

Section step.
Context (p : Peer) (n : Negotiated).

(** Other tasks publish exports and request refreshes. *)
Inductive env_step : World -> World -> Prop :=
| step_publish ph t sh s exports :
    env_step (mkWorld ph t sh s) (mkWorld ph t (mkShared exports true (pending sh)) s)
| step_request ph t sh s v6 :
    env_step (mkWorld ph t sh s)
            (mkWorld ph t (mkShared (watch sh) (changed sh) (request (pending sh) v6)) s).
(** The parts of the loop. *)
Inductive own_step : World -> World -> Prop :=
(** A write failed or timed out, or the exports' sender is gone. *)
| step_stop ph t sh s :
    ph <> Stopped -> own_step (mkWorld ph t sh s) (mkWorld Stopped t sh s)
| step_replan order now later t sh s :
    order_ok order -> replan_due now sh t = true -> now <= later ->
    own_step (mkWorld PReplan t sh s)
            (mkWorld PRefresh (retarget order p n later (watch sh) t)
               (mkShared (watch sh) false (pending sh)) s)
| step_no_replan now t sh s :
    replan_due now sh t = false -> own_step (mkWorld PReplan t sh s) (mkWorld PRefresh t sh s)
| step_refresh order now later t sh s t' pending' :
    order_ok order -> now <= later -> check_refresh order n now later (pending sh) t = (t', pending') ->
    own_step (mkWorld PRefresh t sh s)
            (mkWorld PKeepalive t' (mkShared (watch sh) (changed sh) pending') s)
| step_keepalive now later t sh s :
    keepalive_due n now t = true -> now <= later ->
    own_step (mkWorld PKeepalive t sh s)
            (mkWorld PBatch (set_next_keepalive n later t) sh (s ++ [MKeepalive]))
| step_no_keepalive now t sh s :
    keepalive_due n now t = false -> own_step (mkWorld PKeepalive t sh s) (mkWorld PBatch t sh s)
| step_batch t sh s withdraw batch pl :
    plan_next (plan t) = (Some (withdraw, batch), pl) ->
    own_step (mkWorld PBatch t sh s)
            (mkWorld PReplan (mark_sent withdraw batch (set_plan pl t)) sh (s ++ [MUpdate withdraw batch]))
| step_no_batch t sh s pl :
    plan_next (plan t) = (None, pl) -> own_step (mkWorld PBatch t sh s) (mkWorld PEor (set_plan pl t) sh s)
| step_eor t sh s :
    own_step (mkWorld PEor t sh s) (mkWorld PSelect (clear_eor t) sh (s ++ eor_msgs (eor t)))
(** The first of two end-of-RIB markers was written, the second was not. *)
| step_eor_stop t sh s m1 m2 :
    eor_msgs (eor t) = [m1; m2] -> own_step (mkWorld PEor t sh s) (mkWorld Stopped t sh (s ++ [m1]))
(** The four branches of [select!]; the last three only wake the loop. *)
| step_changed order now t sh s :
    order_ok order -> changed sh = true ->
    own_step (mkWorld PSelect t sh s)
            (mkWorld PReplan (retarget order p n now (watch sh) t) (mkShared (watch sh) false (pending sh)) s)
| step_wake t sh s : own_step (mkWorld PSelect t sh s) (mkWorld PReplan t sh s).

Definition tx_step (w w' : World) : Prop := env_step w w' \/ own_step w w'.

Inductive tx_reachable : World -> Prop :=
| reach_init order now exports pending0 :
    order_ok order ->
    tx_reachable (mkWorld PReplan (tx_init order p n now exports) (mkShared exports false pending0) [])
| reach_step w w' : tx_reachable w -> tx_step w w' -> tx_reachable w'.
End step.

(** The writer left alone: no write fails, no timer or refresh wakes its wait; only
    exports it has not seen do. *)
Definition drain_step (p : Peer) (n : Negotiated) (w w' : World) : Prop :=
  own_step p n w w' /\ phase w' <> Stopped /\ (phase w = PSelect -> changed (shared w) = true /\ changed (shared w') = false).
(** Waiting, with the current exports seen. *)
Definition settled (w : World) : Prop := phase w = PSelect /\ changed (shared w) = false.

(** The start of [session]: an omitted link-local next hop comes from the interface. *)
Definition session_peer (p : Peer) (link_local : option Z) : Peer :=
  if p_ipv6 p && negb (is_some (p_next_hop_v6_link_local p)) then
    mkPeer (p_address p) (p_local_address p) (p_interface p) (p_remote_asn p) (p_export_acl p)
      (p_md5_password p) (p_port p) (p_hold_time_secs p) (p_connect_timeout_secs p)
      (p_write_timeout_secs p) (p_ipv6 p) (p_ipv4 p) (p_next_hop_v4 p) (p_next_hop_v6 p) link_local
  else p.

(** ** What the peer holds after a sequence of messages *)
Definition apply_msg (view : Prefixes) (m : Msg) : Prefixes :=
  match m with
  | MUpdate true batch => view ∖ list_to_set batch
  | MUpdate false batch => list_to_set batch ∪ view
  | _ => view
  end.
Definition peer_view (msgs : list Msg) : Prefixes := fold_left apply_msg msgs ∅.
(** The exports of the families the session negotiated. *)
Definition enabled_set (n : Negotiated) (s : Prefixes) : Prefixes := filter (fun p => enabled n p = true) s.

(** [q] was announced by one of [msgs]. *)
Definition announced (q : IpNet) (msgs : list Msg) : Prop :=
  exists batch, MUpdate false batch ∈ msgs /\ q ∈ batch.

(** A message the session may send. *)
Definition msg_ok (n : Negotiated) (m : Msg) : Prop :=
  match m with
  | MKeepalive => True
  | MUpdate withdraw batch =>
      batch <> [] /\ len batch <= MAX_UPDATE_PREFIXES /\
      exists v6 : bool, Forall (fun p => net_is_ipv6 p = v6) batch /\ (if v6 then n_ipv6 n else n_ipv4 n) = true
  | MEndOfRib v6 => (if v6 : bool then n_ipv6 n else n_ipv4 n) = true
  end.

(** The state invariant of the writer task. *)
Record tx_ok (n : Negotiated) (w : World) : Prop := {
  ok_view : advertised (tx w) = peer_view (sent w);
  ok_plan : plan_ok n (advertised (tx w)) (target (tx w)) (replay (tx w)) (plan (tx w));
  ok_enabled q : q ∈ advertised (tx w) -> enabled n q = true;
  ok_eor : (Z.land (eor (tx w)) 1 <> 0 -> n_ipv4 n = true) /\ (Z.land (eor (tx w)) 2 <> 0 -> n_ipv6 n = true);
  ok_sent : Forall (msg_ok n) (sent w);
  ok_drained : phase w = PEor \/ phase w = PSelect -> withdrawals (plan (tx w)) = [] /\ additions (plan (tx w)) = []
}.
End export.

(** * Theorems *)
Section transmit_theorems.
Context {api : IpNetApi} (p : Peer) (n : Negotiated).

Lemma mark_sent_advertised withdraw batch t :
  advertised (mark_sent withdraw batch t) = after_batch withdraw batch (advertised t) /\
  replay (mark_sent withdraw batch t) = replay t ∖ list_to_set batch.
Proof.
  unfold mark_sent; cbn [advertised replay]. rewrite fold_difference. split; [|done].
  destruct withdraw; simpl; [apply fold_difference|apply fold_union].
Qed.

Lemma peer_view_app msgs m : peer_view (msgs ++ [m]) = apply_msg (peer_view msgs) m.
Proof. unfold peer_view. by rewrite fold_left_app. Qed.

Lemma negotiated_bits_spec :
  (Z.land (negotiated_bits n) 1 <> 0 <-> n_ipv4 n = true) /\
  (Z.land (negotiated_bits n) 2 <> 0 <-> n_ipv6 n = true).
Proof. unfold negotiated_bits. by destruct (n_ipv4 n), (n_ipv6 n). Qed.

Lemma masked_bits families bit :
  Z.land (Z.land families (negotiated_bits n)) bit <> 0 -> Z.land (negotiated_bits n) bit <> 0.
Proof. intros H E. apply H. by rewrite <- Z.land_assoc, E, Z.land_0_r. Qed.

Lemma eor_msgs_ok e view :
  (Z.land e 1 <> 0 -> n_ipv4 n = true) /\ (Z.land e 2 <> 0 -> n_ipv6 n = true) ->
  Forall (msg_ok n) (eor_msgs e) /\ fold_left apply_msg (eor_msgs e) view = view.
Proof.
  intros [H4 H6]. unfold eor_msgs.
  destruct (Z.eqb_spec (Z.land e 1) 0), (Z.eqb_spec (Z.land e 2) 0); simpl; (split; [|done]);
    rewrite ?Forall_cons; simpl; auto.
Qed.

Lemma tx_init_ok order now exports pending0 :
  order_ok order ->
  tx_ok n (mkWorld PReplan (tx_init order p n now exports) (mkShared exports false pending0) []).
Proof.
  intros Ho. split; simpl.
  - done.
  - by apply plan_new_ok.
  - set_solver.
  - split; apply negotiated_bits_spec.
  - by apply Forall_nil.
  - by intros [|].
Qed.

(** Every kind of step keeps the invariant. *)
Lemma tx_ok_retarget order now ph sh sh' s t exports :
  order_ok order -> tx_ok n (mkWorld ph t sh s) ->
  tx_ok n (mkWorld PReplan (retarget order p n now exports t) sh' s) /\
  tx_ok n (mkWorld PRefresh (retarget order p n now exports t) sh' s).
Proof.
  intros Ho []. split; split; simpl in *; try done; try (by apply plan_new_ok); by intros [|].
Qed.

Lemma tx_ok_refresh order now families ph sh sh' s t :
  order_ok order -> tx_ok n (mkWorld ph t sh s) ->
  tx_ok n (mkWorld PKeepalive (start_refresh order n now families t) sh' s).
Proof.
  intros Ho []. split; simpl in *; try done; [by apply plan_new_ok| |by intros [|]].
  split; intros H%masked_bits; by apply negotiated_bits_spec.
Qed.

(** The invariant speaks of the phase only when the plan is drained. *)
Lemma tx_ok_phase ph ph' t sh sh' s :
  tx_ok n (mkWorld ph t sh s) -> ph' <> PEor -> ph' <> PSelect -> tx_ok n (mkWorld ph' t sh' s).
Proof. intros [] ? ?. split; simpl in *; try done. by intros [|]. Qed.

Lemma tx_ok_eor ph' t sh s msgs :
  tx_ok n (mkWorld PEor t sh s) -> (exists rest, eor_msgs (eor t) = msgs ++ rest) ->
  ph' <> PEor -> (ph' = PSelect \/ ph' = Stopped) ->
  tx_ok n (mkWorld ph' (clear_eor t) sh (s ++ msgs)) /\
  tx_ok n (mkWorld Stopped t sh (s ++ msgs)).
Proof.
  intros [Hview Hplan Hen Heor Hsent Hdr] [rest E] _ _. cbn in *.
  destruct (eor_msgs_ok (eor t) (peer_view s) Heor) as [Hm Hv].
  rewrite E, Forall_app in Hm. destruct Hm as [Hm _].
  assert (Hvm : peer_view (s ++ msgs) = peer_view s).
  { unfold peer_view in *. rewrite fold_left_app. clear -E. unfold eor_msgs in E.
    destruct (negb (Z.land (eor t) 1 =? 0)), (negb (Z.land (eor t) 2 =? 0));
      destruct msgs as [|m1 [|m2 [|]]]; simplify_eq/=; try done. }
  specialize (Hdr (or_introl eq_refl)).
  split; split; simpl; try done; try (by rewrite Hvm); try by apply Forall_app.
Qed.

Lemma tx_ok_batch w withdraw batch pl :
  tx_ok n w -> plan_next (plan (tx w)) = (Some (withdraw, batch), pl) ->
  tx_ok n (mkWorld PReplan (mark_sent withdraw batch (set_plan pl (tx w))) (shared w)
             (sent w ++ [MUpdate withdraw batch])).
Proof.
  intros [Hview Hplan Hen Heor Hsent _] Hnext.
  destruct (plan_next_ok n _ _ _ _ _ _ _ Hen Hplan Hnext) as [Hb Hplan'].
  destruct (plan_next_queue _ _ _ _ Hnext) as (Hne & Hl & (v6 & Hv6) & _).
  destruct (mark_sent_advertised withdraw batch (set_plan pl (tx w))) as [Ha Hr].
  assert (Hbe : forall q, q ∈ batch -> enabled n q = true).
  { intros q Hq. specialize (Hb q Hq). destruct withdraw; [by apply Hen, Hb|by apply Hb]. }
  split; cbn [tx phase sent advertised target replay plan eor mark_sent] in *.
  - rewrite peer_view_app, <- Hview. by destruct withdraw.
  - rewrite Ha, Hr. exact Hplan'.
  - intros q. rewrite Ha. unfold after_batch.
    destruct withdraw; rewrite ?elem_of_difference, ?elem_of_union, ?elem_of_list_to_set; [by intros [? _]; apply Hen|].
    intros [Hq|Hq]; [by apply Hbe|by apply Hen].
  - done.
  - apply Forall_app. split; [done|]. apply Forall_singleton. split_and!; [done|done|].
    exists v6. split; [done|]. destruct batch as [|q batch]; [done|].
    apply Forall_cons in Hv6 as [Hq _]. rewrite <- Hq. rewrite <- enabled_spec. by apply Hbe; left.
  - by intros [|].
Qed.

Lemma tx_ok_step w w' : tx_ok n w -> tx_step p n w w' -> tx_ok n w'.
Proof.
  intros Hw [Hstep|Hstep].
  { destruct Hstep; by destruct Hw; split. }
  destruct Hstep.
  - by eapply tx_ok_phase.
  - by eapply tx_ok_retarget.
  - by eapply tx_ok_phase.
  - unfold check_refresh in *. destruct (_ && _); [destruct (negb _)|]; simplify_eq.
    + by eapply tx_ok_refresh.
    + by eapply tx_ok_phase.
    + by eapply tx_ok_phase.
  - destruct Hw; split; simpl in *; try done; [by rewrite peer_view_app| |by intros [|]].
    by apply Forall_app; split; [|apply Forall_singleton].
  - by eapply tx_ok_phase.
  - by apply (tx_ok_batch (mkWorld PBatch t sh s)).
  - pose proof (ok_plan _ _ Hw) as Hp. simpl in Hp.
    destruct (plan_next_none _ _ _ _ _ _ Hp H) as (-> & Hwd & Ha). destruct Hw; by split.
  - eapply (tx_ok_eor PSelect); [done| |done|by left]. exists []. by rewrite app_nil_r.
  - eapply (tx_ok_eor Stopped); [done| |done|by right]. by exists [m2].
  - by eapply tx_ok_retarget.
  - by eapply tx_ok_phase.
Qed.

Lemma tx_reachable_ok w : tx_reachable p n w -> tx_ok n w.
Proof. induction 1; [by apply tx_init_ok|by eapply tx_ok_step]. Qed.

(** What was seen of the channel is what is being announced. *)
Definition seen (w : World) : Prop :=
  changed (shared w) = false -> target (tx w) = desired (watch (shared w)) (p_export_acl p).
Lemma seen_step w w' : seen w -> tx_step p n w w' -> seen w'.
Proof.
  unfold seen. intros Hs [Hstep|Hstep]; destruct Hstep; cbn [shared tx changed watch] in *; try done.
  unfold check_refresh in H1. destruct (_ && _); [destruct (negb _)|]; by injection H1 as <- <-.
Qed.
Lemma tx_reachable_seen w : tx_reachable p n w -> seen w.
Proof. induction 1; [done|by eapply seen_step]. Qed.

(** A drained plan means that exactly the enabled target is advertised. *)
Lemma drained_synchronized adv tgt rep pl :
  (forall q, q ∈ adv -> enabled n q = true) ->
  plan_ok n adv tgt rep pl -> withdrawals pl = [] -> additions pl = [] ->
  adv = enabled_set n tgt /\ forall q, q ∈ enabled_set n tgt -> q ∉ rep.
Proof.
  intros Hen [Hw Ha _ _ _ _] Ew Ea. rewrite Ew in Hw. rewrite Ea in Ha.
  assert (Hadv : forall q, q ∈ adv -> q ∈ tgt).
  { intros q Hq. destruct (decide (q ∈ tgt)); [done|]. exfalso.
    by apply (not_elem_of_nil q), Hw; split; [|left]. }
  assert (Htgt : forall q, q ∈ tgt -> enabled n q = true -> q ∈ adv /\ q ∉ rep).
  { intros q Hq Hn. specialize (Ha q). pose proof (not_elem_of_nil q).
    destruct (decide (q ∈ adv)), (decide (q ∈ rep)); naive_solver. }
  unfold enabled_set. split; [apply set_eq|]; intros q; rewrite elem_of_filter; naive_solver.
Qed.

Lemma settled_view w :
  tx_reachable p n w -> phase w = PEor \/ phase w = PSelect -> peer_view (sent w) = enabled_set n (target (tx w)).
Proof.
  intros [Hview Hplan Hen _ _ Hdr]%tx_reachable_ok Hph. rewrite <- Hview.
  destruct (Hdr Hph). by eapply drained_synchronized.
Qed.

(** [C8] The writer's bookkeeping is the peer's view: in every reachable state of
    [transmit], whatever the other tasks do and whenever a write fails, the set
    [advertised] is exactly what the messages sent so far amount to; and whenever
    the plan is drained (before the end-of-RIB markers, and while waiting) that
    view is the current target restricted to the negotiated families. *)
Theorem transmit_view w :
  tx_reachable p n w ->
  advertised (tx w) = peer_view (sent w) /\
  (phase w = PEor \/ phase w = PSelect -> peer_view (sent w) = enabled_set n (target (tx w))).
Proof.
  intros Hw. split; [by apply (ok_view n), tx_reachable_ok|by apply settled_view].
Qed.

Lemma own_step_eor w w' v6 ms :
  own_step p n w w' -> sent w' = sent w ++ ms -> MEndOfRib v6 ∈ ms -> phase w = PEor.
Proof.
  intros Hstep Hs Hin. destruct Hstep; cbn [sent phase] in *; try done;
    try (rewrite <- (app_nil_r s) in Hs at 1; apply app_inv_head in Hs as <-;
         by apply not_elem_of_nil in Hin);
    apply app_inv_head in Hs as <-; by apply list_elem_of_singleton in Hin.
Qed.

(** An end-of-RIB marker is truthful: it is only written when the family was
    negotiated and the peer's view equals the negotiated part of the current
    target, with nothing left to replay. *)
Theorem end_of_rib_synchronized w w' v6 ms :
  tx_reachable p n w -> tx_step p n w w' -> sent w' = sent w ++ ms -> MEndOfRib v6 ∈ ms ->
  peer_view (sent w) = enabled_set n (target (tx w)) /\
  (forall q, q ∈ enabled_set n (target (tx w)) -> q ∉ replay (tx w)) /\
  (if v6 then n_ipv6 n else n_ipv4 n) = true.
Proof.
  intros Hw Hstep Hs Hin. pose proof (tx_reachable_ok _ Hw) as Hok.
  assert (Hph : phase w = PEor).
  { destruct Hstep as [Hstep|Hstep]; [|by eapply own_step_eor].
    destruct Hstep; cbn [sent] in Hs; rewrite <- (app_nil_r s) in Hs at 1;
      apply app_inv_head in Hs as <-; by apply not_elem_of_nil in Hin. }
  pose proof (tx_ok_step _ _ Hok Hstep) as Hok'.
  destruct Hok as [Hview Hplan Hen _ _ Hdr]. destruct (Hdr (or_introl Hph)).
  destruct (drained_synchronized _ _ _ _ Hen Hplan) as [He Hr]; [done|done|].
  split_and!; [by rewrite <- Hview|done|].
  pose proof (ok_sent _ _ Hok') as Hsent. rewrite Hs, Forall_app in Hsent.
  destruct Hsent as [_ Hsent]. rewrite Forall_forall in Hsent. exact (Hsent _ Hin).
Qed.

(** ** Termination and progress of the writer *)
Definition phase_rank (ph : Phase) : nat :=
  match ph with
  | PReplan => 6 | PRefresh => 5 | PKeepalive => 4 | PBatch => 3 | PEor => 2 | PSelect => 1 | Stopped => 0
  end.
Definition inbox (w : World) : nat :=
  (if changed (shared w) then 1 else 0) + (if pending (shared w) =? 0 then 0 else 1).
Definition backlog (w : World) : nat :=
  length (withdrawals (plan (tx w))) + length (additions (plan (tx w))).

Lemma own_step_decreases w w' :
  own_step p n w w' -> phase w <> PSelect ->
  (inbox w' < inbox w)%nat \/
  (inbox w' = inbox w /\ (backlog w' < backlog w)%nat) \/
  (inbox w' = inbox w /\ backlog w' = backlog w /\ (phase_rank (phase w') < phase_rank (phase w))%nat).
Proof.
  intros Hstep Hph. destruct Hstep; unfold inbox, backlog; cbn [shared phase tx changed pending] in *; try done.
  - right; right. split_and!; [done|done|]. by destruct ph; simpl; try lia.
  - left. unfold replan_due in *. destruct (changed sh); [lia|done].
  - right; right. split_and!; [done|done|simpl; lia].
  - unfold check_refresh in *.
    destruct (_ && _); [destruct (Z.eqb_spec (pending sh) 0) as [E|]|]; simplify_eq/=.
    + right; right. rewrite ?E. split_and!; [done|done|lia].
    + left. destruct (Z.eqb_spec (pending sh) 0); [done|]. destruct (changed sh); simpl; lia.
    + right; right. split_and!; [done|done|lia].
  - right; right. split_and!; [done|done|simpl; lia].
  - right; right. split_and!; [done|done|simpl; lia].
  - right; left. split; [done|].
    apply plan_next_queue in H as (Hne & _ & _ & Hq). cbn [plan mark_sent set_plan].
    destruct batch as [|q batch]; [done|].
    destruct withdraw; [destruct Hq as [-> ->]|destruct Hq as (-> & -> & ->)];
      rewrite ?length_app; simpl; lia.
  - right; right. assert (pl = plan t) as ->.
    { unfold plan_next in H. destruct (if negb _ then _ else _); [by injection H|].
      by destruct (take_batch (Z.to_nat MAX_UPDATE_PREFIXES) _ _). }
    split_and!; [done|done|simpl; lia].
  - right; right. split_and!; [done|done|simpl; lia].
  - right; right. split_and!; [done|done|simpl; lia].
Qed.

Lemma order_exists : exists order, order_ok order.
Proof. exists elements. by intros s. Qed.

Lemma own_step_progress w :
  phase w <> PSelect -> phase w <> Stopped -> exists w', own_step p n w w' /\ phase w' <> Stopped.
Proof.
  destruct w as [ph t sh s]. intros Hsel Hstop. destruct order_exists as [order Ho].
  destruct ph; try done; cbn [phase] in *.
  - destruct (replan_due 0 sh t) eqn:E; eexists; split;
      [by eapply (step_replan _ _ order 0 0)| |by eapply step_no_replan|]; done.
  - destruct (check_refresh order n 0 0 (pending sh) t) as [t' pend'] eqn:E.
    eexists. split; [by eapply step_refresh|done].
  - destruct (keepalive_due n 0 t) eqn:E; eexists; split;
      [by apply (step_keepalive _ _ 0 0)| |by eapply step_no_keepalive|]; done.
  - destruct (plan_next (plan t)) as [[[withdraw batch]|] pl] eqn:E; eexists; split;
      [by eapply step_batch| |by eapply step_no_batch|]; done.
  - eexists. split; [apply step_eor|done].
Qed.

(** The writer never gets stuck or loops on its own: without new events every run of
    its steps is finite, and before its wait it can take a step that is not a failure. *)
Theorem transmit_drains :
  (forall w, Acc (fun w2 w1 => own_step p n w1 w2 /\ phase w1 <> PSelect) w) /\
  (forall w, phase w <> PSelect -> phase w <> Stopped ->
     exists w', own_step p n w w' /\ phase w' <> Stopped).
Proof.
  split; [|apply own_step_progress].
  apply (acc_lex3 _ inbox backlog (fun w => phase_rank (phase w))).
  intros w w' [Hstep Hph]. by apply own_step_decreases.
Qed.

Lemma drain_step_acc w : Acc (fun w2 w1 => drain_step p n w1 w2) w.
Proof.
  revert w. apply (acc_lex3 _ inbox backlog (fun w => phase_rank (phase w))).
  intros w w' (Hstep & _ & Hseen). destruct (decide (phase w = PSelect)) as [E|E]; [|by apply own_step_decreases].
  destruct (Hseen E) as [H H']. left. destruct Hstep; cbn [phase] in E; subst; try done;
    unfold inbox in *; cbn [shared changed pending] in *; try congruence; rewrite H; simpl; lia.
Qed.
Lemma drain_step_progress w : phase w <> Stopped -> settled w \/ exists w', drain_step p n w w'.
Proof.
  intros Hstop. destruct (decide (phase w = PSelect)) as [E|E].
  - destruct (changed (shared w)) eqn:Hc; [right|by left].
    destruct w as [ph t sh s], order_exists as [order Ho]. cbn [phase shared] in *. subst ph.
    eexists. split; [by apply (step_changed _ _ order 0)|]. by split.
  - right. destruct (own_step_progress w E Hstop) as (w' & H1 & H2). exists w'. by split_and!.
Qed.

(** ** Route refresh *)
Lemma family_bit_spec x v6 : Z.land x (family_bit v6) <> 0 <-> Z.testbit x (if v6 then 1 else 0) = true.
Proof.
  assert (E : Z.land x (family_bit v6) = if Z.testbit x (if v6 then 1 else 0) then family_bit v6 else 0).
  { apply Z.bits_inj'. intros i Hi. rewrite Z.land_spec.
    assert (Hb : Z.testbit (family_bit v6) i = (i =? if v6 then 1 else 0)).
    { destruct v6; [change (family_bit true) with (2 ^ 1)|change (family_bit false) with (2 ^ 0)];
        rewrite Z.pow2_bits_eqb by lia; lia. }
    destruct (Z.eqb_spec i (if v6 then 1 else 0)) as [->|].
    - rewrite Hb. destruct (Z.testbit x _); [by rewrite Hb|by rewrite Z.bits_0].
    - rewrite Hb, andb_false_r. destruct (Z.testbit x _); [by rewrite Hb|by rewrite Z.bits_0]. }
  rewrite E. by destruct (Z.testbit x _), v6.
Qed.

Lemma request_spec pending (v6 v6' : bool) :
  Z.testbit (request pending v6) (if v6' then 1 else 0) =
    Z.testbit pending (if v6' then 1 else 0) || Bool.eqb v6 v6'.
Proof. unfold request. rewrite Z.lor_spec. by destruct v6, v6'. Qed.

(** [C26] A refresh request is never lost: once requested, a family stays pending
    across every step of every task until the writer starts a refresh that
    includes it, which it only does when no end-of-RIB is owed and a second has
    passed since it started the last one. *)
Theorem refresh_not_lost w w' (v6 : bool) :
  tx_step p n w w' -> Z.testbit (pending (shared w)) (if v6 then 1 else 0) = true ->
  Z.testbit (pending (shared w')) (if v6 then 1 else 0) = true \/
  (exists order now later, phase w = PRefresh /\ eor (tx w) = 0 /\ next_refresh (tx w) <= now <= later /\
     tx w' = start_refresh order n later (pending (shared w)) (tx w) /\
     next_refresh (tx w') = later + 1000).
Proof.
  intros [Hstep|Hstep] Hb; destruct Hstep; cbn [shared pending tx phase] in *; try (by left).
  - left. by rewrite request_spec, Hb.
  - unfold check_refresh in *.
    destruct ((eor t =? 0) && (next_refresh t <=? now)) eqn:E; [|simplify_eq; by left].
    destruct (Z.eqb_spec (pending sh) 0) as [E0|]; simplify_eq/=.
    { by rewrite E0 in Hb; destruct v6. }
    right. exists order, now, later. split_and!; done || lia.
Qed.

(** Steps up to the end-of-RIB during which [q] stays a target. *)
Definition refresh_step (q : IpNet) (w w' : World) : Prop :=
  tx_step p n w w' /\ phase w' <> PSelect /\ q ∈ target (tx w').

Lemma retarget_replay order now exports t q :
  q ∈ replay t -> q ∈ target (retarget order p n now exports t) ->
  q ∈ replay (retarget order p n now exports t).
Proof. intros. cbn [retarget replay]. by apply elem_of_filter. Qed.

Lemma refresh_step_inv q s w w' ms :
  tx_ok n w -> refresh_step q w w' ->
  q ∈ target (tx w) -> enabled n q = true ->
  Z.land (eor (tx w)) (family_bit (net_is_ipv6 q)) <> 0 ->
  sent w = s ++ ms -> q ∈ replay (tx w) \/ announced q ms ->
  Z.land (eor (tx w')) (family_bit (net_is_ipv6 q)) <> 0 /\
  exists ms', sent w' = s ++ ms' /\ (q ∈ replay (tx w') \/ announced q ms').
Proof.
  intros Hok (Hstep & Hph & Hq') Hq Hen Heor Hs Hann.

  assert (Hext : forall m, announced q ms -> announced q (ms ++ m)).
  { intros m (b & ? & ?). exists b. split; [apply elem_of_app; by left|done]. }
  destruct Hstep as [Hstep|Hstep]; destruct Hstep; cbn [tx sent phase target replay eor] in *; try done; subst s0.
  all: try (split; [done|]; by exists ms).
  - split; [done|]. exists ms. split; [done|]. destruct Hann; [left|by right]. by apply retarget_replay.
  - unfold check_refresh in *. destruct (Z.eqb_spec (eor t) 0) as [E|]; [by rewrite E in Heor|].
    simplify_eq/=. split; [done|]. by exists ms.
  - split; [done|]. exists (ms ++ [MKeepalive]). rewrite app_assoc. split; [done|].
    destruct Hann; [by left|right; by apply Hext].
  - split; [done|]. exists (ms ++ [MUpdate withdraw batch]). rewrite app_assoc. split; [done|].
    destruct (mark_sent_advertised withdraw batch (set_plan pl t)) as [_ ->]. cbn [set_plan replay].
    destruct Hok as [_ Hplan Hadv _ _ _]. cbn [tx advertised target replay plan] in *.
    destruct (plan_next_ok n _ _ _ _ _ _ _ Hadv Hplan H) as [Hb _].
    destruct Hann as [Hr|Hr]; [|right; by apply Hext].
    destruct (decide (q ∈ batch)) as [Hin|Hin].
    + right. exists batch. destruct withdraw; [destruct (Hb q Hin); done|].
      split; [|done]. apply elem_of_app. right. by apply list_elem_of_singleton.
    + left. rewrite elem_of_difference, elem_of_list_to_set. done.
  - split; [done|]. exists (ms ++ [m1]). rewrite app_assoc. split; [done|].
    destruct Hann; [by left|right; by apply Hext].
  - split; [done|]. exists ms. split; [done|]. destruct Hann; [left|by right]. by apply retarget_replay.
Qed.

(** [C27] Route refresh is complete: after a refresh of [q]'s family starts, if [q]
    is negotiated and stays in the target, then before the end-of-RIB marker is
    written [q] has been announced again, even if it was already advertised, and
    however snapshots, requests and KEEPALIVEs interleave. *)
Theorem refresh_resends order now families t sh s q w :
  tx_reachable p n (mkWorld PKeepalive (start_refresh order n now families t) sh s) ->
  q ∈ target t -> enabled n q = true -> Z.land families (family_bit (net_is_ipv6 q)) <> 0 ->
  rtc (refresh_step q) (mkWorld PKeepalive (start_refresh order n now families t) sh s) w ->
  phase w = PEor ->
  exists ms, sent w = s ++ ms /\ announced q ms.
Proof.
  intros Hreach Hq Hen Hfam Hrtc Hph. set (w0 := mkWorld _ _ _ _) in *.
  assert (Hinv : tx_ok n w /\ q ∈ target (tx w) /\
            Z.land (eor (tx w)) (family_bit (net_is_ipv6 q)) <> 0 /\
            exists ms, sent w = s ++ ms /\ (q ∈ replay (tx w) \/ announced q ms)).
  { assert (H0 : tx_ok n w0) by by apply tx_reachable_ok.
    assert (Hq0 : q ∈ target (tx w0)) by done.
    assert (He0 : Z.land (eor (tx w0)) (family_bit (net_is_ipv6 q)) <> 0).
    { cbn [w0 tx eor start_refresh]. rewrite family_bit_spec, Z.land_spec.
      apply family_bit_spec in Hfam. rewrite Hfam. rewrite enabled_spec in Hen.
      unfold negotiated_bits. by destruct (net_is_ipv6 q), (n_ipv4 n), (n_ipv6 n). }
    assert (Hs0 : exists ms, sent w0 = s ++ ms /\ (q ∈ replay (tx w0) \/ announced q ms)).
    { exists []. split; [by rewrite app_nil_r|left]. cbn [w0 tx replay start_refresh].
      by apply elem_of_filter. }
    clear Hph Hreach. induction Hrtc as [|w1 w2 w3 Hstep _ IH]; [done|].
    destruct Hs0 as (ms & Hs & Hann).
    destruct (refresh_step_inv q s w1 w2 ms H0 Hstep Hq0 Hen He0 Hs Hann) as [He Hms].
    destruct Hstep as (Hstep & _ & Hq2). apply IH; try done. by eapply tx_ok_step. }
  destruct Hinv as (Hok & Hqt & _ & ms & Hs & Hann).
  destruct Hok as [_ Hplan Hadv _ _ Hdr]. destruct (Hdr (or_introl Hph)).
  destruct (drained_synchronized _ _ _ _ Hadv Hplan) as [_ Hr]; [done|done|].
  exists ms. split; [done|]. destruct Hann as [Hin|]; [|done].
  exfalso. apply (Hr q); [|done]. by apply elem_of_filter.
Qed.

(** [C36] The gap in [refresh_resends]'s premise that [q] stays a target: a prefix that
    leaves the exports and returns before its withdrawal is written is no longer
    replayed, although the refresh asked for it and it is still advertised. *)
Theorem refresh_replay_gap order order' order'' now now' now'' families ex' ex'' t q :
  order_ok order'' -> q ∈ advertised t -> enabled n q = true ->
  q ∉ desired ex' (p_export_acl p) -> q ∈ desired ex'' (p_export_acl p) ->
  let t1 := start_refresh order n now families t in
  let t2 := retarget order' p n now' ex' t1 in
  let t3 := retarget order'' p n now'' ex'' t2 in
  q ∈ target t3 /\ q ∈ advertised t3 /\ q ∉ replay t3 /\
  q ∉ additions (plan t3) /\ q ∉ withdrawals (plan t3).
Proof.
  intros Ho Hadv Hen Hout Hin t1 t2 t3.
  assert (Hr : q ∉ replay t3).
  { subst t3 t2. cbn [retarget replay]. rewrite !elem_of_filter. tauto. }
  destruct (plan_new_ok order'' (advertised t) (desired ex'' (p_export_acl p)) n (replay t3) Ho)
    as [Hw Ha _ _ _ _].
  split_and!; [done|done|done| |].
  - intros (_ & _ & Hq)%Ha. tauto.
  - intros (_ & Hq)%Hw. destruct Hq as [|Hq]; [done|]. by rewrite Hen in Hq.
Qed.

End transmit_theorems.

(** ** Every message is encodable *)
Section encodable.
Context {api : IpNetApi} {laws : IpNetLaws} (cfg : Config) (p : Peer) (n : Negotiated) (link_local : option Z).

Lemma session_peer_fields :
  p_remote_asn (session_peer p link_local) = p_remote_asn p /\
  p_hold_time_secs (session_peer p link_local) = p_hold_time_secs p /\
  p_ipv4 (session_peer p link_local) = p_ipv4 p /\ p_ipv6 (session_peer p link_local) = p_ipv6 p /\
  nh4 (session_peer p link_local) = nh4 p /\ nh6 (session_peer p link_local) = nh6 p.
Proof. unfold session_peer. by destruct (_ && _). Qed.

Lemma session_peer_negotiated : negotiated_ok cfg p n -> negotiated_ok cfg (session_peer p link_local) n.
Proof.
  destruct session_peer_fields as (E1 & E2 & E3 & E4 & _). intros [].
  split; rewrite ?E1, ?E2, ?E3, ?E4; done.
Qed.

(** No message of a session can crash the encoder or exceed the protocol's
    limit: for a validated peer and a completed negotiation, also with the
    link-local next hop filled in from the interface, every message any reachable
    writer has sent is encoded without a panic in at most 4096 bytes. *)
Theorem transmit_encodes w :
  peer_typed p -> peer_ok cfg p -> negotiated_ok cfg p n ->
  tx_reachable (session_peer p link_local) n w ->
  Forall (fun m => exists f, encode_msg cfg (session_peer p link_local) n m = Ok f /\ len f <= MAX_MESSAGE)
    (sent w).
Proof.
  intros Ht Hok Hneg Hw. pose proof (ok_sent _ _ (tx_reachable_ok _ _ _ Hw)) as Hs.
  eapply Forall_impl; [done|]. intros [|withdraw batch|v6]; simpl.
  - intros _. by eexists.
  - intros (Hne & Hl & v6 & Hf & Hen).
    pose proof (validated_next_hop cfg p n v6 Ht Hok Hneg Hen) as Hnh.
    destruct session_peer_fields as (_ & _ & _ & _ & E4 & E6). rewrite <- E4, <- E6 in Hnh.
    pose proof (session_peer_negotiated Hneg) as Hneg'.
    rewrite (update_value cfg (session_peer p link_local) n v6 withdraw batch Hneg' Hf Hne Hl (fun _ => Hnh)).
    pose proof (sent_body_len cfg (session_peer p link_local) n v6 withdraw batch Hneg' Hf Hne Hl (fun _ => Hnh)).
    eexists. assert (Hfr := frame_value UPDATE (sent_body cfg (session_peer p link_local) n v6 withdraw batch)
                              ltac:(unfold MAX_MESSAGE; lia)).
    split; [exact Hfr|]. by apply len_frame in Hfr as [_ ?].
  - intros _. destruct v6; by eexists.
Qed.
End encodable.
