(* ===== verification/Writer.v ===== *)
(** * src/src/bgp.rs [transmit]: the writer task as a program, and in time

    [work] runs one part of the loop and [wake] one branch of its [select!]; together
    with a failing write they are the step relation of [Export]. [timed_step] adds the
    clock: how long a part may take, when the wait must end, and when each message is
    written. *)
From S2P Require Import Prelude Net Config Frame Open Update Validate Grammar RoundTrip Planning Export.

Section writer.
Context {api : IpNetApi} (p : Peer) (n : Negotiated).

(** ** The parts of the loop, every write succeeding *)
(** [now] is the part's first reading of the clock, [later] its last. *)
Definition work (order : Order) (now later : Z) (w : World) : option World :=
  let t := tx w in let sh := shared w in let s := sent w in
  match phase w with
  | PReplan =>
      Some (if replan_due now sh t
            then mkWorld PRefresh (retarget order p n later (watch sh) t) (mkShared (watch sh) false (pending sh)) s
            else mkWorld PRefresh t sh s)
  | PRefresh =>
      let '(t', pending') := check_refresh order n now later (pending sh) t in
      Some (mkWorld PKeepalive t' (mkShared (watch sh) (changed sh) pending') s)
  | PKeepalive =>
      Some (if keepalive_due n now t
            then mkWorld PBatch (set_next_keepalive n later t) sh (s ++ [MKeepalive])
            else mkWorld PBatch t sh s)
  | PBatch =>
      match plan_next (plan t) with
      | (Some (withdraw, batch), pl) =>
          Some (mkWorld PReplan (mark_sent withdraw batch (set_plan pl t)) sh (s ++ [MUpdate withdraw batch]))
      | (None, pl) => Some (mkWorld PEor (set_plan pl t) sh s)
      end
  | PEor => Some (mkWorld PSelect (clear_eor t) sh (s ++ eor_msgs (eor t)))
  | PSelect | Stopped => None
  end.

(** The branches of [select!]; the wake-up of [Refresh::ready] may be a stored one. *)
Inductive Branch := BChanged | BRefresh | BCooldown | BKeepalive.
Definition branch_enabled (now : Z) (b : Branch) (w : World) : bool :=
  let t := tx w in
  match b with
  | BChanged => changed (shared w)
  | BRefresh => true
  | BCooldown => (eor t =? 0) && negb (pending (shared w) =? 0) && (next_refresh t <=? now)
  | BKeepalive => negb (n_hold n =? 0) && (next_keepalive t <=? now)
  end.
Definition wake (order : Order) (now : Z) (b : Branch) (w : World) : option World :=
  let t := tx w in let sh := shared w in
  match phase w with
  | PSelect =>
      if negb (branch_enabled now b w) then None else
      Some (match b with
            | BChanged => mkWorld PReplan (retarget order p n now (watch sh) t) (mkShared (watch sh) false (pending sh)) (sent w)
            | _ => mkWorld PReplan t sh (sent w)
            end)
  | _ => None
  end.
(** A write fails or times out, or the sender of the exports is gone. *)
Definition fails (w w' : World) : Prop :=
  phase w <> Stopped /\ w' = mkWorld Stopped (tx w) (shared w) (sent w) \/
  phase w = PEor /\ exists m1 m2, eor_msgs (eor (tx w)) = [m1; m2] /\
    w' = mkWorld Stopped (tx w) (shared w) (sent w ++ [m1]).

(** ** The writer in time *)
(** [latency] bounds what a part of the loop takes besides its writes, and the delay of
    a wake-up; a write that takes longer than [write_timeout_secs] stops the task. *)
Context (latency : Z).
Definition write_ms : Z := p_write_timeout_secs p * 1000.
(** From [t] to [t'], with messages written at [stamps]. *)
Fixpoint paced (t : Z) (stamps : list Z) (t' : Z) : Prop :=
  match stamps with
  | [] => t <= t' <= t + latency
  | s :: stamps => t <= s <= t + latency + write_ms /\ paced s stamps t'
  end.

(** The clock, the task, and when each message of [sent] was written. *)
Record Timed := mkTimed { td_clock : Z; td_world : World; td_times : list Z }.
Inductive timed_step : Timed -> Timed -> Prop :=
| timed_env t w w' times : env_step w w' -> timed_step (mkTimed t w times) (mkTimed t w' times)
| timed_work order t now later t' w w' times stamps :
    order_ok order -> t <= now -> now <= later -> later <= t' -> Forall (fun s => s <= later) stamps ->
    work order now later w = Some w' -> (length (sent w) + length stamps = length (sent w'))%nat ->
    paced t stamps t' ->
    timed_step (mkTimed t w times) (mkTimed t' w' (times ++ stamps))
(** The wait, with no unseen exports and up to the expiry of a timer, and its end. *)
| timed_idle t t' w times :
    phase w = PSelect -> t <= t' -> changed (shared w) = false ->
    (eor (tx w) = 0 /\ pending (shared w) <> 0 -> t' <= Z.max t (next_refresh (tx w))) ->
    (n_hold n <> 0 -> t' <= next_keepalive (tx w)) ->
    timed_step (mkTimed t w times) (mkTimed t' w times)
| timed_wake order t now b w w' times :
    order_ok order -> t <= now <= t + latency -> wake order now b w = Some w' ->
    timed_step (mkTimed t w times) (mkTimed now w' times)
| timed_fail t t' w w' times stamps :
    fails w w' -> (length (sent w) + length stamps = length (sent w'))%nat -> paced t stamps t' ->
    timed_step (mkTimed t w times) (mkTimed t' w' (times ++ stamps)).
Inductive timed_reach (start : Z) : Timed -> Prop :=
| timed_init order exports pending0 : order_ok order ->
    timed_reach start (mkTimed start (mkWorld PReplan (tx_init order p n start exports) (mkShared exports false pending0) []) [])
| timed_next T T' : timed_reach start T -> timed_step T T' -> timed_reach start T'.

(** The longest silence of a session: the KEEPALIVE interval, a turn of the loop, and
    one write. *)
Definition silence_ms : Z := keepalive_ms n + 8 * latency + write_ms.
Fixpoint gaps_within (gap last : Z) (times : list Z) : Prop :=
  match times with
  | [] => True
  | t :: times => last <= t <= last + gap /\ gaps_within gap t times
  end.

(** * Theorems *)
(** [work], [wake] and the failures are exactly the steps of [Export]. *)
Lemma work_step order now later w w' :
  order_ok order -> now <= later -> work order now later w = Some w' -> own_step p n w w'.
Proof.
  intros Ho Hle. destruct w as [ph t sh s]. unfold work. cbn [phase tx shared sent].
  destruct ph; try done.
  - destruct (replan_due now sh t) eqn:E; intros [= <-]; [by eapply step_replan|by eapply step_no_replan].
  - destruct (check_refresh order n now later (pending sh) t) as [t' pending'] eqn:E. intros [= <-].
    by eapply step_refresh.
  - destruct (keepalive_due n now t) eqn:E; intros [= <-]; [by eapply step_keepalive|by eapply step_no_keepalive].
  - destruct (plan_next (plan t)) as [[[withdraw batch]|] pl] eqn:E; intros [= <-];
      [by apply step_batch|by apply step_no_batch].
  - intros [= <-]. apply step_eor.
Qed.
Lemma wake_step order now b w w' : order_ok order -> wake order now b w = Some w' -> own_step p n w w'.
Proof.
  intros Ho. destruct w as [ph t sh s]. unfold wake. cbn [phase tx shared sent]. destruct ph; try done.
  destruct (branch_enabled now b _) eqn:E; [|done]. cbn [negb].
  destruct b; intros [= <-]; [by apply (step_changed _ _ order)|apply step_wake..].
Qed.
Lemma fails_step w w' : fails w w' -> own_step p n w w'.
Proof.
  destruct w as [ph t sh s]. intros [[H ->]|[H (m1 & m2 & E & ->)]]; cbn in *; [by apply step_stop|].
  subst ph. by eapply step_eor_stop.
Qed.

(** The writer's loop as a program: the steps of the writer are exactly what one part
    of its loop computes, one branch of its wait, or the failure of a write, for some
    order of the sets and some readings of the clock. *)
Theorem own_step_work w w' :
  own_step p n w w' <->
  (exists order now later, order_ok order /\ now <= later /\ work order now later w = Some w') \/
  (exists order now b, order_ok order /\ wake order now b w = Some w') \/ fails w w'.
Proof.
  split.
  - intros Hstep. destruct order_exists as [order0 Ho0].
    destruct Hstep as [ph t sh s H|order now later t sh s Ho E Hle|now t sh s E|order now later t sh s t' pd Ho Hle E
      |now later t sh s E Hle|now t sh s E|t sh s wd b pl E|t sh s pl E|t sh s|t sh s m1 m2 E|order now t sh s Ho E|t sh s].
    + right; right; left. done.
    + left. exists order, now, later. split_and!; [done|done|]. unfold work. cbn. by rewrite E.
    + left. exists order0, now, now. split_and!; [done|lia|]. unfold work. cbn. by rewrite E.
    + left. exists order, now, later. split_and!; [done|done|]. unfold work. cbn. by rewrite E.
    + left. exists order0, now, later. split_and!; [done|done|]. unfold work. cbn. by rewrite E.
    + left. exists order0, now, now. split_and!; [done|lia|]. unfold work. cbn. by rewrite E.
    + left. exists order0, 0, 0. split_and!; [done|lia|]. unfold work. cbn. by rewrite E.
    + left. exists order0, 0, 0. split_and!; [done|lia|]. unfold work. cbn. by rewrite E.
    + left. by exists order0, 0, 0.
    + right; right; right. split; [done|]. by exists m1, m2.
    + right; left. exists order, now, BChanged. split; [done|]. unfold wake. cbn. by rewrite E.
    + right; left. by exists order0, 0, BRefresh.
  - intros [(order & now & later & Ho & Hle & H)|[(order & now & b & Ho & H)|H]];
      [by eapply work_step|by eapply wake_step|by apply fails_step].
Qed.

(** ** Timing *)
Hypotheses (Hlat : 0 <= latency) (Hwrite : 0 <= p_write_timeout_secs p) (Hhold : 0 < n_hold n).
Lemma keepalive_pos : 1000 <= keepalive_ms n.
Proof. unfold keepalive_ms. lia. Qed.

Lemma gaps_app gap l times stamps :
  gaps_within gap l (times ++ stamps) <-> gaps_within gap l times /\ gaps_within gap (List.last times l) stamps.
Proof.
  revert l. induction times as [|t times IH]; intros l; [by simpl; tauto|].
  cbn [app gaps_within]. rewrite IH, list_last_cons. tauto.
Qed.
(** A part that begins at [t] ends soon after its last write, or after it began. *)
Lemma paced_spec t stamps t' last :
  paced t stamps t' -> last <= t -> t + latency <= last + keepalive_ms n + 8 * latency ->
  gaps_within silence_ms last stamps /\ last <= List.last stamps last <= t' /\
  (stamps = [] /\ t' <= t + latency \/ stamps <> [] /\ t <= List.last stamps last /\ t' <= List.last stamps last + latency).
Proof.
  pose proof keepalive_pos as HK. assert (HW : 0 <= write_ms) by (unfold write_ms; lia).
  assert (Hlast : forall t, paced t stamps t' -> t <= List.last stamps t <= t' /\ t' <= List.last stamps t + latency).
  { clear. induction stamps as [|s stamps IH]; intros t; cbn [paced]; [simpl; lia|].
    intros [Hs Hp]. rewrite list_last_cons. destruct (IH s Hp). lia. }
  assert (Hgaps : forall t last, last <= t -> t + latency <= last + keepalive_ms n + 8 * latency -> paced t stamps t' ->
            gaps_within silence_ms last stamps).
  { clear t last Hlast. induction stamps as [|s stamps IH]; intros t last; cbn [paced gaps_within]; [done|].
    intros H1 H2 [Hs Hp]. split; [unfold silence_ms; lia|]. apply (IH s s); [lia|lia|done]. }
  intros Hp H1 H2. split; [by apply (Hgaps t)|]. destruct (Hlast t Hp) as [H3 H4].
  destruct stamps as [|s stamps]; [simpl in *; split; [lia|left; split; [done|lia]]|].
  rewrite list_last_cons in *. split; [lia|]. right. split; [done|lia].
Qed.

(** How long, in units of [latency] beyond the KEEPALIVE interval, each part may begin
    after the last message. *)
Definition slack (ph : Phase) : Z :=
  match ph with
  | PReplan => 5 | PRefresh => 6 | PKeepalive => 7 | PBatch => 2 | PEor => 3 | PSelect => 4 | Stopped => 0
  end.
Definition last_write (start : Z) (T : Timed) : Z := List.last (td_times T) start.
Record timed_inv (start : Z) (T : Timed) : Prop := {
  ti_length : length (td_times T) = length (sent (td_world T));
  ti_gaps : gaps_within silence_ms start (td_times T);
  ti_last : last_write start T <= td_clock T;
  ti_next : next_keepalive (tx (td_world T)) <= last_write start T + keepalive_ms n + latency;
  ti_clock : phase (td_world T) <> Stopped ->
    td_clock T <= last_write start T + keepalive_ms n + slack (phase (td_world T)) * latency
}.

Lemma timed_inv_init start order exports pending0 :
  timed_inv start (mkTimed start (mkWorld PReplan (tx_init order p n start exports) (mkShared exports false pending0) []) []).
Proof. pose proof keepalive_pos. split; unfold last_write; cbn; try done; intros; lia. Qed.

(** What a part does to the KEEPALIVE timer and to the phase. *)
Lemma work_timer order now later w w' :
  work order now later w = Some w' ->
  (phase w' <> Stopped /\ phase w <> Stopped) /\
  (next_keepalive (tx w') = next_keepalive (tx w) \/
   phase w = PKeepalive /\ length (sent w') = S (length (sent w)) /\ next_keepalive (tx w') = later + keepalive_ms n) /\
  (length (sent w') = length (sent w) ->
     phase w = PKeepalive /\ phase w' = PBatch /\ now < next_keepalive (tx w) \/
     phase w <> PKeepalive /\ slack (phase w') = slack (phase w) + 1).
Proof.
  destruct w as [ph t sh s]. unfold work. cbn [phase tx shared sent].
  destruct ph; try done.
  - destruct (replan_due now sh t); intros [= <-]; (split_and!; [done|done|by left|intros _; by right]).
  - destruct (check_refresh order n now later (pending sh) t) as [t' pending'] eqn:E. intros [= <-].
    split_and!; [done|done|left|intros _; by right]. unfold check_refresh in E. cbn.
    destruct (_ && _); [destruct (negb _)|]; by injection E as <- _.
  - destruct (keepalive_due n now t) eqn:E; intros [= <-].
    + split_and!; [done|done|right; cbn; rewrite length_app; simpl; split_and!; [done|lia|done]|cbn; rewrite length_app; simpl; lia].
    + split_and!; [done|done|by left|]. intros _. left. split_and!; [done|done|]. unfold keepalive_due in E. cbn. lia.
  - destruct (plan_next (plan t)) as [[[withdraw batch]|] pl] eqn:E; intros [= <-].
    + split_and!; [done|done|by left|cbn; rewrite length_app; simpl; lia].
    + split_and!; [done|done|by left|intros _; by right].
  - intros [= <-]. split_and!; [done|done|by left|intros _; by right].
Qed.

Lemma timed_inv_work start order t now later t' w w' times stamps :
  t <= now -> later <= t' -> work order now later w = Some w' ->
  (length (sent w) + length stamps = length (sent w'))%nat -> paced t stamps t' ->
  timed_inv start (mkTimed t w times) -> timed_inv start (mkTimed t' w' (times ++ stamps)).
Proof.
  intros Hnow Hlater Hw Hlen Hp [H1 H2 H3 H4 H5]. unfold last_write in *. cbn [td_clock td_world td_times] in *.
  destruct (work_timer order now later w w' Hw) as ([Hs' Hs] & Hnk & Hidle). specialize (H5 Hs).
  pose proof keepalive_pos as HK. set (L := List.last times start) in *.
  assert (Hsl : slack (phase w) <= 7) by (by destruct (phase w)).
  destruct (paced_spec t stamps t' L Hp) as (Hg & Hl & Hc); [lia|nia|].
  split; unfold last_write; cbn [td_clock td_world td_times]; rewrite ?list_last_app; fold L.
  - rewrite length_app. lia.
  - by apply gaps_app.
  - lia.
  - destruct Hc as [[-> Ht']|(Hne & Hge & Ht')].
    + destruct Hnk as [->|(_ & E & _)]; [simpl; lia|]. simpl in Hlen. lia.
    + destruct Hnk as [->|(_ & _ & ->)]; lia.
  - intros _. destruct Hc as [[-> Ht']|(Hne & Hge & Ht')].
    + cbn [List.last]. destruct Hidle as [(E1 & E2 & E3)|[E1 E2]]; [simpl in Hlen; lia| |].
      * rewrite E2. cbn [slack]. lia.
      * rewrite E2. lia.
    + assert (1 <= slack (phase w')) by (destruct (phase w'); cbn; done || lia). nia.
Qed.

Lemma timed_inv_step start T T' : timed_step T T' -> timed_inv start T -> timed_inv start T'.
Proof.
  intros Hstep Hinv. destruct Hstep as [t w w' times Henv|order t now later t' w w' times stamps Ho Hn Hnl Hl Hst Hw Hlen Hp
    |t t' w times Hph Ht _ _ Hi|order t now b w w' times Ho Hn Hw|t t' w w' times stamps Hf Hlen Hp].
  - destruct Hinv as [H1 H2 H3 H4 H5]. destruct Henv; by split.
  - by eapply (timed_inv_work start order t now later).
  - destruct Hinv as [H1 H2 H3 H4 H5]. unfold last_write in *. cbn [td_clock td_world td_times] in *.
    split; unfold last_write; cbn [td_clock td_world td_times]; try done; [lia|].
    intros _. rewrite Hph. cbn [slack]. specialize (Hi ltac:(lia)). lia.
  - destruct Hinv as [H1 H2 H3 H4 H5]. unfold last_write in *. cbn [td_clock td_world td_times] in *.
    unfold wake in Hw. destruct w as [ph t0 sh s]. cbn [phase tx shared sent] in *. destruct ph; try done.
    specialize (H5 ltac:(done)). cbn [slack] in H5.
    destruct (branch_enabled now b _); [|done]. cbn [negb] in Hw. injection Hw as <-.
    destruct b; split; unfold last_write; cbn [td_clock td_world td_times phase tx sent retarget next_keepalive slack];
      try done; lia.
  - destruct Hinv as [H1 H2 H3 H4 H5]. unfold last_write in *. cbn [td_clock td_world td_times] in *.
    pose proof keepalive_pos as HK.
    assert (Hs : phase w <> Stopped) by (destruct Hf as [[? _]|[-> _]]; done).
    specialize (H5 Hs). set (L := List.last times start) in *.
    assert (Hsl : slack (phase w) <= 7) by (by destruct (phase w)).
    destruct (paced_spec t stamps t' L Hp) as (Hg & Hl & Hc); [lia|nia|].
    assert (Ep : phase w' = Stopped /\ tx w' = tx w) by (destruct Hf as [[_ ->]|[_ (m1 & m2 & _ & ->)]]; done).
    destruct Ep as [Ep Et].
    split; unfold last_write; cbn [td_clock td_world td_times]; rewrite ?list_last_app, ?Et, ?Ep; fold L; try done.
    + rewrite length_app. lia.
    + by apply gaps_app.
    + lia.
    + destruct Hc as [[-> _]|(_ & ? & _)]; [simpl|]; lia.
Qed.

Lemma timed_reach_inv start T : timed_reach start T -> timed_inv start T.
Proof. induction 1; [by apply timed_inv_init|by eapply timed_inv_step]. Qed.

Lemma timed_reach_tx start T : timed_reach start T -> tx_reachable p n (td_world T).
Proof.
  induction 1 as [order exports pending0 Ho|T T' _ IH Hstep]; [by apply reach_init|].
  destruct Hstep; cbn [td_world] in *; try done; (eapply reach_step; [exact IH|]).
  - by left.
  - right. match goal with H : work ?o ?a ?b _ = _ |- _ => by apply (work_step o a b) end.
  - right. by eapply wake_step.
  - right. by apply fails_step.
Qed.
End writer.
