(* ===== verification/Deadline.v ===== *)
(** * How long the writer takes to announce a change

    No definitions of the program: the writer in time ([Writer.timed_step]), left alone
    once exports were published, and a bound on when its peer holds them. *)
From S2P Require Import Prelude Net Config Frame Open Update Validate Grammar RoundTrip Planning Export Writer.

Section deadline.
Context {api : IpNetApi} (p : Peer) (n : Negotiated) (latency : Z).

(** Every prefix that may still have to be announced or withdrawn. *)
Definition concerned (w : World) : Prefixes :=
  advertised (tx w) ∪ target (tx w) ∪ desired (watch (shared w)) (p_export_acl p).
(** At most so many UPDATEs carry one plan: full ones and four that are not. *)
Definition max_updates (w : World) : Z := Z.of_nat (size (concerned w)) / MAX_UPDATE_PREFIXES + 4.
(** A turn of the loop that writes an UPDATE, and one that reaches the wait. *)
Definition update_ms : Z := 6 * latency + 2 * write_ms p.
Definition pass_ms : Z := 8 * latency + 3 * write_ms p.
(** The plan at hand, the plan for unseen exports and that of a refresh asked for. *)
Definition deadline_ms (w : World) : Z := 3 * max_updates w * update_ms + 2 * pass_ms + latency.

(** The writer left alone: no write fails, and the wait ends when exports arrive. *)
Definition timed_drain (T T' : Timed) : Prop :=
  timed_step p n latency T T' /\ drain_step p n (td_world T) (td_world T').

(** What is left to do, in milliseconds, with plans of at most [m] UPDATEs. *)
Definition phase_ms (ph : Phase) : Z :=
  match ph with
  | PReplan => pass_ms
  | PRefresh => 7 * latency + 3 * write_ms p
  | PKeepalive => 6 * latency + 3 * write_ms p
  | PBatch => 4 * latency + 2 * write_ms p
  | PEor => 3 * latency + 2 * write_ms p
  | PSelect | Stopped => 0
  end.
Definition debt (m : Z) (w : World) : Z :=
  phase_ms (phase w) + update_ms * plan_cost (plan (tx w)) +
  (if changed (shared w) then latency + pass_ms + update_ms * m else 0) +
  (if pending (shared w) =? 0 then 0 else update_ms * m).

(** * Theorems *)
Lemma queue_cost_bound l : 0 <= queue_cost l /\ MAX_UPDATE_PREFIXES * queue_cost l <= len l + 2 * (MAX_UPDATE_PREFIXES - 1).
Proof.
  unfold queue_cost, batches_of, MAX_UPDATE_PREFIXES.
  assert (E : len l = len (List.filter (fun p => negb (net_is_ipv6 p)) l) + len (List.filter net_is_ipv6 l)).
  { induction l as [|q l IH]; [done|]. cbn [List.filter]. destruct (net_is_ipv6 q); cbn [negb]; rewrite !len_cons; lia. }
  rewrite E. pose proof (len_nonneg (List.filter (fun p => negb (net_is_ipv6 p)) l)).
  pose proof (len_nonneg (List.filter net_is_ipv6 l)). split; [|]; Z.div_mod_to_equations; lia.
Qed.

(** A plan concerns each prefix once. *)
Lemma plan_cost_bound adv tgt rep pl (all : Prefixes) :
  plan_ok n adv tgt rep pl -> adv ⊆ all -> tgt ⊆ all ->
  0 <= plan_cost pl <= Z.of_nat (size all) / MAX_UPDATE_PREFIXES + 4.
Proof.
  intros [Hw Ha Hnw Hna _ _] Hadv Htgt.
  assert (Hlen : len (withdrawals pl) + len (additions pl) <= Z.of_nat (size all)).
  { rewrite <- len_app. unfold len. apply Nat2Z.inj_le. unfold size, set_size. simpl.
    apply submseteq_length, NoDup_submseteq.
    - apply NoDup_app. split_and!; [done| |done]. intros q H1%Hw H2%Ha. destruct H2 as (H2 & H3 & _).
      destruct H1 as [_ [H1|H1]]; congruence.
    - intros q [Hq%Hw|Hq%Ha]%elem_of_app; apply elem_of_elements; set_solver. }
  pose proof (queue_cost_bound (withdrawals pl)). pose proof (queue_cost_bound (additions pl)).
  unfold plan_cost, MAX_UPDATE_PREFIXES in *. Z.div_mod_to_equations. lia.
Qed.

Hypotheses (Hlat : 0 <= latency) (Hwrite : 0 <= p_write_timeout_secs p).

Lemma write_nonneg : 0 <= write_ms p.
Proof. unfold write_ms. lia. Qed.

Lemma paced_elapsed t stamps t' :
  paced p latency t stamps t' -> t <= t' <= t + latency + Z.of_nat (length stamps) * (latency + write_ms p).
Proof.
  pose proof write_nonneg. revert t. induction stamps as [|s stamps IH]; intros t; cbn [paced length]; [lia|].
  intros [Hs Hp%IH]. lia.
Qed.

(** No prefix becomes a concern while the writer is left alone. *)
Lemma concerned_step w w' : tx_ok n w -> own_step p n w w' -> concerned w' ⊆ concerned w.
Proof.
  intros Hok Hstep. unfold concerned. destruct Hstep; cbn [tx shared watch]; try done.
  - cbn [retarget advertised target]. set_solver.
  - unfold check_refresh in H1. destruct (_ && _); [destruct (negb _)|]; by injection H1 as <- <-.
  - destruct (mark_sent_advertised withdraw batch (set_plan pl t)) as [E _]. rewrite E. cbn [mark_sent target set_plan advertised].
    destruct Hok as [_ Hplan Hen _ _ _]. cbn [tx] in *. destruct (plan_next_ok n _ _ _ _ _ _ _ Hen Hplan H) as [Hb _].
    destruct withdraw; unfold after_batch; [set_solver|]. intros q.
    rewrite !elem_of_union, elem_of_list_to_set. specialize (Hb q). naive_solver.
  - cbn [retarget advertised target]. set_solver.
Qed.
Lemma cost_bound w m : tx_ok n w -> max_updates w <= m -> 0 <= plan_cost (plan (tx w)) <= m.
Proof.
  intros [_ Hplan _ _ _ _] Hm. unfold max_updates in Hm.
  pose proof (plan_cost_bound _ _ _ _ (concerned w) Hplan ltac:(unfold concerned; set_solver) ltac:(unfold concerned; set_solver)).
  lia.
Qed.
Lemma max_updates_step w w' : tx_ok n w -> own_step p n w w' -> max_updates w' <= max_updates w.
Proof.
  intros Hok Hstep. pose proof (subseteq_size _ _ (concerned_step w w' Hok Hstep)). unfold max_updates, MAX_UPDATE_PREFIXES.
  apply Z.add_le_mono_r, Z.div_le_mono; lia.
Qed.

(** Each part of the loop pays for the time it takes. *)
Lemma debt_work m order t now later t' w w' stamps :
  tx_ok n w -> tx_ok n w' -> max_updates w <= m -> max_updates w' <= m ->
  work p n order now later w = Some w' -> (length (sent w) + length stamps = length (sent w'))%nat ->
  paced p latency t stamps t' -> t' - t + debt m w' <= debt m w.
Proof.
  intros Hok Hok' Hm Hm' Hw Hlen Hp%paced_elapsed. pose proof write_nonneg as HW.
  pose proof (cost_bound w m Hok Hm) as Hc. pose proof (cost_bound w' m Hok' Hm') as Hc'.
  assert (HU : 0 <= update_ms) by (unfold update_ms; lia).
  unfold debt. destruct w as [ph u sh s]. unfold work in Hw. cbn [phase tx shared sent] in *.
  destruct ph; try done.
  - destruct (replan_due now sh u) eqn:E; injection Hw as <-; cbn [phase tx shared sent phase_ms changed pending] in *.
    + unfold replan_due in E. destruct (changed sh); [|done]. assert (length stamps = 0)%nat as E0 by lia. rewrite E0 in Hp.
      unfold pass_ms in *. nia.
    + assert (length stamps = 0)%nat as E0 by lia. rewrite E0 in Hp. unfold pass_ms in *. lia.
  - destruct (check_refresh order n now later (pending sh) u) as [u' pd] eqn:E. injection Hw as <-.
    cbn [phase tx shared sent phase_ms changed pending] in *. assert (length stamps = 0)%nat as E0 by lia. rewrite E0 in Hp.
    unfold check_refresh in E. destruct (_ && _).
    + destruct (Z.eqb_spec (pending sh) 0) as [E2|E2]; cbn [negb] in E; injection E as <- <-; cbn [Z.eqb].
      * rewrite ?E2. cbn [Z.eqb]. lia.
      * nia.
    + injection E as <- <-. lia.
  - destruct (keepalive_due n now u); injection Hw as <-; cbn [phase tx shared sent phase_ms changed pending] in *;
      rewrite ?length_app in Hlen; simpl in Hlen; cbn [set_next_keepalive plan].
    + assert (length stamps = 1)%nat as E0 by lia. rewrite E0 in Hp. lia.
    + assert (length stamps = 0)%nat as E0 by lia. rewrite E0 in Hp. lia.
  - destruct (plan_next (plan u)) as [[[withdraw batch]|] pl] eqn:E; injection Hw as <-;
      cbn [phase tx shared sent phase_ms changed pending set_plan mark_sent plan] in *; rewrite ?length_app in Hlen; simpl in Hlen.
    + assert (length stamps = 1)%nat as E0 by lia. rewrite E0 in Hp.
      destruct Hok as [_ Hplan _ _ _ _]. rewrite (plan_next_cost _ _ _ _ _ _ _ _ Hplan E).
      cbn [tx]. rewrite Z.mul_sub_distr_l, Z.mul_1_r. assert (EU : update_ms = 6 * latency + 2 * write_ms p) by done. unfold pass_ms. lia.
    + assert (length stamps = 0)%nat as E0 by lia. rewrite E0 in Hp.
      destruct Hok as [_ Hplan _ _ _ _]. apply (plan_next_none _ _ _ _ _ _ Hplan) in E as (-> & _). cbn [tx]. lia.
  - injection Hw as <-. cbn [phase tx shared sent phase_ms changed pending clear_eor plan] in *. rewrite length_app in Hlen.
    assert (length stamps <= 2)%nat as E0. { unfold eor_msgs in Hlen. destruct (negb _), (negb _); simpl in Hlen; lia. }
    nia.
Qed.

Lemma own_step_phase w w' : own_step p n w w' -> phase w' <> phase w.
Proof. destruct 1; by cbn; congruence. Qed.

Lemma drain_step_debt T T' m :
  tx_ok n (td_world T) -> tx_ok n (td_world T') -> max_updates (td_world T) <= m -> max_updates (td_world T') <= m ->
  timed_drain T T' ->
  td_clock T' + debt m (td_world T') <= td_clock T + debt m (td_world T).
Proof.
  intros Hok Hok' Hm Hm' [Hstep Hdrain].
  destruct Hstep as [t w w' times Henv|order t now later t' w w' times stamps Ho Hn Hnl Hl Hst Hw Hlen Hp
    |t t' w times Hph Ht Hch _ _|order t now b w w' times Ho Hn Hw|t t' w w' times stamps Hf Hlen Hp];
    cbn [td_clock td_world] in *; destruct Hdrain as (Hown & Hns & Hsel).
  - apply own_step_phase in Hown. by destruct Henv.
  - pose proof (debt_work m order t now later t' w w' stamps Hok Hok' Hm Hm' Hw Hlen Hp). lia.
  - by apply own_step_phase in Hown.
  - destruct w as [ph u sh s]. unfold wake in Hw. cbn [phase tx shared sent] in *. destruct ph; try done.
    destruct (Hsel eq_refl) as [Hch Hch']. destruct (branch_enabled n now b _); [|done]. cbn [negb] in Hw. injection Hw as <-.
    destruct b; cbn [shared changed] in Hch'; try congruence.
    pose proof (cost_bound _ m Hok Hm) as Hc. pose proof (cost_bound _ m Hok' Hm') as Hc'.
    assert (HU : 0 <= update_ms) by (pose proof write_nonneg; unfold update_ms; lia).
    unfold debt. cbn [phase phase_ms tx shared changed pending plan] in *. rewrite Hch. nia.
  - destruct Hf as [[_ ->]|[_ (m1 & m2 & _ & ->)]]; done.
Qed.

Lemma debt_start w m :
  phase w <> Stopped -> tx_ok n w -> max_updates w <= m ->
  0 <= m /\ debt m w <= 3 * m * update_ms + 2 * pass_ms + latency.
Proof.
  intros Hph Hok Hm. pose proof (cost_bound w m Hok Hm) as Hc. pose proof write_nonneg.
  assert (HU : 0 <= update_ms) by (unfold update_ms; lia). split; [lia|].
  assert (Hp : phase_ms (phase w) <= pass_ms) by (destruct (phase w); cbn [phase_ms]; unfold pass_ms; lia).
  assert (0 <= pass_ms) by (unfold pass_ms; lia).
  unfold debt. destruct (changed (shared w)), (pending (shared w) =? 0); nia.
Qed.
Lemma debt_nonneg w m : tx_ok n w -> max_updates w <= m -> 0 <= debt m w.
Proof.
  intros Hok Hm. pose proof (cost_bound w m Hok Hm) as Hc. pose proof write_nonneg.
  assert (HU : 0 <= update_ms) by (unfold update_ms; lia).
  assert (Hp : 0 <= phase_ms (phase w)) by (destruct (phase w); cbn [phase_ms]; unfold pass_ms; lia).
  assert (0 <= pass_ms) by (unfold pass_ms; lia).
  unfold debt. destruct (changed (shared w)), (pending (shared w) =? 0); nia.
Qed.

(** There is always a next part to run. *)
Lemma work_next order t w :
  phase w <> PSelect -> phase w <> Stopped ->
  exists w' k, work p n order t t w = Some w' /\ phase w' <> Stopped /\ length (sent w') = (length (sent w) + k)%nat.
Proof.
  destruct w as [ph u sh s]. intros H1 H2. unfold work. cbn [phase tx shared sent] in *. destruct ph; try done.
  - eexists _, 0%nat. split; [reflexivity|]. destruct (replan_due _ _ _); cbn; (split; [done|lia]).
  - destruct (check_refresh _ _ _ _ _ _). eexists _, 0%nat. split; [reflexivity|]. cbn. split; [done|lia].
  - destruct (keepalive_due _ _ _); eexists _, _; (split; [reflexivity|]); cbn;
      rewrite ?length_app; (split; [done|]); [reflexivity|by rewrite Nat.add_0_r].
  - destruct (plan_next _) as [[[withdraw batch]|] pl]; eexists _, _; (split; [reflexivity|]); cbn;
      rewrite ?length_app; (split; [done|]); [reflexivity|by rewrite Nat.add_0_r].
  - eexists _, _. split; [reflexivity|]. cbn. rewrite length_app. split; [done|reflexivity].
Qed.
Lemma paced_now t k : paced p latency t (replicate k t) t.
Proof. pose proof write_nonneg. induction k; cbn [replicate paced]; [lia|]. split; [lia|done]. Qed.

Lemma timed_drain_next T :
  phase (td_world T) <> Stopped -> settled (td_world T) \/ exists T', timed_drain T T'.
Proof.
  destruct T as [t w times]. cbn [td_world]. intros Hst. destruct order_exists as [order Ho].
  destruct (decide (phase w = PSelect)) as [Hsel|Hsel].
  - destruct (changed (shared w)) eqn:Hch; [right|by left].
    destruct w as [ph u sh s]. cbn [phase shared] in *. subst ph.
    exists (mkTimed t (mkWorld PReplan (retarget order p n t (watch sh) u) (mkShared (watch sh) false (pending sh)) s) times).
    split.
    + eapply (timed_wake _ _ _ order t t BChanged); [done|lia|]. unfold wake. cbn. by rewrite Hch.
    + split_and!; [by eapply step_changed|done|done].
  - right. destruct (work_next order t w Hsel Hst) as (w' & k & Hw & Hst' & Hlen).
    exists (mkTimed t w' (times ++ replicate k t)). split.
    + apply (timed_work _ _ _ order t t t t w w' times (replicate k t)); try done; try lia.
      * apply Forall_forall. intros s [-> _]%elem_of_replicate. lia.
      * rewrite length_replicate. lia.
      * apply paced_now.
    + split_and!; [by apply (work_step p n order t t); [|lia|]|done|done].
Qed.

Lemma timed_drain_acc T : Acc (fun T2 T1 => timed_drain T1 T2) T.
Proof.
  pose proof (drain_step_acc p n (td_world T)) as H. remember (td_world T) as w eqn:E. revert T E.
  induction H as [w _ IH]. intros T ->. constructor. intros T' [_ Hd]. by eapply IH.
Qed.

Lemma own_step_watch w w' : own_step p n w w' -> watch (shared w') = watch (shared w).
Proof. by destruct 1. Qed.

(** [C5] A change reaches the peer in time: let every part of the loop take at most
    [latency] besides its writes, and a write at most the write timeout, after which the
    session ends. Left alone from any reachable moment, with any exports still unseen and
    any refresh asked for, every run of the writer comes to wait, having seen the current
    exports, with its peer holding exactly their negotiated part, no later than the time
    of three full plans over the prefixes concerned and two turns of the loop. In
    particular stale routes are withdrawn by then. *)
Theorem settles_in_time start T :
  timed_reach p n latency start T -> phase (td_world T) <> Stopped ->
  inevitably timed_drain
    (fun T' => settled (td_world T') /\ td_clock T' <= td_clock T + deadline_ms (td_world T) /\
       peer_view (sent (td_world T')) =
         enabled_set n (desired (watch (shared (td_world T))) (p_export_acl p))) T.
Proof.
  intros Hreach%timed_reach_tx Hst. set (m := max_updates (td_world T)). set (t0 := td_clock T).
  set (e := watch (shared (td_world T))).
  apply (inevitably_acc _ _ (fun T' => tx_reachable p n (td_world T') /\ phase (td_world T') <> Stopped /\
    max_updates (td_world T') <= m /\ watch (shared (td_world T')) = e /\
    td_clock T' + debt m (td_world T') <= t0 + debt m (td_world T))).
  - intros T' (Hr & Hs & Hm & He & Hd). destruct (timed_drain_next T' Hs) as [Hset|]; [left|by right].
    split_and!; [done| |].
    + pose proof (debt_nonneg _ m (tx_reachable_ok p n _ Hr) Hm).
      destruct (debt_start (td_world T) m Hst (tx_reachable_ok p n _ Hreach) (Z.le_refl _)). unfold deadline_ms. fold m. lia.
    + destruct Hset as [Hsel Hseen]. rewrite <- He, <- (tx_reachable_seen p n _ Hr Hseen).
      apply (settled_view p); [done|by right].
  - intros T1 T2 (Hr & Hs & Hm & He & Hd) Hdrain. pose proof Hdrain as [_ (Hown & Hs' & _)].
    assert (Hr' : tx_reachable p n (td_world T2)) by (eapply reach_step; [exact Hr|by right]).
    pose proof (max_updates_step _ _ (tx_reachable_ok p n _ Hr) Hown).
    split_and!; [done|done|lia|by rewrite (own_step_watch _ _ Hown)|].
    pose proof (drain_step_debt T1 T2 m (tx_reachable_ok p n _ Hr) (tx_reachable_ok p n _ Hr') Hm ltac:(lia) Hdrain). lia.
  - apply timed_drain_acc.
  - split_and!; [done|done|unfold m; lia|done|lia].
Qed.
End deadline.
