(* ===== verification/Withdrawal.v ===== *)
(** * How long a peer keeps a route that is no longer exported

    No definitions of the program: the writer in time ([Writer.timed_step]) from a moment
    after which nothing is published, whatever its peer asks for meanwhile. *)
From S2P Require Import Prelude Net Config Frame Open Update Validate Grammar RoundTrip Planning Export Writer Deadline.

Section withdrawal.
Context {api : IpNetApi} (p : Peer) (n : Negotiated) (latency : Z).

(** Any step but a publication: route refreshes, KEEPALIVEs, wake-ups, failures. *)
Definition silent_step (T T' : Timed) : Prop :=
  timed_step p n latency T T' /\
  watch (shared (td_world T')) = watch (shared (td_world T)) /\
  (changed (shared (td_world T')) = true -> changed (shared (td_world T)) = true).

(** Advertised prefixes that are no longer to be. *)
Definition outdated (w : World) : Prefixes :=
  filter (fun q => q ∉ target (tx w) \/ enabled n q = false) (advertised (tx w)).
(** How long exports stay unseen (the pause between two plans and a turn of the loop), and
    the withdrawals, one UPDATE per turn. *)
Definition unseen_ms : Z := 100 + 10 * latency + 3 * write_ms p.
Definition withdrawal_ms (w : World) : Z :=
  unseen_ms + (Z.of_nat (size (concerned p w)) / MAX_UPDATE_PREFIXES + 2) * update_ms p latency.

(** The latest a part may begin while exports are unseen, after the pause. *)
Definition unseen_at (ph : Phase) : Z :=
  match ph with
  | PReplan => 9 * latency + 3 * write_ms p
  | PRefresh => latency
  | PKeepalive => 2 * latency
  | PBatch => 4 * latency + write_ms p
  | PEor => 5 * latency + write_ms p
  | PSelect => 8 * latency + 3 * write_ms p
  | Stopped => 0
  end.
(** What the turn at hand has spent before each part. *)
Definition turn_spent (ph : Phase) : option Z :=
  match ph with
  | PReplan => Some 0
  | PRefresh => Some latency
  | PKeepalive => Some (2 * latency)
  | PBatch => Some (4 * latency + write_ms p)
  | _ => None
  end.
(** The progress of a silent run that began at [t0], with at most [m] UPDATEs to write. *)
Definition withdrawing (t0 m : Z) (T : Timed) : Prop :=
  let w := td_world T in
  phase w = Stopped \/
  changed (shared w) = true /\ last_replan (tx w) <= t0 /\ td_clock T <= t0 + 100 + unseen_at (phase w) \/
  changed (shared w) = false /\ outdated w = ∅ \/
  changed (shared w) = false /\ exists spent, turn_spent (phase w) = Some spent /\
    td_clock T + update_ms p latency * queue_cost (withdrawals (plan (tx w))) - spent <= t0 + unseen_ms + m * update_ms p latency.

(** * Theorems *)
Lemma queue_cost_perm l l' : l ≡ₚ l' -> queue_cost l = queue_cost l'.
Proof.
  intros Hp. unfold queue_cost, len.
  assert (H : forall f, length (List.filter f l) = length (List.filter f l')).
  { intros f. induction Hp; cbn [List.filter]; try (destruct (f x)); try (destruct (f y)); cbn [length]; congruence. }
  by rewrite !H.
Qed.

Lemma outdated_plan w : tx_ok n w -> withdrawals (plan (tx w)) ≡ₚ elements (outdated w).
Proof.
  intros [_ [Hw _ Hnw _ _ _] _ _ _ _]. apply NoDup_Permutation; [done|apply NoDup_elements|].
  intros q. rewrite Hw, elem_of_elements. unfold outdated. rewrite elem_of_filter. tauto.
Qed.
Lemma outdated_cost w : tx_ok n w -> queue_cost (withdrawals (plan (tx w))) = queue_cost (elements (outdated w)).
Proof. intros Hok. by apply queue_cost_perm, outdated_plan. Qed.
Lemma outdated_bound w (all : Prefixes) :
  outdated w ⊆ all -> 0 <= queue_cost (elements (outdated w)) <= Z.of_nat (size all) / MAX_UPDATE_PREFIXES + 2.
Proof.
  intros Hall%subseteq_size. pose proof (queue_cost_bound (elements (outdated w))) as [H1 H2]. split; [done|].
  assert (len (elements (outdated w)) <= Z.of_nat (size all)) by (unfold len; apply Nat2Z.inj_le, Hall).
  unfold MAX_UPDATE_PREFIXES in *. Z.div_mod_to_equations. lia.
Qed.
Lemma outdated_concerned w : outdated w ⊆ concerned p w.
Proof. unfold outdated, concerned. intros q [_ Hq]%elem_of_filter. set_solver. Qed.
Lemma outdated_same w w' :
  advertised (tx w') = advertised (tx w) -> target (tx w') = target (tx w) -> outdated w' = outdated w.
Proof. unfold outdated. by intros -> ->. Qed.

(** With the exports seen, no step makes a prefix outdated. *)
Lemma outdated_step w w' :
  tx_ok n w -> own_step p n w w' -> changed (shared w) = false -> outdated w' ⊆ outdated w.
Proof.
  intros Hok Hstep Hch. destruct Hstep; cbn [shared] in Hch; try done.
  - unfold replan_due in *. by rewrite Hch in *.
  - unfold check_refresh in H1. destruct (_ && _); [destruct (negb _)|]; by injection H1 as <- <-.
  - unfold outdated. destruct (mark_sent_advertised withdraw batch (set_plan pl t)) as [E _]. cbn [tx]. rewrite E.
    cbn [mark_sent target set_plan advertised]. destruct Hok as [_ Hplan Hen _ _ _]. cbn [tx] in *.
    destruct (plan_next_ok n _ _ _ _ _ _ _ Hen Hplan H) as [Hb _]. intros q. rewrite !elem_of_filter.
    destruct withdraw; unfold after_batch; [set_solver|]. rewrite elem_of_union, elem_of_list_to_set.
    intros [Hq [Hin|Hin]]; [|done]. destruct (Hb q Hin) as [H1 H2]. exfalso. destruct Hq as [Hq|Hq]; congruence.
  - by rewrite Hch in *.
Qed.
Lemma seen_work order now later w w' :
  changed (shared w) = false -> work p n order now later w = Some w' -> changed (shared w') = false.
Proof.
  destruct w as [ph u sh s]. unfold work. cbn [phase tx shared sent]. intros Hch. destruct ph; try done.
  - unfold replan_due. rewrite Hch. cbn. by intros [= <-].
  - destruct (check_refresh _ _ _ _ _ _). by intros [= <-].
  - destruct (keepalive_due _ _ _); by intros [= <-].
  - destruct (plan_next _) as [[[wd b]|] pl]; by intros [= <-].
  - by intros [= <-].
Qed.

Hypotheses (Hlat : 0 <= latency) (Hwrite : 0 <= p_write_timeout_secs p).

(** One part of the loop with exports unseen. *)
Lemma withdrawing_unseen t0 m order t now later t' w w' times times' stamps :
  tx_ok n w' -> queue_cost (withdrawals (plan (tx w'))) <= m ->
  t <= now -> work p n order now later w = Some w' -> (length (sent w) + length stamps = length (sent w'))%nat ->
  paced p latency t stamps t' ->
  changed (shared w) = true -> last_replan (tx w) <= t0 -> t <= t0 + 100 + unseen_at (phase w) ->
  withdrawing t0 m (mkTimed t' w' (times ++ times')).
Proof.
  intros Hok' Hm Hnow Hw Hlen Hp Hch Hlast Ht. apply (paced_elapsed p latency Hwrite) in Hp as Hp'.
  pose proof (write_nonneg p Hwrite) as HW. unfold withdrawing. cbn [td_world td_clock]. right.
  destruct w as [ph u sh s]. unfold work in Hw. cbn [phase tx shared sent] in *. destruct ph; try done.
  - destruct (replan_due now sh u) eqn:E; injection Hw as <-; cbn [phase tx shared sent changed unseen_at turn_spent] in *;
      assert (length stamps = 0)%nat as E0 by lia; rewrite E0 in Hp'.
    + right; right. split; [done|]. exists latency. split; [done|]. unfold unseen_ms, update_ms in *. nia.
    + left. split_and!; [done|done|]. unfold replan_due in E. rewrite Hch in E. cbn [andb] in E. lia.
  - destruct (check_refresh order n now later (pending sh) u) as [u' pd] eqn:E. injection Hw as <-.
    cbn [phase tx shared sent changed unseen_at] in *. assert (length stamps = 0)%nat as E0 by lia. rewrite E0 in Hp'.
    left. split_and!; [done| |lia].
    unfold check_refresh in E. destruct (_ && _); [destruct (negb _)|]; by injection E as <- <-.
  - left. destruct (keepalive_due n now u); injection Hw as <-; cbn [phase tx shared sent changed unseen_at] in *;
      rewrite ?length_app in Hlen; simpl in Hlen; (split_and!; [done|done|]).
    + assert (length stamps = 1)%nat as E0 by lia. rewrite E0 in Hp'. lia.
    + assert (length stamps = 0)%nat as E0 by lia. rewrite E0 in Hp'. lia.
  - left. destruct (plan_next (plan u)) as [[[withdraw batch]|] pl] eqn:E; injection Hw as <-;
      cbn [phase tx shared sent changed unseen_at] in *; rewrite ?length_app in Hlen; simpl in Hlen; (split_and!; [done|done|]).
    + assert (length stamps = 1)%nat as E0 by lia. rewrite E0 in Hp'. lia.
    + assert (length stamps = 0)%nat as E0 by lia. rewrite E0 in Hp'. lia.
  - left. injection Hw as <-. cbn [phase tx shared sent changed unseen_at] in *. rewrite length_app in Hlen.
    assert (length stamps <= 2)%nat as E0. { unfold eor_msgs in Hlen. destruct (negb _), (negb _); simpl in Hlen; lia. }
    split_and!; [done|done|nia].
Qed.

(** One part of the loop with the exports seen and withdrawals left. *)
Lemma withdrawing_seen t0 m order t now later t' w w' times times' stamps spent :
  tx_ok n w -> tx_ok n w' -> own_step p n w w' -> outdated w' <> ∅ ->
  t <= now -> work p n order now later w = Some w' -> (length (sent w) + length stamps = length (sent w'))%nat ->
  paced p latency t stamps t' ->
  changed (shared w) = false -> turn_spent (phase w) = Some spent ->
  t + update_ms p latency * queue_cost (withdrawals (plan (tx w))) - spent <= t0 + unseen_ms + m * update_ms p latency ->
  withdrawing t0 m (mkTimed t' w' (times ++ times')).
Proof.
  intros Hok Hok' Hown Hne Hnow Hw Hlen Hp Hch Hsp Ht. apply (paced_elapsed p latency Hwrite) in Hp as Hp'.
  unfold withdrawing. cbn [td_world td_clock]. right; right; right. split; [by eapply seen_work|].
  destruct w as [ph u sh s]. unfold work in Hw. cbn [phase tx shared sent] in *.
  destruct ph; try done; injection Hsp as <-.
  - unfold replan_due in Hw. rewrite Hch in Hw. cbn [andb] in Hw. injection Hw as <-. cbn [sent phase tx turn_spent] in *.
    assert (length stamps = 0)%nat as E0 by lia. rewrite E0 in Hp'. exists latency. split; [done|lia].
  - destruct (check_refresh order n now later (pending sh) u) as [u' pd] eqn:E. injection Hw as <-. cbn [sent phase tx turn_spent] in *.
    assert (length stamps = 0)%nat as E0 by lia. rewrite E0 in Hp'. exists (2 * latency). split; [done|].
    pose proof (outdated_cost _ Hok) as Ec. pose proof (outdated_cost _ Hok') as Ec'. cbn [tx] in Ec, Ec'.
    rewrite (outdated_same (mkWorld PRefresh u sh s)) in Ec'; [rewrite Ec', <- Ec; lia| |];
      cbn [tx]; unfold check_refresh in E; destruct (_ && _); [destruct (negb _)| |destruct (negb _)|]; by injection E as <- <-.
  - destruct (keepalive_due n now u); injection Hw as <-; cbn [phase tx sent turn_spent set_next_keepalive plan] in *;
      rewrite ?length_app in Hlen; simpl in Hlen; (eexists; split; [reflexivity|]).
    + assert (length stamps = 1)%nat as E0 by lia. rewrite E0 in Hp'. lia.
    + pose proof (write_nonneg p Hwrite). assert (length stamps = 0)%nat as E0 by lia. rewrite E0 in Hp'. lia.
  - destruct (plan_next (plan u)) as [[[withdraw batch]|] pl] eqn:E; injection Hw as <-.
    + cbn [phase tx sent turn_spent set_plan mark_sent plan] in *. rewrite length_app in Hlen. simpl in Hlen.
      exists 0. split; [done|]. assert (length stamps = 1)%nat as E0 by lia. rewrite E0 in Hp'.
      pose proof (plan_next_cost _ _ _ _ _ _ _ _ (ok_plan _ _ Hok) E) as Hc. cbn [tx] in Hc. unfold plan_cost in Hc.
      apply plan_next_queue in E as (_ & _ & _ & E). destruct withdraw.
      * destruct E as [_ Ea]. rewrite Ea in Hc.
        replace (queue_cost (withdrawals pl)) with (queue_cost (withdrawals (plan u)) - 1) by lia.
        rewrite Z.mul_sub_distr_l, Z.mul_1_r. assert (update_ms p latency = 6 * latency + 2 * write_ms p) by done. lia.
      * exfalso. apply Hne. destruct E as (_ & Ew & _). pose proof (outdated_plan _ Hok') as Hp2. cbn [tx plan mark_sent set_plan] in Hp2.
        rewrite Ew in Hp2. by apply Permutation_nil, elements_empty_iff, leibniz_equiv in Hp2.
    + exfalso. apply Hne. apply (plan_next_none _ _ _ _ _ _ (ok_plan _ _ Hok)) in E as (-> & Ew & _).
      pose proof (outdated_plan _ Hok') as Hp2. cbn [tx plan set_plan] in Hp2. cbn [tx] in Ew. rewrite Ew in Hp2.
      by apply Permutation_nil, elements_empty_iff, leibniz_equiv in Hp2.
Qed.

Lemma withdrawing_done t0 m T : changed (shared (td_world T)) = false -> outdated (td_world T) = ∅ -> withdrawing t0 m T.
Proof. intros H1 H2. right; right; left. by split. Qed.
Lemma outdated_drained w : tx_ok n w -> phase w = PSelect -> outdated w = ∅.
Proof.
  intros Hok Hph. pose proof (outdated_plan w Hok) as Hp. destruct (ok_drained _ _ Hok (or_intror Hph)) as [E _].
  rewrite E in Hp. by apply Permutation_nil, elements_empty_iff, leibniz_equiv in Hp.
Qed.

Lemma withdrawing_step t0 m T T' :
  tx_ok n (td_world T) -> tx_ok n (td_world T') ->
  (changed (shared (td_world T)) = true -> queue_cost (withdrawals (plan (tx (td_world T')))) <= m) ->
  silent_step T T' -> withdrawing t0 m T -> withdrawing t0 m T'.
Proof.
  intros Hok Hok' Hm (Hstep & Hwatch & Hchanged) Hinv.
  destruct Hstep as [t w w' times Henv|order t now later t' w w' times stamps Ho Hn Hnl Hl Hst Hw Hlen Hp
    |t t' w times Hph Ht Hch _ _|order t now b w w' times Ho Hn Hw|t t' w w' times stamps Hf Hlen Hp];
    cbn [td_world] in *.
  - destruct Henv as [ph u sh s e|ph u sh s v6]; cbn [shared watch changed] in *; [|exact Hinv].
    destruct sh as [wt ch pd]. cbn in *. subst e. rewrite (Hchanged eq_refl) in Hinv. exact Hinv.
  - assert (Hown : own_step p n w w') by by apply (work_step p n order now later).
    destruct Hinv as [Hs|[(Hch & Hlast & Hb)|[[Hch Ho']|(Hch & spent & Hsp & Hb)]]]; cbn [td_world td_clock] in *.
    + exfalso. destruct w as [ph u sh s]. cbn in Hs. by subst ph.
    + apply (withdrawing_unseen t0 m order t now later t' w w' times stamps stamps); auto.
    + apply withdrawing_done; [by eapply seen_work|]. cbn. pose proof (outdated_step w w' Hok Hown Hch). set_solver.
    + destruct (decide (outdated w' = ∅)); [by apply withdrawing_done; [by eapply seen_work|]|].
      by apply (withdrawing_seen t0 m order t now later t' w w' times stamps stamps spent).
  - apply withdrawing_done; [done|]. by apply outdated_drained.
  - destruct w as [ph u sh s]. unfold wake in Hw. cbn [phase tx shared sent] in *. destruct ph; try done.
    destruct (branch_enabled n now b _) eqn:Eb; [|done]. cbn [negb] in Hw. injection Hw as <-.
    pose proof (outdated_drained _ Hok eq_refl) as Hout.
    destruct Hinv as [Hs|[(Hch & Hlast & Hb)|[[Hch Ho']|(Hch & spent & Hsp & Hb)]]]; cbn [td_world td_clock phase unseen_at tx shared] in *; try done.
    + destruct b; [|right; left; cbn; (split_and!; [done|done|lia])..].
      right; right; right. cbn. split; [done|]. exists 0. split; [done|]. specialize (Hm Hch). cbn in Hm.
      unfold unseen_ms, update_ms in *. pose proof (write_nonneg p Hwrite). nia.
    + destruct b; [cbn in Eb; congruence|by apply withdrawing_done..].
  - left. by destruct Hf as [[_ ->]|[_ (m1 & m2 & _ & ->)]].
Qed.

Lemma timed_env_or_own T T' :
  timed_step p n latency T T' ->
  tx_step p n (td_world T) (td_world T') \/ td_world T' = td_world T.
Proof.
  destruct 1; cbn [td_world]; [left; by left|left; right|by right|left; right|left; right].
  - match goal with H : work _ _ ?o ?a ?b _ = _ |- _ => by apply (work_step p n o a b) end.
  - by eapply wake_step.
  - by apply fails_step.
Qed.
Lemma concerned_silent T T' :
  tx_ok n (td_world T) -> silent_step T T' -> concerned p (td_world T') ⊆ concerned p (td_world T).
Proof.
  intros Hok (Hstep & Hwatch & _). destruct (timed_env_or_own T T' Hstep) as [[Henv|Hown]| ->]; [| |done].
  - unfold concerned. rewrite Hwatch. by destruct Henv.
  - by apply (concerned_step p n latency Hlat Hwrite).
Qed.

(** Plans are made in the past. *)
Lemma last_replan_past start T : timed_reach p n latency start T -> last_replan (tx (td_world T)) <= td_clock T.
Proof.
  induction 1 as [order exports pending0 Ho|T T' _ IH Hstep]; [cbn; lia|].
  destruct Hstep as [t w w' times Henv|order t now later t' w w' times stamps Ho Hn Hnl Hl Hst Hw Hlen Hp
    |t t' w times Hph Ht Hch _ _|order t now b w w' times Ho Hn Hw|t t' w w' times stamps Hf Hlen Hp];
    cbn [td_clock td_world] in *.
  - by destruct Henv.
  - destruct w as [ph u sh s]. unfold work in Hw. cbn [phase tx shared sent] in *. destruct ph; try done.
    + destruct (replan_due now sh u); injection Hw as <-; cbn; lia.
    + unfold check_refresh in Hw. destruct (_ && _); [destruct (negb _)|]; injection Hw as <-; cbn; lia.
    + destruct (keepalive_due n now u); injection Hw as <-; cbn; lia.
    + destruct (plan_next (plan u)) as [[[wd b]|] pl]; injection Hw as <-; cbn; lia.
    + injection Hw as <-. cbn. lia.
  - lia.
  - destruct w as [ph u sh s]. unfold wake in Hw. cbn [phase tx shared sent] in *. destruct ph; try done.
    destruct (branch_enabled n now b _); [|done]. injection Hw as <-. destruct b; cbn; lia.
  - apply (paced_elapsed p latency Hwrite) in Hp. destruct Hf as [[_ ->]|[_ (m1 & m2 & _ & ->)]]; cbn; lia.
Qed.

Lemma queue_cost_zero l : queue_cost l <= 0 -> l = [].
Proof.
  destruct l as [|q l]; [done|]. unfold queue_cost, batches_of, MAX_UPDATE_PREFIXES.
  pose proof (len_nonneg (List.filter (fun p => negb (net_is_ipv6 p)) (q :: l))).
  pose proof (len_nonneg (List.filter net_is_ipv6 (q :: l))).
  assert (0 < len (List.filter (fun p => negb (net_is_ipv6 p)) (q :: l)) + len (List.filter net_is_ipv6 (q :: l))).
  { cbn [List.filter]. pose proof (len_nonneg (List.filter (fun p => negb (net_is_ipv6 p)) l)).
    pose proof (len_nonneg (List.filter net_is_ipv6 l)). destruct (net_is_ipv6 q); cbn [negb]; rewrite len_cons; lia. }
  intros Hz. exfalso. Z.div_mod_to_equations. lia.
Qed.

Lemma turn_spent_bound ph spent : turn_spent ph = Some spent -> 0 <= spent <= update_ms p latency.
Proof. pose proof (write_nonneg p Hwrite). unfold update_ms. destruct ph; intros [= <-]; lia. Qed.

Lemma withdrawing_start start T m :
  timed_reach p n latency start T -> queue_cost (withdrawals (plan (tx (td_world T)))) <= m ->
  withdrawing (td_clock T) m T.
Proof.
  intros Hreach Hm. pose proof (last_replan_past start T Hreach) as Hpast.
  pose proof (tx_reachable_ok p n _ (timed_reach_tx p n latency start T Hreach)) as Hok.
  pose proof (write_nonneg p Hwrite) as HW. unfold withdrawing.
  destruct (changed (shared (td_world T))) eqn:Hch.
  { right; left. split_and!; [done|done|]. destruct (phase (td_world T)); cbn [unseen_at]; lia. }
  destruct (decide (outdated (td_world T) = ∅)) as [|Hne]; [right; right; left; by split|].
  assert (Hdr : phase (td_world T) = PEor \/ phase (td_world T) = PSelect -> False).
  { intros Hph. apply Hne. destruct (ok_drained _ _ Hok Hph) as [E _]. pose proof (outdated_plan _ Hok) as Hp. rewrite E in Hp.
    by apply Permutation_nil, elements_empty_iff, leibniz_equiv in Hp. }
  destruct (turn_spent (phase (td_world T))) as [spent|] eqn:Hsp.
  - right; right; right. split; [done|]. exists spent. split; [done|]. pose proof (turn_spent_bound _ _ Hsp).
    assert (HU : 0 <= update_ms p latency) by (unfold update_ms; lia). unfold unseen_ms. nia.
  - destruct (phase (td_world T)); try done; [exfalso; apply Hdr; by left|exfalso; apply Hdr; by right|by left].
Qed.

Lemma silent_timed start T T' : timed_reach p n latency start T -> rtc silent_step T T' -> timed_reach p n latency start T'.
Proof. intros Hr Hrun. induction Hrun as [|T1 T2 T3 [H12 _] _ IH]; [done|]. apply IH. by eapply timed_next. Qed.
Lemma concerned_run start T T' :
  timed_reach p n latency start T -> rtc silent_step T T' -> concerned p (td_world T') ⊆ concerned p (td_world T).
Proof.
  intros Hr Hrun. induction Hrun as [|T1 T2 T3 H12 _ IH]; [done|].
  pose proof (concerned_silent T1 T2 (tx_reachable_ok p n _ (timed_reach_tx p n latency start T1 Hr)) H12).
  assert (timed_reach p n latency start T2) by (destruct H12; by eapply timed_next). specialize (IH ltac:(done)). set_solver.
Qed.

Lemma silent_reach start T T' :
  timed_reach p n latency start T -> rtc silent_step T T' ->
  let m := Z.of_nat (size (concerned p (td_world T))) / MAX_UPDATE_PREFIXES + 2 in
  timed_reach p n latency start T' /\ watch (shared (td_world T')) = watch (shared (td_world T)) /\
  withdrawing (td_clock T) m T'.
Proof.
  intros Hreach Hrun m.
  enough (timed_reach p n latency start T' /\ watch (shared (td_world T')) = watch (shared (td_world T)) /\
    concerned p (td_world T') ⊆ concerned p (td_world T) /\ withdrawing (td_clock T) m T') by tauto.
  assert (Hcost : forall T1, timed_reach p n latency start T1 -> concerned p (td_world T1) ⊆ concerned p (td_world T) ->
    queue_cost (withdrawals (plan (tx (td_world T1)))) <= m).
  { intros T1 Hr1 Hc1. rewrite outdated_cost by by eapply tx_reachable_ok, timed_reach_tx.
    apply (outdated_bound (td_world T1)). pose proof (outdated_concerned (td_world T1)). set_solver. }
  revert Hrun. apply (rtc_ind_r (fun T1 => timed_reach p n latency start T1 /\
    watch (shared (td_world T1)) = watch (shared (td_world T)) /\
    concerned p (td_world T1) ⊆ concerned p (td_world T) /\ withdrawing (td_clock T) m T1)).
  - split_and!; [done|done|done|]. apply (withdrawing_start start); [done|by apply Hcost].
  - intros T1 T2 _ Hstep (Hr & Hw & Hc & Hi). pose proof Hstep as (Ht & Hw2 & _).
    assert (Hr2 : timed_reach p n latency start T2) by by eapply timed_next.
    pose proof (tx_reachable_ok p n _ (timed_reach_tx p n latency start T1 Hr)) as Hok1.
    pose proof (tx_reachable_ok p n _ (timed_reach_tx p n latency start T2 Hr2)) as Hok2.
    assert (Hc2 : concerned p (td_world T2) ⊆ concerned p (td_world T)) by (pose proof (concerned_silent T1 T2 Hok1 Hstep); set_solver).
    split_and!; [done|congruence|done|]. by apply (withdrawing_step _ _ T1 T2); [| |intros _; apply Hcost| |].
Qed.

Lemma silent_withdrawn start T T' q :
  timed_reach p n latency start T -> rtc silent_step T T' -> phase (td_world T') <> Stopped ->
  td_clock T + withdrawal_ms (td_world T) < td_clock T' ->
  q ∉ desired (watch (shared (td_world T))) (p_export_acl p) -> q ∉ peer_view (sent (td_world T')).
Proof.
  intros Hreach Hrun Hst Hlate Hq. destruct (silent_reach start T T' Hreach Hrun) as (Hr & Hw & Hinv).
  pose proof (timed_reach_tx p n latency start T' Hr) as Htx. pose proof (tx_reachable_ok p n _ Htx) as Hok.
  rewrite <- (ok_view _ _ Hok). intros Hin. pose proof (write_nonneg p Hwrite) as HW.
  assert (HU : 0 <= update_ms p latency) by (unfold update_ms; lia).
  set (m := Z.of_nat (size (concerned p (td_world T))) / MAX_UPDATE_PREFIXES + 2) in *.
  assert (Hm : 0 <= m) by (unfold m, MAX_UPDATE_PREFIXES; Z.div_mod_to_equations; lia).
  assert (Hmu : 0 <= m * update_ms p latency) by nia.
  unfold withdrawal_ms, unseen_ms in Hlate. fold m in Hlate.
  assert (Hout : changed (shared (td_world T')) = false -> outdated (td_world T') = ∅ -> False).
  { intros Hch Ho. apply (not_elem_of_empty (C := Prefixes) q). rewrite <- Ho. unfold outdated. apply elem_of_filter. split; [left|done].
    by rewrite (tx_reachable_seen p n _ Htx Hch), Hw. }
  destruct Hinv as [Hs|[(Hch & Hlast & Hb)|[[Hch Ho]|(Hch & spent & Hsp & Hb)]]]; [done| |by apply Hout|].
  - destruct (phase (td_world T')); cbn [unseen_at] in Hb; lia.
  - apply Hout; [done|]. pose proof (turn_spent_bound _ _ Hsp) as Hs. unfold unseen_ms in Hb.
    assert (Hz : queue_cost (withdrawals (plan (tx (td_world T')))) <= 0) by nia.
    rewrite outdated_cost in Hz by done. by apply queue_cost_zero, elements_empty_iff, leibniz_equiv in Hz.
Qed.

(** [C7] A route that is no longer exported leaves the peer in time: from any reachable
    moment on, while nothing else is published, no matter which refreshes the peer asks
    for, which KEEPALIVEs are due and which wake-ups come, once the pause between two
    plans, a turn of the loop, and one turn for each withdrawal have passed, the peer
    holds no prefix outside the current exports, or the session has ended. *)
Theorem withdrawn_in_time start T T' q :
  timed_reach p n latency start T -> rtc silent_step T T' -> phase (td_world T') <> Stopped ->
  td_clock T + withdrawal_ms (td_world T) < td_clock T' ->
  q ∉ desired (watch (shared (td_world T))) (p_export_acl p) -> q ∉ peer_view (sent (td_world T')).
Proof. apply silent_withdrawn. Qed.
End withdrawal.
