(* ===== verification/Session.v ===== *)
(** * src/src/bgp.rs: connections and sessions

    Network I/O enters as arguments: the bytes a peer sends, the outcome of a
    write, whether a deadline passed. What a task does to the outside is a list of
    [Act]s: packets it writes and status updates it publishes. *)
From S2P Require Import Prelude Net Config Management Frame Open Update Validate Grammar RoundTrip Planning Export.

(** ** Effects *)
Inductive Act :=
| ASend (packet : list Z)
| ARefuse (packet : list Z)
| AWait (ms : Z)
| AStatus (state : PeerState) (e : option error).
(** [send]: build a packet and write it; [written] is the outcome of the write. *)
Definition send (written : res unit) (packet : res (list Z)) : Out Act unit :=
  f <~ out_ret packet; ([ASend f], written).
Definition set_status (state : PeerState) (e : option error) : Out Act unit := ([AStatus state e], Ok tt).
(** [report]: the result of the write is ignored. *)
Definition report (e : error) : Out Act unit :=
  match e with
  | EProtocol pe => send (Ok tt) (notification (pe_code pe) (pe_subcode pe) (pe_data pe))
  | EMessage _ _ => out_ret (Ok tt)
  end.

(** The Cease NOTIFICATION written, best effort, to a connection that lost against
    another one; the result of the write is ignored. *)
Definition refuse : Out Act unit := f <~ out_ret (notification 6 7 []); ([ARefuse f], Ok tt).

(** ** Local addresses *)
Record Ifaddr := mkIfaddr { ifa_name : string; ifa_addr : option IpAddr }.
(** The addresses of the peering interface among [getifaddrs]'s nodes. *)
Definition interface_ips (p : Peer) (nodes : list Ifaddr) : list IpAddr :=
  omap (fun a => if bool_decide (ifa_name a = p_interface p) then ifa_addr a else None) nodes.
Definition contains (ips : list IpAddr) (a : IpAddr) : bool := bool_decide (a ∈ ips).
Definition check_local_addresses (p : Peer) (nodes : res (list Ifaddr)) : res (option Z) :=
  nodes ← nodes;
  let ips := interface_ips p nodes in
  _ ← ensure (contains ips (p_local_address p)) "local_address is not assigned to {}";
  _ ← ensure (negb (p_ipv4 p) || is_some_and (nh4 p) (fun a => contains ips (IpV4 a)))
        "IPv4 next hop is not assigned to {}";
  _ ← ensure (negb (p_ipv6 p) || is_some_and (nh6 p) (fun a => contains ips (IpV6 a)))
        "IPv6 next hop is not assigned to {}";
  _ ← ensure (is_none_or (p_next_hop_v6_link_local p) (fun a => contains ips (IpV6 a)))
        "link-local next hop is not assigned to {}";
  Ok (head (omap (fun ip => match ip with
                            | IpV6 a => if v6_is_unicast_link_local a then Some a else None
                            | _ => None
                            end) ips)).

Section session.
Context {api : IpNetApi}.

(** ** [handshake] *)
Record Candidate := mkCandidate {
  cand_stream : list Z;
  negotiated : Negotiated;
  incoming : bool;
  link_local : option Z
}.
(** The environment: socket options, interface addresses, the write of the OPEN,
    the bytes from the peer, and whether the deadline passes first. *)
Record HandshakeIO := mkHandshakeIO {
  hs_configure : res unit;
  hs_nodes : res (list Ifaddr);
  hs_written : res unit;
  hs_stream : list Z;
  hs_timeout : bool
}.
Definition await_open (cfg : Config) (p : Peer) (stream : list Z) : res (Negotiated * list Z) :=
  '(kind, body, rest) ← read_frame stream;
  if negb (kind =? 1) then (e ← unexpected OpenSent kind body; Err e) else
  n ← parse_open body cfg p;
  Ok (n, rest).
Definition handshake (cfg : Config) (p : Peer) (is_incoming : bool) (io : HandshakeIO) : Out Act Candidate :=
  _ <~ out_ret (hs_configure io);
  ll <~ out_ret (check_local_addresses p (hs_nodes io));
  let '(acts, result) := _ <~ send (hs_written io) (open cfg p); out_ret (await_open cfg p (hs_stream io)) in
  if hs_timeout io then (acts, bail "OPEN timeout") else
  match result with
  | Ok (n, rest) => (acts, Ok (mkCandidate rest n is_incoming ll))
  | Err e => _ <~ (acts, Ok tt); _ <~ report e; out_ret (Err e)
  | Panic => (acts, Panic)
  | Fuel => (acts, Fuel)
  end.

(** ** [choose] *)
(** Lexicographic order of pairs. *)
Definition pair_ltb (a b : Z * Z) : bool := (a.1 <? b.1) || ((a.1 =? b.1) && (a.2 <? b.2)).
Definition prefer_incoming (cfg : Config) (p : Peer) (n : Negotiated) : bool :=
  pair_ltb (c_router_id cfg, c_asn cfg) (n_router_id n, p_remote_asn p).

(** [clock_max] is the last representable instant. *)
Definition choose_deadline (clock_max now : Z) (p : Peer) : res Z :=
  _ ← ensure (p_connect_timeout_secs p + 2 <=? 2 ^ 64 - 1) "connection selection deadline overflow";
  let selection_secs := p_connect_timeout_secs p + 2 in
  _ ← ensure (now + selection_secs * 1000 <=? clock_max) "connection selection deadline exceeds clock range";
  Ok (now + selection_secs * 1000).

(** The variables of the loop; [running] holds the direction of each task. *)
Record ChooseState := mkChoose {
  running : list bool;
  errors : list error;
  pending_candidate : option Candidate;
  incoming_started : bool;
  deadline : Z
}.
Definition choose_init (deadline : Z) : ChooseState := mkChoose [false] [] None false deadline.

(** The branches of [select!]. *)
Inductive ChooseEvent :=
| EvIncoming (stream : bool)
| EvJoin (task : nat) (result : res Candidate) (now : Z)
| EvDeadline (now : Z).
(** Whether a branch is enabled. *)
Definition event_enabled (s : ChooseState) (ev : ChooseEvent) : bool :=
  match ev with
  | EvIncoming _ => negb (incoming_started s)
  | EvJoin task result _ =>
      match running s !! task with
      | Some direction => match result with Ok c => Bool.eqb (incoming c) direction | _ => true end
      | None => false
      end
  | EvDeadline now => deadline s <=? now
  end.
Definition choose_step (cfg : Config) (p : Peer) (s : ChooseState) (ev : ChooseEvent)
  : Out Act (ChooseState + Candidate) :=
  match ev with
  | EvIncoming stream =>
      if negb stream then out_ret (bail "incoming listener stopped") else
      out_ret (Ok (inl (mkChoose (running s ++ [true]) (errors s) (pending_candidate s) true (deadline s))))
  | EvJoin task result now =>
      let rest := delete task (running s) in
      let finish s :=
        if is_empty (running s) && negb (is_some (pending_candidate s)) && incoming_started s
        then out_ret (bail "both connection candidates failed: {}") else out_ret (Ok (inl s)) in
      match result with
      | Ok candidate =>
          if Bool.eqb (incoming candidate) (prefer_incoming cfg p (negotiated candidate)) then
            _ <~ (match pending_candidate s with
                  | Some _ => refuse
                  | None => out_ret (Ok tt)
                  end);
            out_ret (Ok (inr candidate))
          else
            finish (mkChoose rest (errors s) (Some candidate) (incoming_started s) (now + 500))
      | Err e =>
          finish (mkChoose rest (errors s ++ [e]) (pending_candidate s) (incoming_started s) (deadline s))
      | Panic | Fuel => out_ret (bail "task panicked")
      end
  | EvDeadline _ =>
      match pending_candidate s with
      | Some candidate => out_ret (Ok (inr candidate))
      | None => out_ret (bail "no usable BGP connection: {}; {incoming_status}")
      end
  end.
Inductive choose_run (cfg : Config) (p : Peer) : ChooseState -> list ChooseEvent -> ChooseState -> Prop :=
| run_nil s : choose_run cfg p s [] s
| run_cons s ev s1 evs s2 :
    event_enabled s ev = true -> (choose_step cfg p s ev).2 = Ok (inl s1) ->
    choose_run cfg p s1 evs s2 -> choose_run cfg p s (ev :: evs) s2.

(** ** [receive] *)
(** [expires] and the pending refresh bits. *)
Record Rx := mkRx { expires : Z; rx_pending : Z }.
Definition hold_ms (n : Negotiated) : Z := n_hold n * 1000.
Definition hold_expired : error := EProtocol (mkProtocolError 4 0 [] "hold timer expired").
(** The [match] on a message read at time [now]. *)
Definition receive_packet (n : Negotiated) (now : Z) (kind : Z) (body : list Z) (rx : Rx) : res Rx :=
  if kind =? KEEPALIVE then Ok (mkRx (now + hold_ms n) (rx_pending rx))
  else if kind =? UPDATE then
    action ← validate_update body n;
    _ ← (if negb (bool_decide (action = Valid))
         then (_ ← update_prefixes body; _ ← frame UPDATE body; Ok tt) else Ok tt);
    Ok (mkRx (now + hold_ms n) (rx_pending rx))
  else if kind =? ROUTE_REFRESH then
    family ← refresh_family body n;
    Ok (match family with
        | Some v6 => mkRx (expires rx) (request (rx_pending rx) v6)
        | None => rx
        end)
  else e ← unexpected Established kind body; Err e.
(** The loop; [times] are the instants at which the next frames are complete. A
    frame that is not complete by [expires] meets the hold timer. The result when
    [times] ends is the state in which the task keeps waiting. *)
Fixpoint receive (n : Negotiated) (times : list Z) (reader : list Z) (rx : Rx) : res (Rx * list Z) :=
  match times with
  | [] => Ok (rx, reader)
  | now :: times =>
      if negb (n_hold n =? 0) && (expires rx <? now) then Err hold_expired else
      '(kind, body, reader) ← read_frame reader;
      rx ← receive_packet n now kind body rx;
      receive n times reader rx
  end.
Definition receive_init (n : Negotiated) (now : Z) (pending : Z) : Rx := mkRx (now + hold_ms n) pending.

(** ** [session] *)
(** [se_confirm_timeout]: the KEEPALIVE does not arrive in time; [se_run] is what
    the reader or the writer task, whichever stops first, returns. *)
Record SessionIO := mkSessionIO {
  se_written : res unit;
  se_confirm_timeout : bool;
  se_run : Peer -> Negotiated -> list Z -> res unit
}.
Definition confirm_secs (p : Peer) (n : Negotiated) : Z :=
  if n_hold n =? 0 then p_connect_timeout_secs p else n_hold n.
Definition confirm_timeout (n : Negotiated) : error :=
  EProtocol (mkProtocolError (if n_hold n =? 0 then 5 else 4) 0 [] "OpenConfirm timeout").
Definition result_error (r : res unit) : option error := match r with Err e => Some e | _ => None end.
Definition session (p : Peer) (candidate : Candidate) (io : SessionIO) : Out Act unit :=
  let p := session_peer p (link_local candidate) in
  let n := negotiated candidate in
  _ <~ set_status OpenConfirmState None;
  _ <~ send (se_written io) (frame KEEPALIVE []);
  let confirm := if se_confirm_timeout io then Err (confirm_timeout n) else read_frame (cand_stream candidate) in
  match confirm with
  | Ok (kind, body, rest) =>
      if negb (kind =? KEEPALIVE) then
        e <~ out_ret (unexpected OpenConfirm kind body);
        _ <~ report e; out_ret (Err e)
      else
        _ <~ set_status EstablishedState None;
        let result := se_run io p n rest in
        _ <~ (match result with Err e => report e | _ => out_ret (Ok tt) end);
        _ <~ set_status Active (result_error result);
        out_ret result
  | Err e => _ <~ report e; out_ret (Err e)
  | Panic => out_ret Panic
  | Fuel => out_ret Fuel
  end.

(** ** Specification *)
(** The NOTIFICATION an error is answered with: its code, subcode and as much of its
    data as fits; nothing for an error that is not a protocol error. *)
Definition reported (e : error) : list Act :=
  match e with
  | EProtocol pe => [ASend (message_bytes 3 ([pe_code pe; pe_subcode pe] ++ take 4075 (pe_data pe)))]
  | EMessage _ _ => []
  end.
(** What a message that the state (by its RFC 6608 subcode) does not expect ends in: a
    NOTIFICATION is only described, any other type is a finite state machine error. *)
Inductive unexpected_message (state kind : Z) : error -> Prop :=
| peer_notification template args : kind = 3 -> unexpected_message state kind (EMessage template args)
| fsm_error reason : kind <> 3 -> unexpected_message state kind (EProtocol (mkProtocolError 5 state [kind] reason)).
(** How the OPEN exchange may fail once the OPEN is to be written, and what is written
    about it. *)
Inductive open_failure (cfg : Config) (p : Peer) (io : HandshakeIO) : error -> list Act -> Prop :=
| failed_timeout : hs_timeout io = true -> open_failure cfg p io (EMessage "OPEN timeout" []) []
| failed_write e : hs_timeout io = false -> hs_written io = Err e -> open_failure cfg p io e (reported e)
| failed_stream e : hs_timeout io = false -> hs_written io = Ok tt -> reads (hs_stream io) (Err e) ->
    open_failure cfg p io e (reported e)
| failed_message kind body rest e : hs_timeout io = false -> hs_written io = Ok tt ->
    hs_stream io = message_bytes kind body ++ rest -> message_length kind (len body + 19) ->
    kind <> 1 -> unexpected_message 1 kind e -> open_failure cfg p io e (reported e)
| failed_open body rest e : hs_timeout io = false -> hs_written io = Ok tt ->
    hs_stream io = message_bytes 1 body ++ rest -> message_length 1 (len body + 19) ->
    parse_open body cfg p = Err e -> open_failure cfg p io e (reported e).
(** What a session does after its KEEPALIVE, and its result. *)
Inductive session_outcome (p : Peer) (c : Candidate) (io : SessionIO) : list Act -> res unit -> Prop :=
| ended_write e : se_written io = Err e -> session_outcome p c io [] (Err e)
| ended_timeout reason : se_written io = Ok tt -> se_confirm_timeout io = true ->
    let e := EProtocol (mkProtocolError (if bool_decide (n_hold (negotiated c) = 0) then 5 else 4) 0 [] reason) in
    session_outcome p c io (reported e) (Err e)
| ended_stream e : se_written io = Ok tt -> se_confirm_timeout io = false -> reads (cand_stream c) (Err e) ->
    session_outcome p c io (reported e) (Err e)
| ended_message kind body rest e : se_written io = Ok tt -> se_confirm_timeout io = false ->
    cand_stream c = message_bytes kind body ++ rest -> message_length kind (len body + 19) ->
    kind <> 4 -> unexpected_message 2 kind e -> session_outcome p c io (reported e) (Err e)
| established rest : se_written io = Ok tt -> se_confirm_timeout io = false ->
    cand_stream c = message_bytes 4 [] ++ rest ->
    let r := se_run io (session_peer p (link_local c)) (negotiated c) rest in
    session_outcome p c io
      ([AStatus EstablishedState None] ++ (match r with Err e => reported e | _ => [] end) ++
       [AStatus Active (match r with Err e => Some e | _ => None end)]) r.
End session.

(** * Theorems *)
(** ** Local addresses *)
Lemma first_link_local ips a :
  head (omap (fun ip => match ip with
                        | IpV6 a => if v6_is_unicast_link_local a then Some a else None
                        | _ => None
                        end) ips) = Some a -> IpV6 a ∈ ips /\ v6_is_unicast_link_local a = true.
Proof.
  induction ips as [|ip ips IH]; [done|]. simpl. destruct ip as [x|x].
  - intros H. destruct (IH H). split; [by right|done].
  - destruct (v6_is_unicast_link_local x) eqn:E; simpl.
    + intros [= <-]. split; [by left|done].
    + intros H. destruct (IH H). split; [by right|done].
Qed.

Lemma contains_next_hop (en : bool) (o : option Z) (f : Z -> IpAddr) ips :
  negb en || is_some_and o (fun a => contains ips (f a)) = true <->
  (en = true -> exists a, o = Some a /\ f a ∈ ips).
Proof.
  rewrite orb_true_iff, negb_true_iff, is_some_and_true. unfold contains.
  setoid_rewrite bool_decide_eq_true. destruct en; naive_solver.
Qed.

(** A session never starts with a third-party next hop: the check succeeds
    exactly when the local address, every next hop of an enabled family and a
    configured link-local next hop are assigned to the peering interface; the
    link-local address it supplies is one of that interface. *)
Theorem check_local_addresses_spec p nodes ll :
  check_local_addresses p (Ok nodes) = Ok ll ->
  let ips := interface_ips p nodes in
  p_local_address p ∈ ips /\
  (p_ipv4 p = true -> exists a, nh4 p = Some a /\ IpV4 a ∈ ips) /\
  (p_ipv6 p = true -> exists a, nh6 p = Some a /\ IpV6 a ∈ ips) /\
  (forall a, p_next_hop_v6_link_local p = Some a -> IpV6 a ∈ ips) /\
  (forall a, ll = Some a -> IpV6 a ∈ ips /\ v6_is_unicast_link_local a = true).
Proof.
  unfold check_local_addresses. cbn [mbind res_bind]. set (ips := interface_ips p nodes).
  rewrite !ensure_bind_ok, !contains_next_hop, is_none_or_true. unfold contains.
  setoid_rewrite bool_decide_eq_true. intros (H1 & H2 & H3 & H4 & [= <-]).
  split_and!; try done. by apply first_link_local.
Qed.

(** ** Collisions *)
Lemma pair_ltb_spec a b : pair_ltb a b = true <-> a.1 < b.1 \/ (a.1 = b.1 /\ a.2 < b.2).
Proof. unfold pair_ltb. lia. Qed.

Lemma check_local_total p nodes : total (check_local_addresses p (Ok nodes)).
Proof.
  unfold check_local_addresses, total. cbn [mbind res_bind].
  by repeat (apply wp_bind, wp_ensure; [intros _|done]).
Qed.

Section session_theorems.
Context {api : IpNetApi}.

(** [C16] Both ends of a collision keep the same connection: for two routers that
    completed negotiation with each other, the connection one of them prefers to
    accept is the one the other prefers to have initiated. *)
Theorem collision_agreement (cfg cfg' : Config) p p' n n' :
  negotiated_ok cfg p n ->
  p_remote_asn p = c_asn cfg' -> p_remote_asn p' = c_asn cfg ->
  n_router_id n = c_router_id cfg' -> n_router_id n' = c_router_id cfg ->
  prefer_incoming cfg p n = negb (prefer_incoming cfg' p' n').
Proof.
  intros Hneg H1 H2 H3 H4. unfold prefer_incoming. rewrite H1, H2, H3, H4.
  pose proof (neg_internal _ _ _ Hneg) as Hint. pose proof (neg_distinct _ _ _ Hneg) as Hd.
  rewrite H3 in Hd. rewrite H1 in Hint. unfold pair_ltb. cbn [fst snd].
  destruct (Z.eqb_spec (c_asn cfg) (c_asn cfg')); [specialize (Hd Hint)|]; lia.
Qed.

(** ** Choosing a connection *)
Definition choose_fuel (s : ChooseState) : nat :=
  length (running s) + if incoming_started s then 0 else 2.

Lemma choose_step_continue cfg p s ev s1 :
  event_enabled s ev = true -> (choose_step cfg p s ev).2 = Ok (inl s1) ->
  (choose_fuel s1 < choose_fuel s)%nat /\
  (deadline s1 = deadline s \/
   exists task c now, ev = EvJoin task (Ok c) now /\ deadline s1 = now + 500 /\ pending_candidate s1 = Some c) /\
  (pending_candidate s1 = pending_candidate s \/
   exists task c now, ev = EvJoin task (Ok c) now /\ pending_candidate s1 = Some c).
Proof.
  unfold choose_fuel. destruct ev as [[]|task r now|now]; simpl; intros Hen H.
  - apply negb_true_iff in Hen. simplify_eq/=. rewrite Hen, length_app. simpl. split_and!; [lia|by left..].
  - done.
  - destruct (running s !! task) as [d|] eqn:Et; [|done]. apply lookup_lt_Some in Et.
    assert (Hl : length (delete task (running s)) = (length (running s) - 1)%nat).
    { apply length_delete. by apply lookup_lt_is_Some_2. }
    destruct r as [c|e| |]; try done.
    + destruct (Bool.eqb _ (prefer_incoming _ _ _)).
      { by destruct (pending_candidate s). }
      cbn [is_some] in H. rewrite andb_false_r in H. simpl in H. simplify_eq/=.
      rewrite Hl. split_and!; [destruct (incoming_started s); lia|right; eauto 6..].
    + destruct (_ && _); [done|]. simplify_eq/=. rewrite Hl.
      split_and!; [destruct (incoming_started s); lia|by left..].
  - by destruct (pending_candidate s).
Qed.

Lemma choose_run_bound cfg p s evs s' :
  choose_run cfg p s evs s' -> (length evs + choose_fuel s' <= choose_fuel s)%nat.
Proof.
  induction 1 as [s|s ev s1 evs s2 Hen Hst _ IH]; [done|]. simpl.
  destruct (choose_step_continue _ _ _ _ _ Hen Hst) as [Hlt _]. lia.
Qed.

(** What is pending, and until when, after the events [evs] from the deadline [d]. *)
Definition settling (cfg : Config) (p : Peer) (d : Z) (evs : list ChooseEvent) (s : ChooseState) : Prop :=
  match pending_candidate s with
  | None => deadline s = d
  | Some c => incoming c <> prefer_incoming cfg p (negotiated c) /\
      exists task now, EvJoin task (Ok c) now ∈ evs /\ deadline s = now + 500
  end.
Lemma settling_step cfg p d evs s ev s1 :
  (choose_step cfg p s ev).2 = Ok (inl s1) -> settling cfg p d evs s -> settling cfg p d (evs ++ [ev]) s1.
Proof.
  unfold settling. intros H Hs.
  assert (Hkeep : pending_candidate s1 = pending_candidate s -> deadline s1 = deadline s ->
    match pending_candidate s1 with
    | None => deadline s1 = d
    | Some c => incoming c <> prefer_incoming cfg p (negotiated c) /\
        exists task now, EvJoin task (Ok c) now ∈ evs ++ [ev] /\ deadline s1 = now + 500
    end).
  { intros -> ->. destruct (pending_candidate s) as [c|]; [|done]. destruct Hs as (Hp & task & now & Hin & Hd).
    split; [done|]. exists task, now. split; [|done]. apply elem_of_app. by left. }
  destruct ev as [[]|task r now|now]; simpl in H; try done.
  - injection H as <-. by apply Hkeep.
  - destruct r as [c|e| |]; try done.
    + destruct (Bool.eqb _ _) eqn:E; [by destruct (pending_candidate s)|].
      cbn [is_some pending_candidate] in H. rewrite andb_false_r in H. simpl in H. injection H as <-. cbn [pending_candidate deadline].
      split; [intros Hc; by rewrite Hc, Bool.eqb_reflx in E|]. exists task, now. split; [|done]. apply elem_of_app. right. by left.
    + destruct (_ && _); [done|]. injection H as <-. by apply Hkeep.
  - by destruct (pending_candidate s).
Qed.
Lemma settling_run cfg p d s evs s' :
  choose_run cfg p s evs s' -> forall before, settling cfg p d before s -> settling cfg p d (before ++ evs) s'.
Proof.
  induction 1 as [s|s ev s1 evs s2 _ Hst _ IH]; intros before Hs; [by rewrite app_nil_r|].
  rewrite cons_middle, app_assoc. apply IH. by eapply settling_step.
Qed.

(** [C24] Choosing a connection: after at most three events (one incoming connection,
    two finished handshakes) the next one decides. A candidate of the preferred
    direction is chosen as soon as its OPEN exchange is done; another one waits for
    exactly half a second from then, and is chosen at the end of that window, if no
    preferred one came; while none waits the selection deadline stands. Nothing else is
    ever chosen. *)
Theorem choose_result (cfg : Config) p d evs s ev :
  choose_run cfg p (choose_init d) evs s -> event_enabled s ev = true ->
  (length evs <= 3)%nat /\
  match pending_candidate s with
  | None => deadline s = d
  | Some c => incoming c <> prefer_incoming cfg p (negotiated c) /\
      exists task now, EvJoin task (Ok c) now ∈ evs /\ deadline s = now + 500
  end /\
  (forall task c now, ev = EvJoin task (Ok c) now -> incoming c = prefer_incoming cfg p (negotiated c) ->
     (choose_step cfg p s ev).2 = Ok (inr c)) /\
  (forall now c, ev = EvDeadline now -> pending_candidate s = Some c -> (choose_step cfg p s ev).2 = Ok (inr c)) /\
  (forall c, (choose_step cfg p s ev).2 = Ok (inr c) ->
     (exists task now, ev = EvJoin task (Ok c) now /\ incoming c = prefer_incoming cfg p (negotiated c)) \/
     (exists task joined now, EvJoin task (Ok c) joined ∈ evs /\ ev = EvDeadline now /\
        pending_candidate s = Some c /\ joined + 500 <= now)).
Proof.
  intros Hrun Hen. pose proof (settling_run cfg p d _ _ _ Hrun [] eq_refl) as Hs. split_and!.
  - apply choose_run_bound in Hrun. unfold choose_fuel in Hrun. simpl in Hrun. lia.
  - exact Hs.
  - intros task c now -> Hc. simpl. rewrite Hc, Bool.eqb_reflx. by destruct (pending_candidate s).
  - intros now c -> Hc. simpl. by rewrite Hc.
  - intros c H. unfold settling in Hs. destruct ev as [[]|task r now|now]; simpl in H; try done.
    + destruct r as [c'|e| |]; try done; [|by destruct (_ && _)].
      destruct (Bool.eqb _ _) eqn:E; [|by destruct (_ && _)]. apply Bool.eqb_prop in E. left. exists task, now.
      assert (c' = c) as -> by (by destruct (pending_candidate s); simplify_eq/=). done.
    + right. simpl in Hen. destruct (pending_candidate s) as [c'|]; simplify_eq/=.
      destruct Hs as (_ & task & joined & Hin & Hd). exists task, joined, now. split_and!; [done|done|done|lia].
Qed.

(** A collision is announced: when the preferred connection is confirmed while
    the other one is pending, it is returned and the other one is sent a Cease
    NOTIFICATION (code 6, subcode 7). *)
Theorem choose_preferred (cfg : Config) p s task c now :
  incoming c = prefer_incoming cfg p (negotiated c) ->
  exists f, notification 6 7 [] = Ok f /\
    choose_step cfg p s (EvJoin task (Ok c) now) =
      ((if is_some (pending_candidate s) then [ARefuse f] else []), Ok (inr c)).
Proof.
  intros Hc. eexists. split; [done|]. simpl. rewrite Hc, Bool.eqb_reflx.
  by destruct (pending_candidate s).
Qed.
End session_theorems.

(** ** The reader *)
Section receive_theorems.
Context {api : IpNetApi} {laws : IpNetLaws} (n : Negotiated).

Lemma wp_refresh_family b : wp (refresh_family b n) (fun _ => True) (fun _ => True).
Proof.
  unfold refresh_family. apply wp_bind, wp_ensure; [|done]. intros Hl.
  destruct b as [|a0 [|a1 [|a2 [|a3 [|a4 b]]]]]; try done;
    [|rewrite !len_cons in Hl; pose proof (len_nonneg b); lia].
  change (idx [a0; a1; a2; a3] 2) with (Ok a2). cbn [mbind res_bind].
  change (idx [a0; a1; a2; a3] 3) with (Ok a3). destruct (a2 =? 0); cbn; [|done].
  by destruct (a3 =? 1).
Qed.

Lemma wp_unexpected state kind body : wp (unexpected state kind body) (fun _ => True) (fun _ => False).
Proof.
  unfold unexpected. destruct (kind =? 3); [|done]. destruct (Z.leb_spec 2 (len body)); [|done].
  destruct (idx_ok body 0) as (b0 & -> & _); [lia|]. by destruct (idx_ok body 1) as (b1 & -> & _); [lia|].
Qed.

Definition rx_next (now kind : Z) (rx rx' : Rx) : Prop :=
  (kind = KEEPALIVE \/ kind = UPDATE) /\ rx' = mkRx (now + hold_ms n) (rx_pending rx) \/
  kind = ROUTE_REFRESH /\ expires rx' = expires rx /\
    (rx' = rx \/ exists v6, rx' = mkRx (expires rx) (request (rx_pending rx) v6)).

Lemma wp_receive_packet now kind body rx :
  bytes_ok body -> len body + 19 <= MAX_MESSAGE ->
  wp (receive_packet n now kind body rx) (rx_next now kind rx) (fun _ => True).
Proof.
  intros Hb Hl. unfold receive_packet. destruct (Z.eqb_spec kind KEEPALIVE); [left; auto|].
  destruct (Z.eqb_spec kind UPDATE).
  { apply wp_bind. eapply wp_mono; [by apply validate_update_safe| |done]. intros action _.
    assert (Hok : wp (if negb (bool_decide (action = Valid))
         then (_ ← update_prefixes body; _ ← frame UPDATE body; Ok tt) else Ok tt) (fun _ => True) (fun _ => True)).
    { destruct (negb _); [|done]. destruct (update_prefixes_safe body Hb) as [ps ->]. cbn [mbind res_bind].
      by rewrite frame_value. }
    apply wp_bind. eapply wp_post; [exact Hok|]. intros [] _. left. auto. }
  destruct (Z.eqb_spec kind ROUTE_REFRESH).
  - apply wp_bind. eapply wp_post; [apply wp_refresh_family|]. intros [v6|] _; right; simpl; eauto 6.
  - apply wp_bind. eapply wp_mono; [apply wp_unexpected| |done]. done.
Qed.

Lemma wp_receive times reader rx :
  bytes_ok reader -> wp (receive n times reader rx) (fun r => bytes_ok r.2) (fun _ => True).
Proof.
  revert reader rx. induction times as [|now times IH]; intros reader rx Hr; simpl; [done|].
  destruct (_ && _); [done|]. apply wp_bind.
  eapply wp_mono; [by apply read_frame_safe| |done]. intros [[kind body] rest] (Hb & Hl & Hrest).
  apply wp_bind. eapply wp_post; [by apply wp_receive_packet|]. intros rx' _. by apply IH.
Qed.

(** The reader survives any peer: for every byte stream, and however its frames
    are timed, [receive] ends in an error or keeps waiting; it never panics, also
    where a recovered UPDATE is re-encoded and decoded for the log. *)
Theorem receive_total times reader rx : bytes_ok reader -> total (receive n times reader rx).
Proof. intros Hr. by eapply wp_mono; [apply wp_receive| |]. Qed.

Lemma receive_app times1 times2 reader rx :
  receive n (times1 ++ times2) reader rx =
    '(rx', reader') ← receive n times1 reader rx; receive n times2 reader' rx'.
Proof.
  revert reader rx. induction times1 as [|now times1 IH]; intros reader rx; simpl; [done|].
  destruct (_ && _); [done|]. destruct (read_frame reader) as [[[kind body] rest]| | |]; try done.
  cbn [mbind res_bind]. destruct (receive_packet n now kind body rx); try done. apply IH.
Qed.

Lemma receive_expires times reader rx rx' reader' :
  bytes_ok reader -> receive n times reader rx = Ok (rx', reader') ->
  expires rx' = expires rx \/ exists t, t ∈ times /\ expires rx' = t + hold_ms n.
Proof.
  revert reader rx. induction times as [|now times IH]; intros reader rx Hb H; simpl in H.
  { left. congruence. }
  destruct (_ && _); [done|].
  apply bind_ok_inv in H as ([[kind body] rest] & Hf & H). apply bind_ok_inv in H as (rx1 & Hp & H).
  destruct (wp_ok_inv _ _ _ _ (read_frame_safe reader Hb) Hf) as (Hbb & Hl & Hrest).
  pose proof (wp_ok_inv _ _ _ _ (wp_receive_packet now kind body rx Hbb Hl) Hp) as Hn.
  destruct (IH rest rx1 Hrest H) as [E|(t & Ht & E)].
  - destruct Hn as [[_ ->]|(_ & E' & _)].
    + right. exists now. split; [by left|]. by rewrite E.
    + left. by rewrite E.
  - right. exists t. split; [by right|done].
Qed.

(** The hold timer: with a nonzero negotiated hold time the reader waits at
    most that long past the start or the last message it accepted, and a peer that
    sends nothing complete by then ends the session with the hold-timer error
    (code 4); with hold time zero there is no deadline. *)
Theorem receive_hold_timer times reader start pend rx rest :
  bytes_ok reader -> receive n times reader (receive_init n start pend) = Ok (rx, rest) ->
  (expires rx = start + hold_ms n \/ exists t, t ∈ times /\ expires rx = t + hold_ms n) /\
  forall now, n_hold n <> 0 -> expires rx < now ->
    receive n (times ++ [now]) reader (receive_init n start pend) = Err hold_expired.
Proof.
  intros Hb H. split; [by apply (receive_expires _ _ _ _ _ Hb H)|]. intros now Hh Hlt.
  rewrite receive_app, H. cbn [mbind res_bind receive].
  by rewrite eqb_false, ltb_true by done.
Qed.

(** Only accepted messages keep a session alive: a KEEPALIVE or an accepted
    UPDATE restarts the hold timer, a ROUTE-REFRESH leaves it alone and can only add
    a negotiated family to the pending refreshes, and any other message ends the
    session. *)
Theorem receive_packet_spec now kind body rx rx' :
  bytes_ok body -> len body + 19 <= MAX_MESSAGE -> receive_packet n now kind body rx = Ok rx' ->
  rx_next now kind rx rx'.
Proof. intros Hb Hl H. exact (wp_ok_inv _ _ _ _ (wp_receive_packet now kind body rx Hb Hl) H). Qed.
End receive_theorems.

(** ** Handshake and session *)
Section fsm_theorems.
Context {api : IpNetApi} {laws : IpNetLaws}.

Lemma notification_ok code subcode data : exists f, notification code subcode data = Ok f.
Proof.
  unfold notification, slice_to. pose proof (len_nonneg data).
  rewrite slice_ok by (unfold MAX_MESSAGE; lia). cbn [mbind res_bind].
  eexists. apply frame_value. rewrite len_app, len_take.
  - change (len [code; subcode]) with 2. unfold MAX_MESSAGE. lia.
  - rewrite drop_0. unfold MAX_MESSAGE. lia.
Qed.

Lemma notification_message code subcode data :
  notification code subcode data = Ok (message_bytes 3 ([code; subcode] ++ take 4075 data)).
Proof.
  unfold notification, slice_to. pose proof (len_nonneg data). change (MAX_MESSAGE - 21) with 4075.
  rewrite slice_ok by lia. cbn [mbind res_bind]. rewrite drop_0, Z.sub_0_r.
  assert (E : take (Z.to_nat (Z.min (len data) 4075)) data = take 4075 data).
  { destruct (Z.min_spec (len data) 4075) as [[? ->]|[_ ->]]; [|done]. unfold len in *. rewrite !take_ge by lia. done. }
  rewrite E. apply frame_message. rewrite len_app. unfold len, MAX_MESSAGE. rewrite length_take. simpl length. lia.
Qed.
Lemma report_value e : report e = (reported e, Ok tt).
Proof. destruct e as [pe|]; [|done]. unfold report, reported, send. by rewrite notification_message. Qed.
Lemma unexpected_value state kind body :
  exists e, unexpected state kind body = Ok e /\ unexpected_message (fsm_code state) kind e.
Proof.
  destruct (unexpected_spec state kind body) as (e & He & H). exists e. split; [done|].
  destruct (Z.eqb_spec kind 3) as [->|]; [|subst; by apply fsm_error].
  destruct e as [pe|t args]; [destruct H; by exists pe|by apply peer_notification].
Qed.
(** The two outcomes of reading a message. *)
Lemma read_frame_message stream kind body rest :
  bytes_ok stream -> read_frame stream = Ok (kind, body, rest) ->
  stream = message_bytes kind body ++ rest /\ message_length kind (len body + 19).
Proof. intros Hb E. pose proof (read_frame_reads stream Hb) as Hr. rewrite E in Hr. by inversion Hr. Qed.
Lemma read_frame_fails stream e : bytes_ok stream -> read_frame stream = Err e -> reads stream (Err e).
Proof. intros Hb <-. by apply read_frame_reads. Qed.

Lemma await_open_safe cfg p stream :
  bytes_ok stream -> 0 <= p_hold_time_secs p ->
  wp (await_open cfg p stream) (fun r => negotiated_ok cfg p r.1 /\ bytes_ok r.2) (fun _ => True).
Proof.
  intros Hs Hp. unfold await_open. apply wp_bind.
  eapply wp_mono; [by apply read_frame_safe| |done]. intros [[kind body] rest] (Hb & Hl & Hr).
  destruct (negb (kind =? 1)).
  - apply wp_bind. by eapply wp_mono; [apply wp_unexpected| |].
  - apply wp_bind. eapply wp_mono; [by apply parse_open_safe| |done]. by intros n Hn.
Qed.

Lemma open_frame (cfg : Config) p : exists f, open cfg p = Ok f.
Proof.
  unfold open. eexists. apply frame_value. destruct (open_body_fields cfg p) as [-> _].
  pose proof (len_open_caps cfg p). unfold MAX_MESSAGE. lia.
Qed.

(** An error that is answered, then returned. *)
Ltac failed :=
  rewrite report_value; cbn [out_bind out_ret fst snd app]; rewrite ?app_nil_r; right; eexists; split; [reflexivity|].

(** [C20] The OPEN exchange is sound: it never panics. A candidate has the requested
    direction, an interface that owns its addresses, and the negotiation of an OPEN that
    its peer sent first, within the time, and that was accepted under the configuration;
    the rest of the stream is left to the session. After the OPEN was written, a failure
    is one of those of [open_failure] (no time left, a failed write, a framing error, a
    message that is not an OPEN, an OPEN that is refused) and is answered exactly by the
    NOTIFICATION of its code, subcode and data, or by nothing for want of one. *)
Theorem handshake_sound (cfg : Config) p dir io nodes open_packet :
  bytes_ok (hs_stream io) -> 0 <= p_hold_time_secs p -> total (hs_written io) ->
  hs_configure io = Ok tt -> hs_nodes io = Ok nodes -> open cfg p = Ok open_packet ->
  match handshake cfg p dir io with
  | (acts, Ok c) =>
      acts = [ASend open_packet] /\ incoming c = dir /\ check_local_addresses p (Ok nodes) = Ok (link_local c) /\
      hs_timeout io = false /\ hs_written io = Ok tt /\ negotiated_ok cfg p (negotiated c) /\
      exists body, hs_stream io = message_bytes 1 body ++ cand_stream c /\ message_length 1 (len body + 19) /\
        parse_open body cfg p = Ok (negotiated c)
  | (acts, Err e) =>
      acts = [] /\ check_local_addresses p (Ok nodes) = Err e \/
      exists report, acts = [ASend open_packet] ++ report /\ open_failure cfg p io e report
  | (_, _) => False
  end.
Proof.
  intros Hs Hp Hw Hc Hn Ho. unfold handshake. rewrite Hc, Hn. cbn [out_bind out_ret fst snd app].
  pose proof (check_local_total p nodes) as W.
  destruct (check_local_addresses p (Ok nodes)) as [ll|e| |] eqn:Ell; [|by left|destruct W..].
  cbn [out_bind out_ret fst snd app].
  rewrite Ho. unfold send. cbn [out_bind out_ret fst snd app].
  assert (Htime : hs_timeout io = true -> exists report, [ASend open_packet] = [ASend open_packet] ++ report /\
    open_failure cfg p io (EMessage "OPEN timeout" []) report) by (intros; exists []; split; [done|by apply failed_timeout]).
  destruct (hs_written io) as [[]|e| |] eqn:Ew; [| |destruct Hw..]; cbn [out_bind out_ret fst snd app].
  2: { destruct (hs_timeout io) eqn:Et; cbn [bail]; [right; by apply Htime|]. failed. by apply failed_write. }
  pose proof (await_open_safe cfg p (hs_stream io) Hs Hp) as Ha.
  destruct (await_open cfg p (hs_stream io)) as [[n rest]|e| |] eqn:Eo; [| |destruct Ha..]; cbn [out_bind out_ret fst snd app wp] in *;
    (destruct (hs_timeout io) eqn:Et; cbn [bail]; [right; by apply Htime|]).
  - destruct Ha as [Hneg _]. unfold await_open in Eo. apply bind_ok_inv in Eo as ([[kind body] rest'] & Hr & Eo).
    destruct (Z.eqb_spec kind 1) as [->|]; cbn [negb] in Eo; [|by apply bind_ok_inv in Eo as (? & _ & ?)].
    apply bind_ok_inv in Eo as (n' & Hparse & [= -> ->]). apply (read_frame_message _ _ _ _ Hs) in Hr as [Hr Hlen].
    cbn [negotiated incoming link_local cand_stream fst]. split_and!; try done. by exists body.
  - failed. unfold await_open in Eo. destruct (read_frame (hs_stream io)) as [[[kind body] rest']|e'| |] eqn:Er; try done.
    2: { injection Eo as ->. apply failed_stream; [done|done|by apply read_frame_fails]. }
    apply (read_frame_message _ _ _ _ Hs) in Er as [Hr Hlen]. cbn [mbind res_bind] in Eo.
    destruct (Z.eqb_spec kind 1) as [->|Hk]; cbn [negb] in Eo.
    + eapply failed_open; [done|done|exact Hr|done|]. by destruct (parse_open body cfg p) as [?|?| |]; simplify_eq/=.
    + destruct (unexpected_value OpenSent kind body) as (e' & E & Hu). rewrite E in Eo. injection Eo as ->.
      eapply failed_message; [done|done|exact Hr|done|done|exact Hu].
Qed.

Definition keepalive_packet : list Z := replicate 16 255 ++ [0; 19; 4].
Lemma keepalive_value : frame KEEPALIVE [] = Ok keepalive_packet.
Proof. done. Qed.

Lemma read_keepalive stream body rest :
  bytes_ok stream -> read_frame stream = Ok (KEEPALIVE, body, rest) -> body = [].
Proof.
  intros Hs H. destruct (wp_ok_inv _ _ _ _ (read_frame_inv stream Hs) H) as (Hv & _).
  apply len_zero. unfold valid_type_length, KEEPALIVE in Hv. lia.
Qed.

(** [C21] The session state machine: a session publishes OpenConfirm and writes a
    KEEPALIVE; what follows is one of [session_outcome]. It is published as Established
    exactly when the peer's next message is a KEEPALIVE that arrives in time, then runs
    the reader and the writer, answers the error that stopped them by its NOTIFICATION
    and ends as Active with that error. Before that, a timeout is answered by a
    NOTIFICATION of code 4, or 5 without a hold time, a framing error by one of code 1,
    another message by one of code 5, subcode 2; only a failed write, the end of the
    stream and the peer's own NOTIFICATION are answered by nothing. *)
Theorem session_fsm p c io :
  bytes_ok (cand_stream c) -> total (se_written io) -> (forall p n b, total (se_run io p n b)) ->
  exists acts, (session p c io).1 = [AStatus OpenConfirmState None; ASend (message_bytes 4 [])] ++ acts /\
    session_outcome p c io acts (session p c io).2.
Proof.
  intros Hs Hw Hrun. unfold session. rewrite keepalive_value. change keepalive_packet with (message_bytes 4 []).
  unfold set_status, send. cbn [out_bind out_ret fst snd app].
  destruct (se_written io) as [[]|e| |] eqn:Ew; [| |destruct Hw..]; cbn [out_bind out_ret fst snd app].
  2: { exists []. split; [done|]. by apply ended_write. }
  assert (Hfail : forall e, session_outcome p c io (reported e) (Err e) ->
    let '(acts, r) := _ <~ report e; @out_ret Act unit (Err e) in
    exists acts', AStatus OpenConfirmState None :: ASend (message_bytes 4 []) :: acts
      = AStatus OpenConfirmState None :: ASend (message_bytes 4 []) :: acts' /\ session_outcome p c io acts' r).
  { intros e He. rewrite report_value. cbn [out_bind out_ret fst snd app]. exists (reported e). by rewrite app_nil_r. }
  destruct (se_confirm_timeout io) eqn:Et.
  { specialize (Hfail (confirm_timeout (negotiated c))). destruct (out_bind _ _) as [acts r]. apply Hfail.
    replace (confirm_timeout (negotiated c)) with (EProtocol (mkProtocolError (if bool_decide (n_hold (negotiated c) = 0) then 5 else 4) 0 [] "OpenConfirm timeout")).
    { by apply ended_timeout. }
    unfold confirm_timeout. by destruct (Z.eqb_spec (n_hold (negotiated c)) 0); case_bool_decide. }
  destruct (read_frame (cand_stream c)) as [[[kind body] rest]|e| |] eqn:Er.
  3-4: by pose proof (read_frame_safe _ Hs) as Hf; rewrite Er in Hf.
  2: { specialize (Hfail e). destruct (out_bind _ _) as [acts r]. apply Hfail. apply ended_stream; [done|done|by apply read_frame_fails]. }
  destruct (read_frame_message _ _ _ _ Hs Er) as [Hstream Hlen].
  destruct (Z.eqb_spec kind KEEPALIVE) as [->|Hk]; cbn [negb].
  - rewrite (read_keepalive _ _ _ Hs Er) in Hstream. cbn [out_bind out_ret fst snd app].
    pose proof (established p c io rest Ew Et Hstream) as Ho. cbv zeta in Ho.
    pose proof (Hrun (session_peer p (link_local c)) (negotiated c) rest) as Ht.
    destruct (se_run io _ _ rest) as [[]|e| |] eqn:Ese; [| |destruct Ht..]; cbn [out_bind out_ret fst snd app result_error] in *.
    + eexists. by split.
    + rewrite report_value. cbn [out_bind out_ret fst snd app]. eexists. by split.
  - destruct (unexpected_value OpenConfirm kind body) as (e & -> & Hu). cbn [out_bind out_ret fst snd app].
    specialize (Hfail e). destruct (out_bind _ _) as [acts r]. apply Hfail. by eapply ended_message.
Qed.

End fsm_theorems.
