(* ===== verification/Interop.v ===== *)
(** * Two sessions of this program, back to back

    No definitions of the program: the byte stream the writer task of one router
    produces ([Export]), read by the reader task of another ([Session.receive]). *)
From S2P Require Import Prelude Net Config Frame Open Update Validate Grammar RoundTrip Planning Export Writer Session.

(** The instants at which frames complete never exceed the hold time. *)
Fixpoint timely (n : Negotiated) (last : Z) (times : list Z) : Prop :=
  match times with
  | [] => True
  | now :: times => (n_hold n = 0 \/ now <= last + hold_ms n) /\ timely n now times
  end.
(** What one written message is on the wire: the frame [f] of a KEEPALIVE, or of an
    UPDATE that is valid as it stands and names the prefixes announced. *)
Definition wire_ok {api : IpNetApi} (n : Negotiated) (m : Msg) (f : list Z) : Prop :=
  exists kind body, (forall rest, read_frame (f ++ rest) = Ok (kind, body, rest)) /\
    match m with
    | MKeepalive => kind = KEEPALIVE
    | MUpdate withdraw batch =>
        kind = UPDATE /\ validate_update body n = Ok Valid /\
        update_prefixes body = Ok (if withdraw then [] else map ipnet_trunc batch)
    | MEndOfRib _ => kind = UPDATE /\ validate_update body n = Ok Valid /\ update_prefixes body = Ok []
    end.

(** * Theorems *)
(** Validation looks at the ASN width and at whether the session is internal only. *)
Lemma validate_update_same b n n' :
  n_asn4 n' = n_asn4 n -> n_internal n' = n_internal n -> validate_update b n' = validate_update b n.
Proof. destruct n, n'. cbn. intros -> ->. reflexivity. Qed.

Section interop.
Context {api : IpNetApi} {laws : IpNetLaws} (cfg : Config) (p : Peer) (n : Negotiated) (link_local : option Z).
Hypotheses (Ht : peer_typed p) (Hok : peer_ok cfg p) (Hneg : negotiated_ok cfg p n).
Let p' := session_peer p link_local.

Lemma message_wire m :
  msg_ok n m -> exists f, encode_msg cfg p' n m = Ok f /\ len f <= MAX_MESSAGE /\ wire_ok n m f.
Proof.
  destruct m as [|withdraw batch|v6]; cbn [msg_ok encode_msg].
  - intros _. destruct (read_encoded KEEPALIVE []) as (f & Hf & Hm & Hr); [done|done|].
    exists f. split_and!; [done|done|]. exists KEEPALIVE, []. by split.
  - intros (Hne & Hl & v6 & Hf & Hen).
    pose proof (validated_next_hop cfg p n v6 Ht Hok Hneg Hen) as Hnh.
    destruct (session_peer_fields p link_local) as (_ & _ & _ & _ & E4 & E6). rewrite <- E4, <- E6 in Hnh.
    pose proof (session_peer_negotiated cfg p n link_local Hneg) as Hneg'.
    pose proof (sent_body_len cfg p' n v6 withdraw batch Hneg' Hf Hne Hl (fun _ => Hnh)) as Hb.
    destruct (read_encoded UPDATE (sent_body cfg p' n v6 withdraw batch)) as (f & Hfr & Hm & Hread).
    { unfold valid_type_length, UPDATE. lia. }
    { unfold MAX_MESSAGE. lia. }
    exists f. split_and!; [by rewrite (update_value cfg p' n v6)|done|].
    exists UPDATE, (sent_body cfg p' n v6 withdraw batch). split_and!; [done|done| |].
    + by apply sent_valid.
    + by apply sent_prefixes.
  - intros _. destruct (end_of_rib_accepted v6 n) as (f & body & Hf & Hr & Hv & Hp).
    exists f. split_and!; [done|by destruct v6; injection Hf as <-|]. by exists UPDATE, body.
Qed.

Lemma receive_wire n' m f now times rest rx :
  n_asn4 n' = n_asn4 n -> n_internal n' = n_internal n -> wire_ok n m f ->
  n_hold n' = 0 \/ now <= expires rx ->
  receive n' (now :: times) (f ++ rest) rx = receive n' times rest (mkRx (now + hold_ms n') (rx_pending rx)).
Proof.
  intros H4 Hi (kind & body & Hr & Hm) Hhold. cbn [receive]. rewrite Hr.
  replace (negb (n_hold n' =? 0) && (expires rx <? now)) with false by lia. cbn [mbind res_bind].
  assert (Hp : receive_packet n' now kind body rx = Ok (mkRx (now + hold_ms n') (rx_pending rx))).
  { unfold receive_packet. destruct m as [|withdraw batch|v6].
    - by rewrite Hm.
    - destruct Hm as (-> & Hv & _). rewrite (validate_update_same body n n'), Hv by done. done.
    - destruct Hm as (-> & Hv & _). rewrite (validate_update_same body n n'), Hv by done. done. }
  by rewrite Hp.
Qed.

Lemma receive_stream n' msgs frames times start pend :
  n_asn4 n' = n_asn4 n -> n_internal n' = n_internal n -> Forall2 (wire_ok n) msgs frames ->
  length times = length frames -> timely n' start times ->
  receive n' times (concat frames) (receive_init n' start pend) =
    Ok (mkRx (List.last times start + hold_ms n') pend, []).
Proof.
  intros H4 Hi Hw. revert times start. unfold receive_init.
  induction Hw as [|m f msgs frames Hm _ IH]; intros [|now times] start Hl Htime; try done.
  cbn [timely] in Htime. destruct Htime as [Hnow Htime]. cbn [concat].
  rewrite (receive_wire n' m) by done. cbn [rx_pending]. rewrite (IH times now); [|simpl in Hl; lia|done].
  by rewrite list_last_cons.
Qed.

(** Interoperability: the bytes one router's writer task has sent at any moment are
    read by the other's [receive] to the last frame without an error, provided each
    frame completes within the hold time of the one before: every frame restarts the
    hold timer, every UPDATE is valid as it stands and decodes to the prefixes it
    announces, and no refresh is requested. *)
Theorem session_interoperates w n' :
  n_asn4 n' = n_asn4 n -> n_internal n' = n_internal n -> tx_reachable p' n w ->
  exists frames,
    Forall2 (fun m f => encode_msg cfg p' n m = Ok f /\ len f <= MAX_MESSAGE /\ wire_ok n m f) (sent w) frames /\
    forall times start pend, length times = length frames -> timely n' start times ->
      receive n' times (concat frames) (receive_init n' start pend) =
        Ok (mkRx (List.last times start + hold_ms n') pend, []).
Proof.
  intros H4 Hi Hw. pose proof (ok_sent _ _ (tx_reachable_ok _ _ _ Hw)) as Hs.
  assert (Hframes : exists frames,
    Forall2 (fun m f => encode_msg cfg p' n m = Ok f /\ len f <= MAX_MESSAGE /\ wire_ok n m f) (sent w) frames).
  { clear Hw. induction Hs as [|m msgs Hm _ (frames & IH)]; [by exists []; constructor|].
    destruct (message_wire m Hm) as (f & Hf). exists (f :: frames). by constructor. }
  destruct Hframes as (frames & Hf). exists frames. split; [done|]. intros times start pend Hl Htime.
  eapply receive_stream; try done. eapply Forall2_impl; [exact Hf|]. by intros m f (_ & _ & ?).
Qed.

(** ** In time *)
Lemma arrivals_timely n' gap delay last last' times arrivals :
  gaps_within gap last times -> Forall2 (fun s r => s <= r <= s + delay) times arrivals ->
  last <= last' + delay -> gap + 2 * delay <= hold_ms n' ->
  timely n' last' arrivals /\ List.last times last <= List.last arrivals last' + delay.
Proof.
  intros Hg Hf. revert last last' Hg. induction Hf as [|s r times arrivals Hr _ IH]; intros last last' Hg Hl Hgap; [done|].
  cbn [gaps_within timely] in *. destruct Hg as [Hs Hg]. rewrite !list_last_cons.
  destruct (IH s r Hg) as [H1 H2]; [lia|done|]. split; [split; [right; lia|done]|done].
Qed.

Lemma silence_value latency :
  0 < n_hold n ->
  silence_ms p' n latency = n_hold n / 3 * 1000 + 8 * latency + p_write_timeout_secs p * 1000.
Proof.
  intros Hhold. pose proof (neg_hold _ _ _ Hneg (peer_hold _ _ Hok)) as H3.
  assert (1 <= n_hold n / 3) by (apply Z.div_le_lower_bound; lia).
  replace (p_write_timeout_secs p) with (p_write_timeout_secs p') by (unfold p', session_peer; by destruct (_ && _)).
  unfold silence_ms, write_ms, keepalive_ms. lia.
Qed.

(** [C29] Sessions stay up: let every part of the writer's loop and every wake-up take at
    most [latency] besides writing, let a message reach the other router within [delay],
    and let the KEEPALIVE interval, eight latencies, one write timeout and two delays fit
    in the hold time. Then at every moment the other router has read every message sent
    so far without an error, and its hold timer does not run out while the next one is
    still to come, however exports change and refreshes arrive. *)
Theorem session_stays_up latency delay start T n' :
  0 <= latency -> 0 <= delay -> 0 < n_hold n ->
  n_asn4 n' = n_asn4 n -> n_internal n' = n_internal n ->
  n_hold n / 3 * 1000 + 8 * latency + p_write_timeout_secs p * 1000 + 2 * delay <= n_hold n' * 1000 ->
  timed_reach p' n latency start T ->
  exists frames,
    Forall2 (fun m f => encode_msg cfg p' n m = Ok f /\ len f <= MAX_MESSAGE /\ wire_ok n m f) (sent (td_world T)) frames /\
    forall arrivals start' pend,
      Forall2 (fun s r => s <= r <= s + delay) (td_times T) arrivals -> start <= start' + delay ->
      receive n' arrivals (concat frames) (receive_init n' start' pend) =
        Ok (mkRx (List.last arrivals start' + hold_ms n') pend, []) /\
      (phase (td_world T) <> Stopped -> td_clock T <= List.last arrivals start' + hold_ms n').
Proof.
  intros Hlat Hdelay Hhold H4 Hi Hfit Hreach.
  assert (Hw : 0 <= p_write_timeout_secs p').
  { pose proof (proj1 (peer_write_timeout cfg p Hok)). unfold p', session_peer. destruct (_ && _); cbn; lia. }
  assert (Hsil : silence_ms p' n latency + 2 * delay <= hold_ms n').
  { unfold hold_ms. rewrite silence_value by done. lia. }
  destruct (timed_reach_inv p' n latency Hlat Hw Hhold start T Hreach) as [Hlen Hgaps Hlast _ Hclock].
  destruct (session_interoperates (td_world T) n' H4 Hi (timed_reach_tx p' n latency start T Hreach)) as (frames & Hf & Hr).
  exists frames. split; [done|]. intros arrivals start' pend Harr Hstart.
  destruct (arrivals_timely n' _ delay start start' (td_times T) arrivals Hgaps Harr Hstart Hsil) as [Htime Hl].
  split.
  - apply Hr; [|done]. apply Forall2_length in Harr, Hf. congruence.
  - intros Hs. specialize (Hclock Hs). unfold last_write in Hclock. unfold silence_ms, write_ms in Hsil.
    assert (slack (phase (td_world T)) <= 7) by (by destruct (phase (td_world T))).
    assert (0 <= p_write_timeout_secs p' * 1000) by lia.
    nia.
Qed.
End interop.
