(* ===== verification/Live.v ===== *)
(** * src/src/bgp.rs [session]: the reader and the writer of an established session

    [receive] and [transmit] run concurrently over one [Refresh] until either returns.
    [input] is what the peer sends after the KEEPALIVE that established the session; a
    frame is read at the clock's time, or not yet. The writer is [Export]'s. *)
From S2P Require Import Prelude Net Config Management Frame Open Update Validate Grammar RoundTrip Planning Export Session.

Section live.
Context {api : IpNetApi} {laws : IpNetLaws} (p : Peer) (n : Negotiated) (input : list Z).

(** The clock, the reader's deadline and the bytes it has not read, the writer with the
    shared [pending] bits, and the result of [select!]. *)
Record Live := mkLive {
  lv_clock : Z;
  lv_expires : Z;
  lv_stream : list Z;
  lv_world : World;
  lv_result : option (res unit)
}.
Definition live_pending (l : Live) : Z := pending (shared (lv_world l)).
Definition set_pending (bits : Z) (w : World) : World :=
  mkWorld (phase w) (tx w) (mkShared (watch (shared w)) (changed (shared w)) bits) (sent w).
(** One iteration of the reader at the clock's time. *)
Definition read_once (l : Live) : res (Rx * list Z) :=
  receive n [lv_clock l] (lv_stream l) (mkRx (lv_expires l) (live_pending l)).

Inductive live_step : Live -> Live -> Prop :=
| live_tick clock l : lv_clock l <= clock -> lv_result l = None ->
    live_step l (mkLive clock (lv_expires l) (lv_stream l) (lv_world l) None)
| live_publish l w : lv_result l = None -> (exists exports, w = mkWorld (phase (lv_world l)) (tx (lv_world l))
      (mkShared exports true (live_pending l)) (sent (lv_world l))) ->
    live_step l (mkLive (lv_clock l) (lv_expires l) (lv_stream l) w None)
| live_read l rx rest : lv_result l = None -> read_once l = Ok (rx, rest) ->
    live_step l (mkLive (lv_clock l) (expires rx) rest (set_pending (rx_pending rx) (lv_world l)) None)
| live_read_error l e : lv_result l = None -> read_once l = Err e ->
    live_step l (mkLive (lv_clock l) (lv_expires l) (lv_stream l) (lv_world l) (Some (Err e)))
| live_write l w : lv_result l = None -> own_step p n (lv_world l) w -> phase w <> Stopped ->
    live_step l (mkLive (lv_clock l) (lv_expires l) (lv_stream l) w None)
| live_stop l w r : lv_result l = None -> own_step p n (lv_world l) w -> phase w = Stopped -> total r ->
    live_step l (mkLive (lv_clock l) (lv_expires l) (lv_stream l) w (Some r)).
(** Both tasks start at [start] with nothing pending. *)
Definition live_init (order : Order) (start : Z) (exports : Exports) : Live :=
  mkLive start (start + hold_ms n) input
    (mkWorld PReplan (tx_init order p n start exports) (mkShared exports false 0) []) None.
Inductive live_reach (start : Z) : Live -> Prop :=
| live_start order exports : order_ok order -> live_reach start (live_init order start exports)
| live_next l l' : live_reach start l -> live_step l l' -> live_reach start l'.

(** ** Specification *)
(** Every bit of [a] is a bit of [b]. *)
Definition bits_within (a b : Z) : Prop := forall i, 0 <= i -> Z.testbit a i = true -> Z.testbit b i = true.
(** A message that may be received, with the instant at which it was read. *)
Inductive accepted : Z -> list Z -> Prop :=
| accepted_keepalive body : accepted 4 body
| accepted_update body action : validate_update body n = Ok action -> accepted 2 body
| accepted_refresh body family : refresh_family body n = Ok family -> accepted 5 body.
Definition Received : Type := Z * Z * list Z.
(** KEEPALIVEs and UPDATEs restart the hold timer. *)
Definition deadline_after (deadline : Z) (m : Received) : Z :=
  if decide (m.1.2 = 4 \/ m.1.2 = 2) then m.1.1 + n_hold n * 1000 else deadline.
(** Messages read one after the other from [now] on, each of them accepted and, with a
    hold time, read by the deadline that the earlier ones leave. *)
Inductive in_time : Z -> Z -> list Received -> Prop :=
| in_time_nil now deadline : in_time now deadline []
| in_time_cons now deadline t kind body ms :
    now <= t -> (n_hold n <> 0 -> t <= deadline) -> accepted kind body ->
    in_time t (deadline_after deadline (t, kind, body)) ms -> in_time now deadline ((t, kind, body) :: ms).
Definition stream_of (ms : list Received) : list Z := concat (map (fun m => message_bytes m.1.2 m.2) ms).
Definition last_time (start : Z) (ms : list Received) : Z := fold_left (fun _ m => m.1.1) ms start.
(** The families asked for by ROUTE-REFRESH, as bits. *)
Definition requested (ms : list Received) (bit : Z) : Prop :=
  exists t body v6, (t, 5, body) ∈ ms /\ refresh_family body n = Ok (Some v6) /\ bit = if v6 then 1 else 0.
(** What the reader has done since [start]: the messages [ms] are those of the input up
    to what it has left, each in time; its deadline is the one they leave, and every
    pending refresh was requested by one of them. *)
Record reader_at (start : Z) (ms : list Received) (l : Live) : Prop := {
  ra_stream : input = stream_of ms ++ lv_stream l;
  ra_time : in_time start (start + n_hold n * 1000) ms;
  ra_clock : last_time start ms <= lv_clock l;
  ra_expires : lv_expires l = fold_left deadline_after ms (start + n_hold n * 1000);
  ra_pending i : 0 <= i -> Z.testbit (live_pending l) i = true -> requested ms i
}.
(** Why the reader ends the session at the present time. *)
Inductive reader_error (l : Live) : error -> Prop :=
| error_hold reason : n_hold n <> 0 -> lv_expires l < lv_clock l ->
    reader_error l (EProtocol (mkProtocolError 4 0 [] reason))
| error_stream e : (n_hold n <> 0 -> lv_clock l <= lv_expires l) -> reads (lv_stream l) (Err e) -> reader_error l e
| error_update body rest e : (n_hold n <> 0 -> lv_clock l <= lv_expires l) ->
    lv_stream l = message_bytes 2 body ++ rest -> validate_update body n = Err e -> reader_error l e
| error_refresh body rest e : (n_hold n <> 0 -> lv_clock l <= lv_expires l) ->
    lv_stream l = message_bytes 5 body ++ rest -> refresh_family body n = Err e -> reader_error l e
| error_message kind body rest e : (n_hold n <> 0 -> lv_clock l <= lv_expires l) ->
    lv_stream l = message_bytes kind body ++ rest -> ~ (kind = 2 \/ kind = 4 \/ kind = 5) ->
    unexpected_message 3 kind e -> reader_error l e.

(** * Theorems *)
Lemma in_time_app now deadline ms t kind body :
  in_time now deadline ms -> last_time now ms <= t -> (n_hold n <> 0 -> t <= fold_left deadline_after ms deadline) ->
  accepted kind body -> in_time now deadline (ms ++ [(t, kind, body)]).
Proof.
  induction 1 as [now deadline|now deadline t' kind' body' ms H1 H2 H3 _ IH]; cbn; intros Hl Hd Ha.
  - apply in_time_cons; [done|done|done|apply in_time_nil].
  - apply in_time_cons; [done|done|done|]. by apply IH.
Qed.
Lemma requested_app ms ms' i : requested ms i -> requested (ms ++ ms') i.
Proof. intros (t & body & v6 & Hin & H). exists t, body, v6. split; [|done]. apply elem_of_app. by left. Qed.

(** The reader takes one message. *)
Lemma receive_packet_takes now kind body rx rx' :
  receive_packet n now kind body rx = Ok rx' ->
  accepted kind body /\ expires rx' = deadline_after (expires rx) (now, kind, body) /\
  (rx_pending rx' = rx_pending rx \/
   exists v6, kind = 5 /\ refresh_family body n = Ok (Some v6) /\ rx_pending rx' = request (rx_pending rx) v6).
Proof.
  unfold receive_packet, deadline_after. cbn [fst snd]. destruct (Z.eqb_spec kind KEEPALIVE) as [->|Hk].
  { intros [= <-]. split_and!; [apply accepted_keepalive| |by left]. by rewrite decide_True by by left. }
  destruct (Z.eqb_spec kind UPDATE) as [->|Hu].
  { intros H. apply bind_ok_inv in H as (action & Ha & H). apply bind_ok_inv in H as (? & _ & [= <-]).
    split_and!; [by eapply accepted_update| |by left]. by rewrite decide_True by by right. }
  destruct (Z.eqb_spec kind ROUTE_REFRESH) as [->|]; [|by intros (? & _ & ?)%bind_ok_inv].
  intros (family & Hf & H)%bind_ok_inv. rewrite decide_False by (intros [?|?]; done).
  split; [by eapply accepted_refresh|]. destruct family as [v6|]; injection H as <-; [|by split; [|left]].
  split; [done|right]. by exists v6.
Qed.
Lemma receive_packet_fails now kind body rx e :
  bytes_ok body -> len body + 19 <= MAX_MESSAGE -> receive_packet n now kind body rx = Err e ->
  kind = 2 /\ validate_update body n = Err e \/ kind = 5 /\ refresh_family body n = Err e \/
  ~ (kind = 2 \/ kind = 4 \/ kind = 5) /\ unexpected_message 3 kind e.
Proof.
  intros Hb Hl. unfold receive_packet. destruct (Z.eqb_spec kind KEEPALIVE) as [|Hk]; [done|].
  destruct (Z.eqb_spec kind UPDATE) as [->|Hu].
  { destruct (validate_update body n) as [action|x| |]; try done; cbn [mbind res_bind]; [|intros [= ->]; by left].
    destruct (negb _); [|done]. destruct (update_prefixes_safe body Hb) as [ps ->]. cbn [mbind res_bind].
    by rewrite frame_value. }
  destruct (Z.eqb_spec kind ROUTE_REFRESH) as [->|Hr].
  { destruct (refresh_family body n) as [family|x| |]; try done. cbn [mbind res_bind]. intros [= ->]. right. by left. }
  destruct (unexpected_value Established kind body) as (x & -> & Hx). cbn [mbind res_bind]. intros [= ->].
  right. right. split; [|done]. unfold KEEPALIVE, UPDATE, ROUTE_REFRESH in *. lia.
Qed.

(** One iteration of the reader. *)
Lemma read_once_takes l rx rest :
  bytes_ok (lv_stream l) -> read_once l = Ok (rx, rest) ->
  exists kind body, lv_stream l = message_bytes kind body ++ rest /\ (n_hold n <> 0 -> lv_clock l <= lv_expires l) /\
    receive_packet n (lv_clock l) kind body (mkRx (lv_expires l) (live_pending l)) = Ok rx.
Proof.
  intros Hb. unfold read_once. cbn [receive expires]. destruct (_ && _) eqn:Et; [done|]. intros H.
  apply bind_ok_inv in H as ([[kind body] rest'] & Hf & H). apply bind_ok_inv in H as (rx' & Hp & [= -> ->]).
  apply (read_frame_message _ _ _ _ Hb) in Hf as [Hf _]. exists kind, body. split_and!; [done| |done].
  intros Hh. apply andb_false_iff in Et as [Et|Et]; lia.
Qed.
Lemma read_once_fails l e : bytes_ok (lv_stream l) -> read_once l = Err e -> reader_error l e.
Proof.
  intros Hb. unfold read_once. cbn [receive expires]. destruct (_ && _) eqn:Et.
  { intros [= <-]. apply andb_true_iff in Et as [? ?]. apply error_hold; lia. }
  assert (Ht : n_hold n <> 0 -> lv_clock l <= lv_expires l) by (intros Hh; apply andb_false_iff in Et as [?|?]; lia).
  destruct (read_frame (lv_stream l)) as [[[kind body] rest]|x| |] eqn:Ef; try done; cbn [mbind res_bind].
  2: { intros [= ->]. apply error_stream; [done|by apply read_frame_fails]. }
  pose proof (wp_ok_inv _ _ _ _ (read_frame_safe _ Hb) Ef) as (Hbody & Hl & _). cbn [fst snd] in *.
  apply (read_frame_message _ _ _ _ Hb) in Ef as [Ef _].
  destruct (receive_packet _ _ _ _ _) as [rx|x| |] eqn:Ep; try done; cbn [mbind res_bind]. intros [= ->].
  apply receive_packet_fails in Ep as [[-> Hx]|[[-> Hx]|[Hk Hx]]]; [|..|done|done].
  - by eapply error_update.
  - by eapply error_refresh.
  - by eapply error_message.
Qed.

Lemma own_step_pending w w' : own_step p n w w' -> bits_within (pending (shared w')) (pending (shared w)).
Proof.
  intros H i Hi. destruct H; cbn [shared pending]; try done.
  unfold check_refresh in H1. destruct (_ && _); [|by injection H1 as _ <-].
  destruct (negb _); injection H1 as _ <-; by rewrite Z.bits_0.
Qed.

Lemma reader_init start order exports : reader_at start [] (live_init order start exports).
Proof.
  split; [done|apply in_time_nil|cbn; lia|done|]. intros i Hi H. cbn in H. by rewrite Z.bits_0 in H.
Qed.
Lemma request_bit bits v6 i :
  0 <= i -> Z.testbit (request bits v6) i = true -> Z.testbit bits i = true \/ i = if v6 then 1 else 0.
Proof.
  unfold request. rewrite Z.lor_spec, orb_true_iff. intros Hi [?|H]; [by left|right].
  destruct v6; [change (family_bit true) with (2 ^ 1) in H|change (family_bit false) with (2 ^ 0) in H];
    rewrite Z.pow2_bits_eqb in H by lia; lia.
Qed.

Lemma stream_ok start ms l : bytes_ok input -> reader_at start ms l -> bytes_ok (lv_stream l).
Proof. intros Hi [E _ _ _ _]. rewrite E in Hi. by apply bytes_ok_app in Hi as [_ ?]. Qed.

Lemma reader_read start ms l rx rest :
  bytes_ok input -> reader_at start ms l -> read_once l = Ok (rx, rest) ->
  exists m, reader_at start (ms ++ [m])
    (mkLive (lv_clock l) (expires rx) rest (set_pending (rx_pending rx) (lv_world l)) None).
Proof.
  intros Hi Hr Hread. pose proof (stream_ok _ _ _ Hi Hr) as Hb. destruct Hr as [E Ht Hc He Hp].
  destruct (read_once_takes l rx rest Hb Hread) as (kind & body & Hs & Hd & Hpk).
  destruct (receive_packet_takes _ _ _ _ _ Hpk) as (Ha & Hx & Hpend). cbn [expires rx_pending] in *.
  exists (lv_clock l, kind, body). split.
  - cbn [lv_stream]. unfold stream_of. rewrite map_app, concat_app. cbn [map concat fst snd]. rewrite app_nil_r, <- app_assoc, <- Hs. exact E.
  - apply in_time_app; [done|done| |done]. rewrite <- He. exact Hd.
  - unfold last_time. rewrite fold_left_app. cbn. lia.
  - rewrite fold_left_app. cbn [fold_left lv_expires]. by rewrite Hx, He.
  - intros i H0 H. change (Z.testbit (rx_pending rx) i = true) in H. destruct Hpend as [Eq|(v6 & -> & Hf & Eq)]; rewrite Eq in H.
    + by apply requested_app, Hp.
    + apply request_bit in H as [H|H]; [|..|done]; [by apply requested_app, Hp|].
      exists (lv_clock l), body, v6. split_and!; [|done|done]. apply elem_of_app. right. by left.
Qed.

Lemma reader_step start l l' :
  bytes_ok input -> live_step l l' -> (exists ms, reader_at start ms l) -> exists ms, reader_at start ms l'.
Proof.
  intros Hi Hstep (ms & Hr).
  assert (Hsame : forall clock result w, lv_clock l <= clock -> bits_within (pending (shared w)) (live_pending l) ->
    exists ms, reader_at start ms (mkLive clock (lv_expires l) (lv_stream l) w result)).
  { intros clock result w Hc Hb. exists ms. destruct Hr as [E Ht Hl He Hp]. split; try done; [cbn; lia|].
    intros i H0 H. apply Hp; [done|]. by apply Hb. }
  destruct Hstep as [clock l Hc _|l w _ (exports & ->)|l rx rest _ Hread|l e _ _|l w _ Hw _|l w r _ Hw _ _];
    try (apply Hsame; [lia|]); try by intros i.
  - destruct (reader_read start ms l rx rest Hi Hr Hread) as (m & Hm). by eexists.
  - by apply own_step_pending.
  - by apply own_step_pending.
Qed.

Lemma writer_step start l l' :
  bytes_ok input -> live_step l l' -> (exists ms, reader_at start ms l) ->
  tx_reachable p n (lv_world l) -> tx_reachable p n (lv_world l').
Proof.
  intros Hi Hstep (ms & Hr) Hw.
  destruct Hstep as [clock l Hc _|l w _ (exports & ->)|l rx rest _ Hread|l e _ _|l w _ Hown _|l w r _ Hown _ _]; try done.
  - eapply reach_step; [exact Hw|left]. cbn. unfold live_pending. destruct (lv_world l) as [ph t sh s]. apply step_publish.
  - destruct (read_once_takes l rx rest (stream_ok _ _ _ Hi Hr) Hread) as (kind & body & _ & _ & Hpk).
    destruct (receive_packet_takes _ _ _ _ _ Hpk) as (_ & _ & Hp).
    cbn. unfold set_pending, live_pending in *. destruct (lv_world l) as [ph t [wt ch pe] s]. cbn [phase tx shared sent watch changed pending rx_pending] in *.
    destruct Hp as [->|(v6 & _ & _ & ->)]; [done|]. eapply reach_step; [exact Hw|left]. apply (step_request ph t (mkShared wt ch pe) s v6).
  - eapply reach_step; [exact Hw|by right].
  - eapply reach_step; [exact Hw|by right].
Qed.

(** The hold timer does not depend on the writer: once the deadline has passed, the
    reader cannot go on but ends the session, whatever the writer is doing. *)
Theorem live_hold_timer l : n_hold n <> 0 -> lv_expires l < lv_clock l -> read_once l = Err hold_expired.
Proof. intros Hh He. unfold read_once. cbn [receive expires]. by rewrite eqb_false, ltb_true by done. Qed.

(** [C25] Reader and writer together: in every reachable state of an established session
    the writer is in a state of its own model, so all that [Export] proves of it holds
    beside the reader. The reader has taken messages of the input in order, at
    increasing times, all of them KEEPALIVEs, UPDATEs or ROUTE-REFRESHes it accepts;
    with a hold time none of them came later than that after the KEEPALIVE or UPDATE
    before it (or the start), and once that time is over the reader only ends the
    session, with the hold-timer error. Every pending refresh was requested. The reader
    does not panic, and the session ends with the reader's error, for a reason listed in
    [reader_error], or when the writer has stopped. *)
Theorem live_refines start l :
  bytes_ok input -> live_reach start l ->
  tx_reachable p n (lv_world l) /\ (exists ms, reader_at start ms l) /\ total (read_once l) /\
  (n_hold n <> 0 -> lv_expires l < lv_clock l ->
     exists reason, read_once l = Err (EProtocol (mkProtocolError 4 0 [] reason))) /\
  forall r, lv_result l = Some r -> total r /\
    (phase (lv_world l) = Stopped \/ exists e, r = Err e /\ reader_error l e).
Proof.
  intros Hi Hreach.
  assert (Hinv : tx_reachable p n (lv_world l) /\ exists ms, reader_at start ms l).
  { induction Hreach as [order exports Ho|l l' _ (Hw & Hr) Hstep].
    - split; [by apply reach_init|]. exists []. apply reader_init.
    - split; [by eapply writer_step|by eapply reader_step]. }
  destruct Hinv as [Hw (ms & Hr)]. pose proof (stream_ok _ _ _ Hi Hr) as Hb. split_and!; [done|by exists ms| | |].
  - by eapply wp_mono; [apply wp_receive| |].
  - intros Hh He. eexists. by apply live_hold_timer.
  - destruct Hreach as [|l l' _ Hstep]; [done|].
    destruct Hstep as [| | |l e _ Hread|l w _ _ _|l w r0 _ _ Hph Ht]; cbn; try done; intros r [= <-].
    + split; [done|right]. exists e. split; [done|].
      destruct (read_once_fails l e Hb Hread); [by eapply error_hold|by eapply error_stream|by eapply error_update
        |by eapply error_refresh|by eapply error_message].
    + by split; [|left].
Qed.
End live.
