(* ===== verification/Worker.v ===== *)
(** * src/src/bgp.rs [peer_loop]: the worker of one peer

    A worker chooses a connection, runs its session while refusing other connections,
    then waits, by backing off or by serving an incoming connection. Its environment is
    a list of [Attempt]s: what happens in each iteration of the loop. *)
From S2P Require Import Prelude Net Config Management Frame Open Update Validate Grammar RoundTrip Planning Export Session.

(** ** Backoff *)
(** [u32::saturating_add(1)], and the delay in milliseconds before the next attempt. *)
Definition next_failures (failures : Z) : Z := Z.min (failures + 1) (2 ^ 32 - 1).
Definition backoff_base (failures : Z) : Z := Z.min (Z.shiftl 1 (Z.min failures 5)) 30.
Definition backoff_ms (failures jitter : Z) : Z := backoff_base failures * 1000 + jitter.

Section worker.
Context {api : IpNetApi} (clock_max : Z) (cfg : Config) (p : Peer).

(** ** [choose], on the branches its [select!] takes; [None] while it still waits *)
Fixpoint choose_loop (s : ChooseState) (events : list ChooseEvent) : Out Act (option Candidate) :=
  match events with
  | [] => out_ret (Ok None)
  | ev :: events =>
      r <~ choose_step cfg p s ev;
      match r with
      | inl s => choose_loop s events
      | inr candidate => out_ret (Ok (Some candidate))
      end
  end.
Definition choose (now : Z) (events : list ChooseEvent) : Out Act (option Candidate) :=
  deadline <~ out_ret (choose_deadline clock_max now p);
  choose_loop (choose_init deadline) events.

(** ** The inner loop: the session against new connections *)
(** The branches taken: the session goes on to its next effect or its end, or
    [incoming.recv] yields a connection ([false]: the channel is closed). *)
Inductive Race :=
| RSession
| RConnection (stream : bool).
(** [acts] and [result] are the session's; [None] while it lasts. *)
Fixpoint race (acts : list Act) (result : res unit) (script : list Race) : Out Act (option (res unit)) :=
  match script with
  | [] => out_ret (Ok None)
  | RSession :: script =>
      match acts with
      | act :: acts => _ <~ ([act], Ok tt); race acts result script
      | [] => match result with
              | Panic => out_ret Panic
              | Fuel => out_ret Fuel
              | r => out_ret (Ok (Some r))
              end
      end
  | RConnection stream :: script =>
      if negb stream then out_ret (bail "listener stopped") else
      _ <~ refuse; race acts result script
  end.

(** ** One iteration *)
(** How the wait ends, if it does. *)
Inductive Wait :=
| WPending
| WElapsed
| WClosed
| WConnection (hs : HandshakeIO) (se : SessionIO).
(** The clock and the branches of [choose], the session and its race, the duration
    of the session in milliseconds, the clock's milliseconds, and the wait. *)
Record Attempt := mkAttempt {
  at_now : Z;
  at_choose : list ChooseEvent;
  at_session : SessionIO;
  at_race : list Race;
  at_elapsed : Z;
  at_jitter : Z;
  at_wait : Wait
}.
Definition report_status (r : unit + error) : Out Act unit :=
  match r with inr e => set_status Active (Some e) | inl _ => out_ret (Ok tt) end.
(** From the status update after the attempt to the end of the iteration. *)
Definition peer_wait (failures : Z) (a : Attempt) : Out Act (option Z) :=
  _ <~ set_status Active None;
  let failures := next_failures failures in
  _ <~ ([AWait (backoff_ms failures (at_jitter a))], Ok tt);
  match at_wait a with
  | WPending => out_ret (Ok None)
  | WElapsed => out_ret (Ok (Some failures))
  | WClosed => out_ret (bail "listener stopped")
  | WConnection hs se =>
      h <~ out_try (handshake cfg p true hs);
      match h with
      | inl candidate =>
          r <~ out_try (session p candidate se);
          _ <~ report_status r;
          out_ret (Ok (Some failures))
      | inr e => _ <~ set_status Active (Some e); out_ret (Ok (Some failures))
      end
  end.
(** The new number of failures; [None] while the iteration lasts. *)
Definition peer_iteration (failures : Z) (a : Attempt) : Out Act (option Z) :=
  _ <~ set_status Connect None;
  chosen <~ out_try (choose (at_now a) (at_choose a));
  match chosen with
  | inl None => out_ret (Ok None)
  | inl (Some candidate) =>
      let '(acts, result) := session p candidate (at_session a) in
      ended <~ race acts result (at_race a);
      match ended with
      | None => out_ret (Ok None)
      | Some result =>
          _ <~ (match result with Err e => set_status Active (Some e) | _ => out_ret (Ok tt) end);
          peer_wait (if 30000 <=? at_elapsed a then 0 else failures) a
      end
  | inr e => _ <~ set_status Active (Some e); peer_wait failures a
  end.
(** The loop: [Ok] when the worker is still running after the script. *)
Fixpoint peer_attempts (failures : Z) (attempts : list Attempt) : Out Act (option Z) :=
  match attempts with
  | [] => out_ret (Ok (Some failures))
  | a :: attempts =>
      r <~ peer_iteration failures a;
      match r with
      | Some failures => peer_attempts failures attempts
      | None => out_ret (Ok None)
      end
  end.
Definition peer_loop (attempts : list Attempt) : Out Act (option Z) := peer_attempts 0 attempts.

(** ** Well-formed environments *)
Definition session_io_ok (io : SessionIO) : Prop :=
  total (se_written io) /\ forall p n b, total (se_run io p n b).
Definition handshake_io_ok (io : HandshakeIO) : Prop :=
  bytes_ok (hs_stream io) /\ total (hs_written io) /\ total (hs_configure io) /\ total (hs_nodes io).
Definition choose_event_ok (ev : ChooseEvent) : Prop :=
  match ev with EvJoin _ (Ok c) _ => bytes_ok (cand_stream c) | _ => True end.
Record attempt_ok (a : Attempt) : Prop := {
  ao_choose : Forall choose_event_ok (at_choose a);
  ao_session : session_io_ok (at_session a);
  ao_jitter : 0 <= at_jitter a < 1000;
  ao_wait : match at_wait a with WConnection hs se => handshake_io_ok hs /\ session_io_ok se | _ => True end
}.
(** The peer's channel is closed in the attempt. *)
Definition channel_closed (a : Attempt) : Prop :=
  RConnection false ∈ at_race a \/ at_wait a = WClosed.

(** ** Specification: the state machine the console shows *)
Definition fsm_edge (a b : PeerState) : bool :=
  match a, b with
  | (Idle | Active), Connect
  | (Connect | Active), OpenConfirmState
  | OpenConfirmState, EstablishedState
  | (Connect | OpenConfirmState | EstablishedState | Active), Active => true
  | _, _ => false
  end.
Definition act_state (st : PeerState) (act : Act) : option PeerState :=
  match act with
  | AStatus st' _ => if fsm_edge st st' then Some st' else None
  | _ => Some st
  end.
Fixpoint fsm_run (st : PeerState) (acts : list Act) : option PeerState :=
  match acts with
  | [] => Some st
  | act :: acts => st ← act_state st act; fsm_run st acts
  end.
(** The waits of a trace. *)
Definition waits (acts : list Act) : list Z :=
  omap (fun act => match act with AWait ms => Some ms | _ => None end) acts.
Definition is_connection (ev : Race) : bool := match ev with RConnection stream => stream | _ => false end.
Definition is_refuse (act : Act) : bool := match act with ARefuse _ => true | _ => false end.

(** * Theorems *)
(** ** A program logic for workers

    [runs st o Q X]: from the published state [st], the actions of [o] follow the state
    machine and wait between 2 and 31 seconds each time; [o] returns in [Q] or fails in
    [X], in the state then published. *)
Definition wait_ok (ms : Z) : Prop := 2000 <= ms < 31000.
Definition runs {A} (st : PeerState) (o : Out Act A) (Q : PeerState -> A -> Prop) (X : PeerState -> error -> Prop) : Prop :=
  exists st', fsm_run st o.1 = Some st' /\ Forall wait_ok (waits o.1) /\
    match o.2 with Ok a => Q st' a | Err e => X st' e | _ => False end.

Lemma fsm_run_app st acts1 acts2 : fsm_run st (acts1 ++ acts2) = st ← fsm_run st acts1; fsm_run st acts2.
Proof. revert st. induction acts1 as [|act acts1 IH]; intros st; [done|]. cbn. destruct (act_state st act); [apply IH|done]. Qed.

Section runs.
Context {A B : Type}.
Implicit Types (Q : PeerState -> A -> Prop) (X : PeerState -> error -> Prop).

Lemma runs_bind st (o : Out Act A) (f : A -> Out Act B) (Q : PeerState -> B -> Prop) X :
  runs st o (fun st' a => runs st' (f a) Q X) X -> runs st (out_bind o f) Q X.
Proof.
  intros (st' & H1 & Hw & H2). destruct o as [acts [a|e| |]]; cbn [fst snd] in *; try done; [|by exists st'].
  rewrite (out_bind_ok _ a) by done. destruct H2 as (st2 & H3 & Hw' & H4). exists st2. cbn [fst snd].
  rewrite fsm_run_app, H1. unfold waits. rewrite omap_app, Forall_app. by split_and!.
Qed.
Lemma runs_mono st (o : Out Act A) Q Q' X X' :
  runs st o Q X -> (forall st' a, Q st' a -> Q' st' a) -> (forall st' e, X st' e -> X' st' e) -> runs st o Q' X'.
Proof. intros (st' & H1 & Hw & H2) HQ HX. exists st'. split_and!; [done|done|]. destruct (o.2); auto. Qed.
Lemma runs_ret st (r : res A) Q X : wp r (Q st) (X st) -> runs st (out_ret r) Q X.
Proof. intros H. exists st. split_and!; [done|by apply Forall_nil|]. by destruct r. Qed.
Lemma runs_try st (o : Out Act A) (Q : PeerState -> A + error -> Prop) X :
  runs st o (fun st' a => Q st' (inl a)) (fun st' e => Q st' (inr e)) -> runs st (out_try o) Q X.
Proof. intros (st' & H1 & Hw & H2). exists st'. split_and!; [done|done|]. cbn. by destruct (o.2). Qed.
End runs.

Lemma runs_status st st' e (Q : PeerState -> unit -> Prop) X :
  fsm_edge st st' = true -> Q st' tt -> runs st (set_status st' e) Q X.
Proof. intros He HQ. exists st'. split_and!; [cbn; by rewrite He|by apply Forall_nil|done]. Qed.
(** An action that publishes no state. *)
Lemma runs_act st act r (Q : PeerState -> unit -> Prop) X :
  (forall st' e, act <> AStatus st' e) -> (forall ms, act = AWait ms -> wait_ok ms) ->
  wp r (Q st) (X st) -> runs st ([act], r) Q X.
Proof.
  intros Ha Hm Hr. exists st. destruct act as [f|f|ms|st' e]; cbn; [| | |by destruct (Ha st' e)];
    (split_and!; [done| |by destruct r]); try by apply Forall_nil.
  apply Forall_singleton. by apply Hm.
Qed.

Context {laws : IpNetLaws}.
Hypothesis Hhold : 0 <= p_hold_time_secs p.

Lemma runs_send st (written : res unit) packet Q X :
  (exists f, packet = Ok f) -> wp written (Q st) (X st) -> runs st (send written packet) Q X.
Proof. intros (f & ->) Hw. unfold send. rewrite out_ret_bind. by apply runs_act. Qed.
Lemma runs_report st e (Q : PeerState -> unit -> Prop) X : Q st tt -> runs st (report e) Q X.
Proof. intros HQ. destruct e as [pe|]; [|by apply runs_ret]. apply runs_send; [apply notification_ok|done]. Qed.
Lemma runs_refuse st (Q : PeerState -> unit -> Prop) X : Q st tt -> runs st refuse Q X.
Proof.
  intros HQ. unfold refuse. destruct (notification_ok 6 7 []) as [f ->]. rewrite out_ret_bind. by apply runs_act.
Qed.
(** An error that is reported and then returned. *)
Lemma runs_fail {A} st e (Q : PeerState -> A -> Prop) X : X st e -> runs st (_ <~ report e; out_ret (Err e)) Q X.
Proof. intros HX. apply runs_bind, runs_report. by apply runs_ret. Qed.

(** A session starts from Connect or Active and returns to Active, or fails before. *)
Lemma runs_session st c io :
  st = Connect \/ st = Active -> bytes_ok (cand_stream c) -> session_io_ok io ->
  runs st (session p c io) (fun st' _ => st' = Active) (fun st' _ => st' = OpenConfirmState \/ st' = Active).
Proof.
  intros Hst Hs [Hw Hrun]. unfold session.
  apply runs_bind, runs_status; [by destruct Hst as [->| ->]|].
  apply runs_bind, runs_send; [by eexists|]. eapply wp_mono; [exact Hw|intros [] _|auto].
  assert (Hr : wp (if se_confirm_timeout io then Err (confirm_timeout (negotiated c)) else read_frame (cand_stream c))
                 (fun _ => True) (fun _ => True)).
  { destruct (se_confirm_timeout io); [done|]. by eapply wp_mono; [apply read_frame_safe| |]. }
  destruct (if se_confirm_timeout io then _ else _) as [[[kind body] rest]|e| |]; try done; [|apply runs_fail; auto].
  destruct (negb (kind =? KEEPALIVE)).
  - apply runs_bind, runs_ret. eapply wp_mono; [apply wp_unexpected| |done]. intros e _. apply runs_fail. auto.
  - apply runs_bind, runs_status; [done|]. cbv zeta.
    pose proof (Hrun (session_peer p (link_local c)) (negotiated c) rest) as Ht. apply runs_bind.
    destruct (se_run io _ _ rest) as [[]|e| |]; try done; [apply runs_ret|apply runs_report];
      apply runs_bind, runs_status; try done; apply runs_ret; [done|by right].
Qed.

Lemma runs_handshake st hs :
  handshake_io_ok hs ->
  runs st (handshake cfg p true hs) (fun st' c => st' = st /\ bytes_ok (cand_stream c)) (fun st' _ => st' = st).
Proof.
  intros (Hs & Hw & Hc & Hn). unfold handshake. apply runs_bind, runs_ret.
  eapply wp_mono; [exact Hc|intros [] _|done]. apply runs_bind, runs_ret.
  assert (Hl : total (check_local_addresses p (hs_nodes hs))).
  { destruct (hs_nodes hs); try done. apply check_local_total. }
  eapply wp_mono; [exact Hl|intros ll _|done].
  assert (Hx : runs st (_ <~ send (hs_written hs) (open cfg p); out_ret (await_open cfg p (hs_stream hs)))
    (fun st' r => st' = st /\ bytes_ok r.2) (fun st' _ => st' = st)).
  { apply runs_bind, runs_send; [apply open_frame|]. eapply wp_mono; [exact Hw|intros [] _|done].
    apply runs_ret. eapply wp_mono; [by apply await_open_safe| |done]. intros [n rest] [_ H]. done. }
  destruct (_ <~ _; _) as [acts result]. destruct Hx as (st' & H1 & Hwt & H2). cbn [fst snd] in *.
  assert (Hacts : forall A (r : res A) Q X, wp r (Q st') (X st') -> runs st (acts, r) Q X).
  { intros A r Q X Hr. exists st'. split_and!; [done|done|]. by destruct r. }
  destruct (hs_timeout hs).
  - apply Hacts. destruct result as [[n rest]|e| |]; try done. by destruct H2.
  - destruct result as [[n rest]|e| |]; try done.
    + destruct H2 as [-> H2]. by apply Hacts.
    + subst st'. apply runs_bind. apply (Hacts _ (Ok tt)). apply runs_fail. done.
Qed.

(** ** [choose] *)
Definition pending_ok (s : ChooseState) : Prop := forall c, pending_candidate s = Some c -> bytes_ok (cand_stream c).
Lemma runs_choose_step st s ev :
  pending_ok s -> choose_event_ok ev ->
  runs st (choose_step cfg p s ev)
    (fun st' r => st' = st /\ match r with inl s' => pending_ok s' | inr c => bytes_ok (cand_stream c) end)
    (fun st' _ => st' = st).
Proof.
  intros Hs Hev. destruct ev as [[]|task r now|now]; cbn [choose_step negb].
  - by apply runs_ret.
  - by apply runs_ret.
  - destruct r as [c|e| |]; try by apply runs_ret.
    + destruct (Bool.eqb _ _).
      * apply runs_bind. destruct (pending_candidate s); [apply runs_refuse|apply runs_ret]; by apply runs_ret.
      * cbn [is_some pending_candidate]. rewrite andb_false_r. apply runs_ret. split; [done|]. by intros c' [= <-].
    + destruct (_ && _); by apply runs_ret.
  - destruct (pending_candidate s) eqn:E; apply runs_ret; [|done]. split; [done|by apply Hs].
Qed.

Lemma runs_choose st now events :
  Forall choose_event_ok events ->
  runs st (choose now events)
    (fun st' o => st' = st /\ forall c, o = Some c -> bytes_ok (cand_stream c)) (fun st' _ => st' = st).
Proof.
  intros Hev. unfold choose. apply runs_bind, runs_ret.
  assert (Hd : total (choose_deadline clock_max now p)).
  { unfold choose_deadline, total. by repeat (apply wp_bind, wp_ensure; [intros _|done]). }
  eapply wp_mono; [exact Hd|intros d _|done].
  assert (Hs : pending_ok (choose_init d)) by done. revert Hs. generalize (choose_init d).
  induction Hev as [|ev events Hev _ IH]; intros s Hs; cbn [choose_loop]; [by apply runs_ret|].
  apply runs_bind. eapply runs_mono; [by apply runs_choose_step| |done].
  intros st' [s'|c] [-> H]; [by apply IH|]. apply runs_ret. split; [done|]. by intros c' [= <-].
Qed.

(** ** The inner loop *)
Definition stopped (e : error) : Prop := e = EMessage "listener stopped" [].

(** The race follows the session as far as it gets. *)
Lemma runs_race st acts result script Q X :
  runs st (acts, result) Q X ->
  runs st (race acts result script)
    (fun st' o => match o with
                  | None => True
                  | Some (Ok a) => Q st' a
                  | Some (Err e) => X st' e
                  | Some _ => False
                  end)
    (fun _ e => stopped e /\ RConnection false ∈ script).
Proof.
  revert st acts. induction script as [|[|[]] script IH]; intros st acts H; cbn [race negb].
  - by apply runs_ret.
  - destruct acts as [|act acts].
    + destruct H as (st' & [= <-] & _ & H). destruct result as [[]|e| |]; try done; by apply runs_ret.
    + destruct H as (st' & Hr & Hw & H). cbn [fst snd fsm_run] in *.
      destruct (act_state st act) as [st1|] eqn:E; [|done].
      assert (Hrest : runs st1 (acts, result) Q X).
      { exists st'. split_and!; [done| |done]. destruct act; try exact Hw. by apply Forall_cons in Hw as [_ Hw]. }
      apply runs_bind. exists st1. split_and!; [cbn; by rewrite E| |].
      * destruct act; try by apply Forall_nil. cbn in Hw |- *. apply Forall_cons in Hw as [Hw _]. by apply Forall_singleton.
      * eapply runs_mono; [by apply IH|done|]. intros st2 e [He Hin]. split; [done|by right].
  - apply runs_bind, runs_refuse. eapply runs_mono; [by apply IH|done|].
    intros st2 e [He Hin]. split; [done|by right].
  - apply runs_ret. split; [done|by left].
Qed.

(** ** Actions a computation never does *)
Definition avoids {A} (f : Act -> bool) (o : Out Act A) : Prop := List.filter f o.1 = [].

Section avoids.
Context (f : Act -> bool) (Hsend : forall packet, f (ASend packet) = false).
Context (Hstatus : forall st e, f (AStatus st e) = false).

Lemma avoids_bind {A B} (o : Out Act A) (k : A -> Out Act B) :
  avoids f o -> (forall x, avoids f (k x)) -> avoids f (out_bind o k).
Proof.
  unfold avoids. destruct o as [acts [x|e| |]]; try done. intros Ho Hk. rewrite (out_bind_ok _ x) by done.
  cbn [fst] in *. by rewrite List.filter_app, Ho, Hk.
Qed.
Lemma avoids_send written packet : avoids f (send written packet).
Proof. apply avoids_bind; [done|intros x]. unfold avoids. cbn. by rewrite Hsend. Qed.
Lemma avoids_status st e : avoids f (set_status st e).
Proof. unfold avoids. cbn. by rewrite Hstatus. Qed.
Lemma avoids_report e : avoids f (report e).
Proof. destruct e; [apply avoids_send|done]. Qed.
Lemma avoids_fail {A} e : avoids f (_ <~ report e; @out_ret Act A (Err e)).
Proof. by apply avoids_bind; [apply avoids_report|]. Qed.

Lemma avoids_session c io : avoids f (session p c io).
Proof.
  unfold session. apply avoids_bind; [apply avoids_status|intros _]. apply avoids_bind; [apply avoids_send|intros _].
  destruct (if se_confirm_timeout io then _ else _) as [[[kind body] rest]|e| |]; try done; [|apply avoids_fail].
  destruct (negb _); apply avoids_bind; try done; [intros e; apply avoids_fail|apply avoids_status|intros _]; cbv zeta.
  apply avoids_bind; [|intros _; by apply avoids_bind; [apply avoids_status|]].
  destruct (se_run io _ _ rest); try done. apply avoids_report.
Qed.

Lemma avoids_handshake dir hs : avoids f (handshake cfg p dir hs).
Proof.
  unfold handshake. apply avoids_bind; [done|intros _]. apply avoids_bind; [done|intros ll].
  assert (Hx : avoids f (_ <~ send (hs_written hs) (open cfg p); out_ret (await_open cfg p (hs_stream hs))))
    by by apply avoids_bind; [apply avoids_send|].
  destruct (_ <~ _; _) as [acts result]. unfold avoids in Hx. cbn [fst] in Hx.
  destruct (hs_timeout hs); [done|]. destruct result as [[n rest]|e| |]; try done.
  apply avoids_bind; [done|intros _; apply avoids_fail].
Qed.

Context (Hrefuse : forall packet, f (ARefuse packet) = false).
Lemma avoids_refuse : avoids f refuse.
Proof. apply avoids_bind; [done|intros x]. unfold avoids. cbn. by rewrite Hrefuse. Qed.
Lemma avoids_choose_step s ev : avoids f (choose_step cfg p s ev).
Proof.
  destruct ev as [[]|task [c|e| |] now|now]; cbn [choose_step negb]; try done.
  - destruct (Bool.eqb _ _); [|by destruct (_ && _)]. apply avoids_bind; [|done].
    destruct (pending_candidate s); [apply avoids_refuse|done].
  - by destruct (_ && _).
  - by destruct (pending_candidate s).
Qed.
Lemma avoids_choose now events : avoids f (choose now events).
Proof.
  unfold choose. apply avoids_bind; [done|]. intros d. generalize (choose_init d).
  induction events as [|ev events IH]; intros s; cbn [choose_loop]; [done|].
  apply avoids_bind; [apply avoids_choose_step|]. by intros [s'|c].
Qed.
Lemma avoids_race acts result script : List.filter f acts = [] -> avoids f (race acts result script).
Proof.
  revert acts. induction script as [|[|[]] script IH]; intros acts Ha; cbn [race negb]; try done.
  - destruct acts as [|act acts]; [by destruct result|]. cbn in Ha. destruct (f act) eqn:E; [done|].
    apply avoids_bind; [unfold avoids; cbn; by rewrite E|intros _; by apply IH].
  - apply avoids_bind; [apply avoids_refuse|intros _; by apply IH].
Qed.
End avoids.

(** A session refuses nothing itself, so the two kinds of actions can be told apart. *)
Lemma session_own c io : List.filter is_refuse (session p c io).1 = [].
Proof. by apply (avoids_session is_refuse). Qed.

(** An established session wins over new connections: every connection that
    arrives during a session is refused with exactly one Cease NOTIFICATION (code 6,
    subcode 7), while the session's own actions are carried out unchanged and in order,
    to the end if it ends, and its result is the session's. *)
Theorem race_refuses c io script :
  let own := List.filter (fun act => negb (is_refuse act)) in
  let r := race (session p c io).1 (session p c io).2 script in
  exists cease, notification 6 7 [] = Ok cease /\
    own r.1 `prefix_of` (session p c io).1 /\
    Forall (fun act => is_refuse act = true -> act = ARefuse cease) r.1 /\
    (r.2 = Ok None -> length (List.filter is_refuse r.1) = length (List.filter is_connection script)) /\
    (forall result, r.2 = Ok (Some result) -> own r.1 = (session p c io).1 /\ result = (session p c io).2).
Proof.
  destruct (notification_ok 6 7 []) as [cease Hc]. cbn zeta. exists cease. split; [done|].
  pose proof (session_own c io) as Hown. revert Hown. generalize (session p c io).1, (session p c io).2.
  intros acts result. revert acts. induction script as [|[|[]] script IH]; intros acts Hown; cbn [race negb].
  - split_and!; [apply prefix_nil|by apply Forall_nil|done|done].
  - destruct acts as [|act acts].
    { destruct result; (split_and!; [apply prefix_nil|by apply Forall_nil|done|]); cbn; by intros r [= <-]. }
    cbn in Hown. destruct (is_refuse act) eqn:Ea; [done|]. destruct (IH acts Hown) as (H1 & H2 & H3 & H4).
    rewrite (out_bind_ok _ tt) by done. cbn [fst snd app List.filter]. rewrite Ea. cbn [negb]. split_and!.
    + by apply prefix_cons.
    + apply Forall_cons. split; [by rewrite Ea|done].
    + done.
    + intros r Hr. destruct (H4 r Hr) as [-> ->]. done.
  - destruct (IH acts Hown) as (H1 & H2 & H3 & H4). unfold refuse. rewrite Hc, out_ret_bind.
    rewrite (out_bind_ok _ tt) by done. cbn [fst snd app List.filter is_refuse is_connection negb length]. split_and!.
    + done.
    + apply Forall_cons. done.
    + intros Hr. by rewrite H3.
    + done.
  - split_and!; [apply prefix_nil|by apply Forall_nil|done|done].
Qed.

(** ** The loop *)
Lemma next_failures_bound failures : 0 <= failures < 2 ^ 32 -> 1 <= next_failures failures < 2 ^ 32.
Proof. unfold next_failures. lia. Qed.
Lemma backoff_base_bound failures : 1 <= failures -> 2 <= backoff_base failures <= 30.
Proof.
  intros Hf. unfold backoff_base. rewrite Z.shiftl_1_l.
  assert (2 ^ 1 <= 2 ^ Z.min failures 5) by (apply Z.pow_le_mono_r; lia). lia.
Qed.
Lemma backoff_wait failures jitter : 1 <= failures -> 0 <= jitter < 1000 -> wait_ok (backoff_ms failures jitter).
Proof. intros Hf Hj. pose proof (backoff_base_bound failures Hf). unfold wait_ok, backoff_ms. lia. Qed.

(** The state at the top of the loop. *)
Definition idle_state (st : PeerState) : Prop := st = Idle \/ st = Active.
Definition failures_ok (failures : Z) : Prop := 0 <= failures < 2 ^ 32.

Lemma runs_report_status st r Q X :
  match r with inl _ => st = Active | inr _ => fsm_edge st Active = true end ->
  Q Active tt -> runs st (report_status r) Q X.
Proof. intros Hst HQ. destruct r; [subst; by apply runs_ret|by apply runs_status]. Qed.

Lemma runs_wait st failures a :
  st <> Idle -> failures_ok failures -> attempt_ok a ->
  runs st (peer_wait failures a)
    (fun st' o => forall failures', o = Some failures' -> st' = Active /\ failures' = next_failures failures)
    (fun _ e => stopped e /\ channel_closed a).
Proof.
  intros Hst Hf [_ _ Hj Hw]. unfold peer_wait. apply runs_bind, runs_status; [by destruct st|]. cbv zeta.
  pose proof (next_failures_bound failures Hf) as Hn.
  apply runs_bind, runs_act; [done|intros ms E; injection E as <-; apply backoff_wait; lia|]. cbn [wp].
  destruct (at_wait a) as [| | |hs se] eqn:E.
  - by apply runs_ret.
  - apply runs_ret. by intros failures' [= <-].
  - apply runs_ret. split; [done|by right].
  - destruct Hw as [Hhs Hse]. apply runs_bind, runs_try. eapply runs_mono; [by apply runs_handshake| |].
    + intros st' c [-> Hc]. apply runs_bind, runs_try.
      eapply runs_mono; [apply runs_session; auto| |].
      * intros st' [] ->. apply runs_bind, runs_report_status; [done|]. apply runs_ret. by intros failures' [= <-].
      * intros st' e Hst'. apply runs_bind, runs_report_status; [by destruct Hst' as [->| ->]|].
        apply runs_ret. by intros failures' [= <-].
    + intros st' e ->. apply runs_bind, runs_status; [done|]. apply runs_ret. by intros failures' [= <-].
Qed.

Lemma runs_iteration st failures a :
  idle_state st -> failures_ok failures -> attempt_ok a ->
  runs st (peer_iteration failures a)
    (fun st' o => forall failures', o = Some failures' -> st' = Active /\ failures_ok failures')
    (fun _ e => stopped e /\ channel_closed a).
Proof.
  intros Hst Hf Ha. unfold peer_iteration.
  assert (Hwait : forall st f, st <> Idle -> failures_ok f ->
    runs st (peer_wait f a) (fun st' o => forall failures', o = Some failures' -> st' = Active /\ failures_ok failures')
      (fun _ e => stopped e /\ channel_closed a)).
  { intros st' f Hs Hf'. eapply runs_mono; [by apply runs_wait| |done]. intros st2 o H f' Ho.
    destruct (H f' Ho) as [-> ->]. pose proof (next_failures_bound f Hf'). unfold failures_ok. split; [done|lia]. }
  apply runs_bind, runs_status; [by destruct Hst as [->| ->]|].
  apply runs_bind, runs_try. eapply runs_mono; [apply runs_choose, ao_choose, Ha| |].
  - intros st' [c|] [-> Hc]; [|by apply runs_ret]. specialize (Hc c eq_refl).
    pose proof (runs_session Connect c (at_session a) (or_introl eq_refl) Hc (ao_session a Ha)) as Hs.
    destruct (session p c (at_session a)) as [acts result]. apply runs_bind.
    eapply runs_mono; [apply runs_race, Hs| |].
    + intros st' [[[]|e| |]|] H; try done; [| |by apply runs_ret].
      * apply runs_bind, runs_ret, Hwait; [by subst|]. unfold failures_ok in *. destruct (_ <=? _); lia.
      * apply runs_bind, runs_status; [by destruct H as [->| ->]|]. apply Hwait; [done|].
        unfold failures_ok in *. destruct (_ <=? _); lia.
    + intros st' e [He Hin]. split; [done|by left].
  - intros st' e ->. apply runs_bind, runs_status; [done|]. by apply Hwait.
Qed.

(** [C17] A worker survives everything but the loss of its listener, in every
    environment: it never panics, and only a closed channel makes it return; what it
    publishes on the way follows the BGP state machine from Idle (Established only
    after OpenConfirm, every attempt ends in Active before the next Connect), and every
    retry waits between 2 and 31 seconds. *)
Theorem worker_survives attempts :
  Forall attempt_ok attempts ->
  let o := peer_loop attempts in
  match o.2 with
  | Ok _ => True
  | Err e => e = EMessage "listener stopped" [] /\ Exists channel_closed attempts
  | _ => False
  end /\
  (exists st, fsm_run Idle o.1 = Some st) /\ Forall (fun ms => 2000 <= ms < 31000) (waits o.1).
Proof.
  intros Ha. cbn zeta. unfold peer_loop.
  assert (H : runs Idle (peer_attempts 0 attempts) (fun _ _ => True)
                (fun _ e => stopped e /\ Exists channel_closed attempts)).
  { assert (Hst : idle_state Idle) by by left. assert (Hf : failures_ok 0) by done.
    revert Hst Hf. generalize Idle, 0.
    induction Ha as [|a attempts Ha _ IH]; intros st f Hst Hf; cbn [peer_attempts]; [by apply runs_ret|].
    apply runs_bind. eapply runs_mono; [by apply runs_iteration| |].
    - intros st' [f'|] H; [|by apply runs_ret]. destruct (H f' eq_refl) as [-> Hf'].
      eapply runs_mono; [apply IH; [by right|done]|done|]. intros st'' e [He Hc]. split; [done|by right].
    - intros st' e [He Hc]. split; [done|by left]. }
  destruct H as (st & H1 & Hw & H2). split_and!; [|by exists st|done].
  destruct ((peer_attempts 0 attempts).2); done.
Qed.

(** ** Pacing *)
Definition is_wait (act : Act) : bool := match act with AWait _ => true | _ => false end.

Lemma filter_bind {A B} (f : Act -> bool) (o : Out Act A) (k : A -> Out Act B) acts b :
  avoids f o -> out_bind o k = (acts, Ok b) ->
  exists a acts', o.2 = Ok a /\ k a = (acts', Ok b) /\ List.filter f acts = List.filter f acts'.
Proof.
  unfold avoids. destruct o as [acts1 [a|e| |]]; intros Ho H; try done. rewrite (out_bind_ok _ a) in H by done.
  cbn [fst snd] in *. injection H as <- Hr. exists a, (k a).1. rewrite List.filter_app, Ho, <- Hr.
  split_and!; [done|by destruct (k a)|done].
Qed.

(** The wait of an iteration, and what the environment did before. *)
Lemma wait_paced failures a acts failures' :
  peer_wait failures a = (acts, Ok (Some failures')) ->
  failures' = next_failures failures /\ List.filter is_wait acts = [AWait (backoff_ms failures' (at_jitter a))].
Proof.
  unfold peer_wait. intros H. apply (filter_bind is_wait) in H as ([] & acts1 & _ & H & ->); [|by apply avoids_status].
  cbv zeta in H.
  match type of H with out_bind _ ?k = _ => set (rest := k) in H end. rewrite (out_bind_ok _ tt) in H by done. cbn [fst snd] in H.
  assert (Hrest : avoids is_wait (rest tt) /\ forall f, (rest tt).2 = Ok (Some f) -> f = next_failures failures).
  { subst rest. cbv beta. destruct (at_wait a) as [| | |hs se]; try by (split; [done|]; intros f Hf; first [discriminate Hf|injection Hf as <-]).
    - split.
      + apply avoids_bind; [unfold avoids; cbn; by apply avoids_handshake|]. intros [c|e].
        * apply avoids_bind; [unfold avoids; cbn; by apply avoids_session|]. intros r.
          apply avoids_bind; [destruct r; [done|by apply avoids_status]|done].
        * apply avoids_bind; [by apply avoids_status|done].
      + intros f ([c|e] & _ & Hf)%out_bind_inv.
        * apply out_bind_inv in Hf as (r & _ & ([] & _ & [= <-])%out_bind_inv). done.
        * by apply out_bind_inv in Hf as ([] & _ & [= <-]). }
  injection H as <- Hr. destruct Hrest as [Hav Hf]. specialize (Hf _ Hr) as ->. split; [done|].
  cbn [List.filter is_wait app]. unfold avoids in Hav. by rewrite Hav.
Qed.

(** The candidate whose session the attempt runs. *)
Definition chosen_candidate (a : Attempt) : option Candidate :=
  match (choose (at_now a) (at_choose a)).2 with Ok o => o | _ => None end.
(** The number of failures the attempt starts its wait from. *)
Definition failures_before (failures : Z) (a : Attempt) : Z :=
  match chosen_candidate a with Some _ => if 30000 <=? at_elapsed a then 0 else failures | None => failures end.

Lemma iteration_wait failures a acts failures' :
  peer_iteration failures a = (acts, Ok (Some failures')) ->
  failures' = next_failures (failures_before failures a) /\
  List.filter is_wait acts = [AWait (backoff_ms failures' (at_jitter a))].
Proof.
  unfold peer_iteration, failures_before, chosen_candidate. intros H.
  apply (filter_bind is_wait) in H as ([] & acts1 & _ & H & ->); [|by apply avoids_status].
  apply (filter_bind is_wait) in H as (chosen & acts2 & Hc & H & ->);
    [|unfold avoids; cbn; by apply avoids_choose].
  destruct ((choose (at_now a) (at_choose a)).2) as [[c|]|e| |] eqn:Ec; cbn in Hc; rewrite Ec in Hc; try done;
    injection Hc as <-.
  - pose proof (avoids_session is_wait (fun _ => eq_refl) (fun _ _ => eq_refl) c (at_session a)) as Hs.
    destruct (session p c (at_session a)) as [sa result].
    apply (filter_bind is_wait) in H as (ended & acts3 & _ & H & ->); [|by apply avoids_race].
    destruct ended as [r|]; [|done].
    apply (filter_bind is_wait) in H as ([] & acts4 & _ & H & ->); [|by destruct r].
    by apply wait_paced in H.
  - done.
  - apply (filter_bind is_wait) in H as ([] & acts3 & _ & H & ->); [|by apply avoids_status].
    by apply wait_paced in H.
Qed.

(** Reconnection is paced: each attempt is followed by exactly one retry delay, of
    between 2 and 31 seconds, never shorter after more consecutive failures; the
    failure count stays a 32-bit integer, and a session of 30 seconds or more brings
    the delay back to the shortest. *)
Theorem backoff_paced failures a acts failures' :
  0 <= failures < 2 ^ 32 -> attempt_ok a ->
  peer_iteration failures a = (acts, Ok (Some failures')) ->
  1 <= failures' < 2 ^ 32 /\
  (exists ms, List.filter is_wait acts = [AWait ms] /\ 2000 <= ms < 31000 /\ ms = backoff_base failures' * 1000 + at_jitter a) /\
  backoff_base failures' <= backoff_base (next_failures failures') /\
  (failures' = 1 \/ failures' = next_failures failures) /\
  (forall c, chosen_candidate a = Some c -> 30000 <= at_elapsed a -> failures' = 1 /\ backoff_base failures' = 2).
Proof.
  intros Hf Ha H. apply iteration_wait in H as [-> Hw].
  assert (Hb : 0 <= failures_before failures a < 2 ^ 32)
    by (unfold failures_before; destruct (chosen_candidate a); [destruct (30000 <=? _)|]; lia).
  pose proof (next_failures_bound _ Hb) as Hn. split_and!; try lia.
  - eexists. split_and!; [exact Hw|..|done]; by apply backoff_wait; [lia|apply ao_jitter].
  - unfold backoff_base, next_failures in *. rewrite !Z.shiftl_1_l. apply Z.min_le_compat_r, Z.pow_le_mono_r; lia.
  - unfold failures_before in *. destruct (chosen_candidate a); [|by right]. destruct (30000 <=? _); [by left|by right].
  - intros c Hc He. unfold failures_before. rewrite Hc, leb_true by done. done.
Qed.

(** ** What the console shows *)
Definition show (now : Z) (acts : list Act) (status : PeerStatus) : PeerStatus :=
  fold_left (fun st act => match act with AStatus s e => Management.update now s e st | _ => st end) acts status.
(** The error an attempt ended with. *)
Definition attempt_error (a : Attempt) : option error :=
  match (choose (at_now a) (at_choose a)).2 with
  | Ok (Some c) => match (session p c (at_session a)).2 with Err e => Some e | _ => None end
  | Err e => Some e
  | _ => None
  end.

Lemma show_app now acts1 acts2 status : show now (acts1 ++ acts2) status = show now acts2 (show now acts1 status).
Proof. apply fold_left_app. Qed.

Lemma race_result acts result script r : (race acts result script).2 = Ok (Some r) -> r = result.
Proof.
  revert acts. induction script as [|[|[]] script IH]; intros acts; cbn [race negb]; try done.
  - destruct acts as [|act acts]; [destruct result; by intros [= <-]|].
    intros ([] & _ & H)%out_bind_inv. by eapply IH.
  - intros ([] & _ & H)%out_bind_inv. by eapply IH.
Qed.

(** Failures are visible: after an attempt that ended with an error, however it did
    and whatever was published meanwhile, the console shows the peer as Active with
    that error, and keeps showing the error through the updates of the backoff. *)
Theorem errors_visible failures a acts failures' e now status :
  peer_iteration failures a = (acts, Ok (Some failures')) -> at_wait a = WElapsed -> attempt_error a = Some e ->
  ps_state (show now acts status) = Active /\ ps_last_error (show now acts status) = Some e.
Proof.
  intros H Hwait He.
  assert (Hw : forall f, peer_wait f a = ([AStatus Active None; AWait (backoff_ms (next_failures f) (at_jitter a))],
                                      Ok (Some (next_failures f)))) by (intros f; unfold peer_wait; by rewrite Hwait).
  assert (Htail : forall pre ms, acts = pre ++ [AStatus Active (Some e); AStatus Active None; AWait ms] ->
            ps_state (show now acts status) = Active /\ ps_last_error (show now acts status) = Some e).
  { intros pre ms ->. by rewrite show_app. }
  unfold peer_iteration, attempt_error in *.
  apply out_bind_split in H as ([] & acts1 & acts2 & _ & H & ->).
  apply out_bind_split in H as (chosen & acts3 & acts4 & Hc & H & ->). unfold out_try in Hc.
  destruct ((choose (at_now a) (at_choose a)).2) as [[c|]|e'| |]; try done; injection Hc as _ <-.
  - destruct (session p c (at_session a)) as [sa result]. cbn [snd] in He. destruct result as [|e'| |]; try done.
    injection He as ->. apply out_bind_split in H as (ended & acts5 & acts6 & Hr & H & ->).
    destruct ended as [r|]; [|done].
    assert (r = Err e) as -> by (apply (race_result sa (Err e) (at_race a)); by rewrite Hr).
    apply out_bind_split in H as ([] & acts7 & acts8 & [= <-] & H & ->). rewrite Hw in H. injection H as <- _.
    apply (Htail (acts1 ++ acts3 ++ acts5) (backoff_ms (next_failures (if 30000 <=? at_elapsed a then 0 else failures)) (at_jitter a))). by rewrite <- !app_assoc.
  - injection He as ->. apply out_bind_split in H as ([] & acts7 & acts8 & [= <-] & H & ->).
    rewrite Hw in H. injection H as <- _.
    apply (Htail (acts1 ++ acts3) (backoff_ms (next_failures failures) (at_jitter a))). by rewrite <- !app_assoc.
Qed.
End worker.
