(* ===== verification/Socket.v ===== *)
(** * src/src/transport.rs and src/src/tcp_md5.rs: socket addresses and TCP-MD5 keys

    [SockAddr::from] (socket2) and [setsockopt] are parameters. *)
From S2P Require Import Prelude Net Config.

(** [SocketAddr]; [SocketAddr::new] leaves flow label and scope zero. *)
Inductive SocketAddr :=
| SockV4 (ip : Z) (port : Z)
| SockV6 (ip : Z) (port flowinfo scope_id : Z).
Definition socket_addr_new (ip : IpAddr) (port : Z) : SocketAddr :=
  match ip with IpV4 a => SockV4 a port | IpV6 a => SockV6 a port 0 0 end.
Definition endpoint (ip : IpAddr) (port index : Z) : SocketAddr :=
  match ip with
  | IpV6 a => if v6_is_unicast_link_local a then SockV6 a port 0 index else socket_addr_new ip port
  | IpV4 _ => socket_addr_new ip port
  end.

(** [tcp_md5sig]: a [sockaddr_storage] of 128 bytes and a key of 80. *)
Record Signature := mkSignature {
  s_address : list Z;
  s_flags : Z;
  s_prefix_len : Z;
  s_key_len : Z;
  s_if_index : Z;
  s_key : list Z
}.
Definition SOCKADDR_STORAGE : Z := 128.
Definition zeroed : Signature :=
  mkSignature (replicate 128 0) 0 0 0 0 (replicate (Z.to_nat TCP_MD5SIG_MAXKEYLEN) 0).

Section md5.
Context {api : IpNetApi}.
Context (sockaddr : SocketAddr -> list Z).

(** The structure built for a key: the address copied over the storage, the key
    over the key buffer. *)
Definition signature_for (p : Peer) (index : Z) (key : list Z) : res Signature :=
  _ ← ensure (contains_range 1 TCP_MD5SIG_MAXKEYLEN (len key)) "invalid TCP-MD5 key length";
  let address := sockaddr (endpoint (p_address p) 0 index) in
  _ ← ensure (len address <=? len (s_address zeroed)) "TCP-MD5 address too large";
  dst ← slice_to (s_key zeroed) (len key);
  _ ← assert_ (len dst =? len key);
  Ok (mkSignature (address ++ drop (length address) (s_address zeroed)) (s_flags zeroed) (s_prefix_len zeroed)
        (len key mod 2 ^ 16) (s_if_index zeroed) (key ++ drop (length key) (s_key zeroed))).
(** The key buffer after the erasing loop. *)
Definition erase (s : Signature) : Signature :=
  mkSignature (s_address s) (s_flags s) (s_prefix_len s) (s_key_len s) (s_if_index s)
    (map (fun _ => 0) (s_key s)).
(** [install]: what [setsockopt] was given, what the stack copy holds at the end,
    and the result. *)
Definition install (p : Peer) (index : Z) (setsockopt : Signature -> res unit)
  : option Signature * option Signature * res unit :=
  match p_md5_password p with
  | None => (None, None, Ok tt)
  | Some key =>
      match signature_for p index (as_bytes key) with
      | Ok signature =>
          let result := setsockopt signature in
          (Some signature, Some (erase signature), result)
      | Err e => (None, None, Err e)
      | Panic => (None, None, Panic)
      | Fuel => (None, None, Fuel)
      end
  end.

(** * Theorems *)
(** Linux socket addresses fit [sockaddr_storage]. *)
Definition sockaddr_fits : Prop := forall a, len (sockaddr a) <= SOCKADDR_STORAGE.

Lemma signature_for_ok p index key :
  sockaddr_fits -> 1 <= len key <= 80 ->
  signature_for p index key = Ok (mkSignature
    (sockaddr (endpoint (p_address p) 0 index) ++
       replicate (128 - length (sockaddr (endpoint (p_address p) 0 index))) 0)
    0 0 (len key) 0 (key ++ replicate (80 - length key) 0)).
Proof.
  intros Hfit Hlen. unfold signature_for, TCP_MD5SIG_MAXKEYLEN.
  pose proof (Hfit (endpoint (p_address p) 0 index)) as Ha. unfold SOCKADDR_STORAGE in Ha.
  set (address := sockaddr _) in *.
  replace (contains_range 1 80 (len key)) with true by (unfold contains_range; lia). cbn [ensure mbind res_bind].
  unfold zeroed. cbn [s_address s_key s_flags s_prefix_len s_if_index].
  rewrite len_replicate. change (Z.of_nat 128) with 128. rewrite (proj2 (Z.leb_le _ _) Ha). cbn [ensure mbind res_bind].
  change (Z.to_nat TCP_MD5SIG_MAXKEYLEN) with 80%nat.
  assert (Hs : slice_to (replicate 80 0) (len key) = Ok (replicate (length key) 0)).
  { rewrite <- (take_drop (length key) (replicate 80 0)), take_replicate, slice_to_app.
    - do 2 f_equal. unfold len in Hlen. lia.
    - unfold len in *. rewrite length_replicate. lia. }
  rewrite Hs. cbn [mbind res_bind]. rewrite len_replicate.
  replace (Z.of_nat (length key) =? len key) with true by (unfold len; lia). cbn [assert_ mbind res_bind].
  rewrite !drop_replicate, Z.mod_small by lia. done.
Qed.

(** The signature of a configured key, spelled out. *)
Definition md5_signature (p : Peer) (index : Z) (key : Md5Key) : Signature :=
  let address := sockaddr (endpoint (p_address p) 0 index) in
  mkSignature (address ++ replicate (128 - length address) 0) 0 0 (len (as_bytes key)) 0
    (as_bytes key ++ replicate (80 - length (as_bytes key)) 0).

Lemma map_zero {A} (l : list A) : map (fun _ => 0) l = replicate (length l) 0.
Proof. induction l as [|x l IH]; [done|]. cbn. by rewrite IH. Qed.

Lemma install_value cfg p index setsockopt :
  sockaddr_fits -> peer_ok cfg p ->
  install p index setsockopt =
    match p_md5_password p with
    | None => (None, None, Ok tt)
    | Some key =>
        let given := md5_signature p index key in
        (Some given, Some (mkSignature (s_address given) 0 0 (s_key_len given) 0 (replicate 80 0)),
         setsockopt given)
    end.
Proof.
  intros Hfit Hp. unfold install. destruct (p_md5_password p) as [key|] eqn:Hk; [|done].
  pose proof (peer_md5 cfg p Hp key Hk) as Hlen. rewrite signature_for_ok by done.
  unfold erase. cbn [s_address s_flags s_prefix_len s_key_len s_if_index s_key]. repeat f_equal.
  rewrite map_app, !map_zero, length_replicate, <- replicate_add. f_equal. unfold len in Hlen. lia.
Qed.

(** [C40] TCP-MD5 keys: for a peer of a valid configuration [install] never panics; it
    hands the kernel exactly one signature, whose address is the peer's endpoint
    with the interface as scope, whose key is the configured one, zero-padded, with
    its length; no key means no call; and whatever the kernel answers, which is
    returned, the key buffer left behind holds only zeros. *)
Theorem install_spec cfg p index setsockopt :
  sockaddr_fits -> peer_ok cfg p ->
  install p index setsockopt =
    match p_md5_password p with
    | None => (None, None, Ok tt)
    | Some key =>
        let address := sockaddr (endpoint (p_address p) 0 index) in
        let given := mkSignature (address ++ replicate (128 - length address) 0) 0 0 (len (as_bytes key)) 0
                       (as_bytes key ++ replicate (80 - length (as_bytes key)) 0) in
        (Some given, Some (mkSignature (s_address given) 0 0 (s_key_len given) 0 (replicate 80 0)),
         setsockopt given)
    end.
Proof. apply install_value. Qed.
End md5.

