(* ===== verification/Connection.v ===== *)
(** * src/src/bgp.rs: setting up BGP sockets

    [index], [configure], [connect] and the listener set-up of [run], as the sequence
    of operations on one socket. What each operation returns is the argument [os]:
    within one set-up no operation occurs twice with different outcomes. [lookup] is
    [if_nametoindex] and [sockaddr] socket2's [SockAddr::from]. *)
From S2P Require Import Prelude Net Config Socket.

(** Operations on the socket being set up; [ConnectTo] includes its deadline. *)
Inductive SockOp :=
| NewSocket (v4 : bool)
| ReuseAddress
| OnlyV6
| BindDevice (interface : string)
| SetTtl (hops : Z)
| SetUnicastHops (hops : Z)
| SetNodelay
| InstallMd5 (signature : Signature)
| Nonblocking
| BindTo (address : SocketAddr)
| Listen (backlog : Z)
| ToTokio
| ConnectTo (address : SocketAddr).

(** [if_nametoindex] is the argument [lookup]. *)
Definition index (lookup : string -> Z) (p : Peer) : res Z :=
  _ ← ensure (negb (str_contains_nul (p_interface p))) "nul byte found in provided data";
  let n := lookup (p_interface p) in
  _ ← ensure (negb (n =? 0)) "interface {} does not exist";
  Ok n.

Section connection.
Context {api : IpNetApi} (lookup : string -> Z) (sockaddr : SocketAddr -> list Z).

Section operations.
Context (os : SockOp -> res unit).
Definition perform (op : SockOp) : Out SockOp unit := ([op], os op).

Definition configure (p : Peer) : Out SockOp unit :=
  _ <~ perform (BindDevice (p_interface p));
  _ <~ perform (if is_ipv4 (p_address p) then SetTtl 1 else SetUnicastHops 1);
  perform SetNodelay.
(** [tcp_md5::install] on this socket. *)
Definition install_key (p : Peer) (idx : Z) : Out SockOp unit :=
  let '(given, _, result) := install sockaddr p idx (fun signature => os (InstallMd5 signature)) in
  (match given with Some signature => [InstallMd5 signature] | None => [] end, result).
Definition connect (p : Peer) : Out SockOp unit :=
  idx <~ out_ret (index lookup p);
  _ <~ perform (NewSocket (is_ipv4 (p_address p)));
  _ <~ configure p;
  _ <~ perform (BindTo (endpoint (p_local_address p) 0 idx));
  _ <~ install_key p idx;
  perform (ConnectTo (endpoint (p_address p) (p_port p) idx)).

(** The body of the loop over [listeners], up to the spawn: [p] lends the socket its
    options, [served] are the peers whose keys it installs. *)
Fixpoint install_keys (served : list Peer) (idx : Z) : Out SockOp unit :=
  match served with
  | [] => out_ret (Ok tt)
  | peer :: served => _ <~ install_key peer idx; install_keys served idx
  end.
Definition open_listener (cfg : Config) (local : IpAddr) (p : Peer) (served : list Peer) : Out SockOp unit :=
  idx <~ out_ret (index lookup p);
  _ <~ perform (NewSocket (is_ipv4 local));
  _ <~ perform ReuseAddress;
  _ <~ (if negb (is_ipv4 local) then perform OnlyV6 else out_ret (Ok tt));
  _ <~ configure p;
  _ <~ install_keys served idx;
  _ <~ perform Nonblocking;
  _ <~ perform (BindTo (endpoint local (c_listen_port cfg) idx));
  _ <~ perform (Listen 64);
  perform ToTokio.
End operations.

(** ** Specification: the plan of a set-up, run up to the first failure *)
Fixpoint run_plan (os : SockOp -> res unit) (plan : list SockOp) : Out SockOp unit :=
  match plan with
  | [] => out_ret (Ok tt)
  | op :: plan => _ <~ perform os op; run_plan os plan
  end.
Definition options_plan (p : Peer) : list SockOp :=
  [BindDevice (p_interface p); if is_ipv4 (p_address p) then SetTtl 1 else SetUnicastHops 1; SetNodelay].
Definition key_plan (idx : Z) (p : Peer) : list SockOp :=
  match p_md5_password p with Some key => [InstallMd5 (md5_signature sockaddr p idx key)] | None => [] end.
Definition connect_plan (p : Peer) (idx : Z) : list SockOp :=
  [NewSocket (is_ipv4 (p_address p))] ++ options_plan p ++ [BindTo (endpoint (p_local_address p) 0 idx)] ++
  key_plan idx p ++ [ConnectTo (endpoint (p_address p) (p_port p) idx)].
Definition listener_plan (cfg : Config) (local : IpAddr) (p : Peer) (served : list Peer) (idx : Z) : list SockOp :=
  [NewSocket (is_ipv4 local); ReuseAddress] ++ (if is_ipv4 local then [] else [OnlyV6]) ++ options_plan p ++
  concat (map (key_plan idx) served) ++
  [Nonblocking; BindTo (endpoint local (c_listen_port cfg) idx); Listen 64; ToTokio].
(** A socket is protected for a peer: it is bound to the interface, its packets do
    not leave the link, and the peer's key, if any, is installed. *)
Definition protected (idx : Z) (p : Peer) (ops : list SockOp) : Prop :=
  BindDevice (p_interface p) ∈ ops /\
  (if is_ipv4 (p_address p) then SetTtl 1 else SetUnicastHops 1) ∈ ops /\
  forall key, p_md5_password p = Some key -> InstallMd5 (md5_signature sockaddr p idx key) ∈ ops.

(** * Theorems *)
Section plans.
Context (os : SockOp -> res unit).

Lemma run_plan_app plan1 plan2 :
  run_plan os (plan1 ++ plan2) = out_bind (run_plan os plan1) (fun _ => run_plan os plan2).
Proof.
  induction plan1 as [|op plan1 IH]; cbn [app run_plan]; [by rewrite out_ret_bind|]. by rewrite IH, out_bind_assoc.
Qed.
Lemma run_plan_one op : run_plan os [op] = perform os op.
Proof. cbn [run_plan]. apply out_bind_unit. Qed.

(** The operations carried out are a prefix of the plan: all of it on success, up to
    the operation that failed otherwise. *)
Lemma run_plan_prefix plan :
  (forall op, op ∈ plan -> total (os op)) ->
  exists rest, plan = (run_plan os plan).1 ++ rest /\
    match (run_plan os plan).2 with
    | Ok _ => rest = []
    | Err e => exists op, last (run_plan os plan).1 = Some op /\ os op = Err e
    | _ => False
    end.
Proof.
  induction plan as [|op plan IH]; intros Ht; [by exists []|]. cbn [run_plan]. unfold perform, out_bind. cbn [fst snd].
  assert (Hop : total (os op)) by (apply Ht; by left).
  apply total_cases in Hop as [[[] E]|[e E]]; rewrite E.
  - destruct IH as (rest & Hp & Hr); [intros; apply Ht; by right|]. exists rest.
    destruct (run_plan os plan) as [acts r]. cbn [fst snd] in *. split; [by rewrite Hp at 1|].
    destruct r as [[]|e| |]; try done. destruct Hr as (op' & Hl & He). exists op'. split; [|done].
    destruct acts; [done|]. exact Hl.
  - exists plan. split; [done|]. by exists op.
Qed.

Lemma configure_plan p : configure os p = run_plan os (options_plan p).
Proof. unfold configure, options_plan. cbn [run_plan]. do 2 (apply out_bind_ext; intros _). by rewrite out_bind_unit. Qed.

Lemma install_key_plan cfg p idx :
  sockaddr_fits sockaddr -> peer_ok cfg p -> install_key os p idx = run_plan os (key_plan idx p).
Proof.
  intros Hfit Hp. unfold install_key, key_plan. rewrite (install_value sockaddr cfg p idx) by done.
  destruct (p_md5_password p) as [key|]; [|done]. by rewrite run_plan_one.
Qed.

Lemma install_keys_plan cfg served idx :
  sockaddr_fits sockaddr -> Forall (peer_ok cfg) served ->
  install_keys os served idx = run_plan os (concat (map (key_plan idx) served)).
Proof.
  intros Hfit. induction 1 as [|p served Hp _ IH]; [done|]. cbn [map concat install_keys].
  by rewrite run_plan_app, (install_key_plan cfg) , IH by done.
Qed.

Lemma connect_run_plan cfg p idx :
  sockaddr_fits sockaddr -> peer_ok cfg p -> index lookup p = Ok idx ->
  connect os p = run_plan os (connect_plan p idx).
Proof.
  intros Hfit Hp Hi. unfold connect, connect_plan. rewrite Hi, out_ret_bind, !run_plan_app, !run_plan_one.
  rewrite configure_plan. by rewrite (install_key_plan cfg) by done.
Qed.

Lemma listener_run_plan cfg local p served idx :
  sockaddr_fits sockaddr -> Forall (peer_ok cfg) served -> index lookup p = Ok idx ->
  open_listener os cfg local p served = run_plan os (listener_plan cfg local p served idx).
Proof.
  intros Hfit Hp Hi. unfold open_listener, listener_plan. rewrite Hi, out_ret_bind, !run_plan_app.
  rewrite configure_plan, (install_keys_plan cfg) by done. cbn [run_plan]. rewrite !out_bind_unit, out_bind_assoc.
  do 2 (apply out_bind_ext; intros _). destruct (is_ipv4 local); cbn [negb run_plan]; rewrite ?out_bind_unit; done.
Qed.
End plans.

(** ** What is done before a socket is opened to the network *)
Definition opens (op : SockOp) : bool := match op with Listen _ | ConnectTo _ => true | _ => false end.

Lemma options_closed p : Forall (fun op => opens op = false) (options_plan p).
Proof. unfold options_plan. destruct (is_ipv4 _); by repeat (apply Forall_cons; split; [done|]). Qed.
Lemma keys_closed idx served : Forall (fun op => opens op = false) (concat (map (key_plan idx) served)).
Proof.
  induction served as [|p served IH]; [by apply Forall_nil|]. cbn [map concat]. apply Forall_app. split; [|done].
  unfold key_plan. destruct (p_md5_password p); [by apply Forall_singleton|by apply Forall_nil].
Qed.

(** An execution that reached an opening operation did all that precedes it. *)
Lemma opened_after (os : SockOp -> res unit) setup opening before op after :
  Forall (fun op => opens op = false) setup -> opens op = true ->
  (forall op, total (os op)) ->
  (run_plan os (setup ++ opening)).1 = before ++ op :: after ->
  exists mid, before = setup ++ mid /\ (mid ++ op :: after) `prefix_of` opening.
Proof.
  intros Hs Ho Ht H. destruct (run_plan_prefix os (setup ++ opening)) as (rest & Hp & _); [auto|].
  rewrite H, <- app_assoc in Hp. destruct (app_eq_inv _ _ _ _ Hp) as [(k & E1 & E2)|(k & E1 & E2)].
  - destruct k as [|y k].
    + rewrite app_nil_r in E1. exists []. rewrite app_nil_r. split; [done|]. by exists rest.
    + exfalso. injection E2 as <- _. rewrite E1 in Hs. apply Forall_app in Hs as [_ Hs].
      apply Forall_cons in Hs as [Hs _]. congruence.
  - exists k. split; [done|]. exists rest. by rewrite E2, <- app_assoc.
Qed.

Lemma protected_of p idx ops :
  options_plan p ⊆ ops -> key_plan idx p ⊆ ops -> protected idx p ops.
Proof.
  intros H H'. split_and!.
  - apply H. by left.
  - apply H. right. by left.
  - intros key Hk. apply H'. unfold key_plan. rewrite Hk. by left.
Qed.
Lemma run_plan_total (os : SockOp -> res unit) plan : (forall op, total (os op)) -> total (run_plan os plan).2.
Proof.
  intros Ht. destruct (run_plan_prefix os plan) as (rest & _ & Hr); [auto|].
  destruct (run_plan os plan) as [acts r]. cbn [snd] in *. by destruct r.
Qed.

Lemma run_plan_before (os : SockOp -> res unit) plan before op after :
  (run_plan os plan).1 = before ++ op :: after -> Forall (fun op => os op = Ok tt) before.
Proof.
  revert before. induction plan as [|o plan IH]; intros before H; [by destruct before|].
  cbn [run_plan] in H. unfold perform, out_bind in H. cbn [fst snd] in H.
  destruct (os o) as [[]|e| |] eqn:E.
  2-4: destruct before as [|x [|y before]]; [by apply Forall_nil|done|done].
  destruct before as [|x before]; [by apply Forall_nil|].
  destruct (run_plan os plan) as [acts r]. cbn [fst app] in H. injection H as <- H.
  apply Forall_cons. split; [done|by apply IH].
Qed.

Lemma index_total p : total (index lookup p).
Proof. unfold index, total. by repeat (apply wp_bind, wp_ensure; [intros _|done]). Qed.

Lemma protected_mono idx p ops ops' : ops ⊆ ops' -> protected idx p ops -> protected idx p ops'.
Proof. intros H (H1 & H2 & H3). split_and!; auto. Qed.

Hypothesis Hfit : sockaddr_fits sockaddr.

(** [C22] No connection leaves unprotected: whatever the kernel answers, setting up an
    outgoing connection never panics, and if it gets as far as connecting, then it
    connects once, to the peer's endpoint and port, from a socket that was bound to the
    peering interface and the local address, limited to one hop and given the peer's
    TCP-MD5 key, in the scope of an interface that exists. *)
Theorem connect_protected (os : SockOp -> res unit) cfg p :
  peer_ok cfg p -> (forall op, total (os op)) ->
  total (connect os p).2 /\
  forall before a after, (connect os p).1 = before ++ ConnectTo a :: after ->
    exists idx, index lookup p = Ok idx /\ after = [] /\ a = endpoint (p_address p) (p_port p) idx /\
      protected idx p before /\ BindTo (endpoint (p_local_address p) 0 idx) ∈ before /\
      Forall (fun op => os op = Ok tt) before.
Proof.
  intros Hp Ht. pose proof (index_total p) as Hti.
  destruct (index lookup p) as [idx|e| |] eqn:Hi; try done.
  2: { unfold connect. rewrite Hi. split; [done|]. intros before a after H. by destruct before. }
  rewrite (connect_run_plan os cfg p idx) by done. split; [by apply run_plan_total|].
  intros before a after H. exists idx. split; [done|]. pose proof (run_plan_before _ _ _ _ _ H) as Hok.
  unfold connect_plan in H. rewrite !app_assoc in H. apply opened_after in H as (mid & -> & Hpre); [|..|done|done].
  - destruct Hpre as [rest Hpre]. destruct mid as [|x [|y mid]]; [|done|done]. injection Hpre as <- Hpre.
    destruct after; [|done]. rewrite app_nil_r. split_and!; [done|done| | |by rewrite app_nil_r in Hok].
    + apply protected_of; intros op Hop; rewrite !elem_of_app; auto.
    + rewrite !elem_of_app. left. right. by left.
  - rewrite !Forall_app. split_and!; try by apply Forall_singleton.
    + apply options_closed.
    + pose proof (keys_closed idx [p]) as Hk. cbn in Hk. by rewrite app_nil_r in Hk.
Qed.

(** A listener accepts nothing unprotected: when the set-up of a listener reaches
    [listen], its socket was bound to the interface and to the listening address, and
    is protected for every peer it serves, not only for the first: each of their
    TCP-MD5 keys is installed before the first SYN can be accepted. *)
Lemma listener_protected (os : SockOp -> res unit) cfg local p served :
  Forall (peer_ok cfg) served -> p ∈ served ->
  Forall (fun q => p_interface q = p_interface p /\ is_ipv4 (p_address q) = is_ipv4 (p_address p)) served ->
  (forall op, total (os op)) ->
  total (open_listener os cfg local p served).2 /\
  forall before backlog after, (open_listener os cfg local p served).1 = before ++ Listen backlog :: after ->
    exists idx, index lookup p = Ok idx /\
      Forall (fun q => protected idx q before) served /\
      BindTo (endpoint local (c_listen_port cfg) idx) ∈ before /\
      (is_ipv4 local = false -> OnlyV6 ∈ before) /\
      Forall (fun op => os op = Ok tt) before.
Proof.
  intros Hs Hp Hsame Ht. pose proof (index_total p) as Hti.
  destruct (index lookup p) as [idx|e| |] eqn:Hi; try done.
  2: { unfold open_listener. rewrite Hi. split; [done|]. intros before a after H. by destruct before. }
  rewrite (listener_run_plan os cfg local p served idx) by done. split; [by apply run_plan_total|].
  intros before b after H. exists idx. split; [done|]. pose proof (run_plan_before _ _ _ _ _ H) as Hok.
  unfold listener_plan in H.
  change [Nonblocking; BindTo (endpoint local (c_listen_port cfg) idx); Listen 64; ToTokio]
    with ([Nonblocking; BindTo (endpoint local (c_listen_port cfg) idx)] ++ [Listen 64; ToTokio]) in H.
  rewrite !app_assoc in H. apply opened_after in H as (mid & -> & _); [|..|done|done].
  - split_and!.
    + apply Forall_forall. intros q Hq. destruct (proj1 (Forall_forall _ _) Hsame q Hq) as [Ei Ea].
      assert (Eo : options_plan q = options_plan p) by (unfold options_plan; by rewrite Ei, Ea).
      apply protected_of; intros op Hop; rewrite !elem_of_app; [rewrite Eo in Hop; auto 6|].
      do 2 left. right. apply list_elem_of_In, in_concat. exists (key_plan idx q).
      split; [apply in_map|]; by apply list_elem_of_In.
    + rewrite !elem_of_app. left. right. right. by left.
    + intros E. rewrite !elem_of_app, E. do 4 left. right. by left.
    + done.
  - rewrite !Forall_app. split_and!; try by repeat (apply Forall_cons; split; [done|]).
    + destruct (is_ipv4 local); [by apply Forall_nil|by apply Forall_singleton].
    + apply options_closed.
    + apply keys_closed.
Qed.

(** A set-up that succeeds has reached [listen]. *)
Lemma listener_listens (os : SockOp -> res unit) cfg local p served :
  Forall (peer_ok cfg) served -> (forall op, total (os op)) ->
  (open_listener os cfg local p served).2 = Ok tt -> Listen 64 ∈ (open_listener os cfg local p served).1.
Proof.
  intros Hs Ht. pose proof (index_total p) as Hti.
  destruct (index lookup p) as [idx|e| |] eqn:Hi; try done.
  2: { unfold open_listener. by rewrite Hi. }
  rewrite (listener_run_plan os cfg local p served idx) by done. intros Hr.
  destruct (run_plan_prefix os (listener_plan cfg local p served idx)) as (rest & Hp & Hrest); [auto|].
  rewrite Hr in Hrest. subst rest. rewrite app_nil_r in Hp. rewrite <- Hp. unfold listener_plan.
  rewrite !elem_of_app. do 4 right. do 2 right. by left.
Qed.
End connection.
