(* ===== verification/Dispatch.v ===== *)
(** * src/src/bgp.rs [run]: listeners, accept loops and the queues of the workers

    One listener serves all the peers with its local address and interface; its accept
    loop hands each connection to the queue of the peer it comes from. Workers and
    channels are named by the peer's position in the configuration. *)
From S2P Require Import Prelude Net Config Socket Connection.

Section dispatch.
Context {api : IpNetApi}.

(** ** The tables *)
Definition Listeners : Type := gmap (IpAddr * string) (gmap IpAddr nat).
Definition add_listener (ls : Listeners) (ip : nat * Peer) : Listeners :=
  let '(i, p) := ip in
  let key := (p_local_address p, p_interface p) in
  <[key := <[p_address p := i]> (default ∅ (ls !! key))]> ls.
Definition listeners (cfg : Config) : Listeners :=
  fold_left add_listener (zip (seq 0 (length (c_peers cfg))) (c_peers cfg)) ∅.
(** The listener's accept loop: which worker gets a connection from [remote]. *)
Definition dispatch (ls : Listeners) (key : IpAddr * string) (remote : IpAddr) : option nat :=
  peers ← ls !! key; peers !! remote.
Definition serves (key : IpAddr * string) (p : Peer) : bool :=
  bool_decide (p_local_address p = key.1) && bool_decide (p_interface p = key.2).
(** The peer a listener takes its socket options from, and those whose keys it installs. *)
Definition listener_peer (cfg : Config) (key : IpAddr * string) : res Peer :=
  unwrap (List.find (serves key) (c_peers cfg)).
Definition listener_keys (cfg : Config) (key : IpAddr * string) : list Peer :=
  List.filter (serves key) (c_peers cfg).

(** ** Setting up *)
Definition ListenerKey : Type := IpAddr * string.
(** The loop over the map [listeners], whose order is [keys]; [os] is what each
    operation on each listener's socket returns. The first failure ends [run]. *)
Definition tag (key : ListenerKey) (o : Out SockOp unit) : Out (ListenerKey * SockOp) unit :=
  (map (pair key) o.1, o.2).
Fixpoint open_listeners (lookup : string -> Z) (sockaddr : SocketAddr -> list Z)
    (os : ListenerKey -> SockOp -> res unit) (cfg : Config) (keys : list ListenerKey)
  : Out (ListenerKey * SockOp) unit :=
  match keys with
  | [] => out_ret (Ok tt)
  | key :: keys =>
      p <~ out_ret (listener_peer cfg key);
      _ <~ tag key (open_listener lookup sockaddr (os key) cfg key.1 p (listener_keys cfg key));
      open_listeners lookup sockaddr os cfg keys
  end.
(** [run]: the tasks are one worker per peer and one accept loop per listener; [first]
    is the result of the first of them to end. *)
Definition run (lookup : string -> Z) (sockaddr : SocketAddr -> list Z) (os : ListenerKey -> SockOp -> res unit)
    (cfg : Config) (keys : list ListenerKey) (first : res unit) : Out (ListenerKey * SockOp) unit :=
  _ <~ open_listeners lookup sockaddr os cfg keys;
  out_ret (if (length (c_peers cfg) + length keys =? 0)%nat then bail "no BGP tasks" else first).

(** ** The accept loops and the queues *)
(** An accepted connection: the listener and the remote address. *)
Record Conn := mkConn { cn_listener : ListenerKey; cn_remote : IpAddr }.
(** [mpsc::channel(2)], [try_send]: a full queue closes the new connection. *)
Definition QUEUE : nat := 2.
Definition try_send (c : Conn) (queue : list Conn) : list Conn :=
  if (length queue <? QUEUE)%nat then queue ++ [c] else queue.
Definition accept (ls : Listeners) (c : Conn) (queues : list (list Conn)) : list (list Conn) :=
  match dispatch ls (cn_listener c) (cn_remote c) with
  | Some i => alter (try_send c) i queues
  | None => queues
  end.
(** Accept loops and workers interleave: [incoming.recv] takes the oldest. *)
Inductive queue_step (cfg : Config) : list (list Conn) -> list (list Conn) -> Prop :=
| queue_accept c queues : queue_step cfg queues (accept (listeners cfg) c queues)
| queue_recv i c queue queues :
    queues !! i = Some (c :: queue) -> queue_step cfg queues (<[i := queue]> queues).
Inductive queue_reach (cfg : Config) : list (list Conn) -> Prop :=
| queue_start : queue_reach cfg (map (fun _ => []) (c_peers cfg))
| queue_next queues queues' : queue_reach cfg queues -> queue_step cfg queues queues' -> queue_reach cfg queues'.

(** A connection belongs to a peer: its listener and its remote address. *)
(** The operations of [acts] on one listener's socket. *)
Definition ops_of (key : ListenerKey) (acts : list (ListenerKey * SockOp)) : list SockOp :=
  omap (fun '(k, op) => if bool_decide (k = key) then Some op else None) acts.
Definition listener_key (p : Peer) : IpAddr * string := (p_local_address p, p_interface p).
Definition conn_of (p : Peer) (c : Conn) : Prop := cn_listener c = listener_key p /\ cn_remote c = p_address p.
End dispatch.

(** * Theorems *)
Section run_theorems.
Context {api : IpNetApi} {laws : IpNetLaws}.
Implicit Types (p : Peer).

Lemma dispatch_add ls i p key remote :
  dispatch (add_listener ls (i, p)) key remote =
    if bool_decide (key = listener_key p /\ remote = p_address p) then Some i else dispatch ls key remote.
Proof.
  unfold dispatch, add_listener, Listeners in *. fold (listener_key p). destruct (decide (key = listener_key p)) as [->|Hk].
  - rewrite lookup_insert_eq. cbn [mbind option_bind]. destruct (decide (remote = p_address p)) as [->|Hr].
    + by rewrite lookup_insert_eq, bool_decide_eq_true_2 by done.
    + rewrite lookup_insert_ne, bool_decide_eq_false_2 by naive_solver.
      by destruct (ls !! listener_key p) as [m|]; [|apply lookup_empty].
  - rewrite lookup_insert_ne by done. by rewrite bool_decide_eq_false_2 by naive_solver.
Qed.

(** The last peer with a matching endpoint wins; endpoints of a validated
    configuration are distinct. *)
Lemma dispatch_fold ps k ls key remote :
  NoDup (map endpoint_key ps) ->
  dispatch (fold_left add_listener (zip (seq k (length ps)) ps) ls) key remote =
    match list_find (fun p => listener_key p = key /\ p_address p = remote) ps with
    | Some (i, _) => Some (k + i)%nat
    | None => dispatch ls key remote
    end.
Proof.
  revert k ls. induction ps as [|p ps IH]; intros k ls Hnd; [done|].
  cbn [map] in Hnd. apply NoDup_cons in Hnd as [Hnin Hnd].
  cbn [length seq zip zip_with fold_left]. rewrite IH by done. cbn [list_find].
  rewrite dispatch_add.
  destruct (decide (listener_key p = key /\ p_address p = remote)) as [[<- <-]|Hne].
  - rewrite bool_decide_eq_true_2 by done.
    destruct (list_find _ ps) as [[i q]|] eqn:Ef; [|simpl; f_equal; lia].
    apply list_find_Some in Ef as (Hq & [Hk Ha] & _). exfalso. apply Hnin.
    apply list_elem_of_lookup_2 in Hq. replace (endpoint_key p) with (endpoint_key q)
      by (unfold endpoint_key, listener_key in *; congruence).
    by apply list_elem_of_fmap_2.
  - rewrite bool_decide_eq_false_2 by (intros [-> ->]; by apply Hne).
    destruct (list_find _ ps) as [[i q]|]; [simpl; f_equal; lia|done].
Qed.

Lemma dispatch_iff (cfg : Config) key remote i :
  config_ok cfg ->
  (dispatch (listeners cfg) key remote = Some i <->
   exists p, c_peers cfg !! i = Some p /\ (p_local_address p, p_interface p) = key /\ p_address p = remote).
Proof.
  intros Hok. pose proof (ok_endpoints _ Hok) as Hnd. unfold listeners. rewrite dispatch_fold by done.
  destruct (list_find _ (c_peers cfg)) as [[j q]|] eqn:Ef.
  - apply list_find_Some in Ef as (Hq & [Hk Ha] & _). simpl. split.
    + intros [= <-]. by exists q.
    + intros (p & Hp & Hk' & Ha'). f_equal.
      apply (NoDup_lookup (map endpoint_key (c_peers cfg)) j i (endpoint_key q)); [done| |].
      * by rewrite list_lookup_fmap, Hq.
      * rewrite list_lookup_fmap, Hp. simpl. unfold endpoint_key, listener_key in *. congruence.
  - split.
    + done.
    + intros (p & Hp & Hk & Ha). exfalso. eapply list_find_None, Forall_lookup_1 in Ef; [|done]. by apply Ef.
Qed.

(** Connections reach exactly the configured peer: for a validated
    configuration, a connection accepted on a listener from an address is handed to
    a worker if and only if that worker's peer has this local address, interface
    and remote address; every configured peer is reachable. *)
Theorem dispatch_spec (cfg : Config) key remote i :
  config_ok cfg ->
  (dispatch (listeners cfg) key remote = Some i <->
   exists p, c_peers cfg !! i = Some p /\ (p_local_address p, p_interface p) = key /\ p_address p = remote).
Proof. apply dispatch_iff. Qed.

(** A listener created for some peer finds a peer to take its socket options from, and
    serves exactly the peers with its local address and interface. *)
Lemma listener_of (cfg : Config) key peers :
  config_ok cfg -> listeners cfg !! key = Some peers ->
  (exists p, listener_peer cfg key = Ok p /\ p ∈ listener_keys cfg key) /\
  forall p, p ∈ listener_keys cfg key <-> p ∈ c_peers cfg /\ (p_local_address p, p_interface p) = key.
Proof.
  intros Hok Hls.
  assert (Hkeys : forall p, p ∈ listener_keys cfg key <->
            p ∈ c_peers cfg /\ (p_local_address p, p_interface p) = key).
  { intros p. unfold listener_keys. rewrite !list_elem_of_In, filter_In. unfold serves.
    rewrite andb_true_iff, !bool_decide_eq_true. destruct key; naive_solver. }
  split; [|done].
  assert (Hsome : exists p, p ∈ c_peers cfg /\ (p_local_address p, p_interface p) = key).
  { clear Hkeys. unfold listeners in Hls.
    assert (Hgen : forall ps k ls, fold_left add_listener (zip (seq k (length ps)) ps) ls !! key = Some peers ->
              (exists p, p ∈ ps /\ (p_local_address p, p_interface p) = key) \/ is_Some (ls !! key)).
    { induction ps as [|p ps IH]; intros k ls H; [right; by eexists|].
      cbn [length seq zip zip_with fold_left] in H. destruct (IH _ _ H) as [(q & Hq & E)|[m Hm]].
      - left. exists q. split; [by right|done].
      - unfold add_listener, Listeners in *. destruct (decide ((p_local_address p, p_interface p) = key)).
        + left. exists p. split; [by left|done].
        + right. rewrite lookup_insert_ne in Hm by done. by eexists. }
    by destruct (Hgen _ _ _ Hls) as [|[m Hm]]. }
  destruct Hsome as (p & Hp & Hk). unfold listener_peer.
  destruct (List.find (serves key) (c_peers cfg)) as [q|] eqn:Ef.
  - apply find_some in Ef as [Hq Hs]. exists q. split; [done|].
    unfold listener_keys. by apply list_elem_of_In, filter_In.
  - apply find_none with (x := p) in Ef; [|by apply list_elem_of_In].
    unfold serves in Ef. rewrite <- Hk, !bool_decide_eq_true_2 in Ef by done. done.
Qed.

(** ** Setting up *)
Lemma ops_of_app key l1 l2 : ops_of key (l1 ++ l2) = ops_of key l1 ++ ops_of key l2.
Proof. apply omap_app. Qed.
Lemma ops_of_tag key ops : ops_of key (map (pair key) ops) = ops.
Proof. induction ops as [|op ops IH]; [done|]. unfold ops_of in *. cbn. rewrite bool_decide_eq_true_2 by done. cbn. by rewrite IH. Qed.

(** What [listener_of] says, in the form the set-up needs. *)
Lemma served_same (cfg : Config) key peers :
  config_ok cfg -> listeners cfg !! key = Some peers ->
  exists p, listener_peer cfg key = Ok p /\ p ∈ listener_keys cfg key /\
    Forall (peer_ok cfg) (listener_keys cfg key) /\
    Forall (fun q => p_interface q = p_interface p /\ is_ipv4 (p_address q) = is_ipv4 (p_address p)) (listener_keys cfg key).
Proof.
  intros Hok Hls. destruct (listener_of cfg key peers Hok Hls) as [(p & Hp & Hin) Hkeys].
  exists p. split_and!; [done|done|..]; apply Forall_forall; intros q [Hq Ek]%Hkeys.
  - exact (proj1 (Forall_forall _ _) (ok_peers _ Hok) q Hq).
  - apply Hkeys in Hin as [Hpin Ep].
    pose proof (peer_family _ _ (proj1 (Forall_forall _ _) (ok_peers _ Hok) q Hq)) as F.
    pose proof (peer_family _ _ (proj1 (Forall_forall _ _) (ok_peers _ Hok) p Hpin)) as F'.
    rewrite F, F'. unfold listener_key in *. split; congruence.
Qed.

Section setup.
Context (lookup : string -> Z) (sockaddr : SocketAddr -> list Z) (os : ListenerKey -> SockOp -> res unit).
Context (cfg : Config).
Hypotheses (Hfit : sockaddr_fits sockaddr) (Hok : config_ok cfg) (Hos : forall key op, total (os key op)).

(** What holds when a listener starts to listen, after the operations [before]. *)
Definition listener_ready (key : ListenerKey) (before : list (ListenerKey * SockOp)) : Prop :=
  forall p, p ∈ c_peers cfg -> (p_local_address p, p_interface p) = key ->
    exists idx, index lookup p = Ok idx /\ protected sockaddr idx p (ops_of key before) /\
      BindTo (endpoint key.1 (c_listen_port cfg) idx) ∈ ops_of key before.

Lemma listener_ready_mono key before1 before2 :
  listener_ready key before2 -> listener_ready key (before1 ++ before2).
Proof.
  intros H p Hp Ek. destruct (H p Hp Ek) as (idx & Hi & Hpr & Hb). exists idx. rewrite ops_of_app. split_and!; [done| |].
  - eapply protected_mono; [|exact Hpr]. intros op. rewrite elem_of_app. auto.
  - apply elem_of_app. by right.
Qed.

Lemma one_listener key peers p :
  listeners cfg !! key = Some peers -> listener_peer cfg key = Ok p ->
  let o := tag key (open_listener lookup sockaddr (os key) cfg key.1 p (listener_keys cfg key)) in
  total o.2 /\ (o.2 = Ok tt -> (key, Listen 64) ∈ o.1) /\
  forall before key' b after, o.1 = before ++ (key', Listen b) :: after -> listener_ready key' before.
Proof.
  intros Hls Hp. cbn zeta. destruct (served_same cfg key peers Hok Hls) as (p' & Hp' & Hin & Hs & Hsame).
  rewrite Hp in Hp'. injection Hp' as <-.
  destruct (listener_protected lookup sockaddr Hfit (os key) cfg key.1 p _ Hs Hin Hsame (Hos key)) as [Ht Hbefore].
  unfold tag. cbn [fst snd]. split_and!; [done| |].
  - intros Hr. apply list_elem_of_fmap_2, listener_listens; auto.
  - intros before key' b after H. apply map_eq_app in H as (ops1 & ops2 & Ho & <- & H2).
    apply map_eq_cons in H2 as (op & ops2' & -> & [= <- ->] & _).
    destruct (Hbefore _ _ _ Ho) as (idx & Hi & Hpr & Hb & _). intros q Hq Ek. exists idx. rewrite ops_of_tag.
    destruct (listener_of cfg key peers Hok Hls) as [_ Hkeys].
    assert (Hqs : q ∈ listener_keys cfg key) by by apply Hkeys.
    destruct (proj1 (Forall_forall _ _) Hsame q Hqs) as [Ei _]. split_and!; [|by apply (proj1 (Forall_forall _ _) Hpr)|done].
    revert Hi. unfold index. by rewrite Ei.
Qed.

Lemma split_append {A} (l1 l2 before : list A) x after :
  l1 ++ l2 = before ++ x :: after ->
  (exists after', l1 = before ++ x :: after') \/ exists before', before = l1 ++ before' /\ l2 = before' ++ x :: after.
Proof.
  intros H. destruct (app_eq_inv _ _ _ _ H) as [(k & -> & E)|(k & -> & E)]; [|right; by exists k].
  destruct k as [|y k]; [right; exists []; by rewrite !app_nil_r|]. injection E as <- _. left. by exists k.
Qed.

(** [C19] Every configured key is installed before the first SYN can be accepted: for a
    validated configuration, in whatever order the listeners are set up and whatever
    the kernel answers, the set-up never panics; each time a listener starts to listen,
    its socket is bound to its address and protected for every peer of that listener;
    and if the set-up succeeds, every configured peer has its listener. *)
Theorem listeners_protected keys :
  keys ≡ₚ elements (dom (listeners cfg)) ->
  let o := open_listeners lookup sockaddr os cfg keys in
  total o.2 /\
  (forall before key b after, o.1 = before ++ (key, Listen b) :: after -> listener_ready key before) /\
  (o.2 = Ok tt -> forall p, p ∈ c_peers cfg -> ((p_local_address p, p_interface p), Listen 64) ∈ o.1).
Proof.
  intros Hkeys. cbn zeta.
  assert (Hdom : forall key, key ∈ keys -> is_Some (listeners cfg !! key)).
  { intros key Hk. apply elem_of_dom, elem_of_elements. by rewrite <- Hkeys. }
  assert (Hgen : let o := open_listeners lookup sockaddr os cfg keys in total o.2 /\
    (forall before key b after, o.1 = before ++ (key, Listen b) :: after -> listener_ready key before) /\
    (o.2 = Ok tt -> forall key, key ∈ keys -> (key, Listen 64) ∈ o.1)).
  { clear Hkeys. induction keys as [|key keys IH]; cbn zeta.
    { split_and!; [done| |]; [intros before key b after H; by destruct before|by intros _ key Hk%not_elem_of_nil]. }
    destruct IH as (IHt & IHr & IHl); [intros k Hk; apply Hdom; by right|].
    destruct (Hdom key) as [peers Hls]; [by left|].
    destruct (served_same cfg key peers Hok Hls) as (p & Hp & _).
    destruct (one_listener key peers p Hls Hp) as (Ht & Hl & Hr). cbn [open_listeners]. rewrite Hp, out_ret_bind.
    set (o := tag key _) in *. set (rest := open_listeners _ _ _ _ keys) in *.
    apply total_cases in Ht as [[[] E]|[e E]].
    - rewrite (out_bind_ok _ tt) by done. cbn [fst snd]. split_and!; [done| |].
      + intros before key' b after [(after' & H)|(before' & -> & H)]%split_append; [by eapply Hr|].
        apply listener_ready_mono. by eapply IHr.
      + intros Hres key' [->|Hk]%elem_of_cons; apply elem_of_app; [left; by apply Hl|right; by apply IHl].
    - unfold out_bind. rewrite E. cbn [fst snd]. by split_and!. }
  destruct Hgen as (Ht & Hr & Hl). split_and!; [done|done|]. intros Hres p Hp. apply Hl; [done|].
  rewrite Hkeys. apply elem_of_elements, elem_of_dom.
  apply list_elem_of_lookup in Hp as [i Hi].
  assert (Hd : dispatch (listeners cfg) (p_local_address p, p_interface p) (p_address p) = Some i).
  { apply dispatch_iff; [done|]. by exists p. }
  unfold dispatch in Hd. apply bind_Some in Hd as (peers & Hk & _). by exists peers.
Qed.
End setup.

(** ** The queues *)
Record queues_ok (cfg : Config) (queues : list (list Conn)) : Prop := {
  queues_len : length queues = length (c_peers cfg);
  queues_bound i queue : queues !! i = Some queue -> (length queue <= QUEUE)%nat;
  queues_own i queue c p : queues !! i = Some queue -> c ∈ queue -> c_peers cfg !! i = Some p -> conn_of p c
}.

Lemma try_send_bound c queue : (length queue <= QUEUE)%nat -> (length (try_send c queue) <= QUEUE)%nat.
Proof. unfold try_send. destruct (Nat.ltb_spec (length queue) QUEUE); [|done]. rewrite length_app. simpl. lia. Qed.
Lemma try_send_elem c c' queue : c' ∈ try_send c queue -> c' ∈ queue \/ c' = c.
Proof.
  unfold try_send. destruct (_ <? _)%nat; [|by left]. rewrite elem_of_app, list_elem_of_singleton. tauto.
Qed.

Lemma queue_step_ok (cfg : Config) queues queues' :
  config_ok cfg -> queue_step cfg queues queues' -> queues_ok cfg queues -> queues_ok cfg queues'.
Proof.
  intros Hok Hstep [Hl Hb Ho]. destruct Hstep as [c queues|i c queue queues Hi].
  - unfold accept. destruct (dispatch _ _ _) as [i|] eqn:Ed; [|done]. apply dispatch_iff in Ed as (p & Hp & Ek & Ea); [|done].
    split.
    + by rewrite length_alter.
    + intros j queue Hj. destruct (decide (i = j)) as [<-|].
      * rewrite list_lookup_alter_eq in Hj. destruct (queues !! i) as [q|] eqn:Eq; [|done]. injection Hj as <-.
        by apply try_send_bound, (Hb i).
      * rewrite list_lookup_alter_ne in Hj by done. by apply (Hb j).
    + intros j queue c' q Hj Hc Hq. destruct (decide (i = j)) as [<-|].
      * rewrite list_lookup_alter_eq in Hj. destruct (queues !! i) as [q0|] eqn:Eq; [|done]. injection Hj as <-.
        apply try_send_elem in Hc as [Hc| ->]; [by apply (Ho i q0)|]. rewrite Hp in Hq. injection Hq as <-.
        unfold conn_of, listener_key. by rewrite Ek.
      * rewrite list_lookup_alter_ne in Hj by done. by apply (Ho j queue).
  - assert (Hi' : (i < length queues)%nat) by by eapply lookup_lt_Some. split.
    + by rewrite length_insert.
    + intros j queue' Hj. destruct (decide (i = j)) as [<-|].
      * rewrite list_lookup_insert_eq in Hj by done. injection Hj as <-. specialize (Hb i _ Hi). simpl in Hb. lia.
      * rewrite list_lookup_insert_ne in Hj by done. by apply (Hb j).
    + intros j queue' c' q Hj Hc Hq. destruct (decide (i = j)) as [<-|].
      * rewrite list_lookup_insert_eq in Hj by done. injection Hj as <-. apply (Ho i (c :: queue)); [done|by right|done].
      * rewrite list_lookup_insert_ne in Hj by done. by apply (Ho j queue').
Qed.

Lemma queue_reach_ok (cfg : Config) queues : config_ok cfg -> queue_reach cfg queues -> queues_ok cfg queues.
Proof.
  intros Hok. induction 1 as [|queues queues' _ IH Hstep]; [|by eapply queue_step_ok]. split.
  - apply length_map.
  - intros i queue (p & -> & _)%list_lookup_fmap_Some. simpl. unfold QUEUE. lia.
  - intros i queue c p (q & -> & _)%list_lookup_fmap_Some Hc. by apply not_elem_of_nil in Hc.
Qed.

(** [C23] A worker is only ever given connections of its own peer: under every
    interleaving of accept loops and workers, each queue holds at most two connections,
    all of them from its peer's address on its peer's listener; accepting a connection
    of a peer whose queue has room appends it, and any other connection changes no
    queue but is closed, so no source can fill the queue of another. *)
Theorem connections_delivered (cfg : Config) queues c :
  config_ok cfg -> queue_reach cfg queues ->
  (forall i queue p c', queues !! i = Some queue -> c_peers cfg !! i = Some p ->
     (length queue <= 2)%nat /\ (c' ∈ queue -> conn_of p c')) /\
  (forall i queue p, queues !! i = Some queue -> c_peers cfg !! i = Some p -> conn_of p c ->
     accept (listeners cfg) c queues = <[i := if (length queue <? 2)%nat then queue ++ [c] else queue]> queues) /\
  ((forall i p, c_peers cfg !! i = Some p -> ~ conn_of p c) -> accept (listeners cfg) c queues = queues).
Proof.
  intros Hok [Hl Hb Ho]%queue_reach_ok; [|done]. split_and!.
  - intros i queue p c' Hi Hp. split; [by apply (Hb i)|]. intros Hc. by apply (Ho i queue).
  - intros i queue p Hi Hp [Ek Ea]. unfold accept.
    assert (Ed : dispatch (listeners cfg) (cn_listener c) (cn_remote c) = Some i).
    { apply dispatch_iff; [done|]. by exists p. }
    rewrite Ed. apply list_eq. intros j. destruct (decide (i = j)) as [<-|].
    + rewrite list_lookup_alter_eq, Hi, list_lookup_insert_eq by by eapply lookup_lt_Some. done.
    + by rewrite list_lookup_alter_ne, list_lookup_insert_ne by done.
  - intros Hno. unfold accept. destruct (dispatch _ _ _) as [i|] eqn:Ed; [|done].
    apply dispatch_iff in Ed as (p & Hp & Ek & Ea); [|done]. exfalso. apply (Hno i p Hp).
    unfold conn_of, listener_key. by rewrite Ek.
Qed.
End run_theorems.
