(* ===== verification/Netsock.v ===== *)
(** * src/src/netlink.rs [Socket], [poll]: netlink sockets

    What each system call returns is an argument; the results of [recvmsg] and [poll]
    are data. [Netlink] reads dumps and notifications from the [Recv]s of this file. *)
From S2P Require Import Prelude Net Config.

(** ** Opening *)
(** The calls that set up a socket. *)
Inductive NlOp :=
| NlSocket
| NlSetRcvbuf (value : Z)
| NlGetRcvbuf
| NlBind (groups : Z)
| NlStrictCheck (value : Z).
(** [i32::from_ne_bytes] of an unsigned value; [as i32] of a [usize]. *)
Definition as_i32 (x : Z) : Z := if x <? 2 ^ 31 then x else x - 2 ^ 32.
Definition usize_as_i32 (x : Z) : Z := as_i32 (x mod 2 ^ 32).

Section open.
Context {api : IpNetApi} (os : NlOp -> res unit).
Definition syscall (op : NlOp) : Out NlOp unit := ([op], os op).
Definition socket_open (groups buffer : Z) : Out NlOp unit :=
  _ <~ syscall NlSocket;
  _ <~ syscall (NlSetRcvbuf (usize_as_i32 buffer));
  _ <~ syscall NlGetRcvbuf;
  syscall (NlBind groups).
(** The socket of one snapshot. *)
Definition open_dump (cfg : Config) : Out NlOp unit :=
  _ <~ socket_open 0 (k_receive_buffer_bytes (c_kernel cfg));
  syscall (NlStrictCheck 1).
(** The notification socket of [run]: links, addresses and routes, of IPv6 if enabled. *)
Definition groups (cfg : Config) : Z :=
  Z.lor (Z.lor (Z.lor 1 16) 64) (if c_ipv6 cfg then Z.lor 256 1024 else 0).
Definition open_events (cfg : Config) : Out NlOp unit :=
  socket_open (groups cfg) (k_receive_buffer_bytes (c_kernel cfg)).
End open.

(** ** [recv] *)
(** What [recvmsg] returns: an error of some kind, or a datagram with its flags and
    the length and port id of the sender's address. *)
Inductive RawRecv :=
| RawWouldBlock
| RawInterrupted
| RawError (e : error)
| RawDatagram (bytes : list Z) (msg_flags namelen pid : Z).
Definition MSG_TRUNC : Z := 32.
Definition SOCKADDR_NL : Z := 12.
(** What [recv] returns. *)
Inductive Recv :=
| Datagram (bytes : list Z)
| WouldBlock
| Interrupted
| RecvError (e : error).
Definition invalid_data (message : string) : Recv := RecvError (EMessage message []).
Definition recv (raw : RawRecv) : Recv :=
  match raw with
  | RawWouldBlock => WouldBlock
  | RawInterrupted => Interrupted
  | RawError e => RecvError e
  | RawDatagram bytes msg_flags namelen pid =>
      if negb (Z.land msg_flags MSG_TRUNC =? 0) then invalid_data "truncated netlink datagram"
      else if negb (namelen =? SOCKADDR_NL) || negb (pid =? 0) then invalid_data "non-kernel netlink sender"
      else Datagram bytes
  end.

(** ** [request]: [sendto] returns the number of bytes sent *)
Definition send_request (sendto : list Z -> res Z) (req : list Z) : res unit :=
  n ← sendto req;
  ensure (n =? len req) "short netlink request".

(** ** [poll] *)
Definition POLLHUP : Z := 16.
Definition POLLNVAL : Z := 32.
(** The failure of the call, if it failed, and whether a signal caused it; then the
    [revents] of the two entries. *)
Record PollResult := mkPoll { pr_failed : option (bool * error); pr_events : Z; pr_dump : Z }.
Definition poll (r : PollResult) : res unit :=
  _ ← (match pr_failed r with
       | Some (interrupted, e) => if negb interrupted then Err e else Ok tt
       | None => Ok tt
       end);
  ensure (forallb (fun revents => Z.land revents (Z.lor POLLNVAL POLLHUP) =? 0) [pr_events r; pr_dump r])
    "netlink socket closed".

(** ** Specification *)
(** A datagram that the kernel sent and that arrived whole. *)
Definition from_kernel (raw : RawRecv) (bytes : list Z) : Prop :=
  exists msg_flags, raw = RawDatagram bytes msg_flags SOCKADDR_NL 0 /\ Z.land msg_flags MSG_TRUNC = 0.
Definition recv_ok (r : Recv) : Prop := match r with Datagram bytes => bytes_ok bytes | _ => True end.
Definition raw_ok (raw : RawRecv) : Prop := match raw with RawDatagram bytes _ _ _ => bytes_ok bytes | _ => True end.

(** * Theorems *)
Lemma recv_raw_ok raw : raw_ok raw -> recv_ok (recv raw).
Proof. destruct raw as [| | |bytes msg_flags namelen pid]; try done. cbn [recv]. intros H. by repeat case_match. Qed.
Lemma recv_datagram raw bytes : recv raw = Datagram bytes <-> from_kernel raw bytes.
Proof.
  unfold from_kernel. split.
  - destruct raw as [| | |b msg_flags namelen pid]; try done. cbn [recv].
    destruct (Z.eqb_spec (Z.land msg_flags MSG_TRUNC) 0) as [E|]; [|done].
    destruct (Z.eqb_spec namelen SOCKADDR_NL) as [->|]; [|done]. destruct (Z.eqb_spec pid 0) as [->|]; [|done].
    intros [= ->]. by exists msg_flags.
  - intros (f & -> & E). cbn [recv]. by rewrite E.
Qed.
Lemma poll_total r : total (poll r).
Proof.
  unfold poll, total. apply wp_bind. destruct (pr_failed r) as [[[] e]|]; cbn [negb wp]; try done; by apply wp_ensure.
Qed.
Lemma send_request_total sendto req : total (sendto req) -> total (send_request sendto req).
Proof. intros H. apply wp_bind. eapply wp_mono; [exact H| |done]. intros n _. by apply wp_ensure. Qed.
Section open_theorems.
Context {api : IpNetApi}.

Lemma socket_open_total os groups buffer : (forall op, total (os op)) -> total (socket_open os groups buffer).2.
Proof.
  intros H. unfold socket_open, syscall, out_bind. cbn [fst snd].
  pose proof (H NlSocket) as H1. destruct (os NlSocket) as [[]|e| |]; try done.
  pose proof (H (NlSetRcvbuf (usize_as_i32 buffer))) as H2. destruct (os (NlSetRcvbuf _)) as [[]|e| |]; try done.
  pose proof (H NlGetRcvbuf) as H3. destruct (os NlGetRcvbuf) as [[]|e| |]; try done. apply (H (NlBind groups)).
Qed.
Lemma open_dump_total os (cfg : Config) : (forall op, total (os op)) -> total (open_dump os cfg).2.
Proof.
  intros H. unfold open_dump. pose proof (socket_open_total os 0 (k_receive_buffer_bytes (c_kernel cfg)) H) as Ho.
  unfold out_bind. destruct (socket_open _ _ _) as [acts [[]|e| |]]; try done. apply (H (NlStrictCheck 1)).
Qed.

(** A validated buffer size reaches the kernel as it is: the cast to [i32] loses nothing. *)
Lemma buffer_fits (cfg : Config) :
  config_ok cfg -> usize_as_i32 (k_receive_buffer_bytes (c_kernel cfg)) = k_receive_buffer_bytes (c_kernel cfg).
Proof.
  intros Hok. pose proof (kernel_buffer _ (ok_kernel _ Hok)). unfold usize_as_i32, as_i32.
  rewrite Z.mod_small, ltb_true by lia. done.
Qed.
End open_theorems.
