(* ===== verification/Netlink.v ===== *)
(** * src/src/netlink.rs: kernel messages and routes

    Integers in netlink messages are in host byte order, which [big] selects. *)
From S2P Require Import Prelude Net Config Netsock.

Definition HEADER : Z := 16.
Definition RTM_NEWROUTE : Z := 24.
Definition RTM_GETROUTE : Z := 26.
Definition NLMSG_DONE : Z := 3.
Definition NLM_F_DUMP_INTR : Z := 16.
(** libc constants. *)
Definition AF_INET : Z := 2.
Definition AF_INET6 : Z := 10.
Definition ENOENT : Z := 2.

(** [(n + 3) & !3] *)
Definition align (n : Z) : Z := Z.land (n + 3) (Z.lnot 3).
Section netlink.
Context (big : bool).

Definition from_ne (l : list Z) : Z := if big then from_be l else from_be (rev l).
Definition ne_bytes (n : nat) (x : Z) : list Z := if big then be_bytes n x else rev (be_bytes n x).
Definition u16n (b : list Z) : res Z :=
  b0 ← idx b 0;
  b1 ← idx b 1;
  Ok (from_ne [b0; b1]).
Definition u32n (b : list Z) : res Z :=
  s ← slice_to b 4;
  Ok (from_ne s).
Definition u16n_at (b : list Z) (i : Z) : res Z := s ← slice_from b i; u16n s.
Definition u32n_at (b : list Z) (i : Z) : res Z := s ← slice_from b i; u32n s.

(** [Socket::request]: the 36 bytes of a dump request. *)
Definition request (seq family table : Z) : list Z :=
  ne_bytes 4 36 ++ ne_bytes 2 RTM_GETROUTE ++ ne_bytes 2 769 ++ ne_bytes 4 seq ++ replicate 4 0 ++
  [family] ++ replicate 11 0 ++ ne_bytes 2 8 ++ ne_bytes 2 15 ++ ne_bytes 4 table.

Record Message := mkMessage { kind : Z; flags : Z; seq : Z; payload : list Z }.

(** [messages]: the checks and fields of the first message, and what follows it. *)
Definition message_head (bytes : list Z) : res (Message * Z) :=
  _ ← ensure (HEADER <=? len bytes) "short netlink header";
  l ← u32n bytes;
  _ ← ensure ((HEADER <=? l) && (l <=? len bytes)) "invalid netlink message length";
  k ← u16n_at bytes 4;
  fl ← u16n_at bytes 6;
  sq ← u32n_at bytes 8;
  pl ← slice bytes HEADER l;
  Ok (mkMessage k fl sq pl, l).
Definition message_rest (bytes : list Z) (l : Z) : res (option (list Z)) :=
  if l =? len bytes then Ok None else
  _ ← ensure (align l <=? len bytes) "short netlink padding";
  rest ← slice_from bytes (align l);
  Ok (Some rest).

(** The loop. The closure updates the captured variables [S] even when the walk
    fails later, so the state is returned with the result. *)
Fixpoint messages_loop {S} (fuel : nat) (f : S -> Message -> S * res unit) (bytes : list Z) (s : S)
  : S * res unit :=
  match fuel with
  | O => (s, Fuel)
  | Datatypes.S fuel =>
      if is_empty bytes then (s, Ok tt) else
      match message_head bytes with
      | Ok (m, l) =>
          let '(s, r) := f s m in
          match r with
          | Ok _ =>
              match message_rest bytes l with
              | Ok None => (s, Ok tt)
              | Ok (Some rest) => messages_loop fuel f rest s
              | Err e => (s, Err e)
              | Panic => (s, Panic)
              | Fuel => (s, Fuel)
              end
          | r => (s, r)
          end
      | Err e => (s, Err e)
      | Panic => (s, Panic)
      | Fuel => (s, Fuel)
      end
  end.
Definition messages {S} (f : S -> Message -> S * res unit) (bytes : list Z) (s : S) : S * res unit :=
  messages_loop (Datatypes.S (length bytes)) f bytes s.

(** ** [route] *)
(** The variables of the attribute loop. *)
Record RouteState := mkRouteState {
  rs_attrs : list Z;
  rs_table : Z;
  rs_dst : list Z;
  rs_has_dst : bool
}.
Definition route_attr (width : Z) (s : RouteState) : res (RouteState + RouteState) :=
  let attrs := rs_attrs s in
  if is_empty attrs then Ok (inr s) else
  _ ← ensure (4 <=? len attrs) "short route attribute";
  n ← u16n attrs;
  _ ← ensure ((4 <=? n) && (n <=? len attrs)) "invalid route attribute length";
  k ← u16n_at attrs 2;
  s ← (if Z.land k 16383 =? 1 then
         _ ← ensure (n =? width + 4) "invalid RTA_DST";
         src ← slice attrs 4 n;
         _ ← slice_to (rs_dst s) width;
         _ ← assert_ (len src =? width);
         Ok (mkRouteState attrs (rs_table s) (src ++ drop (Z.to_nat width) (rs_dst s)) true)
       else if Z.land k 16383 =? 15 then
         _ ← ensure (n =? 8) "invalid RTA_TABLE";
         table ← u32n_at attrs 4;
         Ok (mkRouteState attrs table (rs_dst s) (rs_has_dst s))
       else Ok s);
  if n =? len attrs then Ok (inr s) else
  _ ← ensure (align n <=? len attrs) "short route attribute padding";
  rest ← slice_from attrs (align n);
  Ok (inl (mkRouteState rest (rs_table s) (rs_dst s) (rs_has_dst s))).

Context {api : IpNetApi}.

Definition route (payload : list Z) (tables : list Z) : res (option IpNet) :=
  _ ← ensure (12 <=? len payload) "short rtmsg";
  family ← idx payload 0;
  if negb (family =? AF_INET) && negb (family =? AF_INET6) then Ok None else
  p7 ← idx payload 7;
  skip ← or_else (negb (p7 =? 1))
           (p2 ← idx payload 2;
            or_else (negb (p2 =? 0)) (f ← u32n_at payload 8; Ok (negb (Z.land f 512 =? 0))));
  if (skip : bool) then Ok None else
  let width := if family =? AF_INET then 4 else 16 in
  p1 ← idx payload 1;
  _ ← ensure (p1 <=? width * 8) "invalid route prefix length";
  table ← idx payload 4;
  attrs ← slice_from payload 12;
  s ← iterate (fun s => length (rs_attrs s)) (route_attr width)
        (mkRouteState attrs table (replicate 16 0) false);
  _ ← ensure ((p1 =? 0) || rs_has_dst s) "missing route destination";
  if negb (bool_decide (rs_table s ∈ tables)) then Ok None else
  ip ← (if width =? 4 then
          d0 ← idx (rs_dst s) 0; d1 ← idx (rs_dst s) 1; d2 ← idx (rs_dst s) 2; d3 ← idx (rs_dst s) 3;
          Ok (IpV4 (ipv4_new d0 d1 d2 d3))
        else Ok (IpV6 (ipv6_from (rs_dst s))));
  match ipnet_new ip p1 with
  | Some net => Ok (Some (ipnet_trunc net))
  | None => bail "invalid prefix length"
  end.

(** ** Encodings, for the round trips *)
(** A message on the wire (port id 0), and padded to the next message. *)
Definition encode_message (m : Message) : list Z :=
  ne_bytes 4 (HEADER + len (payload m)) ++ ne_bytes 2 (kind m) ++ ne_bytes 2 (flags m) ++
  ne_bytes 4 (seq m) ++ replicate 4 0 ++ payload m.
Definition pad (l : list Z) : list Z := l ++ replicate (Z.to_nat (align (len l) - len l)) 0.
Record message_ok (m : Message) : Prop := {
  mok_kind : 0 <= kind m < 65536;
  mok_flags : 0 <= flags m < 65536;
  mok_seq : 0 <= seq m < 2 ^ 32;
  mok_payload : bytes_ok (payload m);
  mok_len : HEADER + len (payload m) < 2 ^ 32 - 3
}.
(** The closure on a list of messages, stopping at its first error. *)
Fixpoint fold_messages {S} (f : S -> Message -> S * res unit) (ms : list Message) (s : S) : S * res unit :=
  match ms with
  | [] => (s, Ok tt)
  | m :: ms =>
      let '(s, r) := f s m in
      match r with
      | Ok _ => fold_messages f ms s
      | r => (s, r)
      end
  end.

(** A route attribute: its type (with flag bits) and data. *)
Definition encode_rta (a : Z * list Z) : list Z :=
  pad (ne_bytes 2 (4 + len a.2) ++ ne_bytes 2 a.1 ++ a.2).
(** What an attribute does to the table, the destination and [has_dst]. *)
Definition rta_effect (width : Z) (s : Z * list Z * bool) (a : Z * list Z) : res (Z * list Z * bool) :=
  let '(table, dst, has_dst) := s in
  if Z.land a.1 16383 =? 1 then
    _ ← ensure (len a.2 + 4 =? width + 4) "invalid RTA_DST";
    Ok (table, a.2 ++ drop (Z.to_nat width) dst, true)
  else if Z.land a.1 16383 =? 15 then
    _ ← ensure (len a.2 + 4 =? 8) "invalid RTA_TABLE";
    Ok (from_ne a.2, dst, has_dst)
  else Ok s.

(** The messages of a datagram. *)
Definition collect (ms : list Message) (m : Message) : list Message * res unit := (ms ++ [m], Ok tt).
Definition messages_of (bytes : list Z) : list Message := (messages collect bytes []).1.
End netlink.

(** * Theorems *)
Lemma align_spec n : align n = (n + 3) / 4 * 4.
Proof.
  unfold align. change 3 with (Z.ones 2) at 2. rewrite <- Z.ldiff_land, Z.ldiff_ones_r by lia.
  by rewrite Z.shiftr_div_pow2, Z.shiftl_mul_pow2 by lia.
Qed.

(** Netlink alignment: the next multiple of four, so that an aligned length
    that still fits leaves the walk on a message boundary. *)
Theorem align_bounds n : 0 <= n -> n <= align n < n + 4 /\ align n mod 4 = 0 /\ align (align n) = align n.
Proof.
  intros Hn. rewrite !align_spec. pose proof (Z.div_mod (n + 3) 4). pose proof (Z.mod_pos_bound (n + 3) 4).
  split_and!; [lia|lia|by apply Z.mod_mul|].
  set (q := (n + 3) / 4) in *. replace (q * 4 + 3) with (3 + q * 4) by lia. rewrite Z.div_add by lia.
  change (3 / 4) with 0. lia.
Qed.

Lemma align_ge n : 0 <= n -> n <= align n < n + 4.
Proof.
  intros Hn. rewrite align_spec. pose proof (Z.div_mod (n + 3) 4). pose proof (Z.mod_pos_bound (n + 3) 4). lia.
Qed.

Section codec.
Context (big : bool).

Lemma from_ne_bound l : bytes_ok l -> 0 <= from_ne big l < 256 ^ len l.
Proof.
  intros Hl. unfold from_ne. destruct big; [by apply from_be_bound|].
  replace (len l) with (len (rev l)) by (unfold len; by rewrite length_rev).
  apply from_be_bound. unfold bytes_ok in *. by apply Forall_rev.
Qed.

Lemma from_ne_bytes n x : 0 <= x < 256 ^ Z.of_nat n -> from_ne big (ne_bytes big n x) = x.
Proof.
  intros Hx. unfold from_ne, ne_bytes. destruct big; [by apply from_be_be_bytes_small|].
  rewrite rev_involutive. by apply from_be_be_bytes_small.
Qed.

Lemma len_ne_bytes n x : len (ne_bytes big n x) = Z.of_nat n.
Proof. unfold ne_bytes, len. destruct big; rewrite ?length_rev, length_be_bytes; done. Qed.

Lemma ne_bytes_ok n x : bytes_ok (ne_bytes big n x).
Proof. unfold ne_bytes. destruct big; [|apply Forall_rev]; apply be_bytes_ok. Qed.

Lemma wp_u16n b (Q : Z -> Prop) X :
  bytes_ok b -> 2 <= len b -> (forall x, 0 <= x < 65536 -> Q x) -> wp (u16n big b) Q X.
Proof.
  intros Hb Hl HQ. unfold u16n. repeat wp_step. apply HQ.
  apply (from_ne_bound [_; _]). by apply Forall_cons; split; [|apply Forall_singleton].
Qed.
Lemma wp_u32n b (Q : Z -> Prop) X :
  bytes_ok b -> 4 <= len b -> (forall x, 0 <= x < 2 ^ 32 -> Q x) -> wp (u32n big b) Q X.
Proof.
  intros Hb Hl HQ. unfold u32n. repeat wp_step. apply HQ.
  pose proof (from_ne_bound s ltac:(done)) as Hs4. by replace (len s) with 4 in Hs4 by lia.
Qed.
Lemma wp_u16n_at b i (Q : Z -> Prop) X :
  bytes_ok b -> 0 <= i -> i + 2 <= len b -> (forall x, 0 <= x < 65536 -> Q x) -> wp (u16n_at big b i) Q X.
Proof. intros Hb Hi Hl HQ. unfold u16n_at. repeat wp_step. apply wp_u16n; [done|lia|done]. Qed.
Lemma wp_u32n_at b i (Q : Z -> Prop) X :
  bytes_ok b -> 0 <= i -> i + 4 <= len b -> (forall x, 0 <= x < 2 ^ 32 -> Q x) -> wp (u32n_at big b i) Q X.
Proof. intros Hb Hi Hl HQ. unfold u32n_at. repeat wp_step. apply wp_u32n; [done|lia|done]. Qed.

Lemma u16n_ne x rest : 0 <= x < 65536 -> u16n big (ne_bytes big 2 x ++ rest) = Ok x.
Proof.
  intros Hx. transitivity (Ok (from_ne big (ne_bytes big 2 x))); [|by rewrite from_ne_bytes].
  unfold u16n, ne_bytes. by destruct big.
Qed.
Lemma u32n_ne x rest : 0 <= x < 2 ^ 32 -> u32n big (ne_bytes big 4 x ++ rest) = Ok x.
Proof.
  intros Hx. unfold u32n. rewrite slice_to_app by by rewrite len_ne_bytes. cbn [mbind res_bind].
  by rewrite from_ne_bytes.
Qed.

(** ** Walking a datagram *)
Lemma wp_message_head bytes :
  bytes_ok bytes ->
  wp (message_head big bytes)
    (fun r => HEADER <= r.2 <= len bytes /\ bytes_ok (payload r.1)) (fun _ => True).
Proof.
  intros Hb. unfold message_head, HEADER. apply wp_bind, wp_ensure; [intros H1|done].
  apply wp_bind, wp_u32n; [done|lia|intros l Hl]. apply wp_bind, wp_ensure; [intros H2|done].
  apply wp_bind, wp_u16n_at; [done|lia|lia|intros ? _]. apply wp_bind, wp_u16n_at; [done|lia|lia|intros ? _].
  apply wp_bind, wp_u32n_at; [done|lia|lia|intros ? _]. repeat wp_step. simpl. split; [lia|done].
Qed.

Lemma wp_message_rest bytes l :
  bytes_ok bytes -> HEADER <= l <= len bytes ->
  wp (message_rest bytes l)
    (fun r => forall rest, r = Some rest -> bytes_ok rest /\ (length rest < length bytes)%nat) (fun _ => True).
Proof.
  intros Hb Hl. unfold message_rest, HEADER in *. pose proof (align_ge l).
  destruct (l =? len bytes); [done|]. apply wp_bind, wp_ensure; [intros H1|done].
  repeat wp_step. intros rest [= <-]. split; [done|]. unfold len in *. lia.
Qed.

(** The walk is total when the closure is, and keeps its invariant. *)
Lemma messages_wp {S} (I : S -> Prop) (f : S -> Message -> S * res unit) bytes s :
  bytes_ok bytes -> I s ->
  (forall s m, I s -> bytes_ok (payload m) -> I (f s m).1 /\ total (f s m).2) ->
  I (messages big f bytes s).1 /\ total (messages big f bytes s).2.
Proof.
  intros Hb HI Hf. unfold messages.
  assert (Hgen : forall fuel bytes s, bytes_ok bytes -> I s -> (length bytes < fuel)%nat ->
            I (messages_loop big fuel f bytes s).1 /\ total (messages_loop big fuel f bytes s).2).
  { clear bytes s Hb HI. induction fuel as [|fuel IH]; intros bytes s Hb HI Hfuel; [lia|]. simpl.
    destruct (is_empty bytes); [done|]. pose proof (wp_message_head bytes Hb) as Hh.
    destruct (message_head big bytes) as [[m l]|e| |]; try done. destruct Hh as [Hl Hp].
    destruct (Hf s m HI Hp) as [HI' Ht]. destruct (f s m) as [s' [[]|e| |]]; try done.
    pose proof (wp_message_rest bytes l Hb Hl) as Hr.
    destruct (message_rest bytes l) as [[rest|]|e| |]; try done.
    destruct (Hr rest eq_refl) as [Hbr Hlt]. apply IH; [done|done|lia]. }
  apply Hgen; [done|done|lia].
Qed.

Lemma encode_message_split m rest :
  message_ok m ->
  message_head big (encode_message big m ++ rest) = Ok (m, HEADER + len (payload m)) /\
  len (encode_message big m) = HEADER + len (payload m).
Proof.
  intros [Hk Hf Hs Hp Hl]. pose proof (len_nonneg (payload m)). pose proof (len_nonneg rest).
  assert (Hlen : len (encode_message big m) = HEADER + len (payload m)).
  { unfold encode_message, HEADER. rewrite !len_app, !len_ne_bytes, len_replicate. lia. }
  split; [|done].
  set (n4 := ne_bytes big 4 (HEADER + len (payload m))). set (k2 := ne_bytes big 2 (kind m)).
  set (f2 := ne_bytes big 2 (flags m)). set (s4 := ne_bytes big 4 (seq m)).
  assert (L : len n4 = 4 /\ len k2 = 2 /\ len f2 = 2 /\ len s4 = 4) by (subst n4 k2 f2 s4; by rewrite !len_ne_bytes).
  destruct L as (L4 & Lk & Lf & Ls). set (bytes := _ ++ rest).
  assert (E : bytes = n4 ++ k2 ++ f2 ++ s4 ++ replicate 4 0 ++ payload m ++ rest).
  { subst bytes. unfold encode_message. by rewrite <- !app_assoc. }
  assert (Hb : len bytes = HEADER + len (payload m) + len rest) by (subst bytes; rewrite len_app; lia).
  assert (H1 : u32n big bytes = Ok (HEADER + len (payload m))).
  { rewrite E. apply u32n_ne. unfold HEADER in *. lia. }
  assert (H2 : u16n_at big bytes 4 = Ok (kind m)).
  { unfold u16n_at. rewrite E, slice_from_app by done. by apply u16n_ne. }
  assert (H3 : u16n_at big bytes 6 = Ok (flags m)).
  { unfold u16n_at. rewrite E, app_assoc, slice_from_app by (rewrite len_app; lia). by apply u16n_ne. }
  assert (H4 : u32n_at big bytes 8 = Ok (seq m)).
  { assert (E' : bytes = (n4 ++ k2 ++ f2) ++ s4 ++ replicate 4 0 ++ payload m ++ rest)
      by (rewrite E, <- !app_assoc; done).
    unfold u32n_at. rewrite E', slice_from_app by (rewrite !len_app; lia). by apply u32n_ne. }
  assert (H5 : slice bytes HEADER (HEADER + len (payload m)) = Ok (payload m)).
  { rewrite E, (app_assoc n4), (app_assoc (n4 ++ k2)), (app_assoc ((n4 ++ k2) ++ f2)),
      (app_assoc (((n4 ++ k2) ++ f2) ++ s4)).
    apply slice_middle; rewrite !len_app, len_replicate; unfold HEADER; lia. }
  unfold message_head. rewrite leb_true by (unfold HEADER in *; lia). cbn [ensure mbind res_bind].
  rewrite H1. cbn [mbind res_bind]. replace (_ && _) with true by (unfold HEADER in *; lia).
  cbn [ensure mbind res_bind]. rewrite H2, H3, H4, H5. cbn [mbind res_bind]. by destruct m.
Qed.

Lemma len_pad l : len (pad l) = align (len l).
Proof.
  unfold pad. pose proof (align_ge (len l) (len_nonneg l)). rewrite len_app, len_replicate. lia.
Qed.

Lemma message_rest_pad m rest :
  message_ok m -> 
  message_rest (pad (encode_message big m) ++ rest) (HEADER + len (payload m)) =
    Ok (if (HEADER + len (payload m) =? len (pad (encode_message big m) ++ rest)) then None else Some rest).
Proof.
  intros Hm. destruct (encode_message_split m [] Hm) as [_ Hl]. unfold message_rest.
  destruct (_ =? _); [done|]. pose proof (len_nonneg rest).
  rewrite leb_true by (rewrite len_app, len_pad, Hl; lia). cbn [ensure mbind res_bind].
  by rewrite slice_from_app by (by rewrite len_pad, Hl).
Qed.

Lemma messages_loop_encode {S} (f : S -> Message -> S * res unit) ms s fuel :
  Forall message_ok ms -> (length (concat (map (fun m => pad (encode_message big m)) ms)) < fuel)%nat ->
  messages_loop big fuel f (concat (map (fun m => pad (encode_message big m)) ms)) s = fold_messages f ms s.
Proof.
  intros Hms. revert s fuel. induction Hms as [|m ms Hm Hms IH]; intros s fuel Hfuel.
  { destruct fuel; [simpl in Hfuel; lia|done]. }
  destruct fuel as [|fuel]; [lia|]. cbn [map concat] in *. set (tail := concat _) in *.
  destruct (encode_message_split m (replicate (Z.to_nat (align (len (encode_message big m)) - len (encode_message big m))) 0 ++ tail) Hm)
    as [Hhead Hl].
  assert (Hpos : 0 < len (pad (encode_message big m))).
  { rewrite len_pad, Hl. pose proof (len_nonneg (payload m)).
    pose proof (align_ge (HEADER + len (payload m))). unfold HEADER in *. lia. }
  cbn [messages_loop fold_messages].
  replace (is_empty (pad (encode_message big m) ++ tail)) with false.
  2: { symmetry. apply is_empty_false. rewrite len_app. pose proof (len_nonneg tail). lia. }
  assert (E : pad (encode_message big m) ++ tail =
              encode_message big m ++ (replicate (Z.to_nat (align (len (encode_message big m)) - len (encode_message big m))) 0 ++ tail))
    by (unfold pad; by rewrite <- app_assoc).
  rewrite E, Hhead, <- E. destruct (f s m) as [s' [[]|e| |]]; try done.
  rewrite message_rest_pad by done. destruct (Z.eqb_spec (HEADER + len (payload m)) (len (pad (encode_message big m) ++ tail))) as [El|_].
  - assert (Ht : tail = []).
    { apply len_zero. rewrite len_app, len_pad, Hl in El. pose proof (len_nonneg tail).
      pose proof (align_ge (HEADER + len (payload m))). pose proof (len_nonneg (payload m)). unfold HEADER in *. lia. }
    destruct ms as [|m' ms]; [done|]. exfalso. subst tail. cbn [map concat] in Ht.
    apply app_nil in Ht as [Ht _]. apply (f_equal len) in Ht. rewrite len_pad in Ht.
    apply Forall_cons in Hms as [Hm' _]. destruct (encode_message_split m' [] Hm') as [_ Hl'].
    rewrite Hl' in Ht. pose proof (align_ge (HEADER + len (payload m'))). pose proof (len_nonneg (payload m')).
    unfold HEADER in *. rewrite (@len_nil Z) in Ht. lia.
  - apply IH. rewrite length_app in Hfuel. unfold len in Hpos. lia.
Qed.

(** Walking a datagram is the inverse of building it: the closure sees exactly
    the messages of the datagram, in order, with their kinds, flags, sequence
    numbers and payloads, up to its first error, in either byte order. *)
Theorem messages_roundtrip {S} (f : S -> Message -> S * res unit) ms s :
  Forall message_ok ms ->
  messages big f (concat (map (fun m => pad (encode_message big m)) ms)) s = fold_messages f ms s.
Proof. intros Hms. apply messages_loop_encode; [done|lia]. Qed.

(** Walking any datagram is safe: for arbitrary bytes, and any closure that
    does not panic, the walk terminates without a panic or an out-of-range slice. *)
Theorem messages_total {S} (f : S -> Message -> S * res unit) bytes s :
  bytes_ok bytes -> (forall s m, bytes_ok (payload m) -> total (f s m).2) ->
  total (messages big f bytes s).2.
Proof. intros Hb Hf. apply (messages_wp (fun _ => True)); [done|done|]. intros; split; auto. Qed.

(** The dump request is a message the kernel can walk: a header for the given
    sequence number asking for a dump of routes, then the family and one table
    attribute. *)
Theorem request_message sq family table :
  0 <= sq < 2 ^ 32 -> byte_ok family ->
  messages big collect (request big sq family table) [] =
    ([mkMessage RTM_GETROUTE 769 sq
        ([family] ++ replicate 11 0 ++ ne_bytes big 2 8 ++ ne_bytes big 2 15 ++ ne_bytes big 4 table)], Ok tt).
Proof.
  intros Hs Hf.
  set (m := mkMessage _ _ _ _).
  assert (Hp : len (payload m) = 20) by (subst m; cbn [payload]; rewrite !len_app, len_replicate, !len_ne_bytes; done).
  assert (Hm : message_ok m).
  { split; cbn [kind flags seq]; try done; [|rewrite Hp; done]. subst m. cbn [payload].
    rewrite !bytes_ok_app. split_and!; try apply ne_bytes_ok; [by apply Forall_singleton|by apply Forall_replicate]. }
  assert (E : request big sq family table = concat (map (fun m => pad (encode_message big m)) [m])).
  { cbn [map concat]. rewrite app_nil_r. unfold pad. destruct (encode_message_split m [] Hm) as [_ ->].
    rewrite Hp. change (align (HEADER + 20)) with 36. change (Z.to_nat (36 - (HEADER + 20))) with 0%nat.
    rewrite app_nil_r. unfold encode_message, request. rewrite Hp. done. }
  rewrite E. unfold messages. rewrite messages_loop_encode; [done| |lia]. by apply Forall_singleton.
Qed.
End codec.

(** ** Routes *)
Section route.
Context (big : bool) {api : IpNetApi} {laws : IpNetLaws}.

Definition route_inv (s : RouteState) : Prop := bytes_ok (rs_attrs s) /\ bytes_ok (rs_dst s) /\ len (rs_dst s) = 16.

Lemma wp_route_attr width s :
  4 <= width <= 16 -> route_inv s ->
  wp (route_attr big width s)
    (iter_post route_inv (fun s => length (rs_attrs s)) route_inv s) (fun _ => True).
Proof.
  intros Hw (Hb & Hd & Hl). unfold route_attr. destruct (is_empty (rs_attrs s)) eqn:He; [done|].
  apply wp_bind, wp_ensure; [intros H4|done]. apply wp_bind, wp_u16n; [done|lia|intros n Hn].
  apply wp_bind, wp_ensure; [intros Hnl|done]. apply wp_bind, wp_u16n_at; [done|lia|lia|intros k Hk].
  apply wp_bind. apply (wp_post _ (fun s' => rs_attrs s' = rs_attrs s /\ bytes_ok (rs_dst s') /\ len (rs_dst s') = 16)).
  - destruct (Z.land k 16383 =? 1); [|destruct (Z.land k 16383 =? 15); [|done]].
    + apply wp_bind, wp_ensure; [intros Hlen|done]. repeat wp_step. simpl. split_and!; [done| |].
      * apply bytes_ok_app. split; [done|by apply Forall_drop].
      * rewrite len_app, len_drop; lia.
    + apply wp_bind, wp_ensure; [intros Hlen|done]. apply wp_bind, wp_u32n_at; [done|lia|lia|intros ? _]. done.
  - intros s' (Ea & Hd' & Hl'). destruct (n =? len (rs_attrs s)); [by split; [rewrite Ea|]|].
    apply wp_bind, wp_ensure; [intros Hal|done]. pose proof (align_ge n).
    repeat wp_step. simpl. split; [by split_and!|]. apply len_lt_length. lia.
Qed.

(** What a decoded prefix satisfies. *)
Definition route_result_ok (tables payload : list Z) (r : option IpNet) : Prop :=
  forall net, r = Some net ->
    ipnet_trunc net = net /\ (exists family, payload !! 0%nat = Some family /\
      net_is_ipv6 net = negb (family =? AF_INET) /\ (family = AF_INET \/ family = AF_INET6)) /\
    payload !! 1%nat = Some (ipnet_prefix_len net) /\ payload !! 7%nat = Some 1 /\ payload !! 2%nat = Some 0 /\
    tables <> [].

Lemma wp_route payload tables :
  bytes_ok payload -> wp (route big payload tables) (route_result_ok tables payload) (fun _ => True).
Proof.
  intros Hb. unfold route. apply wp_bind, wp_ensure; [intros Hl|done].
  apply wp_bind, wp_idx_byte; [done|lia|intros family Hfb Hf].
  destruct (negb _ && negb _) eqn:Hfam; [done|].
  apply wp_bind, wp_idx_byte; [done|lia|intros p7 _ H7].
  apply wp_bind. apply (wp_post _ (fun skip => skip = false -> p7 = 1 /\ payload !! 2%nat = Some 0)).
  { apply wp_or_else; [done|intros E7]. apply wp_bind, wp_idx_byte; [done|lia|intros p2 _ H2].
    apply wp_or_else; [done|intros E2]. apply wp_bind, wp_u32n_at; [done|lia|lia|intros fl _].
    simpl. intros _. split; [lia|]. change (Z.to_nat 2) with 2%nat in H2. rewrite H2. f_equal. lia. }
  intros [] Hskip; [done|]. destruct (Hskip eq_refl) as [-> H2]. set (width := if family =? AF_INET then 4 else 16).
  assert (Hw : 4 <= width <= 16) by (subst width; destruct (_ =? _); lia).
  apply wp_bind, wp_idx_byte; [done|lia|intros p1 Hp1b Hp1]. apply wp_bind, wp_ensure; [intros Hp1w|done].
  apply wp_bind, wp_idx_byte; [done|lia|intros table _ _].
  apply wp_bind. unfold slice_from. apply wp_slice_byte; [done|lia|intros attrs Hab Hal _].
  apply wp_bind. eapply wp_post.
  { apply (wp_iterate _ _ route_inv route_inv); [|by intros; apply wp_route_attr].
    split_and!; [done|by apply Forall_replicate|done]. }
  intros s (Hsb & Hdb & Hdl). apply wp_bind, wp_ensure; [intros Hdst|done].
  destruct (negb (bool_decide (rs_table s ∈ tables))) eqn:Ht; [done|].
  apply negb_false_iff, bool_decide_eq_true in Ht. apply wp_bind.
  apply (wp_post _ (fun ip => ip_ok ip /\ addr_width ip = width * 8 /\ is_ipv6 ip = negb (family =? AF_INET))).
  { subst width. destruct (Z.eqb_spec family AF_INET); cbn [Z.eqb Pos.eqb negb].
    - repeat wp_step. split_and!; try done. unfold ip_ok, u_ok; simpl.
      apply (from_be_bound [_; _; _; _]). repeat (apply Forall_cons; split; [done|]). by apply Forall_nil.
    - simpl. split_and!; try done. unfold ip_ok, u_ok; simpl. pose proof (from_be_bound _ Hdb) as H. by rewrite Hdl in H. }
  intros ip (Hip & Hwd & Hv6). destruct (ipnet_new_some ip p1 Hip) as (net & -> & Ha & Hpl).
  { unfold byte_ok in Hp1b. lia. }
  simpl. intros net' [= <-]. change (Z.to_nat 0) with 0%nat in Hf. change (Z.to_nat 1) with 1%nat in Hp1.
  change (Z.to_nat 7) with 7%nat in H7. split_and!; try done.
  - apply trunc_idemp.
  - exists family. rewrite trunc_is_ipv6. unfold net_is_ipv6. rewrite Ha, Hv6. split_and!; [done|done|lia].
  - rewrite ipnet_trunc_len, Hpl. done.
  - intros ->. by apply not_elem_of_nil in Ht.
Qed.

(** Only ordinary unicast routes are exported: decoding any route payload
    terminates without a panic, and a decoded prefix has no host bits, the length
    and family of the message, and comes from an unicast route without a source
    prefix. *)
Theorem route_sound payload tables :
  bytes_ok payload -> wp (route big payload tables) (route_result_ok tables payload) (fun _ => True).
Proof. apply wp_route. Qed.

(** *** Round trip *)
Record rta_ok (a : Z * list Z) : Prop := {
  rta_type : 0 <= a.1 < 65536;
  rta_data : bytes_ok a.2;
  rta_len : 4 + len a.2 < 65536
}.

Lemma pad_ok l : bytes_ok l -> bytes_ok (pad l).
Proof. intros Hl. apply bytes_ok_app. split; [done|]. by apply Forall_replicate. Qed.

Lemma encode_rta_fields a rest (b := encode_rta big a ++ rest) :
  rta_ok a ->
  u16n big b = Ok (4 + len a.2) /\ u16n_at big b 2 = Ok a.1 /\ slice b 4 (4 + len a.2) = Ok a.2 /\
  (len a.2 = 4 -> u32n_at big b 4 = Ok (from_ne big a.2)) /\
  slice_from b (align (4 + len a.2)) = Ok rest /\ len b = align (4 + len a.2) + len rest /\ bytes_ok (encode_rta big a).
Proof.
  intros [Ht Hd Hl]. pose proof (len_nonneg a.2). pose proof (len_nonneg rest).
  set (hdr := ne_bytes big 2 (4 + len a.2)) in *. set (ty := ne_bytes big 2 a.1).
  assert (Hh : len hdr = 2 /\ len ty = 2) by (subst hdr ty; by rewrite !len_ne_bytes). destruct Hh as [Hh Hty].
  set (fill := replicate (Z.to_nat (align (len (hdr ++ ty ++ a.2)) - len (hdr ++ ty ++ a.2))) 0).
  assert (E : b = hdr ++ ty ++ a.2 ++ fill ++ rest).
  { subst b. unfold encode_rta, pad. fold hdr ty fill. by rewrite <- !app_assoc. }
  assert (Hle : len (encode_rta big a) = align (4 + len a.2)).
  { unfold encode_rta. rewrite len_pad. f_equal. fold hdr ty. rewrite !len_app. lia. }
  split_and!.
  - rewrite E. apply u16n_ne. lia.
  - unfold u16n_at. rewrite E, slice_from_app by done. by apply u16n_ne.
  - rewrite E, app_assoc. apply slice_middle; rewrite len_app; lia.
  - intros H4. unfold u32n_at, u32n. rewrite E, app_assoc, slice_from_app by (rewrite len_app; lia).
    cbn [mbind res_bind]. by rewrite slice_to_app by done.
  - subst b. by apply slice_from_app.
  - subst b. rewrite len_app. lia.
  - unfold encode_rta. apply pad_ok. rewrite !bytes_ok_app. split_and!; try apply ne_bytes_ok. done.
Qed.

Lemma route_attr_encode width a rest t d h :
  4 <= width <= 16 -> rta_ok a -> len d = 16 ->
  route_attr big width (mkRouteState (encode_rta big a ++ rest) t d h) =
    '(t', d', h') ← rta_effect big width (t, d, h) a;
    Ok (if 4 + len a.2 =? len (encode_rta big a ++ rest)
        then inr (mkRouteState (encode_rta big a ++ rest) t' d' h') else inl (mkRouteState rest t' d' h')).
Proof.
  intros Hw Ha Hd. destruct (encode_rta_fields a rest Ha) as (H1 & H2 & H3 & H4 & H5 & H6 & _).
  pose proof (len_nonneg a.2) as Hn. pose proof (len_nonneg rest). pose proof (align_ge (4 + len a.2)).
  set (b := encode_rta big a ++ rest) in *. unfold route_attr. cbn [rs_attrs rs_table rs_dst rs_has_dst].
  replace (is_empty b) with false by (symmetry; apply is_empty_false; lia).
  rewrite leb_true by lia. cbn [ensure mbind res_bind]. rewrite H1. cbn [mbind res_bind].
  replace (_ && _) with true by lia. cbn [ensure mbind res_bind]. rewrite H2. cbn [mbind res_bind].
  assert (Htail : forall t' d' h',
    (if 4 + len a.2 =? len b then Ok (inr (mkRouteState b t' d' h'))
     else _ ← ensure (align (4 + len a.2) <=? len b) "short route attribute padding";
          r ← slice_from b (align (4 + len a.2)); Ok (inl (mkRouteState r t' d' h'))) =
    Ok (if 4 + len a.2 =? len b then inr (mkRouteState b t' d' h') else inl (mkRouteState rest t' d' h'))).
  { intros t' d' h'. destruct (_ =? len b); [done|]. rewrite leb_true by lia. cbn [ensure mbind res_bind]. by rewrite H5. }
  unfold rta_effect. destruct (Z.land a.1 16383 =? 1); [|destruct (Z.land a.1 16383 =? 15)].
  - replace (4 + len a.2 =? width + 4) with (len a.2 + 4 =? width + 4) by (f_equal; lia).
    destruct (Z.eqb_spec (len a.2 + 4) (width + 4)); [|done]. cbn [ensure mbind res_bind].
    rewrite H3. cbn [mbind res_bind]. unfold slice_to. rewrite slice_ok by lia. cbn [mbind res_bind].
    rewrite (eqb_true (len a.2) width) by lia. cbn [assert_ mbind res_bind rs_table rs_dst rs_has_dst]. apply Htail.
  - replace (4 + len a.2 =? 8) with (len a.2 + 4 =? 8) by (f_equal; lia).
    destruct (Z.eqb_spec (len a.2 + 4) 8); [|done]. cbn [ensure mbind res_bind].
    rewrite H4 by lia. cbn [mbind res_bind rs_table rs_dst rs_has_dst]. apply Htail.
  - cbn [mbind res_bind rs_table rs_dst rs_has_dst]. apply Htail.
Qed.

Definition route_fields (s : RouteState) : Z * list Z * bool := (rs_table s, rs_dst s, rs_has_dst s).

Lemma route_attrs_fold width l t d h :
  4 <= width <= 16 -> Forall rta_ok l -> bytes_ok d -> len d = 16 ->
  (s ← iterate (fun s => length (rs_attrs s)) (route_attr big width)
         (mkRouteState (concat (map (encode_rta big) l)) t d h); Ok (route_fields s)) =
  for_fold (rta_effect big width) (t, d, h) l.
Proof.
  intros Hw Hl. revert t d h. induction Hl as [|a l Ha Hl IH]; intros t d h Hd Hdl; [done|].
  assert (Hdec : decreases_on route_inv (fun s => length (rs_attrs s)) (route_attr big width)).
  { eapply wp_decreases_on. intros. by apply wp_route_attr. }
  assert (Hok : bytes_ok (concat (map (encode_rta big) (a :: l)))).
  { assert (Hall : Forall rta_ok (a :: l)) by by constructor. clear -Hall.
    induction Hall as [|x l' Hx _ IH]; [by apply Forall_nil|]. cbn [map concat]. apply bytes_ok_app. split; [|done].
    by destruct (encode_rta_fields x [] Hx) as (_ & _ & _ & _ & _ & _ & ?). }
  rewrite (iterate_unfold_on _ _ _ _ Hdec) by by split_and!.
  cbn [map concat]. rewrite route_attr_encode by done. set (tail := concat _) in *.
  cbn [for_fold]. destruct (rta_effect big width (t, d, h) a) as [[[t' d'] h']| | |] eqn:Ee; try done.
  cbn [mbind res_bind].
  assert (Hd' : bytes_ok d' /\ len d' = 16).
  { clear IH. destruct Ha as [_ Hda _]. unfold rta_effect in Ee. destruct (Z.land a.1 16383 =? 1).
    - apply ensure_bind_ok in Ee as [Hn [= <- <- <-]]. split; [apply bytes_ok_app; split; [done|by apply Forall_drop]|].
      rewrite len_app, len_drop; lia.
    - destruct (Z.land a.1 16383 =? 15); [|by injection Ee as <- <- <-].
      apply ensure_bind_ok in Ee as [_ [= <- <- <-]]. done. }
  destruct (Z.eqb_spec (4 + len a.2) (len (encode_rta big a ++ tail))) as [El|_].
  - destruct (encode_rta_fields a tail Ha) as (_ & _ & _ & _ & _ & Hlen & _).
    pose proof (align_ge (4 + len a.2)). pose proof (len_nonneg a.2). pose proof (len_nonneg tail).
    assert (Ht : tail = []) by (apply len_zero; lia).
    destruct l as [|a' l]; [done|]. exfalso. subst tail. cbn [map concat] in Ht.
    apply app_nil in Ht as [Ht _]. apply Forall_cons in Hl as [Ha' _].
    destruct (encode_rta_fields a' [] Ha') as (_ & _ & _ & _ & _ & Hlen' & _).
    rewrite Ht, app_nil_r in Hlen'. pose proof (align_ge (4 + len a'.2)). pose proof (len_nonneg a'.2).
    rewrite !(@len_nil Z) in Hlen'. lia.
  - destruct Hd'. by apply IH.
Qed.

(** Attributes [route] ignores. *)
Definition rta_other (a : Z * list Z) : Prop :=
  rta_ok a /\ Z.land a.1 16383 <> 1 /\ Z.land a.1 16383 <> 15.
Lemma rta_effect_other width s a : rta_other a -> rta_effect big width s a = Ok s.
Proof. destruct s as [[t d] h]. intros (_ & H1 & H2). unfold rta_effect. by rewrite !eqb_false by done. Qed.
Lemma fold_other width s l : Forall rta_other l -> for_fold (rta_effect big width) s l = Ok s.
Proof. induction 1 as [|a l Ha _ IH]; [done|]. cbn [for_fold]. by rewrite rta_effect_other. Qed.
Lemma for_fold_app {S A} (f : S -> A -> res S) s l1 l2 :
  for_fold f s (l1 ++ l2) = s' ← for_fold f s l1; for_fold f s' l2.
Proof. revert s. induction l1 as [|x l1 IH]; intros s; [done|]. simpl. destruct (f s x); try done. apply IH. Qed.

(** The payload of a route message for [p] in [table]. *)
Definition encode_route (p : IpNet) (table table8 tos proto scope : Z) (fl : list Z)
    (o1 o2 o3 : list (Z * list Z)) : list Z :=
  [if net_is_ipv6 p then AF_INET6 else AF_INET; ipnet_prefix_len p; 0; tos; table8; proto; scope; 1] ++ fl ++
  concat (map (encode_rta big)
    (o1 ++ [(1, match ipnet_network p with IpV4 a => octets4 a | IpV6 a => octets6 a end)] ++
     o2 ++ [(15, ne_bytes big 4 table)] ++ o3)).

(** The bytes of an address of the network of [p], and their number. *)
Definition net_width (p : IpNet) : Z := if net_is_ipv6 p then 16 else 4.
Definition net_octets (p : IpNet) : list Z :=
  match ipnet_network p with IpV4 a => octets4 a | IpV6 a => octets6 a end.
Lemma net_octets_ok p : bytes_ok (net_octets p) /\ len (net_octets p) = net_width p /\ 4 <= net_width p <= 16.
Proof.
  unfold net_octets, net_width. rewrite <- network_is_ipv6.
  destruct (ipnet_network p); (split; [apply be_bytes_ok|done]).
Qed.

(** The loop over the attributes leaves the table and the destination bytes. *)
Lemma route_attrs_effect p table table8 o1 o2 o3 :
  0 <= table < 2 ^ 32 -> Forall rta_other o1 -> Forall rta_other o2 -> Forall rta_other o3 ->
  for_fold (rta_effect big (net_width p)) (table8, replicate 16 0, false)
    (o1 ++ [(1, net_octets p)] ++ o2 ++ [(15, ne_bytes big 4 table)] ++ o3) =
  Ok (table, net_octets p ++ drop (Z.to_nat (net_width p)) (replicate 16 0), true).
Proof.
  intros Ht H1 H2 H3. pose proof (net_octets_ok p) as (_ & Hdl & _). set (width := net_width p) in *.
  assert (E1 : rta_effect big width (table8, replicate 16 0, false) (1, net_octets p) =
               Ok (table8, net_octets p ++ drop (Z.to_nat width) (replicate 16 0), true)).
  { unfold rta_effect. cbn [fst snd]. change (Z.land 1 16383 =? 1) with true. by rewrite eqb_true by lia. }
  assert (E2 : forall d h, rta_effect big width (table8, d, h) (15, ne_bytes big 4 table) = Ok (table, d, h)).
  { intros d h. unfold rta_effect. cbn [fst snd]. change (Z.land 15 16383 =? 1) with false.
    change (Z.land 15 16383 =? 15) with true. by rewrite len_ne_bytes, from_ne_bytes. }
  rewrite for_fold_app, fold_other by done. cbn [mbind res_bind].
  rewrite for_fold_app. cbn [for_fold]. rewrite E1. cbn [mbind res_bind].
  rewrite for_fold_app, fold_other by done. cbn [mbind res_bind].
  rewrite for_fold_app. cbn [for_fold]. rewrite E2. cbn [mbind res_bind]. by rewrite fold_other.
Qed.

(** The destination buffer of 16 bytes gives back the address of the network. *)
Lemma route_address p :
  let buf := net_octets p ++ drop (Z.to_nat (net_width p)) (replicate 16 0) in
  (if net_width p =? 4 then
     d0 ← idx buf 0; d1 ← idx buf 1; d2 ← idx buf 2; d3 ← idx buf 3;
     Ok (IpV4 (ipv4_new d0 d1 d2 d3))
   else Ok (IpV6 (ipv6_from buf))) = Ok (ipnet_network p).
Proof.
  pose proof (network_ok p) as Hnok. unfold net_octets, net_width. rewrite <- network_is_ipv6.
  unfold ip_ok, u_ok in Hnok.
  destruct (ipnet_network p) as [a|a]; cbn [is_ipv6 Z.eqb Pos.eqb addr_width addr_value] in *.
  - pose proof (from_be_be_bytes_small 4 a Hnok) as E.
    transitivity (Ok (IpV4 (from_be (octets4 a)))); [done|]. unfold octets4. by rewrite E.
  - change (drop (Z.to_nat 16) (replicate 16 0)) with (@nil Z). rewrite app_nil_r. unfold octets6, ipv6_from.
    by rewrite from_be_be_bytes_small.
Qed.

(** A network masked to its own prefix length is the truncated prefix. *)
Lemma route_prefix p : exists m, ipnet_new (ipnet_network p) (ipnet_prefix_len p) = Some m /\ ipnet_trunc m = ipnet_trunc p.
Proof.
  pose proof (ipnet_prefix_len_ok p) as Hpl.
  destruct (ipnet_new_some (ipnet_network p) (ipnet_prefix_len p)) as (m & Hm & _).
  { apply network_ok. }
  { rewrite ipnet_network_spec, mask_addr_width. lia. }
  exists m. split; [done|]. by rewrite (new_network_trunc p m Hm).
Qed.

Lemma net_prefix_width p : ipnet_prefix_len p <= net_width p * 8.
Proof.
  pose proof (ipnet_prefix_len_ok p) as Hpl. unfold net_width, net_is_ipv6.
  destruct (ipnet_addr p); cbn [is_ipv6 addr_width] in *; lia.
Qed.
Lemma route_attrs_ok p table o1 o2 o3 :
  Forall rta_other o1 -> Forall rta_other o2 -> Forall rta_other o3 ->
  Forall rta_ok (o1 ++ [(1, net_octets p)] ++ o2 ++ [(15, ne_bytes big 4 table)] ++ o3).
Proof.
  intros H1 H2 H3. pose proof (net_octets_ok p) as (Hdb & Hdl & Hw). rewrite !Forall_app, !Forall_singleton.
  split_and!; try (eapply Forall_impl; [done|by intros ? [? _]]).
  - split; simpl; [done|done|lia].
  - split; simpl; [done|apply ne_bytes_ok|by rewrite len_ne_bytes].
Qed.

(** [C35] A kernel route is decoded to its prefix: the payload of a unicast route in
    any table, with any other attributes before, between and after the destination
    and the table, yields that network if the table is selected and nothing
    otherwise; the full table number counts, not the 8-bit header field. *)
Theorem route_roundtrip p table table8 tos proto scope fl o1 o2 o3 tables :
  0 <= table < 2 ^ 32 -> len fl = 4 -> Z.land (from_ne big fl) 512 = 0 ->
  Forall rta_other o1 -> Forall rta_other o2 -> Forall rta_other o3 ->
  route big (encode_route p table table8 tos proto scope fl o1 o2 o3) tables =
    Ok (if bool_decide (table ∈ tables) then Some (ipnet_trunc p) else None).
Proof.
  intros Ht Hfl Hclone H1 H2 H3. unfold encode_route. fold (net_octets p).
  pose proof (net_octets_ok p) as (Hdb & Hdl & Hw).
  pose proof (route_attrs_effect p table table8 o1 o2 o3 Ht H1 H2 H3) as Hfold.
  pose proof (route_attrs_ok p table o1 o2 o3 H1 H2 H3) as Hl.
  set (l := o1 ++ _) in *. set (hdr := [_; _; _; _; _; _; _; _]). set (width := net_width p) in *.
  pose proof (route_attrs_fold width l table8 (replicate 16 0) false Hw Hl ltac:(by apply Forall_replicate) ltac:(done)) as Hit.
  rewrite Hfold in Hit. clear Hfold. set (attrs := concat (map (encode_rta big) l)) in *.
  unfold route. pose proof (len_nonneg attrs).
  rewrite leb_true by (rewrite !len_app; change (len hdr) with 8; lia). cbn [ensure mbind res_bind].
  change (idx (hdr ++ fl ++ attrs) 0) with (Ok (if net_is_ipv6 p then AF_INET6 else AF_INET)). cbn [mbind res_bind].
  replace (negb _ && negb _) with false by (by destruct (net_is_ipv6 p)).
  change (idx (hdr ++ fl ++ attrs) 7) with (Ok 1). change (idx (hdr ++ fl ++ attrs) 2) with (Ok 0).
  change (idx (hdr ++ fl ++ attrs) 1) with (Ok (ipnet_prefix_len p)).
  change (idx (hdr ++ fl ++ attrs) 4) with (Ok table8). cbn [mbind res_bind Z.eqb Pos.eqb negb or_else].
  unfold u32n_at. rewrite (slice_from_app hdr (fl ++ attrs) 8) by done. cbn [mbind res_bind].
  unfold u32n. rewrite slice_to_app by done. cbn [mbind res_bind]. rewrite Hclone. cbn [Z.eqb negb mbind res_bind].
  replace (if (if net_is_ipv6 p then AF_INET6 else AF_INET) =? AF_INET then 4 else 16) with width
    by (subst width; unfold net_width; by destruct (net_is_ipv6 p)).
  rewrite leb_true by (apply net_prefix_width). cbn [ensure mbind res_bind].
  rewrite app_assoc, slice_from_app by (rewrite len_app; change (len hdr) with 8; lia). cbn [mbind res_bind].
  apply bind_ok_inv in Hit as (s & -> & Es). cbn [mbind res_bind]. unfold route_fields in Es.
  assert (Est : rs_table s = table) by congruence.
  assert (Esd : rs_dst s = net_octets p ++ drop (Z.to_nat width) (replicate 16 0)) by congruence.
  assert (Esh : rs_has_dst s = true) by congruence.
  rewrite Est, Esd, Esh, orb_true_r. cbn [ensure mbind res_bind].
  case_bool_decide; cbn [negb]; [|done].
  subst width. rewrite route_address. cbn [mbind res_bind].
  destruct (route_prefix p) as (m & -> & Etr). by rewrite Etr.
Qed.
End route.
