(* ===== verification/Dump.v ===== *)
(** * src/src/netlink.rs: notifications, dumps, snapshots and filtering

    Sockets enter as the sequence of results of their [recv] calls. *)
From S2P Require Import Prelude Net Config Netsock Netlink.

Section dumps.
Context (big : bool) {api : IpNetApi}.

(** ** [drain] *)
Record Events := mkEvents { ev_changed : bool; ev_lost : bool; ev_datagrams : Z }.
Definition no_events : Events := mkEvents false false 0.

(** The closure of [drain]. *)
Definition event_message (ev : Events) (m : Message) : Events * res unit :=
  (if (kind m =? 4) || (kind m =? 2) then mkEvents (ev_changed ev) true (ev_datagrams ev)
   else if contains_range 16 28 (kind m) || contains_range 104 106 (kind m)
   then mkEvents true (ev_lost ev) (ev_datagrams ev)
   else ev, Ok tt).
(** At most [fuel] calls of [recv]; returns the calls not made. When the script
    ends nothing is queued. *)
Fixpoint drain_loop (fuel : nat) (script : list Recv) (ev : Events) : res (Events * list Recv) :=
  match fuel, script with
  | O, _ | _, [] => Ok (ev, script)
  | S fuel, r :: script =>
      match r with
      | Datagram bytes =>
          let ev := mkEvents (ev_changed ev) (ev_lost ev) (ev_datagrams ev + 1) in
          if len bytes =? 0 then Ok (mkEvents (ev_changed ev) true (ev_datagrams ev), script) else
          let '(ev, result) := messages big event_message bytes ev in
          match result with
          | Ok _ => drain_loop fuel script ev
          | Err _ => drain_loop fuel script (mkEvents (ev_changed ev) true (ev_datagrams ev))
          | Panic => Panic
          | Fuel => Fuel
          end
      | WouldBlock => Ok (ev, script)
      | Interrupted => drain_loop fuel script ev
      | RecvError _ => Ok (mkEvents (ev_changed ev) true (ev_datagrams ev), script)
      end
  end.
Definition drain (script : list Recv) : res (Events * list Recv) := drain_loop 128 script no_events.

(** ** Dumps *)
Definition dump_status (payload : list Z) (saw_route : bool) : res unit :=
  if is_empty payload then Ok tt else
  _ ← ensure (4 <=? len payload) "short netlink dump status";
  code ← u32n big payload;
  let code := as_i32 code in
  ensure ((code =? 0) || ((code =? - ENOENT) && negb saw_route)) "netlink dump failed: {}".

(** The variables the closure of [snapshot] captures. *)
Record DumpState := mkDump { ds_done : bool; ds_saw_route : bool; ds_result : Prefixes }.
(** The closure: one message of the dump tagged [sq]. *)
Definition dump_message (cfg : Config) (sq : Z) (s : DumpState) (m : Message) : DumpState * res unit :=
  let set_done s := mkDump true (ds_saw_route s) (ds_result s) in
  let checks := _ ← ensure (seq m =? sq) "unexpected dump sequence";
                ensure (Z.land (flags m) NLM_F_DUMP_INTR =? 0) "interrupted netlink dump" in
  match checks with
  | Ok _ =>
      if kind m =? NLMSG_DONE then
        match dump_status (payload m) (ds_saw_route s) with
        | Ok _ => (set_done s, Ok tt)
        | r => (s, r)
        end
      else if kind m =? 2 then
        match (_ ← ensure (4 <=? len (payload m)) "short NLMSG_ERROR"; u32n big (payload m)) with
        | Ok code =>
            let code := as_i32 code in
            if (code =? - ENOENT) && negb (ds_saw_route s) then (set_done s, Ok tt)
            else if negb (code =? 0) then (s, bail "netlink dump: {}") else (s, Ok tt)
        | Err e => (s, Err e)
        | Panic => (s, Panic)
        | Fuel => (s, Fuel)
        end
      else if kind m =? 4 then (s, bail "netlink dump overrun")
      else if kind m =? RTM_NEWROUTE then
        let s := mkDump (ds_done s) true (ds_result s) in
        match route big (payload m) (k_tables (c_kernel cfg)) with
        | Ok (Some prefix) =>
            let s := mkDump (ds_done s) true (ds_result s ∪ {[prefix]}) in
            (s, ensure (Z.of_nat (size (ds_result s)) <=? k_max_prefixes (c_kernel cfg))
                  "max_prefixes exceeded; refusing partial export")
        | Ok None => (s, Ok tt)
        | Err e => (s, Err e)
        | Panic => (s, Panic)
        | Fuel => (s, Fuel)
        end
      else (s, Ok tt)
  | r => (s, r)
  end.

(** The inner loop: at most [fuel] calls of [recv] on the dump socket. *)
Fixpoint dump_recv (cfg : Config) (sq : Z) (fuel : nat) (script : list Recv) (s : DumpState)
  : res (DumpState * list Recv) :=
  match fuel, script with
  | O, _ | _, [] => Ok (s, script)
  | S fuel, r :: script =>
      match r with
      | Datagram bytes =>
          _ ← ensure (negb (len bytes =? 0)) "empty dump datagram";
          let '(s, result) := messages big (dump_message cfg sq) bytes s in
          _ ← result;
          if ds_done s then Ok (s, script) else dump_recv cfg sq fuel script s
      | WouldBlock => Ok (s, script)
      | Interrupted => dump_recv cfg sq fuel script s
      | RecvError e => Err e
      end
  end.

(** One pass of [while !done]: the stop flag, the elapsed time, what each socket
    has queued, and the result of [poll]. *)
Record Pass := mkPass {
  pa_stop : bool;
  pa_elapsed_ms : Z;
  pa_events : list Recv;
  pa_dump : list Recv;
  pa_poll : res unit
}.
Definition dump_pass (cfg : Config) (sq : Z) (pass : Pass) (s : DumpState) (changed : bool)
  : res (DumpState * bool) :=
  _ ← ensure (negb (pa_stop pass)) "stopping";
  _ ← ensure (pa_elapsed_ms pass <? k_dump_timeout_secs (c_kernel cfg) * 1000)
        "netlink dump deadline exceeded";
  '(ev, _) ← drain (pa_events pass);
  _ ← ensure (negb (ev_lost ev)) "netlink notification loss during dump";
  let changed := changed || ev_changed ev in
  '(s, _) ← dump_recv cfg sq 128 (pa_dump pass) s;
  _ ← (if ds_done s then Ok tt else pa_poll pass);
  Ok (s, changed).
(** The loop consumes passes; [None] if the script ends first. *)
Fixpoint dump_table (cfg : Config) (sq : Z) (passes : list Pass) (s : DumpState) (changed : bool)
  : res (option (DumpState * bool * list Pass)) :=
  if ds_done s then Ok (Some (s, changed, passes)) else
  match passes with
  | [] => Ok None
  | pass :: passes =>
      '(s, changed) ← dump_pass cfg sq pass s changed;
      dump_table cfg sq passes s changed
  end.

(** [seq.wrapping_add(1).max(1)] *)
Definition next_seq (sq : Z) : Z := Z.max ((sq + 1) mod 2 ^ 32) 1.
(** The families and tables, in the order of the two loops. *)
Definition dumps (cfg : Config) : list (Z * Z) :=
  concat (map (fun family =>
    if (family =? AF_INET6) && negb (c_ipv6 cfg) then []
    else map (fun table => (family, table)) (k_tables (c_kernel cfg))) [AF_INET; AF_INET6]).
(** The state across dumps: prefixes, flag and passes to come. *)
Record SnapState := mkSnap { sn_result : Prefixes; sn_changed : bool; sn_passes : list Pass }.
(** One dump request and its loop. The sequence number is advanced in place, so it
    is returned beside the result, whatever that is; so are the requests sent. *)
Definition dump_one (cfg : Config) (sendto : list Z -> res Z) (sq : Z) (s : SnapState) (ft : Z * Z)
  : Z * list (list Z) * res (option SnapState) :=
  let sq := next_seq sq in
  (sq, [request big sq ft.1 ft.2],
   _ ← send_request sendto (request big sq ft.1 ft.2);
   r ← dump_table cfg sq (sn_passes s) (mkDump false false (sn_result s)) (sn_changed s);
   Ok (match r with
       | Some (d, changed, passes) => Some (mkSnap (ds_result d) changed passes)
       | None => None
       end)).
Fixpoint dump_all (cfg : Config) (sendto : list Z -> res Z) (sq : Z) (s : SnapState) (l : list (Z * Z))
  : Z * list (list Z) * res (option SnapState) :=
  match l with
  | [] => (sq, [], Ok (Some s))
  | ft :: l =>
      let '(sq, reqs, r) := dump_one cfg sendto sq s ft in
      match r with
      | Ok (Some s) =>
          let '(sq, reqs', r) := dump_all cfg sendto sq s l in
          (sq, reqs ++ reqs', r)
      | r => (sq, reqs, r)
      end
  end.
(** [snapshot]; [os] is what the socket set-up's calls return, [last] what the event
    socket has queued at the end. *)
Definition snapshot (cfg : Config) (os : NlOp -> res unit) (sendto : list Z -> res Z) (sq : Z) (passes : list Pass) (last : list Recv)
  : Z * list (list Z) * res (option (Prefixes * bool)) :=
  match (open_dump os cfg).2 with
  | Ok _ =>
      let '(sq, reqs, r) := dump_all cfg sendto sq (mkSnap ∅ false passes) (dumps cfg) in
      (sq, reqs,
       r ← r;
       match r with
       | None => Ok None
       | Some s =>
           '(ev, _) ← drain last;
           _ ← ensure (negb (ev_lost ev)) "netlink notification loss at end of dump";
           Ok (Some (sn_result s, sn_changed s || ev_changed ev))
       end)
  | Err e => (sq, [], Err e)
  | Panic => (sq, [], Panic)
  | Fuel => (sq, [], Fuel)
  end.

(** ** [filter] *)
(** [cfg.acls[name]] panics when the ACL does not exist. The set of names is
    visited in one fixed order; the resulting map does not depend on it. *)
Definition permitted (acl : Acl) (prefixes : Prefixes) : Prefixes :=
  filter (fun p => permits acl p = true) prefixes.
Definition filter_exports (cfg : Config) (prefixes : Prefixes) : res Exports :=
  for_fold (fun (out : Exports) name =>
      acl ← unwrap (c_acls cfg !! name);
      Ok (<[name := permitted acl prefixes]> out))
    ∅ (elements (list_to_set (map p_export_acl (c_peers cfg)) : gset string)).

(** ** Specification *)
(** The prefix a message of the dump carries. *)
Definition message_route (cfg : Config) (m : Message) : option IpNet :=
  if kind m =? RTM_NEWROUTE then
    match route big (payload m) (k_tables (c_kernel cfg)) with Ok (Some prefix) => Some prefix | _ => None end
  else None.
(** The messages of a read. *)
Definition datagram_messages (r : Recv) : list Message :=
  match r with Datagram bytes => messages_of big bytes | _ => [] end.
Definition is_route (m : Message) : bool := kind m =? RTM_NEWROUTE.
(** The status code a message carries in its first four bytes. *)
Definition has_code (m : Message) (code : Z) : Prop := exists x, u32n big (payload m) = Ok x /\ as_i32 x = code.
(** A message of dump [sq] that leaves it intact; [saw]: a route came before it. A
    status other than success is only "no such table", and only without a route. *)
Record message_consistent (tables : list Z) (sq : Z) (saw : bool) (m : Message) : Prop := {
  mc_seq : seq m = sq;
  mc_interrupted : Z.land (flags m) NLM_F_DUMP_INTR = 0;
  mc_overrun : kind m <> 4;
  mc_done : kind m = NLMSG_DONE -> payload m = [] \/ has_code m 0 \/ has_code m (- ENOENT) /\ saw = false;
  mc_error : kind m = 2 -> has_code m 0 \/ has_code m (- ENOENT) /\ saw = false;
  mc_route : is_route m = true -> exists net, route big (payload m) tables = Ok net
}.
Fixpoint stream_consistent (tables : list Z) (sq : Z) (saw : bool) (ms : list Message) : Prop :=
  match ms with
  | [] => True
  | m :: ms => message_consistent tables sq saw m /\ stream_consistent tables sq (saw || is_route m) ms
  end.
(** The messages that complete a dump. *)
Definition ends_dump (m : Message) : Prop := kind m = NLMSG_DONE \/ kind m = 2 /\ has_code m (- ENOENT).
(** A datagram is a sequence of whole messages. *)
Definition walked (bytes : list Z) : Prop := (messages big collect bytes []).2 = Ok tt.
Definition whole_read (r : Recv) : Prop :=
  match r with Datagram bytes => bytes <> [] /\ walked bytes | RecvError _ => False | _ => True end.
Definition reads_messages (reads : list Recv) : list Message := concat (map datagram_messages reads).
(** What the pass saw on the event socket. *)
Definition pass_events (script : list Recv) : option Events :=
  match drain script with Ok (ev, _) => Some ev | _ => None end.
Definition pass_changed (script : list Recv) : bool :=
  match pass_events script with Some ev => ev_changed ev | None => false end.
Definition pass_lost (script : list Recv) : bool :=
  match pass_events script with Some ev => ev_lost ev | None => true end.
Definition pass_ok (p : Pass) : Prop :=
  Forall recv_ok (pa_events p) /\ Forall recv_ok (pa_dump p) /\ total (pa_poll p).
(** A pass in terms of what the system calls return. *)
Record RawPass := mkRawPass {
  rp_stop : bool;
  rp_elapsed_ms : Z;
  rp_events : list RawRecv;
  rp_dump : list RawRecv;
  rp_poll : PollResult
}.
Definition pass_of (p : RawPass) : Pass :=
  mkPass (rp_stop p) (rp_elapsed_ms p) (map recv (rp_events p)) (map recv (rp_dump p)) (poll (rp_poll p)).
Definition raw_pass_ok (p : RawPass) : Prop := Forall raw_ok (rp_events p) /\ Forall raw_ok (rp_dump p).
(** One complete dump: its passes, each with the reads it made of the dump socket.
    Every pass ran before the deadline with no stop request and no notification
    loss; every datagram was read whole, no read failed; every message carried the
    sequence number [sq], none reported an interruption, an overrun or an error, every
    route was decoded, and a message completed the dump. *)
Record complete_dump (cfg : Config) (sq : Z) (run : list (Pass * list Recv)) : Prop := {
  cd_reads : Forall (fun pr => pr.2 `prefix_of` pa_dump pr.1) run;
  cd_live : Forall (fun pr => pa_stop pr.1 = false /\
              pa_elapsed_ms pr.1 < k_dump_timeout_secs (c_kernel cfg) * 1000 /\
              pass_lost (pa_events pr.1) = false) run;
  cd_whole : Forall whole_read (concat run.*2);
  cd_messages : stream_consistent (k_tables (c_kernel cfg)) sq false (reads_messages (concat run.*2));
  cd_ends : Exists ends_dump (reads_messages (concat run.*2))
}.
Definition run_routes (cfg : Config) (run : list (Pass * list Recv)) : list IpNet :=
  omap (message_route cfg) (reads_messages (concat run.*2)).
(** The sequence numbers of the successive dumps after [sq]. *)
Fixpoint dump_seqs (sq : Z) (l : list (Z * Z)) : list Z :=
  match l with [] => [] | _ :: l => next_seq sq :: dump_seqs (next_seq sq) l end.
Definition run_changed (run : list (Pass * list Recv)) : bool :=
  existsb (fun p => pass_changed (pa_events p)) run.*1.
End dumps.

(** * Theorems *)
Section dump.
Context (big : bool) {api : IpNetApi} {laws : IpNetLaws}.

Lemma collect_acc fuel bytes acc :
  messages_loop big fuel collect bytes acc =
    (acc ++ (messages_loop big fuel collect bytes []).1, (messages_loop big fuel collect bytes []).2).
Proof.
  revert bytes acc. induction fuel as [|fuel IH]; intros bytes acc; simpl; [by rewrite app_nil_r|].
  destruct (is_empty bytes); [simpl; by rewrite app_nil_r|].
  destruct (message_head big bytes) as [[m l]|e| |]; simpl; try (by rewrite app_nil_r).
  destruct (message_rest bytes l) as [[rest|]|e| |]; simpl; try done.
  rewrite (IH rest (acc ++ [m])), (IH rest [m]). simpl. by rewrite <- app_assoc.
Qed.

(** A walk is the closure run on the messages of the datagram. *)
Lemma messages_collect {S} (f : S -> Message -> S * res unit) bytes s :
  messages big f bytes s =
    let '(s', r) := fold_messages f (messages_of big bytes) s in
    match r with Ok _ => (s', (messages big collect bytes []).2) | r => (s', r) end.
Proof.
  unfold messages_of, messages. generalize (Datatypes.S (length bytes)) as fuel. intros fuel.
  revert bytes s. induction fuel as [|fuel IH]; intros bytes s; simpl; [done|].
  destruct (is_empty bytes); [done|].
  destruct (message_head big bytes) as [[m l]|e| |]; simpl; try done.
  destruct (f s m) as [s' [u|e| |]] eqn:Ef.
  - destruct (message_rest bytes l) as [[rest|]|e| |]; simpl; rewrite ?Ef; try done.
    rewrite (collect_acc fuel rest [m]). simpl. rewrite Ef. rewrite IH.
    by destruct (fold_messages f _ s') as [s'' [u'|e| |]].
  - destruct (message_rest bytes l) as [[rest|]|e'| |]; simpl; rewrite ?Ef; try done.
    rewrite (collect_acc fuel rest [m]). simpl. by rewrite Ef.
  - destruct (message_rest bytes l) as [[rest|]|e'| |]; simpl; rewrite ?Ef; try done.
    rewrite (collect_acc fuel rest [m]). simpl. by rewrite Ef.
  - destruct (message_rest bytes l) as [[rest|]|e'| |]; simpl; rewrite ?Ef; try done.
    rewrite (collect_acc fuel rest [m]). simpl. by rewrite Ef.
Qed.

(** The kinds [drain] reacts to. *)
Definition is_loss (m : Message) : bool := (kind m =? 4) || (kind m =? 2).
Definition is_change (m : Message) : bool :=
  negb (is_loss m) && (contains_range 16 28 (kind m) || contains_range 104 106 (kind m)).
(** A [recv] result that loses notifications. *)
Definition loses (r : Recv) : Prop :=
  match r with
  | Datagram bytes => bytes = [] \/ ~ walked big bytes \/ exists m, m ∈ messages_of big bytes /\ is_loss m = true
  | RecvError _ => True
  | _ => False
  end.
Definition changes (r : Recv) : Prop :=
  match r with Datagram bytes => exists m, m ∈ messages_of big bytes /\ is_change m = true | _ => False end.

Lemma fold_events ms ev :
  fold_messages event_message ms ev =
    (mkEvents (ev_changed ev || existsb is_change ms) (ev_lost ev || existsb is_loss ms) (ev_datagrams ev), Ok tt).
Proof.
  revert ev. induction ms as [|m ms IH]; intros ev; simpl; [by rewrite !orb_false_r; destruct ev|].
  rewrite IH. unfold is_change, is_loss.
  destruct ((kind m =? 4) || (kind m =? 2)); cbn [negb andb orb ev_changed ev_lost ev_datagrams].
  - f_equal. f_equal. by rewrite orb_true_r.
  - destruct (contains_range 16 28 (kind m) || contains_range 104 106 (kind m));
      cbn [ev_changed ev_lost ev_datagrams orb]; rewrite ?orb_true_r; done.
Qed.

Lemma existsb_elem_of {A} (f : A -> bool) l : existsb f l = true <-> exists x, x ∈ l /\ f x = true.
Proof. rewrite existsb_exists. by setoid_rewrite list_elem_of_In. Qed.

Lemma collect_total bytes : bytes_ok bytes -> total (messages big collect bytes []).2.
Proof. intros Hb. by apply (messages_wp big (fun _ => True)). Qed.

Definition count_datagrams (l : list Recv) : Z :=
  len (List.filter (fun r => match r with Datagram _ => true | _ => false end) l).

(** [ev'] is what [ev] becomes when the results [used] are read. *)
Definition drained (ev : Events) (used : list Recv) (ev' : Events) : Prop :=
  (ev_lost ev' = true <-> ev_lost ev = true \/ Exists loses used) /\
  (ev_changed ev' = true <-> ev_changed ev = true \/ Exists changes used) /\
  ev_datagrams ev' = ev_datagrams ev + count_datagrams used.
Lemma drained_nil ev : drained ev [] ev.
Proof. unfold drained, count_datagrams, len. rewrite !Exists_nil. simpl. split_and!; [tauto|tauto|lia]. Qed.
Lemma drained_one ev r ev' :
  (ev_lost ev' = true <-> ev_lost ev = true \/ loses r) ->
  (ev_changed ev' = true <-> ev_changed ev = true \/ changes r) ->
  ev_datagrams ev' = ev_datagrams ev + count_datagrams [r] -> drained ev [r] ev'.
Proof. intros H1 H2 H3. unfold drained. rewrite H1, H2, !Exists_cons, !Exists_nil. tauto. Qed.
Lemma drained_cons ev r ev1 used ev' : drained ev [r] ev1 -> drained ev1 used ev' -> drained ev (r :: used) ev'.
Proof.
  intros (A1 & A2 & A3) (B1 & B2 & B3). unfold drained. rewrite B1, B2, B3, A1, A2, A3.
  rewrite !Exists_cons, !Exists_nil. unfold count_datagrams, len.
  split_and!; [tauto|tauto|]. destruct r; simpl; lia.
Qed.
(** The events after one datagram, its loss flag apart. *)
Lemma drained_datagram ev bytes lost :
  (lost = true <-> ev_lost ev = true \/ loses (Datagram bytes)) ->
  drained ev [Datagram bytes]
    (mkEvents (ev_changed ev || existsb is_change (messages_of big bytes)) lost (ev_datagrams ev + 1)).
Proof.
  intros Hl. apply drained_one; cbn [ev_lost ev_changed ev_datagrams changes];
    [done|by rewrite orb_true_iff, existsb_elem_of|done].
Qed.

Lemma drain_loop_spec fuel script ev :
  Forall recv_ok script ->
  exists ev' used rest, drain_loop big fuel script ev = Ok (ev', rest) /\ script = used ++ rest /\
    (length used <= fuel)%nat /\ drained ev used ev'.
Proof.
  revert script ev. induction fuel as [|fuel IH]; intros script ev Hok.
  { exists ev, [], script. split_and!; try done. apply drained_nil. }
  destruct script as [|r script].
  { exists ev, [], []. split_and!; try done; [simpl; lia|apply drained_nil]. }
  apply Forall_cons in Hok as [Hr Hok].
  assert (Hstep : forall ev1, drained ev [r] ev1 -> exists ev' used rest,
      drain_loop big fuel script ev1 = Ok (ev', rest) /\ r :: script = used ++ rest /\
      (length used <= S fuel)%nat /\ drained ev used ev').
  { intros ev1 H1. destruct (IH script ev1 Hok) as (ev' & used & rest & E & -> & Hlen & Hd).
    exists ev', (r :: used), rest. split_and!; [done|done|simpl; lia|by eapply drained_cons]. }
  destruct r as [bytes| | |e]; cbn [drain_loop].
  - cbn [recv_ok] in Hr. destruct (Z.eqb_spec (len bytes) 0) as [E|E].
    { apply len_zero in E as ->. eexists _, [Datagram []], script. split_and!; [done|done|simpl; lia|].
      apply drained_one; cbn [ev_lost ev_changed]; [simpl; tauto| |done].
      simpl. split; [tauto|]. intros [|(m & Hm & _)]; [done|]. by apply not_elem_of_nil in Hm. }
    rewrite messages_collect, fold_events. cbn [ev_changed ev_lost ev_datagrams].
    pose proof (collect_total bytes Hr) as Ht.
    assert (Hne : bytes <> []) by (by intros ->).
    destruct (messages big collect bytes []).2 as [[]|e| |] eqn:Ew; try done;
      apply Hstep, drained_datagram; cbn [loses]; unfold walked; rewrite Ew.
    + rewrite orb_true_iff, existsb_elem_of. tauto.
    + split; [intros _|done]. right. right. by left.
  - exists ev, [WouldBlock], script. split_and!; try done; [simpl; lia|]. by apply drained_one; simpl; [tauto..|unfold count_datagrams, len; simpl; lia].
  - apply Hstep. by apply drained_one; simpl; [tauto..|unfold count_datagrams, len; simpl; lia].
  - eexists _, [RecvError e], script. split_and!; try done; [simpl; lia|].
    by apply drained_one; simpl; [tauto..|unfold count_datagrams, len; simpl; lia].
Qed.

(** Notification passes are bounded and miss nothing: [drain] never panics and
    makes at most 128 reads; it reports a loss exactly when a read failed, was
    empty, could not be walked, or carried an overrun or error message, and a change
    exactly when some datagram read carried a route, address or link notification. *)
Theorem drain_spec script :
  Forall recv_ok script ->
  exists ev used rest, drain big script = Ok (ev, rest) /\ script = used ++ rest /\ len used <= 128 /\
    (ev_lost ev = true <-> Exists loses used) /\ (ev_changed ev = true <-> Exists changes used) /\
    ev_datagrams ev = count_datagrams used.
Proof.
  intros Hok. destruct (drain_loop_spec 128 script no_events Hok) as (ev & used & rest & H1 & H2 & H3 & H4 & H5 & H6).
  exists ev, used, rest. split_and!; try done.
  - unfold len. lia.
  - rewrite H4. cbn. split; [by intros [|]|by right].
  - rewrite H5. cbn. split; [by intros [|]|by right].
Qed.

(** *** Snapshots *)
Variable cfg : Config.
Let limit := k_max_prefixes (c_kernel cfg).

Lemma wp_dump_status pl saw : bytes_ok pl -> total (dump_status big pl saw).
Proof.
  intros Hb. unfold dump_status, total. destruct (is_empty pl); [done|].
  apply wp_bind, wp_ensure; [intros Hl|done]. apply wp_bind, wp_u32n; [done|lia|intros code _].
  by apply wp_ensure.
Qed.

(** What one message may do to the variables of the dump. *)
Definition message_effect (sq : Z) (m : Message) (s s' : DumpState) : Prop :=
  message_consistent big (k_tables (c_kernel cfg)) sq (ds_saw_route s) m /\
  ds_saw_route s' = ds_saw_route s || is_route m /\
  ds_result s' = ds_result s ∪ list_to_set (option_list (message_route big cfg m)) /\
  (Z.of_nat (size (ds_result s)) <= limit -> Z.of_nat (size (ds_result s')) <= limit) /\
  (ds_done s' = true -> ds_done s = true \/ ends_dump big m).

Lemma no_route m s : is_route m = false -> ds_result s = ds_result s ∪ list_to_set (option_list (message_route big cfg m)).
Proof. unfold is_route, message_route. intros ->. simpl. set_solver. Qed.

Lemma status_done pl saw :
  dump_status big pl saw = Ok tt ->
  pl = [] \/ exists x, u32n big pl = Ok x /\ (as_i32 x = 0 \/ as_i32 x = - ENOENT /\ saw = false).
Proof.
  unfold dump_status. destruct (is_empty pl) eqn:E; [left; by apply is_empty_true|]. intros H.
  apply bind_ok_inv in H as ([] & _ & H). apply bind_ok_inv in H as (x & Hx & H). right. exists x. split; [done|].
  apply ensure_ok_inv in H. destruct saw; cbn [negb] in H; [left|destruct (Z.eqb_spec (as_i32 x) 0); [by left|right; split; [|done]]]; lia.
Qed.

Lemma dump_message_spec sq s m :
  bytes_ok (payload m) ->
  total (dump_message big cfg sq s m).2 /\
  ((dump_message big cfg sq s m).2 = Ok tt -> message_effect sq m s (dump_message big cfg sq s m).1).
Proof.
  intros Hb. unfold dump_message, message_effect.
  destruct (Z.eqb_spec (seq m) sq) as [Hs|]; cbn [ensure bail mbind res_bind fst snd]; [|by split_and!].
  destruct (Z.eqb_spec (Z.land (flags m) NLM_F_DUMP_INTR) 0) as [Hi|]; cbn [ensure bail fst snd]; [|by split_and!].
  assert (Hother : is_route m = false -> forall d, ds_result (mkDump d (ds_saw_route s) (ds_result s)) =
    ds_result s ∪ list_to_set (option_list (message_route big cfg m))) by (intros Hr d; exact (no_route m s Hr)).
  destruct (Z.eqb_spec (kind m) NLMSG_DONE) as [Hk|Hk3].
  { assert (Hr : is_route m = false) by (unfold is_route; by rewrite Hk).
    pose proof (wp_dump_status (payload m) (ds_saw_route s) Hb) as Ht.
    destruct (dump_status big (payload m) (ds_saw_route s)) as [[]|e| |] eqn:Eds; try done; cbn [fst snd].
    split; [done|]. intros _. apply status_done in Eds. split_and!; [|by rewrite Hr, orb_false_r|by apply Hother|done|right; by left].
    split; try done; [by rewrite Hk| |by rewrite Hk|by rewrite Hr].
    intros _. unfold has_code. destruct Eds as [?|(x & Hx & [?|[? ?]])]; [by left|right; left; by exists x|right; right; split; [by exists x|done]]. }
  destruct (Z.eqb_spec (kind m) 2) as [Hk|Hk2].
  { assert (Hr : is_route m = false) by (unfold is_route; by rewrite Hk).
    assert (Hw : total (_ ← ensure (4 <=? len (payload m)) "short NLMSG_ERROR"; u32n big (payload m))).
    { apply wp_bind, wp_ensure; [intros Hl|done]. by apply wp_u32n; [|lia|]. }
    destruct (_ ← ensure _ _; u32n _ _) as [code|e| |] eqn:Ec; try done; cbn [fst snd].
    apply bind_ok_inv in Ec as (? & _ & Ec).
    assert (Hc : has_code big m 0 \/ has_code big m (- ENOENT) /\ ds_saw_route s = false ->
      message_consistent big (k_tables (c_kernel cfg)) sq (ds_saw_route s) m).
    { intros H. split; try done; [by rewrite Hk|by rewrite Hr]. }
    destruct ((as_i32 code =? - ENOENT) && _) eqn:Een; cbn [fst snd].
    - apply andb_true_iff in Een as [Een Hsaw%negb_true_iff]. apply Z.eqb_eq in Een.
      assert (Hcode : has_code big m (- ENOENT)) by by exists code.
      split; [done|]. intros _. split_and!; [apply Hc; by right|by rewrite Hr, orb_false_r|by apply Hother|done|].
      intros _. right. by right.
    - destruct (Z.eqb_spec (as_i32 code) 0) as [Hz|]; cbn [negb fst snd bail]; [|by split_and!].
      split; [done|]. intros _.
      split_and!; [apply Hc; left; by exists code|by rewrite Hr, orb_false_r|exact (no_route m s Hr)|done|by left]. }
  destruct (Z.eqb_spec (kind m) 4) as [Hk|]; [by split_and!|].
  destruct (Z.eqb_spec (kind m) RTM_NEWROUTE) as [Hk|Hk].
  - assert (Hr : is_route m = true) by (unfold is_route; by apply Z.eqb_eq).
    pose proof (wp_route big (payload m) (k_tables (c_kernel cfg)) Hb) as Ht. unfold message_route. fold (is_route m). rewrite Hr.
    destruct (route big (payload m) (k_tables (c_kernel cfg))) as [[net|]|e| |] eqn:Er; try done; cbn [fst snd].
    + split; [by destruct (_ <=? _)|]. intros Hen%ensure_ok_inv.
      split_and!; [split; try done; by eexists|by rewrite orb_true_r|simpl; set_solver| |by left].
      intros _. simpl in Hen |- *. subst limit. lia.
    + split; [done|]. intros _. split_and!; [split; try done; by eexists|by rewrite orb_true_r|simpl; set_solver|done|by left].
  - assert (Hr : is_route m = false) by (unfold is_route; by apply Z.eqb_neq).
    split; [done|]. intros _. split_and!; [split; try done; by rewrite Hr|by rewrite Hr, orb_false_r|exact (no_route m s Hr)|done|by left].
Qed.

(** What reading [ms] does to the variables of the dump. *)
Definition dump_effect (sq : Z) (ms : list Message) (s s' : DumpState) : Prop :=
  stream_consistent big (k_tables (c_kernel cfg)) sq (ds_saw_route s) ms /\
  ds_saw_route s' = ds_saw_route s || existsb is_route ms /\
  ds_result s' = ds_result s ∪ list_to_set (omap (message_route big cfg) ms) /\
  (Z.of_nat (size (ds_result s)) <= limit -> Z.of_nat (size (ds_result s')) <= limit) /\
  (ds_done s' = true -> ds_done s = true \/ Exists (ends_dump big) ms).

Lemma dump_effect_nil sq s : dump_effect sq [] s s.
Proof. split_and!; [done|simpl; by rewrite orb_false_r|simpl; set_solver|done|by left]. Qed.

Lemma stream_consistent_app tables sq saw ms1 ms2 :
  stream_consistent big tables sq saw (ms1 ++ ms2) <->
  stream_consistent big tables sq saw ms1 /\ stream_consistent big tables sq (saw || existsb is_route ms1) ms2.
Proof.
  revert saw. induction ms1 as [|m ms1 IH]; intros saw; cbn [app stream_consistent existsb]; [rewrite orb_false_r; tauto|].
  rewrite IH, orb_assoc. tauto.
Qed.

Lemma dump_effect_app sq ms1 ms2 s1 s2 s3 :
  dump_effect sq ms1 s1 s2 -> dump_effect sq ms2 s2 s3 -> dump_effect sq (ms1 ++ ms2) s1 s3.
Proof.
  intros (A1 & A0 & A2 & A3 & A4) (B1 & B0 & B2 & B3 & B4). split_and!.
  - apply stream_consistent_app. by rewrite <- A0.
  - by rewrite B0, A0, existsb_app, orb_assoc.
  - rewrite B2, A2, omap_app. set_solver.
  - auto.
  - intros H. rewrite Exists_app. destruct (B4 H) as [H'|]; [|by auto]. destruct (A4 H'); auto.
Qed.

Lemma fold_dump sq ms s :
  Forall (fun m => bytes_ok (payload m)) ms ->
  total (fold_messages (dump_message big cfg sq) ms s).2 /\
  ((fold_messages (dump_message big cfg sq) ms s).2 = Ok tt ->
    dump_effect sq ms s (fold_messages (dump_message big cfg sq) ms s).1).
Proof.
  intros Hms. revert s. induction Hms as [|m ms Hm _ IH]; intros s.
  { simpl. split; [done|]. intros _. apply dump_effect_nil. }
  cbn [fold_messages]. destruct (dump_message_spec sq s m Hm) as (Ht & Hr).
  destruct (dump_message big cfg sq s m) as [s' [[]|e| |]]; try done; cbn [fst snd] in *.
  destruct (IH s') as (Ht' & H'). split; [done|]. intros Hok.
  apply (dump_effect_app sq [m] ms s s'); [|by apply H'].
  destruct (Hr eq_refl) as (? & ? & ? & ? & Hd). split_and!.
  - by split.
  - cbn [existsb]. by rewrite orb_false_r.
  - cbn [omap list_omap]. by destruct (message_route big cfg m).
  - done.
  - intros Hdn. rewrite Exists_cons. destruct (Hd Hdn); auto.
Qed.

Lemma messages_of_ok bytes : bytes_ok bytes -> Forall (fun m => bytes_ok (payload m)) (messages_of big bytes).
Proof.
  intros Hb. unfold messages_of.
  apply (messages_wp big (fun ms => Forall (fun m => bytes_ok (payload m)) ms)); [done|by apply Forall_nil|].
  intros ms m Hms Hm. simpl. split; [|done]. apply Forall_app. split; [done|by apply Forall_singleton].
Qed.

Lemma reads_effect_cons sq r used ms s1 s2 s3 :
  datagram_messages big r = ms -> dump_effect sq ms s1 s2 -> dump_effect sq (reads_messages big used) s2 s3 ->
  dump_effect sq (reads_messages big (r :: used)) s1 s3.
Proof. intros <-. unfold reads_messages. cbn [map concat]. apply dump_effect_app. Qed.

Lemma dump_recv_spec sq fuel script s :
  Forall recv_ok script ->
  wp (dump_recv big cfg sq fuel script s)
    (fun r => exists used, script = used ++ r.2 /\ Forall (whole_read big) used /\
       dump_effect sq (reads_messages big used) s r.1)
    (fun _ => True).
Proof.
  revert script s. induction fuel as [|fuel IH]; intros script s Hok; cbn [dump_recv].
  { exists []. split_and!; [done|by apply Forall_nil|apply dump_effect_nil]. }
  destruct script as [|r script].
  { exists []. split_and!; [done|by apply Forall_nil|apply dump_effect_nil]. }
  apply Forall_cons in Hok as [Hr Hok].
  destruct r as [bytes| | |e].
  - cbn [recv_ok] in Hr. apply wp_bind, wp_ensure; [intros Hne|done].
    rewrite messages_collect. pose proof (fold_dump sq (messages_of big bytes) s (messages_of_ok bytes Hr)) as [Ht Hf].
    pose proof (collect_total bytes Hr) as Hc.
    destruct (fold_messages (dump_message big cfg sq) (messages_of big bytes) s) as [s' [[]|e| |]]; try done.
    cbn [fst snd] in *. destruct (messages big collect bytes []).2 as [[]|e| |] eqn:Ew; try done.
    assert (Hw : whole_read big (Datagram bytes)) by (split; [intros ->; done|exact Ew]).
    cbn [mbind res_bind]. specialize (Hf eq_refl). destruct (ds_done s').
    + exists [Datagram bytes]. split_and!; [done|by apply Forall_singleton|].
      eapply reads_effect_cons; [done|exact Hf|apply dump_effect_nil].
    + eapply wp_post; [by apply IH|]. intros r' (used & -> & Hwh & He). exists (Datagram bytes :: used).
      split_and!; [done|by apply Forall_cons|]. by eapply reads_effect_cons.
  - exists [WouldBlock]. split_and!; [done|by apply Forall_singleton|]. apply dump_effect_nil.
  - eapply wp_post; [by apply IH|]. intros r' (used & -> & Hwh & He). exists (Interrupted :: used).
    split_and!; [done|by apply Forall_cons|done].
  - done.
Qed.

Lemma drain_wp script :
  Forall recv_ok script ->
  wp (drain big script) (fun r => ev_changed r.1 = pass_changed big script /\ ev_lost r.1 = pass_lost big script) (fun _ => False).
Proof.
  intros Hok. unfold pass_changed, pass_lost, pass_events.
  destruct (drain_loop_spec 128 script no_events Hok) as (ev & used & rest & H1 & _).
  change (drain big script) with (drain_loop big 128 script no_events). by rewrite H1.
Qed.

Lemma dump_pass_spec sq p s changed :
  pass_ok p ->
  wp (dump_pass big cfg sq p s changed)
    (fun r => exists used, used `prefix_of` pa_dump p /\ Forall (whole_read big) used /\ dump_effect sq (reads_messages big used) s r.1 /\
       r.2 = changed || pass_changed big (pa_events p) /\
       pa_stop p = false /\ pa_elapsed_ms p < k_dump_timeout_secs (c_kernel cfg) * 1000 /\
       pass_lost big (pa_events p) = false)
    (fun _ => True).
Proof.
  intros (He & Hd & Hp). unfold dump_pass. apply wp_bind, wp_ensure; [intros Hs|done].
  apply wp_bind, wp_ensure; [intros Ht|done]. apply wp_bind. eapply wp_mono; [by apply drain_wp| |done].
  intros [ev rest] [Hc Hl]. cbn [fst] in Hc, Hl. apply wp_bind, wp_ensure; [intros Hlost|done].
  apply wp_bind. eapply wp_post; [by apply dump_recv_spec|]. intros [s' rest'] (used & Hu & Hwh & Hef). cbn [fst snd] in *.
  apply wp_bind. assert (Hpoll : total (if ds_done s' then Ok tt else pa_poll p)) by by destruct (ds_done s').
  eapply wp_post; [exact Hpoll|]. intros _ _. exists used. cbn [fst snd]. split_and!; [by eexists|done|done|congruence|by destruct (pa_stop p)|lia|].
  rewrite <- Hl. by destruct (ev_lost ev).
Qed.

Lemma dump_table_spec sq passes s changed :
  Forall pass_ok passes ->
  wp (dump_table big cfg sq passes s changed)
    (fun r => forall s' changed' rest, r = Some (s', changed', rest) ->
       exists run, passes = run.*1 ++ rest /\
         Forall (fun pr => pr.2 `prefix_of` pa_dump pr.1) run /\ Forall (whole_read big) (concat run.*2) /\
         Forall (fun pr => pa_stop pr.1 = false /\
              pa_elapsed_ms pr.1 < k_dump_timeout_secs (c_kernel cfg) * 1000 /\
              pass_lost big (pa_events pr.1) = false) run /\
         dump_effect sq (reads_messages big (concat run.*2)) s s' /\ ds_done s' = true /\
         changed' = changed || run_changed big run)
    (fun _ => True).
Proof.
  intros Hok. revert s changed. induction Hok as [|p passes Hp Hok IH]; intros s changed; cbn [dump_table].
  { destruct (ds_done s) eqn:Hd; [|done]. intros s' c' rest [= <- <- <-]. exists [].
    split_and!; try done; try (by apply Forall_nil); [apply dump_effect_nil|by rewrite orb_false_r]. }
  destruct (ds_done s) eqn:Hd.
  { intros s' c' rest [= <- <- <-]. exists [].
    split_and!; try done; try (by apply Forall_nil); [apply dump_effect_nil|by rewrite orb_false_r]. }
  apply wp_bind. eapply wp_post; [by apply dump_pass_spec|].
  intros [s1 c1] (used & Hu & Hwh & Hef & Hc & Hlive). cbn [fst snd] in *.
  eapply wp_post; [apply IH|]. intros r Hr s' c' rest E.
  destruct (Hr s' c' rest E) as (run & -> & H1 & H0 & H2 & H3 & H4 & ->).
  exists ((p, used) :: run). split_and!; try done.
  - by apply Forall_cons.
  - cbn [fmap list_fmap concat snd]. by apply Forall_app.
  - by apply Forall_cons.
  - cbn [fmap list_fmap concat snd]. unfold reads_messages. rewrite map_app, concat_app.
    by apply (dump_effect_app sq _ _ s s1 s').
  - subst c1. unfold run_changed. cbn [fmap list_fmap fst existsb]. by rewrite orb_assoc.
Qed.

Lemma dump_effect_complete sq ms result s' :
  dump_effect sq ms (mkDump false false result) s' -> ds_done s' = true ->
  stream_consistent big (k_tables (c_kernel cfg)) sq false ms /\ Exists (ends_dump big) ms.
Proof. intros (H1 & _ & _ & _ & H4) Ht. split; [done|]. by destruct (H4 Ht). Qed.

Lemma dump_all_spec sendto l sq s :
  (forall req, total (sendto req)) -> Forall pass_ok (sn_passes s) ->
  let '(_, reqs, r) := dump_all big cfg sendto sq s l in
  wp r (fun r => forall s', r = Some s' ->
    exists runs, concat (map (fun run => run.*1) runs) ++ sn_passes s' = sn_passes s /\
      Forall2 (complete_dump big cfg) (dump_seqs sq l) runs /\
      reqs = zip_with (fun sq ft => request big sq ft.1 ft.2) (dump_seqs sq l) l /\
      sn_result s' = sn_result s ∪ list_to_set (concat (map (run_routes big cfg) runs)) /\
      (Z.of_nat (size (sn_result s)) <= limit -> Z.of_nat (size (sn_result s')) <= limit) /\
      sn_changed s' = sn_changed s || existsb (run_changed big) runs)
    (fun _ => True).
Proof.
  intros Hsent. revert sq s. induction l as [|ft l IH]; intros sq s Hok; cbn [dump_all].
  { intros s' [= <-]. exists []. split_and!; try done; [simpl; set_solver|by rewrite orb_false_r]. }
  unfold dump_one. pose proof (send_request_total sendto (request big (next_seq sq) ft.1 ft.2) (Hsent _)) as Hreq.
  destruct (send_request _ _) as [[]|e| |]; try done. cbn [mbind res_bind].
  pose proof (dump_table_spec (next_seq sq) (sn_passes s) (mkDump false false (sn_result s)) (sn_changed s) Hok) as Ht.
  destruct (dump_table _ _ _ _ _ _) as [[[[d c] rest]|]|e| |]; try done.
  destruct (Ht d c rest eq_refl) as (run & Hp & Hr & Hwh & Hlive & Hef & Hd & ->).
  cbn [mbind res_bind]. specialize (IH (next_seq sq) (mkSnap (ds_result d) (sn_changed s || run_changed big run) rest)).
  destruct (dump_all big cfg sendto (next_seq sq) _ l) as [[sq' reqs] r]. cbn [sn_passes sn_result sn_changed] in IH.
  eapply wp_post; [apply IH; rewrite Hp in Hok; by apply Forall_app in Hok as [_ ?]|].
  intros o H s' E. destruct (H s' E) as (runs & Hps & Hruns & -> & Hres & Hsz & Hch).
  destruct (dump_effect_complete _ _ _ _ Hef Hd) as [Hm He]. destruct Hef as (_ & _ & Hres0 & Hsz0 & _). exists (run :: runs). split_and!.
  - cbn [map concat]. by rewrite <- app_assoc, Hps.
  - cbn [dump_seqs]. apply Forall2_cons. split; [|done]. by split.
  - done.
  - rewrite Hres, Hres0. cbn [map concat ds_result]. unfold run_routes at 2. set_solver.
  - auto.
  - rewrite Hch. cbn [existsb]. by rewrite orb_assoc.
Qed.

Lemma snapshot_tail s last :
  Forall recv_ok last ->
  wp ('(ev, _) ← drain big last;
      _ ← ensure (negb (ev_lost ev)) "netlink notification loss at end of dump";
      Ok (Some (sn_result s, sn_changed s || ev_changed ev)))
    (fun r => r = Some (sn_result s, sn_changed s || pass_changed big last) /\ pass_lost big last = false)
    (fun _ => True).
Proof.
  intros Hlast. apply wp_bind. eapply wp_mono; [by apply drain_wp| |done].
  intros [ev rest] [Hc Hl]. cbn [fst] in Hc, Hl. apply wp_bind, wp_ensure; [intros Hlost|done].
  rewrite <- Hc, <- Hl. split; [done|]. by destruct (ev_lost ev).
Qed.

Lemma snapshot_runs os sendto sq passes last :
  0 <= limit -> (forall op, total (os op)) -> (forall req, total (sendto req)) -> Forall pass_ok passes -> Forall recv_ok last ->
  let '(_, reqs, r) := snapshot big cfg os sendto sq passes last in
  wp r (fun r => forall result changed, r = Some (result, changed) ->
    exists runs, concat (map (fun run => run.*1) runs) `prefix_of` passes /\
      Forall2 (complete_dump big cfg) (dump_seqs sq (dumps cfg)) runs /\
      reqs = zip_with (fun sq ft => request big sq ft.1 ft.2) (dump_seqs sq (dumps cfg)) (dumps cfg) /\
      result = list_to_set (concat (map (run_routes big cfg) runs)) /\
      Z.of_nat (size result) <= limit /\
      pass_lost big last = false /\
      changed = existsb (run_changed big) runs || pass_changed big last)
    (fun _ => True).
Proof.
  intros Hlim Hopen Hsent Hok Hlast. unfold snapshot.
  pose proof (open_dump_total os cfg Hopen) as Ho. destruct ((open_dump os cfg).2) as [[]|e| |]; try done.
  pose proof (dump_all_spec sendto (dumps cfg) sq (mkSnap ∅ false passes) Hsent Hok) as Hall.
  destruct (dump_all _ _ _ _ _ _) as [[sq' reqs] r]. destruct r as [[s|]|e| |]; try done.
  destruct (Hall s eq_refl) as (runs & Hp & Hruns & Hreqs & Hres & Hsz & Hch).
  apply wp_bind. match goal with |- wp (Ok ?a) ?Q _ => change (Q a) end. cbv beta iota. eapply wp_post; [by apply (snapshot_tail s last)|].
  intros r [-> Hl] result changed [= <- <-]. exists runs. cbn [sn_result sn_changed sn_passes orb] in *.
  split_and!; try done.
  - by eexists.
  - rewrite Hres. set_solver.
  - apply Hsz. by rewrite size_empty.
  - by rewrite Hch.
Qed.

(** [C12] A published snapshot is complete and consistent. [snapshot] never panics, and
    when it returns a prefix set there was one complete dump per configured family and
    table, each under its own sequence number, before the deadline, with no stop request
    and no notification loss: its datagrams were read whole, no message reported an
    interruption, an overrun or an error, but for "no such table" before any route, and
    a message said that the dump was over. The set is exactly the routes those dumps
    carried, all of them decoded, holds at most [max_prefixes] prefixes, and the flag
    says whether a notification announced a change meanwhile. *)
Theorem snapshot_complete os sendto sq passes last :
  0 <= limit -> (forall op, total (os op)) -> (forall req, total (sendto req)) -> Forall pass_ok passes -> Forall recv_ok last ->
  let '(_, reqs, r) := snapshot big cfg os sendto sq passes last in
  wp r (fun r => forall result changed, r = Some (result, changed) ->
    exists runs, concat (map (fun run => run.*1) runs) `prefix_of` passes /\
      Forall2 (complete_dump big cfg) (dump_seqs sq (dumps cfg)) runs /\
      reqs = zip_with (fun sq ft => request big sq ft.1 ft.2) (dump_seqs sq (dumps cfg)) (dumps cfg) /\
      result = list_to_set (concat (map (run_routes big cfg) runs)) /\
      Z.of_nat (size result) <= limit /\
      pass_lost big last = false /\
      changed = existsb (run_changed big) runs || pass_changed big last)
    (fun _ => True).
Proof. apply snapshot_runs. Qed.

(** *** Authenticity *)
Lemma pass_of_ok p : raw_pass_ok p -> pass_ok (pass_of p).
Proof.
  intros [He Hd]. split_and!; cbn; [..|apply poll_total]; apply Forall_map; by (eapply Forall_impl; [|apply recv_raw_ok]).
Qed.
Lemma recvs_ok raws : Forall raw_ok raws -> Forall recv_ok (map recv raws).
Proof. intros H. apply Forall_map. by eapply Forall_impl; [|apply recv_raw_ok]. Qed.

(** Every message a run read came in a datagram of one of its passes. *)
Lemma run_datagram sq run m :
  complete_dump big cfg sq run -> m ∈ reads_messages big (concat run.*2) ->
  exists p bytes, p ∈ run.*1 /\ Datagram bytes ∈ pa_dump p /\ m ∈ messages_of big bytes.
Proof.
  intros [Hr _ _ _ _] Hm. unfold reads_messages in Hm.
  apply list_elem_of_In, in_concat in Hm as (ms & Hms & Hm). apply in_map_iff in Hms as (r & <- & Hr').
  apply in_concat in Hr' as (reads & Hreads & Hin). apply list_elem_of_In, list_elem_of_fmap in Hreads as ([p reads'] & -> & Hp).
  pose proof (proj1 (Forall_forall _ _) Hr _ Hp) as [rest E]. cbn in *.
  destruct r as [bytes| | |]; try done. exists p, bytes. split_and!.
  - apply list_elem_of_fmap. by exists (p, reads').
  - rewrite E, elem_of_app. left. by apply list_elem_of_In.
  - by apply list_elem_of_In.
Qed.

(** [C18] Only the kernel can put a route into a snapshot: every prefix of a snapshot was
    decoded from a route message in a datagram that arrived whole from the kernel's port
    on the dump socket; a truncated datagram or one of another sender never counts. *)
Theorem snapshot_from_kernel os sendto sq raws last result changed q :
  0 <= limit -> (forall op, total (os op)) -> (forall req, total (sendto req)) ->
  Forall raw_pass_ok raws -> Forall raw_ok last ->
  (snapshot big cfg os sendto sq (map pass_of raws) (map recv last)).2 = Ok (Some (result, changed)) -> q ∈ result ->
  exists p raw bytes m, p ∈ raws /\ raw ∈ rp_dump p /\ from_kernel raw bytes /\ m ∈ messages_of big bytes /\
    kind m = RTM_NEWROUTE /\ route big (payload m) (k_tables (c_kernel cfg)) = Ok (Some q).
Proof.
  intros Hlim Hos Hsend Hraws Hlast E Hq.
  assert (Hok : Forall pass_ok (map pass_of raws)) by (apply Forall_map; by eapply Forall_impl; [|apply pass_of_ok]).
  pose proof (snapshot_runs os sendto sq (map pass_of raws) (map recv last) Hlim Hos Hsend Hok (recvs_ok _ Hlast)) as H.
  destruct (snapshot _ _ _ _ _ _ _) as [[sq' reqs] r]. cbn [snd] in E. subst r.
  destruct (H result changed eq_refl) as (runs & [rest Hp] & Hruns & _ & -> & _).
  apply elem_of_list_to_set, list_elem_of_In, in_concat in Hq as (routes & Hro & Hq).
  apply in_map_iff in Hro as (run & <- & Hrun). unfold run_routes in Hq.
  apply list_elem_of_In, list_elem_of_omap in Hq as (m & Hm & Hroute).
  apply list_elem_of_In, list_elem_of_lookup in Hrun as [i Hi].
  destruct (Forall2_lookup_r _ _ _ _ _ Hruns Hi) as (sq0 & _ & Hc).
  destruct (run_datagram sq0 run m Hc Hm) as (p & bytes & Hpin & Hd & Hmb).
  assert (Hin : p ∈ map pass_of raws).
  { rewrite Hp, elem_of_app. left. apply list_elem_of_In, in_concat. exists run.*1. split; [|by apply list_elem_of_In].
    apply in_map_iff. exists run. split; [done|]. apply list_elem_of_In. by eapply list_elem_of_lookup_2. }
  apply list_elem_of_fmap in Hin as (rp & -> & Hrp). cbn [pass_of pa_dump] in Hd.
  apply list_elem_of_fmap in Hd as (raw & Eraw & Hraw). symmetry in Eraw. apply recv_datagram in Eraw.
  exists rp, raw, bytes, m. unfold message_route in Hroute.
  destruct (Z.eqb_spec (kind m) RTM_NEWROUTE); [|done].
  destruct (route _ _ _) as [[q'|]|err| |] eqn:Er; try done. by injection Hroute as ->.
Qed.

(** *** Filtering *)
Lemma for_fold_filter prefixes (l : list string) out :
  Forall (fun name => is_Some (c_acls cfg !! name)) l ->
  exists out', for_fold (fun (out : Exports) name =>
      acl ← unwrap (c_acls cfg !! name);
      Ok (<[name := permitted acl prefixes]> out)) out l = Ok out' /\
    forall name, out' !! name =
      if bool_decide (name ∈ l)
      then (fun acl => permitted acl prefixes) <$> c_acls cfg !! name else out !! name.
Proof.
  intros Hl. revert out. induction Hl as [|x l [acl Hx] _ IH]; intros out.
  { by exists out. }
  cbn [for_fold]. rewrite Hx. cbn [unwrap mbind res_bind].
  destruct (IH (<[x := permitted acl prefixes]> out)) as (out' & Hf & Hlk).
  exists out'. split; [done|]. intros name. rewrite Hlk.
  destruct (decide (name ∈ l)) as [Hin|Hin].
  { rewrite !bool_decide_true; [done|by right|done]. }
  rewrite (bool_decide_false (name ∈ l)) by done. destruct (decide (name = x)) as [->|Hne].
  - rewrite bool_decide_true by by left. rewrite Hx. unfold Exports in *. by rewrite lookup_insert_eq.
  - unfold Exports in *. rewrite lookup_insert_ne by done. rewrite bool_decide_false; [done|].
    rewrite elem_of_cons. tauto.
Qed.

Lemma filter_lookup prefixes :
  Forall (fun p => is_Some (c_acls cfg !! p_export_acl p)) (c_peers cfg) ->
  exists out, filter_exports cfg prefixes = Ok out /\
    forall name, out !! name =
      if bool_decide (name ∈ map p_export_acl (c_peers cfg))
      then (fun acl => permitted acl prefixes) <$> c_acls cfg !! name else None.
Proof.
  intros Hacl. unfold filter_exports. set (names := elements _).
  assert (Hin : forall name, name ∈ names <-> name ∈ map p_export_acl (c_peers cfg)).
  { intros name. unfold names. by rewrite elem_of_elements, elem_of_list_to_set. }
  destruct (for_fold_filter prefixes names ∅) as (out & Hf & Hlk).
  - apply Forall_forall. intros name Hn%Hin%list_elem_of_fmap. destruct Hn as (p & -> & Hp).
    by apply (proj1 (Forall_forall _ _) Hacl).
  - exists out. split; [done|]. intros name. rewrite Hlk.
    by rewrite (bool_decide_ext _ _ (Hin name)).
Qed.

Lemma filter_total prefixes :
  Forall (fun p => is_Some (c_acls cfg !! p_export_acl p)) (c_peers cfg) ->
  exists out, filter_exports cfg prefixes = Ok out.
Proof. intros H. destruct (filter_lookup prefixes H) as (out & Hf & _). by exists out. Qed.

(** Exports by policy: with a valid configuration [filter] never panics, and
    a peer's export policy maps to exactly the prefixes of the snapshot it permits. *)
Theorem filter_exports_spec prefixes :
  Forall (fun p => is_Some (c_acls cfg !! p_export_acl p)) (c_peers cfg) ->
  exists out, filter_exports cfg prefixes = Ok out /\
    forall name, out !! name =
      if bool_decide (name ∈ map p_export_acl (c_peers cfg))
      then (fun acl => permitted acl prefixes) <$> c_acls cfg !! name else None.
Proof. exact (filter_lookup prefixes). Qed.
End dump.
