(* ===== verification/Kernel.v ===== *)
(** * src/src/netlink.rs: the reconciliation loop, its stale watchdog and their interleavings

    The loop of [run] and the watchdog thread share [Freshness] under a mutex and
    write the watch channel of exports. Each critical section is one function, and
    [kstep] interleaves the two threads with the clock and the stop flag. Times are
    milliseconds on the monotonic clock. *)
From S2P Require Import Prelude Net Config Netsock Netlink Dump.

Section kernel.
Context {api : IpNetApi}.
(** The last representable [Instant]: [+] panics beyond it, [checked_add] fails. *)
Context (instant_max : Z).
Definition checked_add (t d : Z) : option Z := if t + d <=? instant_max then Some (t + d) else None.
Definition instant_add (t d : Z) : res Z := unwrap (checked_add t d).
(** [Instant::duration_since] saturates at zero. *)
Definition duration_since (now start : Z) : Z := Z.max 0 (now - start).
(** Unsigned counters, wrapping in the release profile. *)
Definition count (n d : Z) : Z := (n + d) mod 2 ^ 64.

(** ** [Freshness] and the watch channel *)
Record Freshness := mkFreshness { dirty_since : option Z; withdrawn : bool }.
(** The value and the number of notifications sent to receivers. *)
Record Watch := mkWatch { w_value : Exports; w_version : Z }.
Definition send_replace (tx : Watch) (v : Exports) : Watch := mkWatch v (w_version tx + 1).

Definition invalidate (now : Z) (f : Freshness) : Freshness :=
  mkFreshness (Some (match dirty_since f with Some start => start | None => now end)) (withdrawn f).
Definition expire (now limit : Z) (f : Freshness) (tx : Watch) : Freshness * Watch :=
  if negb (withdrawn f) &&
     match dirty_since f with Some start => limit <=? duration_since now start | None => false end
  then (mkFreshness (dirty_since f) true, send_replace tx ∅)
  else (f, tx).
Definition publish (now : Z) (changed : bool) (tx : Watch) (exports : Exports) (f : Freshness)
  : Freshness * Watch :=
  let tx := if bool_decide (w_value tx = exports) then tx else send_replace tx exports in
  (mkFreshness (if changed then Some now else None) false, tx).

(** ** The loop of [run] *)
Record Loop := mkLoop {
  l_dirty : bool; l_due : Z; l_periodic : Z; l_retries : Z;
  l_dumps : Z; l_losses : Z; l_datagrams : Z
}.
(** Where the loop is: at its top, in [snapshot], about to publish, in [poll], or
    past the loop with the result of [run]. *)
Inductive KPhase :=
| KTop
| KDump
| KPublish (exports : Exports) (changed : bool)
| KPoll
| KDone (result : res unit).

Definition loop_init (now : Z) : Loop := mkLoop true now now 0 0 0 0.
Definition freshness_init (now : Z) : Freshness := mkFreshness (Some now) false.
(** [Duration::from_millis((100u64 << retries.min(5)).min(3000))] *)
Definition retry_ms (retries : Z) : Z := Z.min (Z.shiftl 100 (Z.min retries 5)) 3000.

(** From the loop condition to the decision to dump. *)
Definition loop_top (stop : bool) (ev : Events) (now : Z) (l : Loop) (f : Freshness)
  : Loop * Freshness * KPhase :=
  if stop then (l, f, KDone (Ok tt)) else
  let attend := ev_changed ev || ev_lost ev || (l_periodic l <=? now) in
  let l := mkLoop (attend || l_dirty l) (l_due l) (l_periodic l) (l_retries l) (l_dumps l)
             (if attend && ev_lost ev then count (l_losses l) 1 else l_losses l)
             (count (l_datagrams l) (ev_datagrams ev)) in
  let f := if attend then invalidate now f else f in
  (l, f, if l_dirty l && (l_due l <=? now) then KDump else KPoll).

(** The outcome of [snapshot], up to the publication: [now] is the clock when the
    next deadline is computed, [after] the drain that follows the filtering.
    [None] while [snapshot] has not returned. *)
Definition loop_dump (cfg : Config) (stop : bool) (now : Z) (r : res (option (Prefixes * bool)))
    (after : Events) (l : Loop) : option (Loop * KPhase) :=
  match r with
  | Ok None => None
  | Ok (Some (prefixes, changed)) =>
      let l := mkLoop (l_dirty l) (l_due l) (l_periodic l) (l_retries l) (count (l_dumps l) 1)
                 (l_losses l) (l_datagrams l) in
      Some (match filter_exports cfg prefixes with
      | Ok exports =>
          let l := mkLoop (l_dirty l) (l_due l) (l_periodic l) (l_retries l) (l_dumps l)
                     (l_losses l) (count (l_datagrams l) (ev_datagrams after)) in
          if ev_lost after then
            let l := mkLoop (l_dirty l) (l_due l) (l_periodic l) (l_retries l) (l_dumps l)
                       (count (l_losses l) 1) (l_datagrams l) in
            match instant_add now (k_refresh_interval_ms (c_kernel cfg)) with
            | Ok due => (mkLoop (l_dirty l) due (l_periodic l) (l_retries l) (l_dumps l)
                           (l_losses l) (l_datagrams l), KTop)
            | _ => (l, KDone Panic)
            end
          else (l, KPublish exports (changed || ev_changed after))
      | Err e => (l, KDone (Err e))
      | Panic => (l, KDone Panic)
      | Fuel => (l, KDone Fuel)
      end)
  | Err e =>
      Some (if stop then (l, KDone (Ok tt)) else
      let retries := Z.min (l_retries l + 1) (2 ^ 32 - 1) in
      let l := mkLoop (l_dirty l) (l_due l) (l_periodic l) retries (l_dumps l) (l_losses l) (l_datagrams l) in
      match instant_add now (retry_ms retries) with
      | Ok due => (mkLoop (l_dirty l) due (l_periodic l) (l_retries l) (l_dumps l)
                     (l_losses l) (l_datagrams l), KPoll)
      | _ => (l, KDone Panic)
      end)
  | Panic => Some (l, KDone Panic)
  | Fuel => Some (l, KDone Fuel)
  end.

(** After [publish]: the next deadlines, from the clock at [end]. *)
Definition loop_published (cfg : Config) (stop_at : Z) (changed : bool) (l : Loop) : Loop * KPhase :=
  let l := mkLoop changed (l_due l) (l_periodic l) 0 (l_dumps l) (l_losses l) (l_datagrams l) in
  match checked_add stop_at (k_reconcile_interval_secs (c_kernel cfg) * 1000) with
  | None => (l, KDone (bail "kernel reconciliation deadline exceeds clock range"))
  | Some periodic =>
      let l := mkLoop changed (l_due l) periodic 0 (l_dumps l) (l_losses l) (l_datagrams l) in
      match instant_add stop_at (k_refresh_interval_ms (c_kernel cfg)) with
      | Ok due => (mkLoop changed due periodic 0 (l_dumps l) (l_losses l) (l_datagrams l), KPoll)
      | _ => (l, KDone Panic)
      end
  end.
Definition loop_poll (r : res unit) : KPhase := match r with Ok _ => KTop | r => KDone r end.

(** ** The two threads *)
(** The watchdog: testing [quit], in [expire], or finished. *)
Inductive Watcher := WCheck | WExpire | WJoined.
Record KWorld := mkKWorld {
  k_clock : Z;
  k_stop : bool;
  k_loop : Loop;
  k_phase : KPhase;
  k_fresh : Freshness;
  k_tx : Watch;
  k_watcher : Watcher;
  (** Ghosts: the last exports published; whether a drain reported a change or a
      loss since the dump of that publication began. *)
  k_last : Exports;
  k_seen : bool;
  k_seen_dump : bool
}.
Definition is_done (p : KPhase) : bool := match p with KDone _ => true | _ => false end.

(** The watchdog's two steps. The owner's drop sets [quit] once the loop is over. *)
Definition watch_check (w : KWorld) : KWorld :=
  mkKWorld (k_clock w) (k_stop w) (k_loop w) (k_phase w) (k_fresh w) (k_tx w)
    (if is_done (k_phase w) then WJoined else WExpire) (k_last w) (k_seen w) (k_seen_dump w).
Definition watch_expire (limit : Z) (w : KWorld) : KWorld :=
  let '(f, tx) := expire (k_clock w) limit (k_fresh w) (k_tx w) in
  mkKWorld (k_clock w) (k_stop w) (k_loop w) (k_phase w) f tx WCheck (k_last w) (k_seen w) (k_seen_dump w).
Definition set_env (clock : Z) (stop : bool) (w : KWorld) : KWorld :=
  mkKWorld clock stop (k_loop w) (k_phase w) (k_fresh w) (k_tx w) (k_watcher w) (k_last w) (k_seen w)
    (k_seen_dump w).
(** The loop's steps on the world. *)
Definition do_top (ev : Events) (now : Z) (w : KWorld) : KWorld :=
  let '(l, f, ph) := loop_top (k_stop w) ev now (k_loop w) (k_fresh w) in
  let seen := k_seen w || (negb (k_stop w) && (ev_changed ev || ev_lost ev)) in
  mkKWorld (k_clock w) (k_stop w) l ph f (k_tx w) (k_watcher w) (k_last w) seen
    (match ph with KDump => false | _ => k_seen_dump w end).
Definition do_dump (cfg : Config) (r : res (option (Prefixes * bool))) (after : Events) (w : KWorld)
  : option KWorld :=
  match loop_dump cfg (k_stop w) (k_clock w) r after (k_loop w) with
  | None => None
  | Some (l, ph) =>
      let dump_saw := match r with
                      | Ok (Some (_, changed)) => changed || ev_changed after || ev_lost after
                      | _ => true
                      end in
      Some (mkKWorld (k_clock w) (k_stop w) l ph (k_fresh w) (k_tx w) (k_watcher w) (k_last w)
              (k_seen w || dump_saw) dump_saw)
  end.
(** [now] is read inside the critical section. *)
Definition do_publish (cfg : Config) (now : Z) (exports : Exports) (changed : bool) (w : KWorld) : KWorld :=
  let '(f, tx) := publish now changed (k_tx w) exports (k_fresh w) in
  let '(l, ph) := loop_published cfg (k_clock w) changed (k_loop w) in
  mkKWorld (k_clock w) (k_stop w) l ph f tx (k_watcher w) exports (k_seen_dump w) (k_seen_dump w).
Definition do_poll (r : res unit) (w : KWorld) : KWorld :=
  mkKWorld (k_clock w) (k_stop w) (k_loop w) (loop_poll r) (k_fresh w) (k_tx w) (k_watcher w) (k_last w)
    (k_seen w) (k_seen_dump w).

Definition kernel_init (now : Z) : KWorld :=
  mkKWorld now false (loop_init now) KTop (freshness_init now) (mkWatch ∅ 0) WCheck ∅ false false.
(** [run] up to the loop: the notification socket, then the watchdog's thread. *)
Definition kernel_start (os : NlOp -> res unit) (cfg : Config) (spawned : res unit) (now : Z) : Out NlOp KWorld :=
  _ <~ open_events os cfg;
  _ <~ out_ret spawned;
  out_ret (Ok (kernel_init now)).
Definition stale_limit (cfg : Config) : Z := k_stale_timeout_secs (c_kernel cfg) * 1000.

Inductive KLabel := LEnv | LWatch | LTop | LDump | LPublish | LPoll.
(** One step of either thread or of the environment. *)
Inductive kstep (cfg : Config) : KLabel -> KWorld -> KWorld -> Prop :=
| step_env w clock stop : k_clock w <= clock -> (k_stop w = true -> stop = true) ->
    kstep cfg LEnv w (set_env clock stop w)
| step_check w : k_watcher w = WCheck -> kstep cfg LWatch w (watch_check w)
| step_expire w : k_watcher w = WExpire -> kstep cfg LWatch w (watch_expire (stale_limit cfg) w)
| step_top w ev now : k_phase w = KTop -> now <= k_clock w -> kstep cfg LTop w (do_top ev now w)
| step_dump w r after w' : k_phase w = KDump -> do_dump cfg r after w = Some w' -> kstep cfg LDump w w'
| step_publish w now exports changed : k_phase w = KPublish exports changed -> now <= k_clock w ->
    kstep cfg LPublish w (do_publish cfg now exports changed w)
| step_poll w r : k_phase w = KPoll -> kstep cfg LPoll w (do_poll r w).

Inductive kreach (cfg : Config) (start : Z) : KWorld -> Prop :=
| kreach_init : kreach cfg start (kernel_init start)
| kreach_step l w w' : kreach cfg start w -> kstep cfg l w w' -> kreach cfg start w'.
(** Any steps but publications. *)
Inductive unpublished (cfg : Config) : KWorld -> KWorld -> Prop :=
| unpublished_refl w : unpublished cfg w w
| unpublished_step l w1 w2 w3 :
    l <> LPublish -> kstep cfg l w1 w2 -> unpublished cfg w2 w3 -> unpublished cfg w1 w3.

(** Any steps but the end of a dump and publications. *)
Inductive undumped (cfg : Config) : KWorld -> KWorld -> Prop :=
| undumped_refl w : undumped cfg w w
| undumped_step l w1 w2 w3 :
    l <> LDump -> l <> LPublish -> kstep cfg l w1 w2 -> undumped cfg w2 w3 -> undumped cfg w1 w3.
(** What happens between two states after which the kernel is to be dumped again: the
    loop hears of a change or a loss, a dump fails, a complete dump is discarded because
    notifications were lost, or one is published although something changed meanwhile. *)
Inductive wants (cfg : Config) : KWorld -> KWorld -> Prop :=
| wants_notified w ev now :
    k_phase w = KTop -> k_stop w = false -> now <= k_clock w -> ev_changed ev || ev_lost ev = true ->
    wants cfg w (do_top ev now w)
| wants_failed w e after w' : k_phase w = KDump -> do_dump cfg (Err e) after w = Some w' -> wants cfg w w'
| wants_discarded w snapshot after w' :
    k_phase w = KDump -> ev_lost after = true -> do_dump cfg (Ok (Some snapshot)) after w = Some w' -> wants cfg w w'
| wants_changed w prefixes changed after w1 w2 exports c now :
    k_phase w = KDump -> changed || ev_changed after = true ->
    do_dump cfg (Ok (Some (prefixes, changed))) after w = Some w1 -> undumped cfg w1 w2 ->
    k_phase w2 = KPublish exports c -> now <= k_clock w2 -> wants cfg w (do_publish cfg now exports c w2).
(** The longest wait, in milliseconds, for the next dump while one is wanted, and for
    the next reconciliation. *)
Definition dump_delay (cfg : Config) : Z := Z.max 3000 (k_refresh_interval_ms (c_kernel cfg)).
Definition reconcile_delay (cfg : Config) : Z := k_reconcile_interval_secs (c_kernel cfg) * 1000.

(** [run] has returned: the watchdog was joined. *)
Definition returned (w : KWorld) : Prop := is_done (k_phase w) = true /\ k_watcher w = WJoined.

(** ** The invariant *)
Record kernel_inv (w : KWorld) : Prop := {
  (** What peers are given: nothing while withdrawn, else the last complete export. *)
  ki_value : w_value (k_tx w) = if withdrawn (k_fresh w) then ∅ else k_last w;
  (** Exports are withdrawn only while an invalidation is pending. *)
  ki_withdrawn : withdrawn (k_fresh w) = true -> is_Some (dirty_since (k_fresh w));
  (** A pending invalidation is exactly a scheduled dump. *)
  ki_dirty : is_Some (dirty_since (k_fresh w)) <-> l_dirty (k_loop w) = true;
  ki_dumping : match k_phase w with KDump | KPublish _ _ => l_dirty (k_loop w) = true | _ => True end;
  (** No change or loss notification is forgotten. *)
  ki_seen : k_seen w = true -> l_dirty (k_loop w) = true;
  ki_publish : match k_phase w with KPublish _ changed => k_seen_dump w = true -> changed = true | _ => True end
}.
End kernel.

(** * Theorems *)
Section kernel.
Context (instant_max : Z) {api : IpNetApi} (cfg : Config).

(** The waits between failed dumps. *)
Lemma retry_ms_value n : 1 <= n -> retry_ms n = if n <=? 4 then 100 * 2 ^ n else 3000.
Proof.
  intros Hn. unfold retry_ms. destruct (Z.leb_spec n 4).
  - assert (n = 1 \/ n = 2 \/ n = 3 \/ n = 4) as [-> | [-> | [-> | ->]]] by lia; done.
  - by rewrite (Z.min_r n 5) by lia.
Qed.

Lemma expire_cases now limit f tx :
  (expire now limit f tx = (f, tx) /\
   (withdrawn f = true \/ dirty_since f = None \/ exists t, dirty_since f = Some t /\ duration_since now t < limit)) \/
  (expire now limit f tx = (mkFreshness (dirty_since f) true, send_replace tx ∅) /\
   withdrawn f = false /\ exists t, dirty_since f = Some t /\ limit <= duration_since now t).
Proof.
  unfold expire. destruct (withdrawn f) eqn:Hw; cbn [negb andb]; [left; by auto|].
  destruct (dirty_since f) as [t|] eqn:Hd; [|left; by auto].
  destruct (Z.leb_spec limit (duration_since now t)); [right|left]; split; try done; eauto.
Qed.

Lemma loop_dump_dirty stop now r after l l' ph :
  loop_dump instant_max cfg stop now r after l = Some (l', ph) ->
  l_dirty l' = l_dirty l /\
  match ph with
  | KDump => False
  | KPublish exports changed =>
      exists prefixes c, r = Ok (Some (prefixes, c)) /\ filter_exports cfg prefixes = Ok exports /\
        ev_lost after = false /\ changed = c || ev_changed after
  | _ => True
  end.
Proof.
  unfold loop_dump. destruct r as [[[prefixes c]|]|e| |]; [|done|..].
  - destruct (filter_exports cfg prefixes) as [exports|e| |] eqn:Hf; try by intros [= <- <-].
    destruct (ev_lost after) eqn:Hl.
    + destruct (instant_add _ _ _); by intros [= <- <-].
    + intros [= <- <-]. split; [done|]. by exists prefixes, c.
  - destruct stop; [by intros [= <- <-]|]. destruct (instant_add _ _ _); by intros [= <- <-].
  - by intros [= <- <-].
  - by intros [= <- <-].
Qed.

Lemma loop_published_dirty now changed l :
  l_dirty (loop_published instant_max cfg now changed l).1 = changed /\
  match (loop_published instant_max cfg now changed l).2 with KDone _ | KPoll => True | _ => False end.
Proof.
  unfold loop_published. destruct (checked_add _ _ _); [|done]. by destruct (instant_add _ _ _).
Qed.

Lemma inv_init start : kernel_inv (kernel_init start).
Proof. by split; cbn; rewrite ?is_Some_alt. Qed.

Lemma inv_expire limit w : kernel_inv w -> kernel_inv (watch_expire limit w).
Proof.
  intros [Hv Hw Hd Hdu Hs Hp]. unfold watch_expire.
  destruct (expire_cases (k_clock w) limit (k_fresh w) (k_tx w)) as [(-> & _)|(-> & _ & t & Ht & _)]; [done|].
  split; try done; cbn; by rewrite Ht.
Qed.

Lemma inv_top ev now w : k_phase w = KTop -> kernel_inv w -> kernel_inv (do_top ev now w).
Proof.
  intros Hph [Hv Hw Hd Hdu Hs Hp]. unfold do_top, loop_top. destruct (k_stop w).
  { split; try done. cbn. by rewrite orb_false_r. }
  set (attend := ev_changed ev || ev_lost ev || (_ <=? now)). cbn [negb andb].
  assert (Hseen : ev_changed ev || ev_lost ev = true -> attend = true).
  { unfold attend. by intros ->. }
  split; cbn.
  - by destruct attend.
  - destruct attend; [by eexists|done].
  - destruct attend; cbn; [|done]. split; [done|by eexists].
  - destruct (_ && _) eqn:E; [|done]. by apply andb_true_iff in E as [-> _].
  - intros [H|H]%orb_true_iff; [by rewrite Hs, orb_true_r|by rewrite Hseen].
  - by destruct (_ && _).
Qed.

Lemma inv_dump r after w w' :
  k_phase w = KDump -> do_dump instant_max cfg r after w = Some w' -> kernel_inv w -> kernel_inv w'.
Proof.
  intros Hph Hdo [Hv Hw Hd Hdu Hs Hp]. rewrite Hph in Hdu. unfold do_dump in Hdo.
  destruct (loop_dump _ _ _ _ _ _ _) as [[l ph]|] eqn:E; [|done]. injection Hdo as <-.
  apply loop_dump_dirty in E as [El Eph].
  split; cbn; rewrite ?El; destruct ph as [| |exports changed| |]; try done.
  - destruct Eph as (prefixes & c & -> & _ & Hl & ->). by rewrite Hl, orb_false_r.
Qed.

Lemma inv_publish now exports changed w :
  k_phase w = KPublish exports changed -> kernel_inv w -> kernel_inv (do_publish instant_max cfg now exports changed w).
Proof.
  intros Hph [Hv Hw Hd Hdu Hs Hp]. rewrite Hph in Hp. unfold do_publish, publish.
  pose proof (loop_published_dirty (k_clock w) changed (k_loop w)) as [Hl Hlp].
  destruct (loop_published _ _ _ _ _) as [l ph]. cbn [fst snd] in *. split; cbn.
  - by case_bool_decide.
  - done.
  - rewrite Hl. destruct changed; split; try done; by intros [? ?].
  - by destruct ph.
  - rewrite Hl. apply Hp.
  - by destruct ph.
Qed.

Lemma inv_step l w w' : kstep instant_max cfg l w w' -> kernel_inv w -> kernel_inv w'.
Proof.
  intros Hstep Hinv. destruct Hstep as [w clock stop|w|w|w ev now Hph|w r after w' Hph|w now exports changed Hph|w r Hph].
  - by destruct Hinv.
  - by destruct Hinv.
  - by apply inv_expire.
  - by apply inv_top.
  - by eapply inv_dump.
  - by apply inv_publish.
  - destruct Hinv. split; try done; cbn; by destruct r.
Qed.

Lemma inv_reach start w : kreach instant_max cfg start w -> kernel_inv w.
Proof. induction 1; [apply inv_init|by eapply inv_step]. Qed.

(** [C13] What peers are offered. However the loop, the watchdog, the clock and the
    stop flag interleave, the exports in the watch channel are either those of the
    last complete snapshot or empty; they are withdrawn only while an invalidation
    is pending, a pending invalidation always has a dump scheduled, and no change or
    loss notification drained since the last published dump began is forgotten. *)
Theorem kernel_invariant start w : kreach instant_max cfg start w -> kernel_inv w.
Proof. apply inv_reach. Qed.

(** A value that receivers are not told of is the value they have. *)
Lemma version_value l k k' :
  kstep instant_max cfg l k k' ->
  w_version (k_tx k') = w_version (k_tx k) -> w_value (k_tx k') = w_value (k_tx k).
Proof.
  intros Hstep. destruct Hstep as [w clock stop Hc|w|w Hx|w ev now Hph|w r after w' Hph Hdo|w now exports c Hph|w r Hph]; try done.
  - unfold watch_expire.
    destruct (expire_cases (k_clock w) (stale_limit cfg) (k_fresh w) (k_tx w)) as [(-> & _)|(-> & _)]; [done|].
    cbn. lia.
  - unfold do_top. by destruct (loop_top _ _ _ _ _) as [[? ?] ?].
  - unfold do_dump in Hdo. destruct (loop_dump _ _ _ _ _ _ _) as [[l ph]|]; [|done]. by injection Hdo as <-.
  - unfold do_publish, publish. destruct (loop_published _ _ _ _ _) as [l ph]. cbn [k_tx].
    case_bool_decide as Hv; [done|]. cbn. lia.
Qed.

(** Only a publication moves or clears a pending stale deadline. *)
Lemma deadline_step l w w' t :
  kstep instant_max cfg l w w' -> l <> LPublish -> dirty_since (k_fresh w) = Some t ->
  dirty_since (k_fresh w') = Some t /\ k_clock w <= k_clock w' /\
  (withdrawn (k_fresh w) = true -> withdrawn (k_fresh w') = true).
Proof.
  intros Hstep Hl Ht.
  destruct Hstep as [w clock stop Hc|w|w Hx|w ev now Hph|w r after w' Hph Hdo|w now exports changed Hph|w r Hph];
    try done; try (split_and!; [done|cbn; lia|done]).
  - unfold watch_expire. destruct (expire_cases (k_clock w) (stale_limit cfg) (k_fresh w) (k_tx w)) as [(-> & _)|(-> & _)];
      (split_and!; [done|cbn; lia|done]).
  - unfold do_top, loop_top. destruct (k_stop w); [split_and!; [done|cbn; lia|done]|].
    destruct (ev_changed ev || ev_lost ev || (_ <=? _)); (split_and!; [|cbn; lia|done]); cbn; [by rewrite Ht|done].
  - unfold do_dump in Hdo. destruct (loop_dump _ _ _ _ _ _ _) as [[l ph]|]; [|done]. injection Hdo as <-.
    split_and!; [done|cbn; lia|done].
Qed.

Lemma deadline_unpublished w w' t :
  unpublished instant_max cfg w w' -> dirty_since (k_fresh w) = Some t ->
  dirty_since (k_fresh w') = Some t /\ k_clock w <= k_clock w' /\
  (withdrawn (k_fresh w) = true -> withdrawn (k_fresh w') = true).
Proof.
  intros Hrun. induction Hrun as [w|l w1 w2 w3 Hl Hstep Hrun IH]; intros Ht; [split_and!; [done|lia|done]|].
  destruct (deadline_step l w1 w2 t Hstep Hl Ht) as (Ht2 & Hc2 & Hw2).
  destruct (IH Ht2) as (Ht3 & Hc3 & Hw3). split_and!; [done|lia|auto].
Qed.

Lemma reach_unpublished start w w' :
  kreach instant_max cfg start w -> unpublished instant_max cfg w w' -> kreach instant_max cfg start w'.
Proof. intros Hr Hrun. induction Hrun; [done|]. apply IHHrun. by eapply kreach_step. Qed.

(** Stale exports are withdrawn. Once a change, loss or reconciliation is
    pending since [t], no failed, interrupted or discarded dump moves the deadline:
    when the watchdog runs [stale_timeout_secs] after [t] and nothing was published
    in between, the exports offered to peers are empty, and stay so until the next
    publication, whatever the loop is doing. *)
Theorem stale_exports_withdrawn start t w0 w1 w2 :
  kreach instant_max cfg start w0 -> dirty_since (k_fresh w0) = Some t ->
  unpublished instant_max cfg w0 w1 -> k_watcher w1 = WExpire -> t + stale_limit cfg <= k_clock w1 ->
  unpublished instant_max cfg (watch_expire (stale_limit cfg) w1) w2 ->
  withdrawn (k_fresh w2) = true /\ w_value (k_tx w2) = ∅.
Proof.
  intros Hreach Ht H01 Hx Hlim H12.
  destruct (deadline_unpublished _ _ _ H01 Ht) as (Ht1 & _ & _).
  assert (Hstep : kstep instant_max cfg LWatch w1 (watch_expire (stale_limit cfg) w1)) by by apply step_expire.
  assert (Hr2 : kreach instant_max cfg start w2).
  { eapply reach_unpublished; [|exact H12]. eapply kreach_step; [|exact Hstep]. by eapply reach_unpublished. }
  destruct (deadline_step _ _ _ t Hstep ltac:(done) Ht1) as (Htx & _ & _).
  destruct (deadline_unpublished _ _ _ H12 Htx) as (_ & _ & Hkeep).
  assert (Hw : withdrawn (k_fresh w2) = true).
  { apply Hkeep. unfold watch_expire.
    destruct (expire_cases (k_clock w1) (stale_limit cfg) (k_fresh w1) (k_tx w1)) as [(-> & Hc)|(-> & _)]; [|done].
    destruct Hc as [?|[?|(t' & Ht' & Hd)]]; [done|congruence|].
    rewrite Ht1 in Ht'. injection Ht' as <-. unfold duration_since in Hd. lia. }
  split; [done|]. destruct (inv_reach start w2 Hr2) as [Hv _ _ _ _ _]. by rewrite Hv, Hw.
Qed.

(** ** The schedule of dumps *)
(** The next dump and the next reconciliation are never scheduled too late. *)
Definition deadlines (now : Z) (l : Loop) : Prop :=
  l_due l <= now + dump_delay cfg /\ l_periodic l <= now + reconcile_delay cfg.
Lemma instant_add_ok t d x : instant_add instant_max t d = Ok x -> x = t + d.
Proof. unfold instant_add, checked_add. destruct (_ <=? _); by intros [= <-]. Qed.
Lemma deadlines_mono now now' l : now <= now' -> deadlines now l -> deadlines now' l.
Proof. unfold deadlines. lia. Qed.
Lemma deadlines_dump stop now r after l l' ph :
  loop_dump instant_max cfg stop now r after l = Some (l', ph) -> deadlines now l -> deadlines now l'.
Proof.
  unfold deadlines, dump_delay, loop_dump. destruct r as [[[prefixes c]|]|e| |]; [|done|..]; try by intros [= <- <-].
  - destruct (filter_exports cfg prefixes); try by intros [= <- <-].
    destruct (ev_lost after); [|by intros [= <- <-]].
    destruct (instant_add _ _ _) eqn:E; intros [= <- <-]; try done. apply instant_add_ok in E as ->. cbn. lia.
  - destruct stop; [by intros [= <- <-]|]. destruct (instant_add _ _ _) eqn:E; intros [= <- <-]; try done.
    apply instant_add_ok in E as ->. unfold retry_ms. cbn. lia.
Qed.
Lemma deadlines_published now changed l : deadlines now l -> deadlines now (loop_published instant_max cfg now changed l).1.
Proof.
  unfold deadlines, dump_delay, reconcile_delay, loop_published, checked_add. destruct (_ <=? _); [|done].
  destruct (instant_add _ _ _) eqn:E; cbn; try lia. apply instant_add_ok in E as ->. lia.
Qed.
Lemma top_keeps ev now w :
  let l := k_loop w in let l' := k_loop (do_top ev now w) in
  l_due l' = l_due l /\ l_periodic l' = l_periodic l /\ (l_dirty l = true -> l_dirty l' = true).
Proof.
  unfold do_top, loop_top. destruct (k_stop w); [done|]. cbn. split_and!; [done|done|]. intros ->. apply orb_true_r.
Qed.

Lemma deadlines_step l w w' :
  kstep instant_max cfg l w w' -> deadlines (k_clock w) (k_loop w) -> deadlines (k_clock w') (k_loop w').
Proof.
  intros Hstep Hd. destruct Hstep as [w clock stop Hc|w|w|w ev now Hph|w r after w' Hph Hdo|w now exports changed Hph|w r Hph]; try done.
  - by eapply deadlines_mono.
  - unfold watch_expire. by destruct (expire _ _ _ _).
  - destruct (top_keeps ev now w) as (E1 & E2 & _). unfold deadlines in *. rewrite E1, E2.
    by unfold do_top; destruct (loop_top _ _ _ _ _) as [[? ?] ?].
  - unfold do_dump in Hdo. destruct (loop_dump _ _ _ _ _ _ _) as [[l ph]|] eqn:E; [|done]. injection Hdo as <-.
    by eapply deadlines_dump.
  - unfold do_publish. destruct (publish _ _ _ _ _). pose proof (deadlines_published (k_clock w) changed (k_loop w) Hd).
    by destruct (loop_published _ _ _ _ _).
Qed.
Lemma deadlines_reach start w :
  0 <= reconcile_delay cfg -> kreach instant_max cfg start w -> deadlines (k_clock w) (k_loop w).
Proof.
  intros HR. induction 1; [|by eapply deadlines_step]. unfold deadlines, dump_delay. cbn. lia.
Qed.

(** Until a dump ends, the schedule stands and the wish for a dump is kept. *)
Lemma undumped_keeps w w' :
  undumped instant_max cfg w w' ->
  l_due (k_loop w') = l_due (k_loop w) /\ l_periodic (k_loop w') = l_periodic (k_loop w) /\
  (l_dirty (k_loop w) = true -> l_dirty (k_loop w') = true).
Proof.
  induction 1 as [w|l w1 w2 w3 Hl1 Hl2 Hstep _ (E1 & E2 & E3)]; [done|]. rewrite E1, E2.
  assert (H : l_due (k_loop w2) = l_due (k_loop w1) /\ l_periodic (k_loop w2) = l_periodic (k_loop w1) /\
              (l_dirty (k_loop w1) = true -> l_dirty (k_loop w2) = true)).
  { destruct Hstep; try done; [unfold watch_expire; by destruct (expire _ _ _ _)|apply top_keeps]. }
  destruct H as (-> & -> & H). auto.
Qed.

(** A publication that is due stays due. *)
Lemma undumped_publish w w' exports c :
  undumped instant_max cfg w w' -> k_phase w' = KPublish exports c -> k_seen_dump w' = k_seen_dump w /\ k_phase w = KPublish exports c.
Proof.
  induction 1 as [w|l w1 w2 w3 Hl1 Hl2 Hstep _ IH]; [done|]. intros Hph. destruct (IH Hph) as [-> Hph2]. clear IH.
  destruct Hstep as [w clock stop Hc|w|w|w ev now Hk|w r after w' Hk Hdo|w now ex ch Hk|w r Hk]; try done.
  - unfold watch_expire in *. by destruct (expire _ _ _ _).
  - unfold do_top, loop_top in *. destruct (k_stop w); [done|]. cbn in Hph2. by destruct (_ && _).
  - cbn in Hph2. by destruct r.
Qed.
Lemma undumped_reach start w w' : kreach instant_max cfg start w -> undumped instant_max cfg w w' -> kreach instant_max cfg start w'.
Proof. intros Hr Hrun. induction Hrun; [done|]. apply IHHrun. by eapply kreach_step. Qed.
(** What was wanted is remembered. *)
Lemma wants_dirty start w w' :
  kreach instant_max cfg start w -> wants instant_max cfg w w' -> l_dirty (k_loop w') = true.
Proof.
  intros Hr Hw. assert (H : kreach instant_max cfg start w' /\ k_seen w' = true).
  { destruct Hw as [w ev now Hph Hs Hnow Hev|w e after w' Hph Hdo|w sn after w' Hph Hlost Hdo|w pr ch after w1 w2 ex c now Hph Hch Hdo Hrun Hpub Hnow].
    - split; [eapply kreach_step; [exact Hr|by apply step_top]|].
      unfold do_top. destruct (loop_top _ _ _ _ _) as [[l f] ph]. cbn. rewrite Hs, Hev. apply orb_true_r.
    - split; [eapply kreach_step; [exact Hr|by eapply step_dump]|].
      unfold do_dump in Hdo. destruct (loop_dump _ _ _ _ _ _ _) as [[l ph]|]; [|done]. injection Hdo as <-. apply orb_true_r.
    - split; [eapply kreach_step; [exact Hr|by eapply step_dump]|]. destruct sn as [pr ch].
      unfold do_dump in Hdo. destruct (loop_dump _ _ _ _ _ _ _) as [[l ph]|]; [|done]. injection Hdo as <-. cbn.
      rewrite Hlost. by rewrite !orb_true_r.
    - assert (Hr1 : kreach instant_max cfg start w1) by (eapply kreach_step; [exact Hr|by eapply step_dump]).
      split; [eapply kreach_step; [by eapply undumped_reach|by apply step_publish]|].
      destruct (undumped_publish _ _ _ _ Hrun Hpub) as [E _]. unfold do_publish. destruct (publish _ _ _ _ _) as [f tx].
      destruct (loop_published _ _ _ _ _) as [l ph]. cbn. rewrite E.
      unfold do_dump in Hdo. destruct (loop_dump _ _ _ _ _ _ _) as [[l' ph']|]; [|done]. injection Hdo as <-. cbn. by rewrite Hch. }
  destruct H as [Hr' Hs]. by apply (ki_seen _ (inv_reach start w' Hr')).
Qed.

(** [C14] The kernel is dumped in time. Let [w1] be the state at the start, or after the
    loop heard of a change or a loss, a dump failed, a complete one was discarded, or
    one was published although something had changed meanwhile. As long as no dump has
    ended since, the top of the loop starts one once the refresh interval or the longest
    retry wait has passed; from any other state, once it hears of a change or a loss, or
    the reconciliation interval has passed too. *)
Theorem dump_within start w1 w ev now :
  config_ok cfg ->
  kreach instant_max cfg start w1 -> undumped instant_max cfg w1 w -> k_phase w = KTop -> k_stop w = false ->
  k_clock w1 + dump_delay cfg <= now ->
  w1 = kernel_init start \/ (exists w0, kreach instant_max cfg start w0 /\ wants instant_max cfg w0 w1) \/
    ev_changed ev || ev_lost ev = true \/ k_clock w1 + reconcile_delay cfg <= now ->
  k_phase (do_top ev now w) = KDump.
Proof.
  intros Hok Hreach Hrun Hph Hstop Hdue Hwant.
  assert (HR : 0 <= reconcile_delay cfg).
  { destruct (kernel_reconcile _ (ok_kernel _ Hok)) as [H _]. unfold reconcile_delay. lia. }
  destruct (deadlines_reach start w1 HR Hreach) as [Hd Hp].
  destruct (undumped_keeps _ _ Hrun) as (E1 & E2 & E3).
  unfold do_top, loop_top. rewrite Hstop. cbn.
  assert (E : l_due (k_loop w) <=? now = true) by lia. rewrite E, andb_true_r.
  assert (Hdirty : ev_changed ev || ev_lost ev || (l_periodic (k_loop w) <=? now) || l_dirty (k_loop w) = true).
  { destruct Hwant as [->|[(w0 & Hr0 & Hw)|[->|H]]]; [..|done|].
    - rewrite (E3 eq_refl). apply orb_true_r.
    - rewrite (E3 (wants_dirty start w0 w1 Hr0 Hw)). apply orb_true_r.
    - assert (Ep : l_periodic (k_loop w) <=? now = true) by lia. by rewrite Ep, orb_true_r. }
  by rewrite Hdirty.
Qed.

(** A publication comes from a complete snapshot: [KPublish] is entered only from
    a [snapshot] that returned a prefix set and a drain without loss after the
    filtering, with the exports [filter] computes from it, and publishing makes the
    channel hold them, notifies receivers only when the value differs, clears the
    staleness, and leaves a new dump scheduled exactly when something changed. *)
Theorem publish_complete r after w w' exports changed now :
  k_phase w = KDump -> do_dump instant_max cfg r after w = Some w' -> k_phase w' = KPublish exports changed ->
  let w'' := do_publish instant_max cfg now exports changed w' in
  (exists prefixes c, r = Ok (Some (prefixes, c)) /\ filter_exports cfg prefixes = Ok exports /\
     ev_lost after = false /\ changed = c || ev_changed after) /\
  w_value (k_tx w'') = exports /\
  w_version (k_tx w'') = (if bool_decide (w_value (k_tx w') = exports) then 0 else 1) + w_version (k_tx w') /\
  withdrawn (k_fresh w'') = false /\
  dirty_since (k_fresh w'') = (if changed then Some now else None) /\
  l_dirty (k_loop w'') = changed.
Proof.
  intros Hph Hdo Hpub w''. unfold do_dump in Hdo.
  destruct (loop_dump _ _ _ _ _ _ _) as [[l ph]|] eqn:E; [|done].
  apply loop_dump_dirty in E as [El Eph]. injection Hdo as <-. cbn in Hpub. subst ph.
  split; [done|]. subst w''. unfold do_publish, publish.
  match goal with |- context [loop_published ?a ?b ?c ?d ?e] =>
    pose proof (loop_published_dirty c d e) as [Hl _]; destruct (loop_published a b c d e) as [l' ph'] end.
  cbn [k_tx k_fresh k_loop fst] in *. case_bool_decide; cbn; split_and!; try done; lia.
Qed.

(** Retries are paced: after a failed dump (with no stop requested) the loop waits
    at least 200 ms and at most 3 s before the next one, doubling from the first
    failure to the fourth; the deadline cannot overflow or panic while the clock has
    three seconds of range left, and the dump stays scheduled. *)
Theorem failed_dump_retries e after w :
  k_phase w = KDump -> k_stop w = false -> 0 <= l_retries (k_loop w) -> k_clock w + 3000 <= instant_max ->
  exists w', do_dump instant_max cfg (Err e) after w = Some w' /\ k_phase w' = KPoll /\
    l_dirty (k_loop w') = l_dirty (k_loop w) /\ k_fresh w' = k_fresh w /\ k_tx w' = k_tx w /\
    l_retries (k_loop w') = Z.min (l_retries (k_loop w) + 1) (2 ^ 32 - 1) /\
    l_due (k_loop w') = k_clock w +
      (if l_retries (k_loop w') <=? 4 then 100 * 2 ^ l_retries (k_loop w') else 3000) /\
    200 <= l_due (k_loop w') - k_clock w <= 3000.
Proof.
  intros Hph Hstop Hr Hmax. unfold do_dump, loop_dump, instant_add, checked_add. rewrite Hstop.
  set (n := Z.min (l_retries (k_loop w) + 1) (2 ^ 32 - 1)).
  assert (Hn : 1 <= n) by lia. pose proof (retry_ms_value n Hn) as Hv.
  assert (Hb : 200 <= retry_ms n <= 3000).
  { rewrite Hv. destruct (Z.leb_spec n 4); [|lia].
    assert (n = 1 \/ n = 2 \/ n = 3 \/ n = 4) as [-> | [-> | [-> | ->]]] by lia; done. }
  rewrite (proj2 (Z.leb_le _ _)) by lia. cbn [unwrap]. eexists. split; [done|]. cbn.
  rewrite <- Hv. split_and!; try done; lia.
Qed.

(** The loop decides on every branch: with a stop request it ends without
    touching the exports; otherwise a change, a loss or a reconciliation that falls
    due marks the state stale since now (or since it already was) and schedules a
    dump, which starts in the same pass unless its deadline lies ahead; with nothing
    to attend it leaves the staleness alone. *)
Theorem loop_top_spec ev now w :
  let w' := do_top ev now w in
  k_tx w' = k_tx w /\ withdrawn (k_fresh w') = withdrawn (k_fresh w) /\
  if k_stop w then k_phase w' = KDone (Ok tt) /\ k_fresh w' = k_fresh w /\ k_loop w' = k_loop w else
  let attend := ev_changed ev || ev_lost ev || (l_periodic (k_loop w) <=? now) in
  l_dirty (k_loop w') = attend || l_dirty (k_loop w) /\
  k_phase w' = (if (attend || l_dirty (k_loop w)) && (l_due (k_loop w) <=? now) then KDump else KPoll) /\
  dirty_since (k_fresh w') =
    (if attend then Some (default now (dirty_since (k_fresh w))) else dirty_since (k_fresh w)) /\
  l_due (k_loop w') = l_due (k_loop w) /\ l_periodic (k_loop w') = l_periodic (k_loop w) /\
  l_losses (k_loop w') = (if ev_lost ev then count (l_losses (k_loop w)) 1 else l_losses (k_loop w)).
Proof.
  intros w'. subst w'. unfold do_top, loop_top. destruct (k_stop w); [by split_and!|].
  cbn [fst snd k_loop k_tx k_fresh k_phase l_dirty l_due l_periodic l_losses].
  destruct (ev_lost ev), (ev_changed ev), (l_periodic (k_loop w) <=? now);
    cbn [orb andb invalidate dirty_since withdrawn]; unfold default; split_and!; try done;
    by destruct (dirty_since (k_fresh w)).
Qed.

(** The daemon subscribes before its first dump and to everything it depends on: a
    worker that reaches its loop has asked for the configured receive buffer, unchanged
    by the cast to [i32], and bound its notification socket to the link, address and
    route groups of IPv4, and of IPv6 exactly when IPv6 is enabled; it then starts with
    a dump due and the kernel state invalid. *)
Theorem kernel_subscribed os spawned now acts w :
  config_ok cfg -> kernel_start os cfg spawned now = (acts, Ok w) ->
  exists mask, acts = [NlSocket; NlSetRcvbuf (k_receive_buffer_bytes (c_kernel cfg)); NlGetRcvbuf; NlBind mask] /\
    (forall bit, 0 <= bit -> Z.testbit mask bit = bool_decide (bit ∈ [0; 4; 6] \/ c_ipv6 cfg = true /\ bit ∈ [8; 10])) /\
    k_phase w = KTop /\ l_dirty (k_loop w) = true /\ l_due (k_loop w) = now /\ dirty_since (k_fresh w) = Some now.
Proof.
  intros Hok H. exists (groups cfg). unfold kernel_start in H.
  apply out_bind_split in H as ([] & acts1 & acts2 & Ho & H & ->).
  apply out_bind_split in H as ([] & acts3 & acts4 & [= <- _] & [= <- <-] & ->).
  unfold open_events, socket_open, syscall in Ho. rewrite (buffer_fits cfg Hok) in Ho.
  apply out_bind_split in Ho as ([] & a1 & b1 & [= <- _] & Ho & ->).
  apply out_bind_split in Ho as ([] & a2 & b2 & [= <- _] & Ho & ->).
  apply out_bind_split in Ho as ([] & a3 & b3 & [= <- _] & Ho & ->). injection Ho as <- _.
  split_and!; try done. intros bit Hb. unfold groups.
  assert (Hbits : forall m l, (m = 81 /\ l = [0; 4; 6] \/ m = 1361 /\ l = [0; 4; 6; 8; 10]) ->
            Z.testbit m bit = bool_decide (bit ∈ l)).
  { intros m l Hm. destruct (Z.ltb_spec bit 11).
    - assert (bit ∈ seqZ 0 11) as Hin by (apply elem_of_seqZ; lia). cbn in Hin.
      repeat (apply elem_of_cons in Hin as [->|Hin]; [by destruct Hm as [[-> ->]|[-> ->]]|]). by apply not_elem_of_nil in Hin.
    - rewrite bool_decide_eq_false_2.
      + apply Z.bits_above_log2; [by destruct Hm as [[-> ->]|[-> ->]]|]. by destruct Hm as [[-> ->]|[-> ->]]; cbn; lia.
      + intros Hin. destruct Hm as [[-> ->]|[-> ->]]; repeat (apply elem_of_cons in Hin as [->|Hin]; [lia|]); by apply not_elem_of_nil in Hin. }
  destruct (c_ipv6 cfg).
  - change (Z.lor _ _) with 1361. rewrite (Hbits 1361 [0; 4; 6; 8; 10]) by auto.
    apply bool_decide_ext. rewrite !elem_of_cons. naive_solver.
  - change (Z.lor _ _) with 81. rewrite (Hbits 81 [0; 4; 6]) by auto. apply bool_decide_ext. naive_solver.
Qed.
End kernel.
