(* ===== verification/Staleness.v ===== *)
(** * From a stale kernel state to the peer, in time

    netlink.rs [run]'s watchdog with the clock ([ktimed_step]), and the netlink worker
    together with the writer task of one session ([joint_step]): how long a peer may keep
    routes while kernel snapshots fail. *)
From S2P Require Import Prelude Net Config Frame Open Update Validate Grammar RoundTrip Planning Export Writer Deadline Withdrawal.
From S2P Require Import Netsock Netlink Dump Kernel.

Section staleness.
Context {api : IpNetApi} (instant_max : Z) (cfg : Config) (latency : Z).

(** ** The watchdog in time *)
(** [thread::park_timeout(Duration::from_millis(100))] *)
Definition WATCHDOG_MS : Z := 100.
(** The netlink worker, and the latest instant of the watchdog's next [expire]: it is
    woken, scheduled and given the lock within [latency] of its timeout. *)
Record KTimed := mkKTimed { kt_world : KWorld; kt_next : Z }.
Inductive ktimed_step : KTimed -> KTimed -> Prop :=
| kt_env w clock stop next : k_clock w <= clock -> (k_stop w = true -> stop = true) ->
    (k_watcher w <> WJoined -> clock <= next) ->
    ktimed_step (mkKTimed w next) (mkKTimed (set_env clock stop w) next)
| kt_check w next : k_watcher w = WCheck -> ktimed_step (mkKTimed w next) (mkKTimed (watch_check w) next)
| kt_expire w next : k_watcher w = WExpire ->
    ktimed_step (mkKTimed w next)
      (mkKTimed (watch_expire (stale_limit cfg) w) (k_clock w + WATCHDOG_MS + latency))
(** The clock readings of the loop are recent. *)
| kt_top w ev now next : k_phase w = KTop -> k_clock w - latency <= now <= k_clock w ->
    ktimed_step (mkKTimed w next) (mkKTimed (do_top ev now w) next)
| kt_dump w r after w' next : k_phase w = KDump -> do_dump instant_max cfg r after w = Some w' ->
    ktimed_step (mkKTimed w next) (mkKTimed w' next)
| kt_publish w now exports changed next : k_phase w = KPublish exports changed ->
    k_clock w - latency <= now <= k_clock w ->
    ktimed_step (mkKTimed w next) (mkKTimed (do_publish instant_max cfg now exports changed w) next)
| kt_poll w r next : k_phase w = KPoll -> ktimed_step (mkKTimed w next) (mkKTimed (do_poll r w) next).
Definition ktimed_init (start : Z) : KTimed := mkKTimed (kernel_init start) (start + latency).
Inductive ktimed_reach (start : Z) : KTimed -> Prop :=
| ktimed_start : ktimed_reach start (ktimed_init start)
| ktimed_next K K' : ktimed_reach start K -> ktimed_step K K' -> ktimed_reach start K'.
(** The kernel state is known to be out of date from [t] on: at the start, when the loop
    hears of a change or a loss or a reconciliation falls due, and when what is published
    had changed meanwhile. *)
Inductive noticed (start : Z) : KTimed -> Z -> Prop :=
| noticed_start : noticed start (ktimed_init start) start
| noticed_top w ev now next : ktimed_reach start (mkKTimed w next) -> k_phase w = KTop -> k_stop w = false ->
    k_clock w - latency <= now <= k_clock w ->
    ev_changed ev || ev_lost ev || (l_periodic (k_loop w) <=? now) = true ->
    noticed start (mkKTimed (do_top ev now w) next) (k_clock w)
| noticed_changed w now exports next : ktimed_reach start (mkKTimed w next) -> k_phase w = KPublish exports true ->
    k_clock w - latency <= now <= k_clock w ->
    noticed start (mkKTimed (do_publish instant_max cfg now exports true w) next) (k_clock w).
(** Any step but a publication. *)
Definition unpublished_step (K K' : KTimed) : Prop :=
  ktimed_step K K' /\
  forall exports c, k_phase (kt_world K) = KPublish exports c -> k_phase (kt_world K') = KPublish exports c.
(** Out of date since [t], and nothing published since. *)
Definition stale_since (start : Z) (K : KTimed) (t : Z) : Prop :=
  exists K0, noticed start K0 t /\ rtc unpublished_step K0 K.
(** The longest the kernel state may be out of date before peers are offered nothing. *)
Definition expiry_ms : Z := stale_limit cfg + WATCHDOG_MS + 2 * latency.

(** ** The worker and the writer of one session *)
Context (p : Peer) (n : Negotiated).
(** The longest part of the writer's loop; a publication meanwhile is seen at its end. *)
Definition busy_ms : Z := 3 * latency + 2 * write_ms p.
Definition notify_timed (exports : Exports) (T : Timed) : Timed :=
  let w := td_world T in
  mkTimed (td_clock T) (mkWorld (phase w) (tx w) (mkShared exports true (pending (shared w))) (sent w)) (td_times T).
(** The worker, the session's writer, and the latter when it last learned of exports. *)
Record Joint := mkJoint { jt_kernel : KTimed; jt_session : Timed; jt_since : Timed }.
Definition version (K : KTimed) : Z := w_version (k_tx (kt_world K)).
Definition offered (K : KTimed) : Exports := w_value (k_tx (kt_world K)).
Inductive joint_step : Joint -> Joint -> Prop :=
| joint_kernel K K' T T0 : ktimed_step K K' -> version K' = version K ->
    joint_step (mkJoint K T T0) (mkJoint K' T T0)
| joint_publish K K' T T0 : ktimed_step K K' -> version K' <> version K ->
    k_clock (kt_world K') <= td_clock T <= k_clock (kt_world K') + busy_ms ->
    joint_step (mkJoint K T T0) (mkJoint K' (notify_timed (offered K') T) (notify_timed (offered K') T))
| joint_session K T T' T0 : silent_step p n latency T T' -> joint_step (mkJoint K T T0) (mkJoint K T' T0).
(** The session starts at any moment of the worker's life. *)
Definition session_start (order : Order) (now pending0 : Z) (exports : Exports) : Timed :=
  mkTimed now (mkWorld PReplan (tx_init order p n now exports) (mkShared exports false pending0) []) [].
Inductive joint_reach (start : Z) : Joint -> Prop :=
| joint_init K order now pending0 : ktimed_reach start K -> order_ok order ->
    let T := session_start order now pending0 (offered K) in joint_reach start (mkJoint K T T)
| joint_next J J' : joint_reach start J -> joint_step J J' -> joint_reach start J'.

(** * Theorems *)
Lemma ktimed_kstep K K' : ktimed_step K K' -> exists l, kstep instant_max cfg l (kt_world K) (kt_world K').
Proof.
  destruct 1; cbn [kt_world].
  - exists LEnv. by apply step_env.
  - exists LWatch. by apply step_check.
  - exists LWatch. by apply step_expire.
  - exists LTop. apply step_top; [done|lia].
  - exists LDump. by eapply step_dump.
  - exists LPublish. apply step_publish; [done|lia].
  - exists LPoll. by apply step_poll.
Qed.
Lemma ktimed_kreach start K : ktimed_reach start K -> kreach instant_max cfg start (kt_world K).
Proof.
  induction 1 as [|K K' _ IH Hstep]; [apply kreach_init|].
  apply ktimed_kstep in Hstep as (l & Hstep). by eapply kreach_step.
Qed.

Hypotheses (Hlat : 0 <= latency) (Hlimit : 0 < k_stale_timeout_secs (c_kernel cfg)).

(** The watchdog's schedule and the pending invalidation. *)
Record ktimed_inv (K : KTimed) : Prop := {
  kv_next : kt_next K <= k_clock (kt_world K) + WATCHDOG_MS + latency;
  kv_alive : k_watcher (kt_world K) <> WJoined -> k_clock (kt_world K) <= kt_next K;
  kv_dirty t : dirty_since (k_fresh (kt_world K)) = Some t -> withdrawn (k_fresh (kt_world K)) = false ->
    k_watcher (kt_world K) <> WJoined -> kt_next K <= t + expiry_ms
}.

Lemma ktimed_inv_step K K' : ktimed_step K K' -> ktimed_inv K -> ktimed_inv K'.
Proof.
  assert (Hl : 0 < stale_limit cfg) by (unfold stale_limit; lia). unfold WATCHDOG_MS in *.
  intros Hstep [Hn Ha Hd]. destruct Hstep as [w clock stop next Hc Hs Hin|w next Hx|w next Hx|w ev now next Hph Hnow
    |w r after w' next Hph Hdo|w now exports changed next Hph Hnow|w r next Hph]; cbn [kt_world kt_next] in *.
  - split; cbn [kt_world kt_next set_env k_clock k_watcher k_fresh]; [unfold WATCHDOG_MS in *; lia|done|done].
  - split; cbn [kt_world kt_next watch_check k_clock k_watcher k_fresh]; [done|intros _; apply Ha; congruence|].
    intros t H1 H2 _. apply Hd; [done|done|congruence].
  - specialize (Ha ltac:(congruence)). unfold watch_expire.
    destruct (expire_cases (k_clock w) (stale_limit cfg) (k_fresh w) (k_tx w)) as [(-> & Hc)|(-> & _)];
      split; cbn [kt_world kt_next k_clock k_watcher k_fresh dirty_since withdrawn]; unfold WATCHDOG_MS in *; try done; try lia.
    intros t H1 H2 _. destruct Hc as [?|[?|(t' & Ht' & Hdur)]]; [congruence|congruence|].
    rewrite H1 in Ht'. injection Ht' as <-. unfold duration_since in Hdur. unfold expiry_ms, WATCHDOG_MS in *. lia.
  - unfold do_top, loop_top. destruct (k_stop w); [by split|].
    split; cbn [kt_world kt_next k_clock k_watcher k_fresh]; try done.
    destruct (ev_changed ev || _ || _); [|done]. cbn [invalidate dirty_since withdrawn].
    destruct (dirty_since (k_fresh w)) as [t0|] eqn:Ed; intros t [= <-] H2 H3; [by apply Hd|].
    specialize (Ha H3). unfold expiry_ms, WATCHDOG_MS in *. lia.
  - unfold do_dump in Hdo. destruct (loop_dump _ _ _ _ _ _ _) as [[l ph]|]; [|done]. injection Hdo as <-. by split.
  - unfold do_publish, publish. destruct (loop_published _ _ _ _ _) as [l ph].
    split; cbn [kt_world kt_next k_clock k_watcher k_fresh dirty_since withdrawn]; try done.
    intros t Ht _ H3. destruct changed; [|done]. injection Ht as <-. unfold expiry_ms, WATCHDOG_MS in *. lia.
  - by split.
Qed.
Lemma ktimed_reach_inv start K : ktimed_reach start K -> ktimed_inv K.
Proof.
  assert (0 < stale_limit cfg) by (unfold stale_limit; lia).
  induction 1 as [|K K' _ IH Hstep]; [|by eapply ktimed_inv_step].
  split; cbn; unfold expiry_ms, WATCHDOG_MS; [lia|lia|]. intros t [= <-] _ _. lia.
Qed.

(** Since when the code believes the kernel state to be out of date. *)
Lemma dirty_past start K t : ktimed_reach start K -> dirty_since (k_fresh (kt_world K)) = Some t -> t <= k_clock (kt_world K).
Proof.
  intros Hr. revert t. induction Hr as [|K K' _ IH Hstep]; intros t; [intros [= <-]; cbn; lia|].
  destruct Hstep as [w clock stop next Hc Hs Hin|w next Hx|w next Hx|w ev now next Hph Hnow
    |w r after w' next Hph Hdo|w now exports changed next Hph Hnow|w r next Hph]; cbn [kt_world] in *; try exact (IH t).
  - intros Ht. apply IH in Ht. cbn. lia.
  - unfold watch_expire. destruct (expire_cases (k_clock w) (stale_limit cfg) (k_fresh w) (k_tx w)) as [(-> & _)|(-> & _)]; apply IH.
  - unfold do_top, loop_top. destruct (k_stop w); [apply IH|]. cbn [k_fresh k_clock].
    destruct (ev_changed ev || _ || _); [|apply IH]. cbn [invalidate dirty_since].
    destruct (dirty_since (k_fresh w)) as [t0|]; intros [= <-]; [by apply IH|lia].
  - unfold do_dump in Hdo. destruct (loop_dump _ _ _ _ _ _ _) as [[l ph]|]; [|done]. injection Hdo as <-. apply IH.
  - unfold do_publish, publish. destruct (loop_published _ _ _ _ _) as [l ph]. cbn. destruct changed; intros [= <-]. lia.
Qed.
Lemma noticed_dirty start K t : noticed start K t ->
  ktimed_reach start K /\ exists t0, t0 <= t /\ dirty_since (k_fresh (kt_world K)) = Some t0.
Proof.
  destruct 1 as [|w ev now next Hr Hph Hs Hnow Hev|w now exports next Hr Hph Hnow].
  - split; [apply ktimed_start|]. by exists start.
  - split; [eapply ktimed_next; [exact Hr|by apply kt_top]|].
    pose proof (fun t => dirty_past start _ t Hr) as Hpast. cbn [kt_world] in *.
    unfold do_top, loop_top. rewrite Hs. cbn [k_fresh kt_world]. rewrite Hev. cbn [invalidate dirty_since].
    destruct (dirty_since (k_fresh w)) as [t0|]; [exists t0; split; [by apply Hpast|done]|exists now; split; [lia|done]].
  - split; [eapply ktimed_next; [exact Hr|by apply kt_publish]|]. exists now. split; [lia|].
    cbn [kt_world]. unfold do_publish, publish. by destruct (loop_published _ _ _ _ _).
Qed.
Lemma unpublished_dirty K K' t : rtc unpublished_step K K' ->
  dirty_since (k_fresh (kt_world K)) = Some t -> dirty_since (k_fresh (kt_world K')) = Some t.
Proof.
  induction 1 as [|K1 K2 K3 [Hstep Hun] _ IH]; [done|]. intros Ht. apply IH. clear IH.
  destruct Hstep as [w clock stop next Hc Hs Hin|w next Hx|w next Hx|w ev now next Hph Hnow
    |w r after w' next Hph Hdo|w now exports changed next Hph Hnow|w r next Hph]; cbn [kt_world] in *; try done.
  - unfold watch_expire. destruct (expire_cases (k_clock w) (stale_limit cfg) (k_fresh w) (k_tx w)) as [(-> & _)|(-> & _)]; done.
  - unfold do_top, loop_top. destruct (k_stop w); [done|]. cbn [k_fresh].
    destruct (ev_changed ev || _ || _); [|done]. cbn [invalidate dirty_since]. by rewrite Ht.
  - unfold do_dump in Hdo. destruct (loop_dump _ _ _ _ _ _ _) as [[l ph]|]; [|done]. by injection Hdo as <-.
  - specialize (Hun exports changed Hph). unfold do_publish in Hun. destruct (publish _ _ _ _ _) as [f tx].
    pose proof (loop_published_dirty instant_max cfg (k_clock w) changed (k_loop w)) as [_ Hp].
    destruct (loop_published _ _ _ _ _) as [l ph]. cbn in *. by subst ph.
Qed.
Lemma stale_dirty start K t : stale_since start K t ->
  ktimed_reach start K /\ exists t0, t0 <= t /\ dirty_since (k_fresh (kt_world K)) = Some t0.
Proof.
  intros (K0 & Hn & Hrun). destruct (noticed_dirty _ _ _ Hn) as [Hr (t0 & H0 & Ht)]. split.
  - clear -Hr Hrun. induction Hrun as [|K1 K2 K3 [Hstep _] _ IH]; [done|]. apply IH. by eapply ktimed_next.
  - exists t0. split; [done|]. by eapply unpublished_dirty.
Qed.

(** [C9] Stale exports are withdrawn in time: let the kernel state be known to be out of
    date at [t], because the loop heard of a change or a loss, a reconciliation fell
    due, or what it published had changed meanwhile. In every run of the netlink worker
    in which the watchdog is woken within [latency] of its timeout and clock readings
    are at most as old, unless something is published after [t], the exports offered to
    peers are empty once the stale timeout, the watchdog's period and two latencies have
    passed since [t], whatever changes, losses and failed dumps come in between. *)
Theorem expired_in_time start K t :
  stale_since start K t -> k_watcher (kt_world K) <> WJoined -> t + expiry_ms < k_clock (kt_world K) ->
  withdrawn (k_fresh (kt_world K)) = true /\ offered K = ∅.
Proof.
  intros Hs Hw Hlate. destruct (stale_dirty _ _ _ Hs) as [Hreach (t0 & H0 & Ht)].
  destruct (ktimed_reach_inv start K Hreach) as [_ Ha Hd].
  destruct (withdrawn (k_fresh (kt_world K))) eqn:E; [|specialize (Hd t0 Ht eq_refl Hw); specialize (Ha Hw); lia].
  split; [done|]. destruct (inv_reach instant_max cfg start _ (ktimed_kreach start K Hreach)) as [Hv _ _ _ _ _].
  unfold offered. by rewrite Hv, E.
Qed.

(** How exports come to be withdrawn, and stay so. *)
Lemma withdrawn_step K K' :
  ktimed_step K K' -> ktimed_inv K -> withdrawn (k_fresh (kt_world K')) = true ->
  withdrawn (k_fresh (kt_world K)) = true /\ version K' = version K /\
    (is_Some (dirty_since (k_fresh (kt_world K))) -> dirty_since (k_fresh (kt_world K')) = dirty_since (k_fresh (kt_world K))) \/
  version K' <> version K /\
  exists t, dirty_since (k_fresh (kt_world K')) = Some t /\ k_clock (kt_world K') <= t + expiry_ms.
Proof.
  intros Hstep [_ Ha Hd] Hw'. unfold version. destruct Hstep as [w clock stop next Hc Hs Hin|w next Hx|w next Hx|w ev now next Hph Hnow
    |w r after w' next Hph Hdo|w now exports changed next Hph Hnow|w r next Hph]; cbn [kt_world kt_next] in *; try by left.
  - unfold watch_expire in *.
    destruct (expire_cases (k_clock w) (stale_limit cfg) (k_fresh w) (k_tx w)) as [(E & _)|(E & Hf & t & Ht & _)]; rewrite E in *.
    + by left.
    + right. split; [cbn; lia|]. exists t. cbn [k_fresh k_clock dirty_since]. split; [done|]. specialize (Ha ltac:(congruence)).
      specialize (Hd t Ht Hf ltac:(congruence)). lia.
  - unfold do_top, loop_top in *. destruct (k_stop w); [by left|]. left. cbn [k_fresh k_tx] in *.
    destruct (ev_changed ev || _ || _); [|done]. cbn in *. split_and!; [done|done|]. by intros (t & ->).
  - unfold do_dump in Hdo. destruct (loop_dump _ _ _ _ _ _ _) as [[l ph]|]; [|done]. injection Hdo as <-. by left.
  - unfold do_publish, publish in Hw'. by destruct (loop_published _ _ _ _ _) as [l ph].
Qed.

(** ** The worker and a session *)
Hypothesis Hwrite : 0 <= p_write_timeout_secs p.
Record joint_inv (start : Z) (J : Joint) : Prop := {
  jv_kernel : ktimed_reach start (jt_kernel J);
  jv_since : exists s, timed_reach p n latency s (jt_since J);
  jv_run : rtc (silent_step p n latency) (jt_since J) (jt_session J);
  jv_watch : watch (shared (td_world (jt_since J))) = offered (jt_kernel J);
  (** Notified in time, or opened with nothing to announce. *)
  jv_notified : withdrawn (k_fresh (kt_world (jt_kernel J))) = true ->
    exists t, dirty_since (k_fresh (kt_world (jt_kernel J))) = Some t /\
      (concerned p (td_world (jt_since J)) = ∅ \/ td_clock (jt_since J) <= t + expiry_ms + busy_ms)
}.

Lemma offered_withdrawn start K :
  ktimed_reach start K -> withdrawn (k_fresh (kt_world K)) = true ->
  offered K = ∅ /\ is_Some (dirty_since (k_fresh (kt_world K))).
Proof.
  intros Hr Hw. destruct (inv_reach instant_max cfg start _ (ktimed_kreach start K Hr)) as [Hv Hd _ _ _ _].
  split; [unfold offered; by rewrite Hv, Hw|by apply Hd].
Qed.
Lemma version_offered K K' : ktimed_step K K' -> version K' = version K -> offered K' = offered K.
Proof. intros (l & Hstep)%ktimed_kstep. by apply (version_value instant_max cfg l). Qed.
Lemma notify_reach s T exports : timed_reach p n latency s T -> timed_reach p n latency s (notify_timed exports T).
Proof.
  intros Hr. eapply timed_next; [exact Hr|]. destruct T as [t w times]. apply timed_env. destruct w as [ph u sh sn]. apply Export.step_publish.
Qed.

Lemma desired_empty acl : desired ∅ acl = ∅.
Proof. done. Qed.
Lemma joint_inv_init start K order now pending0 :
  ktimed_reach start K -> order_ok order ->
  joint_inv start (mkJoint K (session_start order now pending0 (offered K)) (session_start order now pending0 (offered K))).
Proof.
  intros Hr Ho. split; cbn [jt_kernel jt_since jt_session]; [done| |done|done|].
  - exists now. by apply timed_init.
  - intros Hw. destruct (offered_withdrawn start K Hr Hw) as [E (t & Ht)]. exists t. split; [done|left].
    unfold concerned, session_start. rewrite E. cbn [td_world tx shared watch tx_init advertised target]. rewrite !desired_empty. set_solver.
Qed.

Lemma joint_inv_step start J J' : joint_step J J' -> joint_inv start J -> joint_inv start J'.
Proof.
  intros Hstep [Hk (s & Hs) Hr Hw Hn]. pose proof (ktimed_reach_inv start _ Hk) as Hinv.
  destruct Hstep as [K K' T T0 Hstep Hv|K K' T T0 Hstep Hv Hclock|K T T' T0 Hstep]; cbn [jt_kernel jt_since jt_session] in *.
  - split; cbn [jt_kernel jt_since jt_session]; [by eapply ktimed_next|by exists s|done|by rewrite (version_offered K K')|].
    intros Hw'. destruct (withdrawn_step K K' Hstep Hinv Hw') as [(Hw0 & _ & Hd)|[? _]]; [|done].
    destruct (Hn Hw0) as (t & Ht & Hor). exists t. split; [|done]. rewrite Hd; [done|by exists t].
  - split; cbn [jt_kernel jt_since jt_session]; [by eapply ktimed_next| |done|done|].
    + exists s. apply notify_reach. by eapply silent_timed.
    + intros Hw'. destruct (withdrawn_step K K' Hstep Hinv Hw') as [(_ & ? & _)|(_ & t & Ht & Hc)]; [done|].
      exists t. split; [done|right]. cbn. lia.
  - split; cbn [jt_kernel jt_since jt_session]; [done|by exists s|by eapply rtc_r|done|done].
Qed.
Lemma joint_reach_inv start J : joint_reach start J -> joint_inv start J.
Proof. induction 1; [by apply joint_inv_init|by eapply joint_inv_step]. Qed.

(** [C6] From the kernel to the peer: let the kernel state be known to be out of date at
    [t], and nothing be published since. While the netlink worker runs, once the stale
    timeout and the delays of the watchdog have passed since [t], and the session has
    had the time of one part and of its withdrawals beyond that, its peer holds nothing,
    whatever changes, losses and failed dumps come in between and whatever refreshes the
    peer asks for, or the session has ended. *)
Theorem stale_routes_leave start J t :
  joint_reach start J -> stale_since start (jt_kernel J) t ->
  k_watcher (kt_world (jt_kernel J)) <> WJoined -> phase (td_world (jt_session J)) <> Stopped ->
  t + expiry_ms < k_clock (kt_world (jt_kernel J)) ->
  t + expiry_ms + busy_ms + withdrawal_ms p latency (td_world (jt_since J)) < td_clock (jt_session J) ->
  peer_view (sent (td_world (jt_session J))) = ∅.
Proof.
  intros Hreach Hst Hw Hph Hlate Hsess. destruct (joint_reach_inv start J Hreach) as [Hk (s & Hs) Hr Hwatch Hn].
  destruct (stale_dirty _ _ _ Hst) as [_ (t0 & H0 & Ht)].
  destruct (ktimed_reach_inv start _ Hk) as [_ Ha Hd]. specialize (Ha Hw).
  destruct (withdrawn (k_fresh (kt_world (jt_kernel J)))) eqn:E; [|specialize (Hd t0 Ht eq_refl Hw); lia].
  destruct (offered_withdrawn start _ Hk E) as [Ho _]. destruct (Hn eq_refl) as (t' & Ht' & Hor).
  rewrite Ht in Ht'. injection Ht' as <-. apply set_eq. intros q. split; [|by intros []%not_elem_of_empty].
  intros Hq. exfalso. destruct Hor as [Hc|Hc].
  - pose proof (concerned_run p n latency Hlat Hwrite s _ _ Hs Hr) as Hsub.
    pose proof (tx_reachable_ok p n _ (timed_reach_tx p n latency s _ (silent_timed p n latency s _ _ Hs Hr))) as Hok.
    rewrite <- (ok_view _ _ Hok) in Hq. unfold concerned in *. set_solver.
  - apply (silent_withdrawn p n latency Hlat Hwrite s (jt_since J) (jt_session J) q); [done|done|done|lia| |done].
    rewrite Hwatch, Ho, desired_empty. apply not_elem_of_empty.
Qed.
End staleness.
