(* ===== verification/System.v ===== *)
(** * The composed exporter: kernel loop, watchdog and the writers of all sessions

    The product of [Kernel] and [Export], as main.rs and bgp.rs compose them: one watch
    channel from the netlink worker to the [transmit] task of every session. Sessions
    open and close at any time; refresh requests arrive at any time; a dump's outcome
    is that of [Dump.snapshot] on some behaviour of the kernel. *)
From S2P Require Import Prelude Net Config Frame Open Update Validate Grammar RoundTrip Planning Export Netsock Netlink Dump Kernel.

Section system.
Context (big : bool) (instant_max : Z) {api : IpNetApi} (cfg : Config).

(** An established session: its peer (with the interface's link-local next hop), what
    was negotiated, and its writer task. *)
Record Sess := mkSess { ss_peer : Peer; ss_neg : Negotiated; ss_world : World }.
Record Sys := mkSys { sy_kernel : KWorld; sy_sessions : list Sess }.

(** [watch::Sender::send_replace] as every receiver sees it. *)
Definition notify (exports : Exports) (s : Sess) : Sess :=
  let w := ss_world s in
  mkSess (ss_peer s) (ss_neg s)
    (mkWorld (phase w) (tx w) (mkShared exports true (pending (shared w))) (sent w)).
Definition broadcast (k k' : KWorld) (ss : list Sess) : list Sess :=
  if w_version (k_tx k') =? w_version (k_tx k) then ss else map (notify (w_value (k_tx k'))) ss.
(** [session] up to [transmit]: the receiver is a clone, its current value seen. *)
Definition open_session (order : Order) (p : Peer) (link_local : option Z) (n : Negotiated) (now pending0 : Z)
    (exports : Exports) : Sess :=
  let p := session_peer p link_local in
  mkSess p n (mkWorld PReplan (tx_init order p n now exports) (mkShared exports false pending0) []).

(** A result that [snapshot] can return: the sockets behave in some well-formed way. *)
Inductive snapshot_result : res (option (Prefixes * bool)) -> Prop :=
| snapshot_returns os sendto sq raws last :
    (forall op, total (os op)) -> (forall req, total (sendto req)) -> Forall raw_pass_ok raws -> Forall raw_ok last ->
    snapshot_result (snapshot big cfg os sendto sq (map pass_of raws) (map recv last)).2.

(** Who takes a step: the netlink worker, or the BGP worker writing [out]. *)
Inductive SysAct := ByKernel | ByBgp (out : list (Peer * Msg)).
(** What the writer of [s] writes when it goes on to [w']. *)
Definition written (s : Sess) (w' : World) : list (Peer * Msg) :=
  map (pair (ss_peer s)) (drop (length (sent (ss_world s))) (sent w')).
Inductive sys_step : Sys -> SysAct -> Sys -> Prop :=
| sys_kernel l k k' ss : l <> LDump -> kstep instant_max cfg l k k' ->
    sys_step (mkSys k ss) ByKernel (mkSys k' (broadcast k k' ss))
| sys_dump r after k k' ss :
    k_phase k = KDump -> snapshot_result r -> do_dump instant_max cfg r after k = Some k' ->
    sys_step (mkSys k ss) ByKernel (mkSys k' (broadcast k k' ss))
| sys_write k ss1 s w' ss2 : own_step (ss_peer s) (ss_neg s) (ss_world s) w' ->
    sys_step (mkSys k (ss1 ++ s :: ss2)) (ByBgp (written s w')) (mkSys k (ss1 ++ mkSess (ss_peer s) (ss_neg s) w' :: ss2))
| sys_request k ss1 s v6 ss2 :
    let w := ss_world s in
    sys_step (mkSys k (ss1 ++ s :: ss2)) (ByBgp [])
      (mkSys k (ss1 ++ mkSess (ss_peer s) (ss_neg s)
         (mkWorld (phase w) (tx w)
            (mkShared (watch (shared w)) (changed (shared w)) (Export.request (pending (shared w)) v6)) (sent w)) :: ss2))
| sys_open k ss order p link_local n now :
    order_ok order -> p ∈ c_peers cfg ->
    sys_step (mkSys k ss) (ByBgp []) (mkSys k (open_session order p link_local n now 0 (w_value (k_tx k)) :: ss))
| sys_close k ss1 s ss2 : sys_step (mkSys k (ss1 ++ s :: ss2)) (ByBgp []) (mkSys k (ss1 ++ ss2)).

Inductive sys_reach (start : Z) : Sys -> Prop :=
| sys_init : sys_reach start (mkSys (kernel_init start) [])
| sys_next S a S' : sys_reach start S -> sys_step S a S' -> sys_reach start S'.

(** ** Where exports come from *)
(** The prefixes of the last complete snapshot, or none yet. *)
Definition snapshot_prefixes (prefixes : Prefixes) : Prop :=
  exists c, snapshot_result (Ok (Some (prefixes, c))).
Definition exports_of (e : Exports) : Prop :=
  e = ∅ \/ exists prefixes, snapshot_prefixes prefixes /\ filter_exports cfg prefixes = Ok e.
(** [q] may be announced to [p]: its export ACL permits it. *)
Definition may_announce (p : Peer) (q : IpNet) : Prop :=
  exists acl, c_acls cfg !! p_export_acl p = Some acl /\ permits acl q = true.

(** The peer of [s] holds exactly the prefixes of the last complete snapshot that its ACL
    permits in the negotiated families, and nothing while the kernel state is stale. *)
Definition holds_snapshot (k : KWorld) (s : Sess) : Prop :=
  exists prefixes acl, c_acls cfg !! p_export_acl (ss_peer s) = Some acl /\
    (prefixes = ∅ \/ snapshot_prefixes prefixes) /\
    (k_last k <> ∅ -> filter_exports cfg prefixes = Ok (k_last k)) /\
    forall q, q ∈ peer_view (sent (ss_world s)) <->
      withdrawn (k_fresh k) = false /\ q ∈ prefixes /\ permits acl q = true /\ enabled (ss_neg s) q = true.
Definition with_world (s : Sess) (w : World) : Sess := mkSess (ss_peer s) (ss_neg s) w.

(** The invariant of one session with the value in the watch channel. *)
Record sess_inv (value : Exports) (s : Sess) : Prop := {
  si_tx : tx_ok (ss_neg s) (ss_world s);
  si_peer : exists p, p ∈ c_peers cfg /\ p_export_acl (ss_peer s) = p_export_acl p;
  si_watch : watch (shared (ss_world s)) = value;
  si_seen : changed (shared (ss_world s)) = false -> target (tx (ss_world s)) = desired value (p_export_acl (ss_peer s));
  si_target q : q ∈ target (tx (ss_world s)) -> may_announce (ss_peer s) q;
  si_sent batch q : MUpdate false batch ∈ sent (ss_world s) -> q ∈ batch -> may_announce (ss_peer s) q
}.
Record sys_inv (S : Sys) : Prop := {
  sv_kernel : kernel_inv (sy_kernel S);
  sv_last : exports_of (k_last (sy_kernel S));
  sv_publish : forall e c, k_phase (sy_kernel S) = KPublish e c -> exports_of e;
  sv_sessions : Forall (sess_inv (w_value (k_tx (sy_kernel S)))) (sy_sessions S)
}.

(** * Theorems *)
Hypothesis acls_exist : Forall (fun p => is_Some (c_acls cfg !! p_export_acl p)) (c_peers cfg).

Lemma exports_of_desired e p :
  exports_of e -> p ∈ c_peers cfg ->
  exists prefixes acl, c_acls cfg !! p_export_acl p = Some acl /\
    (prefixes = ∅ \/ snapshot_prefixes prefixes) /\ (e <> ∅ -> filter_exports cfg prefixes = Ok e) /\
    forall q, q ∈ desired e (p_export_acl p) <-> q ∈ prefixes /\ permits acl q = true.
Proof.
  intros He Hp. destruct (proj1 (Forall_forall _ _) acls_exist p Hp) as (acl & Hacl).
  destruct He as [->|(prefixes & Hs & Hf)].
  { exists ∅, acl. split_and!; [done|by left|done|]. intros q. split; [intros []%not_elem_of_empty|intros [[]%not_elem_of_empty _]]. }
  exists prefixes, acl. split_and!; [done|by right|done|]. intros q.
  destruct (filter_lookup cfg prefixes acls_exist) as (out & Hf' & Hlk). rewrite Hf in Hf'. injection Hf' as <-.
  unfold desired. rewrite Hlk, bool_decide_true by by apply list_elem_of_fmap_2.
  rewrite Hacl. cbn. unfold permitted. rewrite elem_of_filter. tauto.
Qed.

Lemma desired_may_announce e s :
  exports_of e -> (exists p, p ∈ c_peers cfg /\ p_export_acl (ss_peer s) = p_export_acl p) ->
  forall q, q ∈ desired e (p_export_acl (ss_peer s)) -> may_announce (ss_peer s) q.
Proof.
  intros He (p & Hp & Ep) q Hq. rewrite Ep in Hq. unfold may_announce. rewrite Ep.
  destruct (exports_of_desired e p He Hp) as (prefixes & acl & Hacl & H1 & H2 & Hd). destruct (proj1 (Hd q) Hq) as [_ Hpq].
  by exists acl.
Qed.

(** What the writer's steps keep. *)
Lemma sess_write value s w' :
  exports_of value -> own_step (ss_peer s) (ss_neg s) (ss_world s) w' -> sess_inv value s ->
  sess_inv value (mkSess (ss_peer s) (ss_neg s) w').
Proof.
  intros He Hstep [Htx Hp Hw Hs Ht Hm].
  assert (Htx' : tx_ok (ss_neg s) w') by (eapply (tx_ok_step (ss_peer s)); [exact Htx|by right]).
  pose proof (desired_may_announce value s He Hp) as Hd. destruct s as [p n w]. cbn [ss_peer ss_neg ss_world] in *.
  destruct Hstep; cbn [tx shared sent watch changed target] in *; try (by split).
  - split; try done; cbn; by rewrite Hw.
  - unfold check_refresh in H1. destruct (_ && _); [destruct (negb _)|]; injection H1 as <- <-; by split.
  - split; try done. cbn. intros batch q [Hin|Hin]%elem_of_app; [by apply Hm|].
    apply list_elem_of_singleton in Hin. discriminate Hin.
  - destruct (mark_sent_advertised withdraw batch (set_plan pl t)) as [_ _].
    split; try done. cbn [sent ss_world ss_peer]. intros b q [Hin|Hin]%elem_of_app; [by eapply Hm|].
    apply list_elem_of_singleton in Hin. injection Hin as <- ->. intros Hq. apply Ht.
    destruct Htx as [_ Hplan Hen _ _ _]. cbn [tx advertised target replay plan] in *.
    destruct (plan_next_ok n _ _ _ _ _ _ _ Hen Hplan H) as [Hb _]. by apply (Hb q).
  - split; try done. cbn. intros b q [Hin|Hin]%elem_of_app; [by eapply Hm|]. unfold eor_msgs in Hin.
    destruct (negb _), (negb _); set_solver.
  - split; try done. cbn. intros b q [Hin|Hin]%elem_of_app; [by eapply Hm|].
    apply list_elem_of_singleton in Hin. subst m1. unfold eor_msgs in H.
    destruct (negb _), (negb _); discriminate H.
  - split; try done; cbn; by rewrite Hw.
Qed.

Lemma sess_notify value value' s : sess_inv value s -> sess_inv value' (notify value' s).
Proof.
  intros [Htx Hp Hw Hs Ht Hm]. split; try done. by destruct Htx; split.
Qed.

Lemma sess_open value order p link_local n now :
  order_ok order -> p ∈ c_peers cfg -> exports_of value -> sess_inv value (open_session order p link_local n now 0 value).
Proof.
  intros Ho Hp He.
  assert (Eacl : p_export_acl (session_peer p link_local) = p_export_acl p) by (unfold session_peer; by destruct (_ && _)).
  assert (Hpeer : exists p0, p0 ∈ c_peers cfg /\ p_export_acl (session_peer p link_local) = p_export_acl p0) by by exists p.
  split; try done; cbn [open_session ss_world ss_neg ss_peer tx shared watch sent target tx_init].
  - by apply (tx_init_ok (session_peer p link_local) n order now value 0).
  - intros q Hq. apply (desired_may_announce value (mkSess (session_peer p link_local) n (ss_world (open_session order p link_local n now 0 value))) He Hpeer q Hq).
  - intros b q Hin. by apply not_elem_of_nil in Hin.
Qed.

Lemma broadcast_inv l k k' ss :
  kstep instant_max cfg l k k' ->
  Forall (sess_inv (w_value (k_tx k))) ss -> Forall (sess_inv (w_value (k_tx k'))) (broadcast k k' ss).
Proof.
  intros Hstep Hss. unfold broadcast. destruct (Z.eqb_spec (w_version (k_tx k')) (w_version (k_tx k))) as [E|].
  - by rewrite (version_value instant_max cfg l k k').
  - apply Forall_forall. intros s (s0 & -> & Hs0)%list_elem_of_fmap.
    eapply sess_notify, (proj1 (Forall_forall _ _) Hss s0 Hs0).
Qed.

(** The exports published are always those of a complete snapshot. *)
Definition origin_inv (k : KWorld) : Prop :=
  exports_of (k_last k) /\ forall e c, k_phase k = KPublish e c -> exports_of e.

Lemma origin_dump r after k k' :
  do_dump instant_max cfg r after k = Some k' -> snapshot_result r -> origin_inv k -> origin_inv k'.
Proof.
  intros Hdo Hsnap [Hl Hp]. unfold do_dump in Hdo.
  destruct (loop_dump _ _ _ _ _ _ _) as [[l ph]|] eqn:E; [|done]. injection Hdo as <-.
  split; [done|]. cbn [k_phase]. intros e c ->. apply loop_dump_dirty in E as [_ (prefixes & c' & -> & Hf & _)].
  right. exists prefixes. split; [by exists c'|done].
Qed.

Lemma origin_step l k k' : l <> LDump -> kstep instant_max cfg l k k' -> origin_inv k -> origin_inv k'.
Proof.
  intros Hne Hstep [Hl Hp].
  destruct Hstep as [w clock stop Hc|w|w Hx|w ev now Hph|w r after w' Hph Hdo|w now exports c Hph|w r Hph]; try done.
  - unfold watch_expire. by destruct (expire _ _ _ _).
  - unfold do_top, loop_top. destruct (k_stop w); [by split|]. split; [done|]. cbn. by destruct (_ && _).
  - unfold do_publish, publish. pose proof (loop_published_dirty instant_max cfg (k_clock w) c (k_loop w)) as [_ Hph'].
    destruct (loop_published _ _ _ _ _) as [l ph]. cbn [snd] in Hph'. split; cbn [k_last k_phase]; [by eapply Hp|].
    intros e c' ->. done.
  - split; [done|]. cbn. by destruct r.
Qed.

Lemma sys_inv_init start : sys_inv (mkSys (kernel_init start) []).
Proof. split; [apply inv_init|by left|done|by apply Forall_nil]. Qed.

Lemma value_exports_of S : sys_inv S -> exports_of (w_value (k_tx (sy_kernel S))).
Proof. intros [[Hv _ _ _ _ _] Hl _ _]. rewrite Hv. destruct (withdrawn _); [by left|done]. Qed.

Lemma sys_inv_kernel l k k' ss :
  kstep instant_max cfg l k k' -> origin_inv k' -> sys_inv (mkSys k ss) -> sys_inv (mkSys k' (broadcast k k' ss)).
Proof.
  intros Hstep [Hl' Hp'] [Hk Hl Hp Hs].
  split; [by eapply inv_step|done|done|by eapply broadcast_inv].
Qed.

Lemma Forall_middle {A} (P : A -> Prop) l1 x l2 : Forall P (l1 ++ x :: l2) <-> Forall P l1 /\ P x /\ Forall P l2.
Proof. by rewrite Forall_app, Forall_cons. Qed.

Lemma sys_inv_step S a S' : sys_step S a S' -> sys_inv S -> sys_inv S'.
Proof.
  intros Hstep Hinv. pose proof (value_exports_of S Hinv) as He.
  assert (Ho : origin_inv (sy_kernel S)) by by destruct Hinv.
  destruct Hstep as [l k k' ss Hl Hk|r after k k' ss Hph Hr Hdo|k ss1 s w' ss2 Hw|k ss1 s v6 ss2 w|k ss order p ll n now Hord Hp|k ss1 s ss2].
  - apply (sys_inv_kernel l); [done|by eapply origin_step|done].
  - apply (sys_inv_kernel LDump); [by eapply step_dump|by eapply origin_dump|done].
  - destruct Hinv as [Hk Hl Hpub (H1 & Hs & H2)%Forall_middle]. split; try done.
    apply Forall_middle. split_and!; [done|by apply sess_write|done].
  - destruct Hinv as [Hk Hl Hpub (H1 & Hs & H2)%Forall_middle]. split; try done.
    apply Forall_middle. split_and!; [done| |done]. destruct Hs as [Htx Hpe Hwa Hse Hta Hse']. split; try done.
    by destruct Htx; split.
  - destruct Hinv as [Hk Hl Hpub Hs]. split; try done. apply Forall_cons. split; [by apply sess_open|done].
  - destruct Hinv as [Hk Hl Hpub (H1 & Hs & H2)%Forall_middle]. split; try done. by apply Forall_app.
Qed.

Lemma sys_reach_inv start S : sys_reach start S -> sys_inv S.
Proof. induction 1; [apply sys_inv_init|by eapply sys_inv_step]. Qed.

(** [C2] Export ACLs are mandatory: in every reachable state of the composed system, every
    prefix of every announcement ever written to a peer is permitted by the first
    matching rule of that peer's export ACL, however route changes, failed dumps,
    expiry, refreshes and session restarts interleave. *)
Theorem announcements_permitted start S s batch q :
  sys_reach start S -> s ∈ sy_sessions S -> MUpdate false batch ∈ sent (ss_world s) -> q ∈ batch ->
  exists acl, c_acls cfg !! p_export_acl (ss_peer s) = Some acl /\ permits acl q = true.
Proof.
  intros [_ _ _ Hs]%sys_reach_inv Hin Hm Hq. by apply (si_sent _ _ (proj1 (Forall_forall _ _) Hs s Hin) batch q).
Qed.

Lemma holds_snapshot_reach start S s :
  sys_reach start S -> s ∈ sy_sessions S ->
  phase (ss_world s) = PEor \/ phase (ss_world s) = PSelect -> changed (shared (ss_world s)) = false ->
  holds_snapshot (sy_kernel S) s.
Proof.
  intros [[Hv _ _ _ _ _] Hl _ Hs]%sys_reach_inv Hin Hph Hch.
  destruct (proj1 (Forall_forall _ _) Hs s Hin) as [Htx (p & Hp & Ep) _ Hseen _ _].
  destruct (exports_of_desired _ p Hl Hp) as (prefixes & acl & Hacl & Hor & Hf & Hd).
  exists prefixes, acl. rewrite Ep. split_and!; [done|done|done|]. intros q.
  destruct Htx as [Hview Hplan Hen _ _ Hdr]. destruct (Hdr Hph) as [Hw Ha].
  destruct (drained_synchronized _ _ _ _ _ Hen Hplan Hw Ha) as [Hadv _].
  rewrite <- Hview, Hadv, (Hseen Hch), Hv, Ep. unfold enabled_set. rewrite elem_of_filter.
  destruct (withdrawn _); [|by rewrite Hd; naive_solver].
  split; [|by intros [? _]]. intros [_ Hq]. by apply not_elem_of_empty in Hq.
Qed.

(** [C1] End to end, routes in and announcements out: in every reachable state, when a
    session's writer is waiting (or about to write its end-of-RIB markers) and has seen
    the current exports, its peer holds exactly the prefixes of the last complete
    kernel snapshot that the peer's ACL permits in the families negotiated, and holds
    nothing while the kernel state is stale. *)
Theorem peers_hold_snapshot start S s :
  sys_reach start S -> s ∈ sy_sessions S ->
  phase (ss_world s) = PEor \/ phase (ss_world s) = PSelect -> changed (shared (ss_world s)) = false ->
  holds_snapshot (sy_kernel S) s.
Proof. apply holds_snapshot_reach. Qed.

(** [C4] The exporter converges: from every reachable state of the composed system, once
    routes, timers and refreshes leave a session alone and its writes succeed, its
    writer cannot run forever or get stuck: every run of it comes to wait, having seen
    the current exports, with its peer holding exactly the permitted, negotiated
    prefixes of the last complete snapshot, or nothing while the state is stale. *)
Theorem peers_converge start k ss1 s ss2 :
  sys_reach start (mkSys k (ss1 ++ s :: ss2)) -> phase (ss_world s) <> Stopped ->
  inevitably (drain_step (ss_peer s) (ss_neg s))
    (fun w => settled w /\ sys_reach start (mkSys k (ss1 ++ with_world s w :: ss2)) /\ holds_snapshot k (with_world s w))
    (ss_world s).
Proof.
  intros Hreach Hph.
  apply (inevitably_acc _ _ (fun w => sys_reach start (mkSys k (ss1 ++ with_world s w :: ss2)) /\ phase w <> Stopped)).
  - intros w [Hr Hw]. destruct (drain_step_progress (ss_peer s) (ss_neg s) w Hw) as [Hq|Hnext]; [left|by right].
    split_and!; [done|done|]. destruct Hq as [Hsel Hseen].
    apply (holds_snapshot_reach start _ (with_world s w) Hr); [set_solver|by right|done].
  - intros w w' [Hr _] (Hstep & Hw' & _). split; [|done].
    eapply sys_next; [exact Hr|]. exact (sys_write k ss1 (with_world s w) w' ss2 Hstep).
  - apply drain_step_acc.
  - split; [|done]. by destruct s.
Qed.
End system.
