(* ===== verification/Cli.v ===== *)
(** * src/src/cli.rs: the command line

    An argument is the string of its bytes; [to_str] compares equal to an ASCII
    literal exactly when the bytes do, so non-UTF-8 arguments need no case. *)
From S2P Require Import Prelude.

Definition HELP : string := "Usage: ubgp [OPTIONS]

  -c, --config PATH   Configuration file (default: /etc/ubgp.toml)
  -d, --daemon        Detach into the background; log to syslog
      --debug        Enable verbose diagnostic logs (overrides RUST_LOG)
      --check-config Validate configuration and exit without starting
  -h, --help         Print help
  -V, --version      Print version

--config=PATH is also accepted. Foreground operation is the default.
SIGHUP reloads configuration; SIGTERM/SIGINT stops the daemon.".

Inductive Command :=
| Help
| Version
| Run (path : string) (daemon debug check : bool).

Record Opts := mkOpts { o_path : string; o_daemon : bool; o_debug : bool; o_check : bool }.
Definition default_opts : Opts := mkOpts "/etc/ubgp.toml" false false false.
(** [strip_prefix(b"--config=")] *)
Fixpoint strip_prefix (prefix s : string) : option string :=
  match prefix, s with
  | EmptyString, _ => Some s
  | String a prefix, String b s => if Ascii.eqb a b then strip_prefix prefix s else None
  | String _ _, EmptyString => None
  end.
(** The value accepted after [--config]. *)
Definition path_value (v : string) : bool :=
  negb (String.eqb v "") && negb (String.prefix "-" v).

Fixpoint parse_args (args : list string) (o : Opts) : res Command :=
  match args with
  | [] => Ok (Run (o_path o) (o_daemon o) (o_debug o) (o_check o))
  | arg :: args =>
      if String.eqb arg "--help" || String.eqb arg "-h" then Ok Help
      else if String.eqb arg "--version" || String.eqb arg "-V" then Ok Version
      else if String.eqb arg "--daemon" || String.eqb arg "-d"
      then parse_args args (mkOpts (o_path o) true (o_debug o) (o_check o))
      else if String.eqb arg "--debug" then parse_args args (mkOpts (o_path o) (o_daemon o) true (o_check o))
      else if String.eqb arg "--check-config"
      then parse_args args (mkOpts (o_path o) (o_daemon o) (o_debug o) true)
      else if String.eqb arg "--config" || String.eqb arg "-c" then
        match args with
        | value :: args =>
            if path_value value
            then parse_args args (mkOpts value (o_daemon o) (o_debug o) (o_check o))
            else bail "--config requires a path"
        | [] => bail "--config requires a path"
        end
      else match strip_prefix "--config=" arg with
           | Some value =>
               if String.eqb value "" then bail "--config requires a path"
               else parse_args args (mkOpts value (o_daemon o) (o_debug o) (o_check o))
           | None => bail "unknown argument: {} (see --help)"
           end
  end.
Definition parse (args : list string) : res Command := parse_args args default_opts.

(** ** The grammar of the command line *)
Inductive Option_ :=
| OptDaemon (short : bool)
| OptDebug
| OptCheck
| OptConfig (short : bool) (path : string)
| OptConfigEq (path : string).
Definition option_words (t : Option_) : list string :=
  match t with
  | OptDaemon short => [if short then "-d" else "--daemon"]
  | OptDebug => ["--debug"]
  | OptCheck => ["--check-config"]
  | OptConfig short path => [if short then "-c" else "--config"; path]
  | OptConfigEq path => ["--config=" +:+ path]
  end.
Definition option_valid (t : Option_) : Prop :=
  match t with
  | OptConfig _ path => path <> "" /\ String.prefix "-" path = false
  | OptConfigEq path => path <> ""
  | _ => True
  end.
Definition option_path (t : Option_) : option string :=
  match t with OptConfig _ path | OptConfigEq path => Some path | _ => None end.
(** What a list of options selects: the last path wins, flags accumulate. *)
Definition options_command (ts : list Option_) : Command :=
  Run (default "/etc/ubgp.toml" (List.last (map Some (omap option_path ts)) None))
    (existsb (fun t => match t with OptDaemon _ => true | _ => false end) ts)
    (existsb (fun t => match t with OptDebug => true | _ => false end) ts)
    (existsb (fun t => match t with OptCheck => true | _ => false end) ts).
(** A command line is valid options, possibly cut short by help or version. *)
Inductive accepts : list string -> Command -> Prop :=
| accepts_run ts : Forall option_valid ts -> accepts (concat (map option_words ts)) (options_command ts)
| accepts_help ts (short : bool) rest : Forall option_valid ts ->
    accepts (concat (map option_words ts) ++ (if short then "-h" else "--help") :: rest) Help
| accepts_version ts (short : bool) rest : Forall option_valid ts ->
    accepts (concat (map option_words ts) ++ (if short then "-V" else "--version") :: rest) Version.
Definition apply_option (o : Opts) (t : Option_) : Opts :=
  match t with
  | OptDaemon _ => mkOpts (o_path o) true (o_debug o) (o_check o)
  | OptDebug => mkOpts (o_path o) (o_daemon o) true (o_check o)
  | OptCheck => mkOpts (o_path o) (o_daemon o) (o_debug o) true
  | OptConfig _ path | OptConfigEq path => mkOpts path (o_daemon o) (o_debug o) (o_check o)
  end.
Definition opts_command (o : Opts) : Command := Run (o_path o) (o_daemon o) (o_debug o) (o_check o).

(** * Theorems *)
Lemma strip_prefix_spec p s v : strip_prefix p s = Some v <-> s = p +:+ v.
Proof.
  revert s. induction p as [|a p IH]; intros s; cbn [strip_prefix].
  { change (EmptyString +:+ v) with v. split; congruence. }
  change (String a p +:+ v) with (String a (p +:+ v)). destruct s as [|b s]; [done|].
  destruct (Ascii.eqb_spec a b) as [->|Hne]; [rewrite IH|]; split; congruence.
Qed.

Lemma path_value_spec v : path_value v = true <-> v <> "" /\ String.prefix "-" v = false.
Proof. unfold path_value. rewrite andb_true_iff, !negb_true_iff. by rewrite String.eqb_neq. Qed.

Lemma parse_option t rest o :
  option_valid t -> parse_args (option_words t ++ rest) o = parse_args rest (apply_option o t).
Proof.
  destruct t as [[]| | |[] path|path]; intros Hv; try done; cbn [option_words app].
  - cbn [parse_args]. cbn [String.eqb orb]. cbn. by rewrite (proj2 (path_value_spec path) Hv).
  - cbn. by rewrite (proj2 (path_value_spec path) Hv).
  - cbn. destruct path; [done|]. done.
Qed.

Lemma parse_options ts rest o :
  Forall option_valid ts ->
  parse_args (concat (map option_words ts) ++ rest) o = parse_args rest (fold_left apply_option ts o).
Proof.
  intros Hv. revert o. induction Hv as [|t ts Ht _ IH]; intros o; [done|].
  cbn [map concat fold_left]. by rewrite <- app_assoc, parse_option, IH.
Qed.

Lemma last_some_cons {A} (d : A) o l :
  default d (List.last (map Some (o :: l)) None) = default o (List.last (map Some l) None).
Proof.
  revert d o. induction l as [|x l IH]; intros d o; [done|].
  change (List.last (map Some (o :: x :: l)) None) with (List.last (map Some (x :: l)) None). by rewrite !IH.
Qed.

Lemma fold_options ts o :
  opts_command (fold_left apply_option ts o) =
  Run (default (o_path o) (List.last (map Some (omap option_path ts)) None))
    (o_daemon o || existsb (fun t => match t with OptDaemon _ => true | _ => false end) ts)
    (o_debug o || existsb (fun t => match t with OptDebug => true | _ => false end) ts)
    (o_check o || existsb (fun t => match t with OptCheck => true | _ => false end) ts).
Proof.
  revert o. induction ts as [|t ts IH]; intros o; [by destruct o as [? [] [] []]|].
  cbn [fold_left]. rewrite IH.
  destruct t; cbn [apply_option o_path o_daemon o_debug o_check existsb orb omap list_omap option_path];
    rewrite ?orb_true_r, ?orb_false_l, ?last_some_cons; done.
Qed.

(** Every argument list parses to what its options say, or fails. *)
Lemma parse_args_inv n args o cmd :
  (length args <= n)%nat -> parse_args args o = Ok cmd ->
  exists ts, Forall option_valid ts /\
    (args = concat (map option_words ts) /\ cmd = opts_command (fold_left apply_option ts o) \/
     exists (short : bool) rest,
       args = concat (map option_words ts) ++ (if short then "-h" else "--help") :: rest /\ cmd = Help \/
       args = concat (map option_words ts) ++ (if short then "-V" else "--version") :: rest /\ cmd = Version).
Proof.
  revert args o. induction n as [|n IH]; intros args o Hn H.
  { destruct args; [|simpl in Hn; lia]. injection H as <-. exists []. split; [by apply Forall_nil|by left]. }
  destruct args as [|arg args]. { injection H as <-. exists []. split; [by apply Forall_nil|by left]. }
  assert (Hstep : forall t rest, option_valid t -> arg :: args = option_words t ++ rest -> (length rest <= n)%nat ->
            parse_args rest (apply_option o t) = Ok cmd ->
            exists ts, Forall option_valid ts /\
    (arg :: args = concat (map option_words ts) /\ cmd = opts_command (fold_left apply_option ts o) \/
     exists (short : bool) rest,
       arg :: args = concat (map option_words ts) ++ (if short then "-h" else "--help") :: rest /\ cmd = Help \/
       arg :: args = concat (map option_words ts) ++ (if short then "-V" else "--version") :: rest /\ cmd = Version)).
  { intros t rest Ht -> Hr Hp. destruct (IH rest _ Hr Hp) as (ts & Hts & Hor).
    exists (t :: ts). split; [by apply Forall_cons|]. cbn [map concat fold_left].
    destruct Hor as [[-> ->]|(short & r & [[-> ->]|[-> ->]])]; [by left|right..]; exists short, r.
    - left. by rewrite app_assoc.
    - right. by rewrite app_assoc. }
  simpl in Hn. cbn [parse_args] in H.
  destruct (_ || _) eqn:E1 in H.
  { injection H as <-. exists []. split; [by apply Forall_nil|]. right.
    apply orb_true_iff in E1 as [E|E]; apply String.eqb_eq in E as ->; [exists false, args|exists true, args]; by left. }
  clear E1. destruct (_ || _) eqn:E1 in H.
  { injection H as <-. exists []. split; [by apply Forall_nil|]. right.
    apply orb_true_iff in E1 as [E|E]; apply String.eqb_eq in E as ->; [exists false, args|exists true, args]; by right. }
  clear E1. destruct (_ || _) eqn:E1 in H.
  { apply orb_true_iff in E1 as [E|E]; apply String.eqb_eq in E as ->;
      [apply (Hstep (OptDaemon false) args)|apply (Hstep (OptDaemon true) args)]; try done; lia. }
  clear E1. destruct (String.eqb_spec arg "--debug") as [->|_].
  { apply (Hstep OptDebug args); try done; lia. }
  destruct (String.eqb_spec arg "--check-config") as [->|_].
  { apply (Hstep OptCheck args); try done; lia. }
  destruct (_ || _) eqn:E1 in H.
  { destruct args as [|value args]; [done|]. destruct (path_value value) eqn:Ev; [|done].
    apply path_value_spec in Ev. simpl in Hn.
    apply orb_true_iff in E1 as [E|E]; apply String.eqb_eq in E as ->;
      [apply (Hstep (OptConfig false value) args)|apply (Hstep (OptConfig true value) args)]; try done; lia. }
  destruct (strip_prefix "--config=" arg) as [value|] eqn:Es; [|done].
  apply strip_prefix_spec in Es as ->. destruct (String.eqb_spec value ""); [done|].
  apply (Hstep (OptConfigEq value) args); try done; lia.
Qed.

(** The command line's grammar, in both directions: [parse] succeeds exactly on
    sequences of well-formed options (a path after [--config] or [-c] is neither
    empty nor starts with a dash, one after [--config=] is not empty), possibly cut
    short by help or version; the last path wins, flags accumulate, and anything
    else is an error, never a panic. *)
Theorem parse_grammar args :
  (forall cmd, parse args = Ok cmd <-> accepts args cmd) /\ total (parse args).
Proof.
  split.
  - intros cmd. unfold parse. split.
    + intros H. apply (parse_args_inv (length args)) in H as (ts & Hts & Hor); [|done].
      destruct Hor as [[-> ->]|(short & r & [[-> ->]|[-> ->]])].
      * rewrite fold_options. by apply accepts_run.
      * by apply accepts_help.
      * by apply accepts_version.
    + intros H. destruct H as [ts Hts|ts short rest Hts|ts short rest Hts].
      * rewrite <- (app_nil_r (concat _)), parse_options by done. cbn [parse_args].
        f_equal. apply (fold_options ts default_opts).
      * rewrite parse_options by done. by destruct short.
      * rewrite parse_options by done. by destruct short.
  - unfold parse. remember (length args) as n eqn:En. assert (Hn : (length args <= n)%nat) by lia. clear En.
    generalize default_opts as o. revert args Hn. induction n as [|n IH]; intros args Hn o.
    { by destruct args; [|simpl in Hn; lia]. }
    destruct args as [|arg args]; [done|]. simpl in Hn. cbn [parse_args].
    repeat first [destruct (_ || _)|destruct (String.eqb _ _)]; try done; try (apply IH; lia).
    + destruct args as [|value args]; [done|]. simpl in Hn. destruct (path_value value); [|done]. apply IH. lia.
    + destruct (strip_prefix _ _); [|done]. destruct (String.eqb _ _); [done|]. apply IH. lia.
Qed.
