(* ===== verification/Daemon.v ===== *)
(** * src/src/daemon.rs and src/src/main.rs: syslog events, startup and supervision

    The runtime, the workers and the signals enter as the events the supervisor's
    [select!] sees; what it does to the workers is a list of actions. *)
From S2P Require Import Prelude Net Config Cli.

(** ** [Event]: one buffered syslog message *)
Record Event := mkEvent { e_bytes : list Z; e_priority : Z }.
(** syslog priorities of libc, and tracing's levels. *)
Inductive Level := ERROR | WARN | INFO | DEBUG | TRACE.
(** [make_writer_for] *)
Definition priority (level : Level) : Z :=
  match level with ERROR => 3 | WARN => 4 | INFO => 6 | DEBUG | TRACE => 7 end.
Definition make_writer_for (level : Level) : Event := mkEvent [] (priority level).
Definition event_write (bytes : list Z) (e : Event) : Event * Z :=
  (mkEvent (e_bytes e ++ map (fun b => if b =? 0 then 63 else b) bytes) (e_priority e), len bytes).
(** [CString::new] fails on an interior NUL. *)
Definition cstring_new (bytes : list Z) : option (list Z) :=
  if bool_decide (0 ∈ bytes) then None else Some (bytes ++ [0]).
(** [drop]: the priority and the C string given to [syslog]. *)
Definition event_drop (e : Event) : res (option (Z * list Z)) :=
  if is_empty (e_bytes e) then Ok None else
  message ← unwrap (cstring_new (e_bytes e));
  Ok (Some (e_priority e, message)).
(** One event: the formatter's writes, then the drop. *)
Definition emit (level : Level) (writes : list (list Z)) : res (option (Z * list Z)) :=
  event_drop (fold_left (fun e bytes => (event_write bytes e).1) writes (make_writer_for level)).

(** ** Detaching and logging *)
(** [daemon] is daemon(3), called with [nochdir] and [noclose]. *)
Definition detach (daemon : Z -> Z -> Z) : res unit :=
  if negb (daemon 0 0 =? 0) then bail "detaching daemon" else Ok tt.
(** tracing's filter: the given directives, or what the environment holds. *)
Inductive EnvFilter := Directives (text : string) | DefaultEnv.
Record Subscriber := mkSubscriber {
  sb_filter : EnvFilter;
  sb_ansi : bool;
  sb_time : bool;
  sb_syslog : bool
}.
Definition LOG_PID : Z := 1.
Definition LOG_NDELAY : Z := 8.
Definition LOG_DAEMON : Z := 24.
Inductive LogAct :=
| OpenLog (ident : string) (options facility : Z)
| InstallSubscriber (subscriber : Subscriber).
(** [env]: [try_from_default_env] succeeds; [installed]: a global subscriber exists, so
    [init] panics. *)
Definition init_logging (env installed background debug : bool) : Out LogAct unit :=
  let filter := if debug then Directives "ubgp=debug"
                else if env then DefaultEnv else Directives "ubgp=info" in
  let init subscriber := ([InstallSubscriber subscriber], if installed then Panic else Ok tt) in
  if background then
    _ <~ ([OpenLog "ubgp" (Z.lor LOG_PID LOG_NDELAY) LOG_DAEMON], Ok tt);
    init (mkSubscriber filter false false true)
  else init (mkSubscriber filter true true false).

(** ** [main] *)
Section daemon.
Context {api : IpNetApi}.

Inductive MainAct :=
| PrintHelp (text : string)
| PrintVersion (text : string)
| PrintValid (path : string)
| Detach
| Log (act : LogAct)
| RunDaemon (config : Config)
| LogFailed.
(** The outcomes of what [main] calls: [path::absolute], [Config::load] of the
    absolute path, daemon(3), the filter of the environment, the runtime's
    construction and its [block_on]; and the version the package was built with. *)
Record MainIO := mkMainIO {
  mi_version : string;
  mi_absolute : string -> res string;
  mi_load : string -> res Config;
  mi_daemon : Z -> Z -> Z;
  mi_env : bool;
  mi_runtime : res unit;
  mi_run : string -> Config -> res unit
}.
Definition main_started (io : MainIO) (background debug : bool) (path : string) (config : Config)
  : Out MainAct unit :=
  let logging := init_logging (mi_env io) false background debug in
  _ <~ (map Log logging.1, logging.2);
  let result := _ ← mi_runtime io; mi_run io path config in
  ((match mi_runtime io with Ok _ => [RunDaemon config] | _ => [] end) ++
     (match result with Err _ => [LogFailed] | _ => [] end),
   result).
Definition main (io : MainIO) (args : list string) : Out MainAct unit :=
  command <~ out_ret (Cli.parse args);
  match command with
  | Help => ([PrintHelp HELP], Ok tt)
  | Version => ([PrintVersion ("ubgp " +:+ mi_version io)], Ok tt)
  | Run path background debug check =>
      path <~ out_ret (mi_absolute io path);
      config <~ out_ret (mi_load io path);
      if (check : bool) then ([PrintValid path], Ok tt) else
      _ <~ (if background then ([Detach], detach (mi_daemon io)) else out_ret (Ok tt));
      main_started io background debug path config
  end.

(** ** [run]: supervision *)
Inductive Worker := WKernel | WBgp | WConsole.
#[export] Instance worker_eq_dec : EqDecision Worker.
Proof. solve_decision. Defined.
(** What a worker's join handle yields. *)
Inductive Joined := JoinPanicked | JoinResult (r : res unit).
Inductive SupEvent :=
| Ended (w : Worker) (joined : Joined)
| Hup (loaded : res Config)
| Term
| Interrupt.
(** What the supervisor does. [AEnded] is a worker found finished by [select!];
    [AAbort] aborts a task and awaits it; [AJoin] awaits the blocking kernel worker. *)
Inductive SupAct :=
| ABind
| AStart (w : Worker) (config : Config)
| AEnded (w : Worker)
| AStop
| AAbort (w : Worker)
| AJoin (w : Worker).

(** [result.context(..)??] *)
Definition join_result (context : string) (j : Joined) : res unit :=
  match j with JoinPanicked => bail context | JoinResult r => r end.
(** A new generation of workers, once the console is bound. *)
Definition start_acts (cfg : Config) : list SupAct := [AStart WKernel cfg; AStart WConsole cfg; AStart WBgp cfg].
Definition generation (bind : res unit) (cfg : Config) : list SupAct * (Config + res unit) :=
  match bind with
  | Ok _ => (ABind :: start_acts cfg, inl cfg)
  | r => ([ABind], inr r)
  end.
(** The shutdown after the inner loop, with the kernel worker's outcome. *)
Definition shutdown_acts : list SupAct := [AStop; AAbort WConsole; AAbort WBgp; AJoin WKernel].
Definition shutdown (kernel : Joined) : res unit := join_result "joining netlink worker" kernel.

(** One event of the [select!]. [kernel] is the kernel worker's outcome when it is
    joined, [bind] that of the next generation's console. The result is the
    configuration still running, or the result of [run]. *)
Definition sup_event (kernel : Joined) (bind : res unit) (cfg : Config) (ev : SupEvent)
  : list SupAct * (Config + res unit) :=
  match ev with
  | Ended WKernel j =>
      ([AEnded WKernel; AAbort WConsole; AStop; AAbort WBgp],
       inr (_ ← join_result "netlink worker panicked" j; bail "netlink worker stopped unexpectedly"))
  | Ended WBgp j =>
      ([AEnded WBgp; AAbort WConsole; AStop; AJoin WKernel],
       inr (_ ← join_result "BGP task panicked" j; bail "BGP task stopped unexpectedly"))
  | Ended WConsole j =>
      ([AEnded WConsole; AStop; AAbort WBgp; AJoin WKernel],
       inr (_ ← join_result "management task panicked" j; bail "management task stopped unexpectedly"))
  | Hup (Ok next) =>
      match shutdown kernel with
      | Ok _ => let '(acts, r) := generation bind next in (shutdown_acts ++ acts, r)
      | r => (shutdown_acts, inr r)
      end
  | Hup _ => ([], inl cfg)
  | Term | Interrupt =>
      (shutdown_acts, inr (shutdown kernel))
  end.
(** [run] on the events it sees; [inl] when they do not end it. *)
Fixpoint sup_events (events : list (Joined * res unit * SupEvent)) (cfg : Config)
  : list SupAct * (Config + res unit) :=
  match events with
  | [] => ([], inl cfg)
  | (kernel, bind, ev) :: events =>
      let '(acts, r) := sup_event kernel bind cfg ev in
      match r with
      | inl cfg => let '(acts', r) := sup_events events cfg in (acts ++ acts', r)
      | inr r => (acts, inr r)
      end
  end.
Definition run (bind : res unit) (events : list (Joined * res unit * SupEvent)) (cfg : Config)
  : list SupAct * (Config + res unit) :=
  let '(acts, r) := generation bind cfg in
  match r with
  | inl cfg => let '(acts', r) := sup_events events cfg in (acts ++ acts', r)
  | inr r => (acts, inr r)
  end.

(** *** Specification: the workers alive *)
(** The live workers, the configuration they run, and whether the kernel worker of
    the generation was told to stop. *)
Record Alive := mkAlive { al_workers : list Worker; al_config : option Config; al_stop : bool }.
Definition none_alive : Alive := mkAlive [] None false.
(** An action is legal when a console is bound only while no worker of an earlier
    generation lives, a worker is started only after that and with the configuration of
    its generation, ended or joined only while alive, and the kernel worker is waited
    for only once it was told to stop. *)
Inductive alive_step : Alive -> SupAct -> Alive -> Prop :=
| alive_bind a : al_workers a = [] -> alive_step a ABind none_alive
| alive_start a w cfg : w ∉ al_workers a -> (al_config a = None /\ al_workers a = [] \/ al_config a = Some cfg) ->
    alive_step a (AStart w cfg) (mkAlive (w :: al_workers a) (Some cfg) false)
| alive_ended a w : w ∈ al_workers a ->
    alive_step a (AEnded w) (mkAlive (filter (.≠ w) (al_workers a)) (al_config a) (al_stop a))
| alive_stop a : alive_step a AStop (mkAlive (al_workers a) (al_config a) true)
| alive_abort a w : w ∈ al_workers a -> w <> WKernel ->
    alive_step a (AAbort w) (mkAlive (filter (.≠ w) (al_workers a)) (al_config a) (al_stop a))
| alive_join a w : w ∈ al_workers a -> al_stop a = true ->
    alive_step a (AJoin w) (mkAlive (filter (.≠ w) (al_workers a)) (al_config a) (al_stop a)).
Inductive alive_steps : Alive -> list SupAct -> Alive -> Prop :=
| alive_nil a : alive_steps a [] a
| alive_cons a a' a'' act acts :
    alive_step a act a' -> alive_steps a' acts a'' -> alive_steps a (act :: acts) a''.

(** * Theorems *)
(** ** Syslog events *)
Definition sanitize (b : Z) : Z := if b =? 0 then 63 else b.

Lemma event_writes e writes :
  fold_left (fun e bytes => (event_write bytes e).1) writes e =
  mkEvent (e_bytes e ++ map sanitize (concat writes)) (e_priority e).
Proof.
  revert e. induction writes as [|bytes writes IH]; intros e; cbn [fold_left concat map].
  { rewrite app_nil_r. by destruct e. }
  rewrite IH. cbn. by rewrite map_app, app_assoc.
Qed.

Lemma sanitize_no_nul l : 0 ∉ map sanitize l.
Proof. intros (x & Hx & _)%list_elem_of_fmap. unfold sanitize in Hx. destruct (Z.eqb_spec x 0); lia. Qed.

(** Logging never panics: however an event is split into writes, dropping it
    passes syslog one NUL-terminated string of the same length whose NUL bytes have
    become question marks, at the level's priority, and an empty event is dropped. *)
Theorem emit_spec level writes :
  0 ∉ map sanitize (concat writes) /\
  emit level writes = Ok (if is_empty (concat writes) then None
                          else Some (priority level, map sanitize (concat writes) ++ [0])).
Proof.
  split; [apply sanitize_no_nul|]. unfold emit, event_drop. rewrite event_writes. cbn [make_writer_for e_bytes app e_priority].
  pose proof (sanitize_no_nul (concat writes)) as Hn. destruct (concat writes) as [|b l]; [done|].
  cbn [is_empty map]. unfold cstring_new. by rewrite bool_decide_false.
Qed.

(** ** Startup *)
(** What logging is set up with: the given verbosity, else the environment's, else
    [info]; syslog only, without colours, in the background. *)
Definition subscriber_for (io : MainIO) (background debug : bool) : Subscriber :=
  mkSubscriber (if debug then Directives "ubgp=debug" else if mi_env io then DefaultEnv else Directives "ubgp=info")
    (negb background) (negb background) background.

(** The daemon starts only from a valid configuration: if [main] runs the daemon
    then the command line asked for it without [--check-config], the file at the
    absolute path loaded as that configuration, and detaching, when asked for, succeeded
    before syslog, logging and the runtime were set up, in that order; logging is
    installed once, and a failure of the daemon is logged and is the exit status. *)
Theorem main_starts_loaded io args config acts r :
  main io args = (acts, r) -> RunDaemon config ∈ acts ->
  exists path absolute background debug,
    Cli.parse args = Ok (Run path background debug false) /\ mi_absolute io path = Ok absolute /\
    mi_load io absolute = Ok config /\ mi_runtime io = Ok tt /\ r = mi_run io absolute config /\
    (background = true -> mi_daemon io 0 0 = 0) /\
    acts = (if background then [Detach; Log (OpenLog "ubgp" (LOG_PID + LOG_NDELAY) LOG_DAEMON)] else []) ++
           [Log (InstallSubscriber (subscriber_for io background debug)); RunDaemon config] ++
           (match r with Err _ => [LogFailed] | _ => [] end).
Proof.
  unfold main, out_bind. destruct (Cli.parse args) as [[| |path background debug check]|e| |]; cbn;
    try (intros [= <- <-]; set_solver).
  destruct (mi_absolute io path) as [absolute|e| |] eqn:Ha; cbn; try (intros [= <- <-]; set_solver).
  destruct (mi_load io absolute) as [config'|e| |] eqn:Hl; cbn; try (intros [= <- <-]; set_solver).
  destruct check; cbn; [intros [= <- <-]; set_solver|].
  unfold main_started, detach.
  destruct background; cbn; [destruct (Z.eqb_spec (mi_daemon io 0 0) 0) as [Hd|Hd]; cbn|];
    destruct (mi_runtime io) as [[]|e| |] eqn:Hr; cbn; intros [= <- <-] Hin; try set_solver.
  all: assert (config = config') as -> by (destruct (mi_run io absolute config'); set_solver).
  all: by eexists path, absolute, _, debug.
Qed.

(** ** Supervision *)
Definition all_alive (cfg : Config) (a : Alive) : Prop :=
  al_workers a = [WBgp; WConsole; WKernel] /\ al_config a = Some cfg.
Definition sup_outcome (r : Config + res unit) (a : Alive) : Prop :=
  match r with inl cfg => all_alive cfg a | inr _ => al_workers a = [] end.

Lemma alive_steps_app a acts a' acts' a'' :
  alive_steps a acts a' -> alive_steps a' acts' a'' -> alive_steps a (acts ++ acts') a''.
Proof. induction 1; intros; [done|]. eapply alive_cons; [done|auto]. Qed.

Ltac alive := repeat (eapply alive_cons; [constructor; cbn; try done; try set_solver|]); apply alive_nil.

Lemma alive_generation bind cfg a :
  al_workers a = [] ->
  exists a', alive_steps a (generation bind cfg).1 a' /\ sup_outcome (generation bind cfg).2 a'.
Proof.
  intros Ha. destruct bind as [[]|e| |]; cbn [generation fst snd start_acts]; eexists; (split; [alive|done]).
Qed.

Lemma alive_shutdown cfg a :
  all_alive cfg a -> exists a', alive_steps a shutdown_acts a' /\ al_workers a' = [].
Proof.
  intros [Hw Hc]. destruct a as [ws c st]. cbn in *. subst. eexists. split; [alive|]. done.
Qed.

Lemma alive_event kernel bind cfg ev a :
  all_alive cfg a ->
  exists a', alive_steps a (sup_event kernel bind cfg ev).1 a' /\ sup_outcome (sup_event kernel bind cfg ev).2 a'.
Proof.
  intros Ha. destruct (alive_shutdown cfg a Ha) as (a1 & H1 & Hw1).
  destruct ev as [w j|loaded| |]; cbn [sup_event]; [| |by exists a1|by exists a1].
  - destruct Ha as [Hw Hc]. destruct a as [ws c st]. cbn in *. subst.
    destruct w; cbn [fst snd]; eexists; (split; [alive|done]).
  - destruct loaded as [next|e| |]; [|by exists a; split; [apply alive_nil|]..].
    destruct (shutdown kernel) as [[]|e| |]; try (by exists a1).
    destruct (alive_generation bind next a1 Hw1) as (a2 & H2 & Ho).
    destruct (generation bind next) as [acts r]. exists a2. split; [by eapply alive_steps_app|done].
Qed.

Lemma alive_events events cfg a :
  all_alive cfg a ->
  exists a', alive_steps a (sup_events events cfg).1 a' /\ sup_outcome (sup_events events cfg).2 a'.
Proof.
  revert cfg a. induction events as [|[[kernel bind] ev] events IH]; intros cfg a Ha; cbn [sup_events].
  { exists a. split; [apply alive_nil|done]. }
  destruct (alive_event kernel bind cfg ev a Ha) as (a1 & H1 & Ho).
  destruct (sup_event kernel bind cfg ev) as [acts [cfg'|r]]; cbn [fst snd] in *; [|by exists a1].
  destruct (IH cfg' a1 Ho) as (a2 & H2 & Ho2). destruct (sup_events events cfg') as [acts' r].
  exists a2. split; [by eapply alive_steps_app|done].
Qed.

Lemma run_alive bind events cfg :
  exists a, alive_steps none_alive (run bind events cfg).1 a /\ sup_outcome (run bind events cfg).2 a.
Proof.
  unfold run. destruct (alive_generation bind cfg none_alive eq_refl) as (a1 & H1 & Ho).
  destruct (generation bind cfg) as [acts0 [cfg'|r0]]; cbn [fst snd] in *; [|by exists a1].
  destruct (alive_events events cfg' a1 Ho) as (a2 & H2 & Ho2).
  destruct (sup_events events cfg') as [acts' r'].
  exists a2. split; [by eapply alive_steps_app|done].
Qed.

(** [C37] Generations never overlap: on every sequence of worker exits, signals and
    reloads [run] starts workers only when none of an earlier generation is alive,
    never aborts or joins a worker twice, waits for the kernel worker only after
    telling it to stop, leaves all three workers of the current configuration
    running while it continues, and none when it returns, whatever the reason. *)
Theorem supervisor_workers bind events cfg :
  let '(acts, r) := run bind events cfg in
  exists a, alive_steps none_alive acts a /\ sup_outcome r a.
Proof. pose proof (run_alive bind events cfg) as H. by destruct (run bind events cfg). Qed.

Lemma generation_starts bind cfg w c :
  AStart w c ∈ (generation bind cfg).1 -> c = cfg.
Proof. destruct bind; cbn; set_solver. Qed.
Lemma generation_running bind cfg c : (generation bind cfg).2 = inl c -> c = cfg.
Proof. destruct bind; cbn; congruence. Qed.

Lemma event_starts kernel bind cfg ev :
  (forall w c, AStart w c ∈ (sup_event kernel bind cfg ev).1 -> ev = Hup (Ok c)) /\
  (forall c, (sup_event kernel bind cfg ev).2 = inl c -> c = cfg \/ ev = Hup (Ok c)).
Proof.
  destruct ev as [[] j|[next|e| |]| |]; cbn [sup_event fst snd];
    try (split; [intros w c; cbn; set_solver|intros c; try done; intros [= ->]; by left]).
  destruct (shutdown kernel) as [[]|e| |]; try (split; [intros w c; cbn; set_solver|done]).
  pose proof (generation_starts bind next) as Hs. pose proof (generation_running bind next) as Hr.
  destruct (generation bind next) as [acts r]. cbn [fst snd] in *. split.
  - intros w c [H|H]%elem_of_app; [cbn in H; set_solver|]. by rewrite (Hs w c H).
  - intros c H. right. by rewrite (Hr c H).
Qed.

Lemma events_starts events cfg w c :
  AStart w c ∈ (sup_events events cfg).1 -> exists kernel bind, (kernel, bind, Hup (Ok c)) ∈ events.
Proof.
  revert cfg. induction events as [|[[kernel bind] ev] events IH]; intros cfg; cbn [sup_events]; [set_solver|].
  destruct (event_starts kernel bind cfg ev) as [Hs _].
  destruct (sup_event kernel bind cfg ev) as [acts [cfg'|r]]; cbn [fst snd] in *.
  - specialize (IH cfg'). destruct (sup_events events cfg') as [acts' r]. cbn [fst] in *.
    intros [H|H]%elem_of_app; [exists kernel, bind; rewrite <- (Hs _ _ H); by left|].
    destruct (IH H) as (k & b & Hin). exists k, b. by right.
  - intros H. exists kernel, bind. rewrite <- (Hs _ _ H). by left.
Qed.

(** Only validated policy runs: started from a configuration that satisfies
    [config_ok], with reloads that are results of [Config::load], every worker of
    every generation is given a configuration that satisfies it; in particular a
    rejected reload changes nothing. *)
Theorem supervisor_validated {laws : IpNetLaws} toml bind events cfg w c :
  config_ok cfg ->
  (forall kernel bind loaded, (kernel, bind, Hup loaded) ∈ events -> exists read, loaded = load toml read) ->
  AStart w c ∈ (run bind events cfg).1 -> config_ok c.
Proof.
  intros Hcfg Hload. unfold run.
  pose proof (generation_starts bind cfg) as Hs. destruct (generation bind cfg) as [acts [cfg'|r]]; cbn [fst] in *.
  - pose proof (events_starts events cfg') as He. destruct (sup_events events cfg') as [acts' r]. cbn [fst] in *.
    intros [H|H]%elem_of_app; [by rewrite (Hs _ _ H)|]. destruct (He _ _ H) as (k & b & Hin).
    destruct (Hload _ _ _ Hin) as (read & Hr). symmetry in Hr. apply load_ok in Hr as (text & _ & _ & Hok). done.
  - intros H. by rewrite (Hs _ _ H).
Qed.
End daemon.
