(* ===== verification/Process.v ===== *)
(** * The process: the supervisor and the exporter of each of its generations

    main.rs [run] as a whole: the actions of the supervisor ([Daemon.run]) interleaved
    with the steps of the workers it started, generation after generation. The end or the
    abort of the BGP task (bgp.rs [run]) drops its [JoinSet], which signals the tasks of
    the peers and waits for none: they go on, beside the next generation if there is one,
    until the runtime has dropped the last of them ([proc_gone], [proc_past_gone]), at any
    later time. What a generation does is behind the interface [Exporter] with the laws
    [ExporterLaws]; the theorems use only these, and [System] discharges them. *)
From S2P Require Import Prelude Net Config Open Planning Export Netlink Dump Kernel System Cli Daemon.

(** ** The interface: the workers of one generation *)
(** [ex_start] is their state when the channels are made, [ex_close] drops the
    connections of all sessions, and [ex_quiet] says that there is none. *)
Class Exporter {api : IpNetApi} (State : Type) := {
  ex_start : Z -> State;
  ex_step : Config -> State -> SysAct -> State -> Prop;
  ex_close : State -> State;
  ex_quiet : State -> Prop
}.
(** What every implementation promises: with a valid configuration it writes only
    messages that are [allowed], and without a session it opens none by itself. *)
Class ExporterLaws {api : IpNetApi} State `{!Exporter State} (allowed : Config -> Peer -> Msg -> Prop) := {
  ex_inv : Config -> State -> Prop;
  ex_inv_start c now : config_ok c -> ex_inv c (ex_start now);
  ex_inv_step c S a S' : config_ok c -> ex_step c S a S' -> ex_inv c S -> ex_inv c S';
  ex_inv_close c S : ex_inv c S -> ex_inv c (ex_close S);
  ex_allowed c S out S' : config_ok c -> ex_inv c S -> ex_step c S (ByBgp out) S' ->
    Forall (fun '(p, m) => allowed c p m) out;
  ex_quiet_start now : ex_quiet (ex_start now);
  ex_quiet_close S : ex_quiet (ex_close S);
  ex_quiet_kernel c S S' : ex_step c S ByKernel S' -> ex_quiet S -> ex_quiet S'
}.

Section process.
Context {api : IpNetApi}.

(** What an action does to the workers. *)
Definition apply_act (act : SupAct) (a : Alive) : Alive :=
  match act with
  | ABind => none_alive
  | AStart w cfg => mkAlive (w :: al_workers a) (Some cfg) false
  | AStop => mkAlive (al_workers a) (al_config a) true
  | AEnded w | AAbort w | AJoin w => mkAlive (filter (.≠ w) (al_workers a)) (al_config a) (al_stop a)
  end.

Section steps.
Context {State : Type} {exporter : Exporter State}.

(** The tasks of an earlier generation that are not all dropped: aborting the BGP task,
    or its end, only signals the tasks of its [JoinSet]; each of them goes on until its
    poll returns, and the supervisor waits for none. *)
Record Tasks := mkTasks { tk_id : nat; tk_config : Config; tk_state : State }.
(** The actions the supervisor has still to do, the workers, their state, the number of
    the generation whose BGP tasks may run, if any, how many generations had a BGP task,
    and what is left of earlier ones. *)
Record Proc := mkProc {
  pr_rest : list SupAct;
  pr_alive : Alive;
  pr_state : State;
  pr_tasks : option nat;
  pr_started : nat;
  pr_past : list Tasks
}.
(** What can be seen of the process: the supervisor's actions, every message written to a
    peer, with the generation that wrote it, and when the last task of one is dropped. *)
Inductive Obs := OAct (act : SupAct) | OWrote (g : nat) (p : Peer) (m : Msg) | OGone (g : nat).

(** What is left when a new generation takes the place of the present one. *)
Definition leave (P : Proc) : list Tasks :=
  match pr_tasks P, al_config (pr_alive P) with
  | Some g, Some c => mkTasks g c (pr_state P) :: pr_past P
  | _, _ => pr_past P
  end.
(** The watch channel is made after the console is bound; no action closes a session. *)
Definition on_act (now : Z) (act : SupAct) (rest : list SupAct) (P : Proc) : Proc :=
  let a := apply_act act (pr_alive P) in
  match act with
  | ABind => mkProc rest a (ex_start now) None (pr_started P) (leave P)
  | AStart WBgp _ =>
      mkProc rest a (match pr_tasks P with Some _ => ex_close (pr_state P) | None => pr_state P end)
        (Some (pr_started P)) (S (pr_started P)) (leave P)
  | _ => mkProc rest a (pr_state P) (pr_tasks P) (pr_started P) (pr_past P)
  end.
Definition wrote (g : nat) (out : list (Peer * Msg)) : list Obs := map (fun '(p, m) => OWrote g p m) out.
Inductive proc_step : Proc -> list Obs -> Proc -> Prop :=
| proc_act act rest P now : pr_rest P = act :: rest -> proc_step P [OAct act] (on_act now act rest P)
| proc_kernel rest a S g n past c S' :
    WKernel ∈ al_workers a -> al_config a = Some c -> ex_step c S ByKernel S' ->
    proc_step (mkProc rest a S g n past) [] (mkProc rest a S' g n past)
(** The BGP task and its peers' tasks, which may outlive it. *)
| proc_bgp rest a S g n past c out S' :
    al_config a = Some c -> ex_step c S (ByBgp out) S' ->
    proc_step (mkProc rest a S (Some g) n past) (wrote g out) (mkProc rest a S' (Some g) n past)
| proc_gone rest a S g n past : WBgp ∉ al_workers a ->
    proc_step (mkProc rest a S (Some g) n past) [OGone g] (mkProc rest a (ex_close S) None n past)
(** The same of an earlier generation. *)
| proc_past_bgp rest a S0 t n l1 l2 g c S out S' : ex_step c S (ByBgp out) S' ->
    proc_step (mkProc rest a S0 t n (l1 ++ mkTasks g c S :: l2)) (wrote g out) (mkProc rest a S0 t n (l1 ++ mkTasks g c S' :: l2))
| proc_past_gone rest a S0 t n l1 l2 g c S :
    proc_step (mkProc rest a S0 t n (l1 ++ mkTasks g c S :: l2)) [OGone g] (mkProc rest a S0 t n (l1 ++ l2)).
(** From the start of the process, with the actions [acts] to do. *)
Inductive proc_reach (acts : list SupAct) (start : Z) : list Obs -> Proc -> Prop :=
| proc_init : proc_reach acts start [] (mkProc acts none_alive (ex_start start) None 0 [])
| proc_next trace obs P P' :
    proc_reach acts start trace P -> proc_step P obs P' -> proc_reach acts start (trace ++ obs) P'.
End steps.


(** ** Specification *)
(** The configurations of the BGP tasks started, in order. *)
Definition configs (trace : list Obs) : list Config :=
  omap (fun o => match o with OAct (AStart WBgp c) => Some c | _ => None end) trace.
(** BGP task number [g] was started with [c]. *)
Definition born (trace : list Obs) (g : nat) (c : Config) : Prop :=
  exists start since, trace = start ++ OAct (AStart WBgp c) :: since /\ length (configs start) = g.
(** BGP task number [g] ended or was aborted. *)
Definition ends_bgp (act : SupAct) : Prop := act = AEnded WBgp \/ act = AAbort WBgp \/ act = AJoin WBgp.
Definition signalled (trace : list Obs) (g : nat) : Prop :=
  exists first act since, trace = first ++ OAct act :: since /\ ends_bgp act /\ length (configs first) = S g.
(** No BGP task is started before every earlier one ended or was aborted. *)
Definition ordered (trace : list Obs) : Prop :=
  forall before c after g, trace = before ++ OAct (AStart WBgp c) :: after -> (g < length (configs before))%nat ->
  signalled before g.
(** Every message of the trace was allowed by the validated configuration of the
    generation that wrote it, which was started before and not dropped. *)
Definition enforced (allowed : Config -> Peer -> Msg -> Prop) (trace : list Obs) : Prop :=
  forall before g p m after, trace = before ++ OWrote g p m :: after ->
  exists c, born before g c /\ config_ok c /\ allowed c p m /\ OGone g ∉ before.
(** An announcement of permitted prefixes, or no announcement. *)
Definition permitted_message (c : Config) (p : Peer) (m : Msg) : Prop :=
  forall batch q, m = MUpdate false batch -> q ∈ batch -> may_announce c p q.
End process.
Arguments Proc {api} State.

(** ** [System] as a generation of workers *)
(** The last task of a generation is gone, and with it its last connection. *)
Definition close_sessions {api : IpNetApi} (S : Sys) : Sys := mkSys (sy_kernel S) [].
#[export] Instance sys_exporter {api : IpNetApi} (big : bool) (instant_max : Z) : Exporter Sys := {|
  ex_start now := mkSys (kernel_init now) [];
  ex_step c := sys_step big instant_max c;
  ex_close := close_sessions;
  ex_quiet S := sy_sessions S = []
|}.
(** The process, from its start with the actions of the supervisor's [run]. *)
Definition process {api : IpNetApi} (big : bool) (instant_max : Z) (acts : list SupAct) (start : Z)
  : list Obs -> Proc Sys -> Prop := proc_reach (exporter := sys_exporter big instant_max) acts start.

(** ** The invariant *)
Section invariant.
Context {api : IpNetApi} {State : Type} {exporter : Exporter State} {allowed : Config -> Peer -> Msg -> Prop}
  {laws : ExporterLaws State allowed}.
(** The workers' state belongs to the configuration of the workers alive. *)
Definition state_ok (a : Alive) (S : State) : Prop :=
  match al_config a with
  | None => al_workers a = [] /\ exists now, S = ex_start now
  | Some c => config_ok c /\ ex_inv c S
  end.
(** The generations some of whose tasks may run. *)
Definition ids (P : Proc State) : list nat := option_list (pr_tasks P) ++ map tk_id (pr_past P).
Definition tasks_ok (trace : list Obs) (t : Tasks) : Prop :=
  born trace (tk_id t) (tk_config t) /\ config_ok (tk_config t) /\ ex_inv (tk_config t) (tk_state t).
Record proc_inv (trace : list Obs) (P : Proc State) : Prop := {
  pi_legal : exists a, alive_steps (pr_alive P) (pr_rest P) a;
  pi_valid : forall w c, AStart w c ∈ pr_rest P -> config_ok c;
  pi_state : state_ok (pr_alive P) (pr_state P);
  pi_started : pr_started P = length (configs trace);
  pi_running : WBgp ∈ al_workers (pr_alive P) -> is_Some (pr_tasks P);
  pi_tasks g : pr_tasks P = Some g -> exists c, al_config (pr_alive P) = Some c /\ born trace g c;
  pi_past : Forall (tasks_ok trace) (pr_past P);
  pi_distinct : NoDup (ids P);
  pi_left g : (g < pr_started P)%nat -> (g ∈ ids P <-> OGone g ∉ trace);
  pi_gone g : OGone g ∈ trace -> (g < pr_started P)%nat;
  pi_quiet : pr_tasks P = None -> ex_quiet (pr_state P);
  pi_enforced : enforced allowed trace;
  pi_signalled g : (g < pr_started P)%nat -> (WBgp ∈ al_workers (pr_alive P) /\ pr_started P = S g) \/ signalled trace g;
  pi_ordered : ordered trace
}.
End invariant.

(** * Theorems *)
Section laws.
Context {api : IpNetApi}.

Lemma alive_step_apply a act a' : alive_step a act a' -> a' = apply_act act a.
Proof. by destruct 1. Qed.

Lemma configs_app t1 t2 : configs (t1 ++ t2) = configs t1 ++ configs t2.
Proof. apply omap_app. Qed.
Lemma configs_wrote g out : configs (wrote g out) = [].
Proof. by induction out as [|[p m] out IH]. Qed.
Lemma born_app t1 t2 g c : born t1 g c -> born (t1 ++ t2) g c.
Proof. intros (start & since & -> & H). exists start, (since ++ t2). by rewrite <- app_assoc. Qed.
Lemma born_start t c : born (t ++ [OAct (AStart WBgp c)]) (length (configs t)) c.
Proof. by exists t, []. Qed.
Lemma born_lt t g c : born t g c -> (g < length (configs t))%nat.
Proof. intros (start & since & -> & <-). rewrite configs_app, length_app. cbn. lia. Qed.
Lemma gone_wrote g g' out : OGone g ∉ wrote g' out.
Proof. intros ([p m] & E & _)%list_elem_of_fmap. done. Qed.

Lemma app_middle_inv {A} (x : A) l1 l2 l3 l4 :
  l1 ++ l2 = l3 ++ x :: l4 ->
  (exists l, l1 = l3 ++ x :: l /\ l4 = l ++ l2) \/ (exists l, l3 = l1 ++ l /\ l2 = l ++ x :: l4).
Proof.
  intros [(l & -> & E)|(l & -> & E)]%app_eq_inv; [|by right; exists l].
  destruct l as [|y l].
  - right. exists []. split; [by rewrite !app_nil_r|done].
  - injection E as -> ->. left. by exists l.
Qed.

Lemma enforced_nil allowed : enforced allowed [].
Proof. intros before g p m after E. by destruct before. Qed.
Lemma enforced_silent allowed trace o :
  (forall g p m, o <> OWrote g p m) -> enforced allowed trace -> enforced allowed (trace ++ [o]).
Proof.
  intros Ho He before g p m after [(l & -> & ->)|(l & -> & E)]%app_middle_inv; [by eapply He|].
  destruct l as [|? [|]]; [injection E as ->; by destruct (Ho g p m)|done..].
Qed.
Lemma enforced_wrote allowed trace g c out :
  config_ok c -> born trace g c -> OGone g ∉ trace -> Forall (fun '(p, m) => allowed c p m) out ->
  enforced allowed trace -> enforced allowed (trace ++ wrote g out).
Proof.
  intros Hc Hb Hg Ha He before g' p m after [(l & -> & ->)|(l & -> & E)]%app_middle_inv; [by eapply He|].
  apply map_eq_app in E as (o1 & o2 & -> & <- & E2). destruct o2 as [|[p' m'] o2]; [done|]. injection E2 as -> -> -> _.
  exists c. split_and!; [by apply born_app|done| |].
  - apply Forall_app in Ha as [_ Ha]. by inversion Ha.
  - rewrite elem_of_app. intros [?|H]; [done|]. by apply (gone_wrote g' g' o1).
Qed.

Lemma signalled_app t1 t2 g : signalled t1 g -> signalled (t1 ++ t2) g.
Proof. intros (first & act & since & -> & H). exists first, act, (since ++ t2). by rewrite <- app_assoc. Qed.
Lemma signalled_now t act g : ends_bgp act -> length (configs t) = S g -> signalled (t ++ [OAct act]) g.
Proof. intros Ha E. by exists t, act, []. Qed.
Lemma ordered_nil : ordered [].
Proof. intros before c after g E. by destruct before. Qed.
Lemma ordered_app trace obs :
  (forall c, OAct (AStart WBgp c) ∉ obs) -> ordered trace -> ordered (trace ++ obs).
Proof.
  intros Ho Ht before c after g [(l & -> & ->)|(l & -> & E)]%app_middle_inv; [by eapply Ht|].
  destruct (Ho c). rewrite E. set_solver.
Qed.
Lemma ordered_start trace c :
  (forall g, (g < length (configs trace))%nat -> signalled trace g) -> ordered trace ->
  ordered (trace ++ [OAct (AStart WBgp c)]).
Proof.
  intros Hs Ht before c' after g [(l & -> & ->)|(l & -> & E)]%app_middle_inv; [by eapply Ht|].
  destruct l as [|? [|]]; [|done..]. rewrite app_nil_r. apply Hs.
Qed.
Lemma start_wrote c g out : OAct (AStart WBgp c) ∉ wrote g out.
Proof. intros ([p m] & E & _)%list_elem_of_fmap. done. Qed.

Section client.
Context {State : Type} {exporter : Exporter State} {allowed : Config -> Peer -> Msg -> Prop}
  {laws : ExporterLaws State allowed}.

Lemma state_act act now rest P a' :
  alive_step (pr_alive P) act a' -> (forall w c, act = AStart w c -> config_ok c) ->
  state_ok (pr_alive P) (pr_state P) -> state_ok a' (pr_state (on_act now act rest P)).
Proof.
  destruct P as [rest0 a S g n past]. cbn [pr_alive pr_state]. intros Hstep Hc Hs.
  assert (Hsame : forall w b, w ∈ al_workers a -> state_ok (mkAlive (filter (.≠ w) (al_workers a)) (al_config a) b) S).
  { intros w b Hw. unfold state_ok in *. cbn [al_config al_workers]. destruct (al_config a); [done|].
    destruct Hs as [E _]. rewrite E in Hw. by apply not_elem_of_nil in Hw. }
  destruct Hstep as [a Hw|a w cfg Hw Hor|a w Hw|a|a w Hw Hk|a w Hw Hst]; cbn [on_act pr_state];
    [by split; [|exists now]| |by apply Hsame|done|by apply Hsame..].
  assert (Hok : config_ok cfg) by by eapply Hc.
  assert (Hi : ex_inv cfg S).
  { unfold state_ok in Hs. destruct Hor as [[E _]|E]; rewrite E in Hs; [|by destruct Hs].
    destruct Hs as (_ & now' & ->). by apply ex_inv_start. }
  assert (Hi' : ex_inv cfg (ex_close S)) by by apply ex_inv_close.
  destruct w, g; (split; [done|]); assumption.
Qed.

(** What a new generation leaves behind. *)
Lemma leave_ok trace P : proc_inv trace P ->
  Forall (tasks_ok trace) (leave P) /\ map tk_id (leave P) = ids P.
Proof.
  intros [_ _ Hs _ _ Ht Hp _ _ _ _ _ _ _]. unfold leave, ids. destruct (pr_tasks P) as [g|]; [|by destruct (al_config _)].
  destruct (Ht g eq_refl) as (c & Hc & Hb). unfold state_ok in Hs. rewrite Hc in *. destruct Hs as [Hok Hi].
  split; [|done]. apply Forall_cons. by split.
Qed.
Lemma tasks_ok_app t1 t2 l : Forall (tasks_ok t1) l -> Forall (tasks_ok (t1 ++ t2)) l.
Proof. intros H. eapply Forall_impl; [exact H|]. intros t (Hb & H'). split; [by apply born_app|done]. Qed.

(** An observation by which no generation begins or ends. *)
Lemma left_silent trace obs (l : list nat) n :
  (forall g, OGone g ∉ obs) -> (forall g, (g < n)%nat -> (g ∈ l <-> OGone g ∉ trace)) ->
  forall g, (g < n)%nat -> (g ∈ l <-> OGone g ∉ trace ++ obs).
Proof. intros Ho H g Hg. rewrite (H g Hg), elem_of_app. specialize (Ho g). tauto. Qed.

Lemma inv_start trace P act rest now c a2 :
  act = AStart WBgp c -> pr_rest P = act :: rest -> alive_steps (apply_act act (pr_alive P)) rest a2 ->
  alive_step (pr_alive P) act (apply_act act (pr_alive P)) ->
  proc_inv trace P -> proc_inv (trace ++ [OAct act]) (on_act now act rest P).
Proof.
  intros -> Er Hrest Hact Hinv. destruct (leave_ok _ _ Hinv) as [Hl Hids].
  pose proof (state_act _ now rest P _ Hact) as Hst. destruct Hinv as [_ Hv Hs Hn _ _ _ Hd Hleft Hg Hq He Hsig Hord].
  assert (Hgone : forall g, OGone g ∉ [OAct (AStart WBgp c)]) by (intros g Hin; by apply list_elem_of_singleton in Hin).
  assert (Hall : forall g, (g < pr_started P)%nat -> signalled trace g).
  { intros g Hlt. destruct (Hsig g Hlt) as [[Hw _]|]; [|done]. by inversion Hact. }
  split; cbn [on_act pr_rest pr_alive pr_tasks pr_started pr_past].
  - by exists a2.
  - intros w c' H. apply (Hv w). rewrite Er. by right.
  - apply Hst; [|done]. intros w c' [= <- <-]. apply (Hv WBgp). rewrite Er. by left.
  - rewrite configs_app, length_app, Hn. cbn. lia.
  - by eexists.
  - intros g [= <-]. exists c. split; [done|]. rewrite Hn. apply born_start.
  - by apply tasks_ok_app.
  - unfold ids. cbn. rewrite Hids.
    apply NoDup_cons. split; [|done]. intros Hin. unfold ids in *.
    assert (H : Forall (fun i => (i < pr_started P)%nat) (map tk_id (leave P))).
    { apply Forall_map. eapply Forall_impl; [exact Hl|]. intros t (Hb & _). rewrite Hn. by eapply born_lt. }
    rewrite Forall_forall in H. rewrite Hids in H. specialize (H _ Hin). lia.
  - intros g Hlt. unfold ids. cbn. rewrite Hids, elem_of_cons, elem_of_app.
    destruct (decide (g = pr_started P)) as [->|Hne].
    + split; [|by left]. intros _ [H|H]; [apply Hg in H; lia|by apply Hgone in H].
    + rewrite Hleft by lia. specialize (Hgone g). tauto.
  - intros g [H|H]%elem_of_app; [apply Hg in H; lia|by apply Hgone in H].
  - done.
  - by apply enforced_silent.
  - intros g Hlt. destruct (decide (g = pr_started P)) as [->|Hne]; [left; split; [left|done]|right].
    apply signalled_app, Hall. lia.
  - apply ordered_start; [|done]. rewrite <- Hn. exact Hall.
Qed.
Lemma inv_bind trace P rest now a2 :
  pr_rest P = ABind :: rest -> alive_steps none_alive rest a2 -> al_workers (pr_alive P) = [] ->
  proc_inv trace P -> proc_inv (trace ++ [OAct ABind]) (on_act now ABind rest P).
Proof.
  intros Er Hrest Hw Hinv. destruct (leave_ok _ _ Hinv) as [Hl Hids]. destruct Hinv as [_ Hv Hs Hn _ _ _ Hd Hleft Hg Hq He Hsig Hord].
  assert (Hgone : forall g, OGone g ∉ [OAct ABind]) by (intros g Hin; by apply list_elem_of_singleton in Hin).
  split; cbn [on_act pr_rest pr_alive pr_tasks pr_started pr_past apply_act].
  - by exists a2.
  - intros w c' H. apply (Hv w). rewrite Er. by right.
  - by split; [|exists now].
  - rewrite configs_app, app_nil_r. done.
  - intros H. by apply not_elem_of_nil in H.
  - done.
  - by apply tasks_ok_app.
  - unfold ids. cbn. by rewrite Hids.
  - unfold ids at 1. cbn. rewrite Hids. by apply left_silent.
  - intros g [H|H]%elem_of_app; [by apply Hg|by apply Hgone in H].
  - intros _. apply ex_quiet_start.
  - by apply enforced_silent.
  - intros g Hlt. right. apply signalled_app. destruct (Hsig g Hlt) as [[H _]|]; [|done].
    rewrite Hw in H. by apply not_elem_of_nil in H.
  - apply ordered_app; [|done]. intros c H. by apply list_elem_of_singleton in H.
Qed.
(** Any other action leaves the BGP tasks alone. *)
Lemma inv_other trace P act rest a2 S :
  pr_rest P = act :: rest -> alive_steps (apply_act act (pr_alive P)) rest a2 ->
  (forall c, act <> AStart WBgp c) -> act <> ABind -> S = pr_state P ->
  (WBgp ∈ al_workers (apply_act act (pr_alive P)) -> WBgp ∈ al_workers (pr_alive P)) ->
  (WBgp ∈ al_workers (pr_alive P) -> WBgp ∈ al_workers (apply_act act (pr_alive P)) \/ ends_bgp act) ->
  (forall c, al_config (pr_alive P) = Some c -> al_config (apply_act act (pr_alive P)) = Some c) ->
  state_ok (apply_act act (pr_alive P)) S -> proc_inv trace P ->
  proc_inv (trace ++ [OAct act]) (mkProc rest (apply_act act (pr_alive P)) S (pr_tasks P) (pr_started P) (pr_past P)).
Proof.
  intros Er Hrest Hns Hnb -> Hw Hends Hc Hst Hinv. destruct Hinv as [_ Hv Hs Hn Hrun Ht Hp Hd Hleft Hg Hq He Hsig Hord].
  assert (Hgone : forall g, OGone g ∉ [OAct act]) by (intros g Hin; by apply list_elem_of_singleton in Hin).
  split; cbn [pr_rest pr_alive pr_tasks pr_started pr_past pr_state]; try done.
  - by exists a2.
  - intros w c' H. apply (Hv w). rewrite Er. by right.
  - rewrite configs_app, Hn. destruct act as [|[] c| | | |]; rewrite ?app_nil_r; try done. by destruct (Hns c).
  - auto.
  - intros g Hg'. destruct (Ht g Hg') as (c & Hc' & Hb). exists c. split; [by apply Hc|by apply born_app].
  - by apply tasks_ok_app.
  - by apply left_silent.
  - intros g [H|H]%elem_of_app; [by apply Hg|by apply Hgone in H].
  - by apply enforced_silent.
  - intros g Hlt. destruct (Hsig g Hlt) as [[H E]|]; [|by right; apply signalled_app].
    destruct (Hends H) as [?|?]; [by left|right]. apply signalled_now; [done|]. by rewrite <- Hn.
  - apply ordered_app; [|done]. intros c H. apply list_elem_of_singleton in H as [= <-]. by destruct (Hns c).
Qed.
(** The end of worker [w], unless it is the BGP task, leaves that alive. *)
Ltac ends w := intros H; destruct w; [left|by right; unfold ends_bgp; auto|left]; by apply list_elem_of_filter.
Lemma inv_act trace P act rest now :
  pr_rest P = act :: rest -> proc_inv trace P -> proc_inv (trace ++ [OAct act]) (on_act now act rest P).
Proof.
  intros Er Hinv. destruct (pi_legal _ _ Hinv) as (a2 & Hl). rewrite Er in Hl.
  inversion Hl as [|? a1 ? ? ? Hact Hrest]; subst. pose proof (alive_step_apply _ _ _ Hact) as ->.
  assert (Hst : state_ok (apply_act act (pr_alive P)) (pr_state (on_act now act rest P))).
  { apply state_act; [exact Hact| |exact (pi_state _ _ Hinv)]. intros w c ->. apply (pi_valid _ _ Hinv w). rewrite Er. by left. }
  assert (Hcfg : forall w c, act = AStart w c -> forall c', al_config (pr_alive P) = Some c' -> Some c = Some c').
  { intros w c -> c' E. inversion Hact as [|? ? ? ? [[E' _]|E']| | | |]; congruence. }
  destruct act as [|w c|w| |w|w].
  - eapply inv_bind; [done|exact Hrest| |done]. by inversion Hact.
  - destruct w; [|by eapply inv_start|]; (eapply inv_other; try done; [intros [?|?]%elem_of_cons; done|by left; right|]; by eapply Hcfg).
  - eapply inv_other; try done; [by intros [_ ?]%list_elem_of_filter|]. ends w.
  - eapply inv_other; try done. by left.
  - eapply inv_other; try done; [by intros [_ ?]%list_elem_of_filter|]. ends w.
  - eapply inv_other; try done; [by intros [_ ?]%list_elem_of_filter|]. ends w.
Qed.

Lemma left_gone trace l1 l2 g n :
  NoDup (l1 ++ g :: l2) -> (forall g', (g' < n)%nat -> (g' ∈ l1 ++ g :: l2 <-> OGone g' ∉ trace)) ->
  forall g', (g' < n)%nat -> (g' ∈ l1 ++ l2 <-> OGone g' ∉ trace ++ [OGone g]).
Proof.
  intros (_ & Hd & [Hg _]%NoDup_cons)%NoDup_app H g' Hlt. specialize (H g' Hlt).
  rewrite elem_of_app, elem_of_cons in H. rewrite !elem_of_app, list_elem_of_singleton.
  destruct (decide (g' = g)) as [->|Hne].
  - split; [|by intros []; right]. intros [H1|H2]; [|done]. by destruct (Hd g H1); left.
  - assert (OGone g' <> OGone g) by congruence. tauto.
Qed.
Lemma inv_state trace P S :
  state_ok (pr_alive P) S -> (pr_tasks P = None -> ex_quiet S) -> proc_inv trace P ->
  proc_inv trace (mkProc (pr_rest P) (pr_alive P) S (pr_tasks P) (pr_started P) (pr_past P)).
Proof. intros Hs Hq [? ? _ ? ? ? ? ? ? ? _ ? ? ?]. by split. Qed.
Lemma inv_past trace P past :
  Forall (tasks_ok trace) past -> map tk_id past = map tk_id (pr_past P) -> proc_inv trace P ->
  proc_inv trace (mkProc (pr_rest P) (pr_alive P) (pr_state P) (pr_tasks P) (pr_started P) past).
Proof. intros Hp E [? ? ? ? ? ? _ Hd Hl ? ? ? ? ?]. unfold ids in *. split; try done; unfold ids; cbn; by rewrite E. Qed.
(** Tasks that are still running write what their configuration allows. *)
Lemma inv_wrote trace P g c S out S' :
  g ∈ ids P -> born trace g c -> config_ok c -> ex_inv c S -> ex_step c S (ByBgp out) S' ->
  proc_inv trace P -> proc_inv (trace ++ wrote g out) P.
Proof.
  intros Hin Hb Hok Hi Hstep [Hl Hv Hs Hn Hr Ht Hp Hd Hleft Hg Hq He Hsig Hord].
  assert (Hgone : OGone g ∉ trace) by (apply Hleft; [rewrite Hn; by eapply born_lt|done]).
  split; try done.
  - by rewrite configs_app, configs_wrote, app_nil_r.
  - intros g' Hg'. destruct (Ht g' Hg') as (c' & Hc & Hb'). exists c'. split; [done|by apply born_app].
  - by apply tasks_ok_app.
  - apply left_silent; [intros g'; apply gone_wrote|done].
  - intros g' [H|H]%elem_of_app; [by apply Hg|by apply gone_wrote in H].
  - eapply enforced_wrote; [exact Hok|done|done| |done]. by eapply ex_allowed.
  - intros g' Hlt. destruct (Hsig g' Hlt) as [|]; [by left|by right; apply signalled_app].
  - apply ordered_app; [|done]. intros c'. apply start_wrote.
Qed.
Lemma ids_lt trace P g : proc_inv trace P -> g ∈ ids P -> (g < pr_started P)%nat.
Proof.
  intros [_ _ _ Hn _ Ht Hp _ _ _ _ _ _ _] [H|H]%elem_of_app.
  - destruct (pr_tasks P) as [g0|]; [|by apply not_elem_of_nil in H]. apply list_elem_of_singleton in H as ->.
    destruct (Ht g0 eq_refl) as (c & _ & Hb). rewrite Hn. by eapply born_lt.
  - apply list_elem_of_fmap in H as (k & -> & Hk). rewrite Forall_forall in Hp. rewrite Hn.
    destruct (Hp k Hk) as (Hb & _). by eapply born_lt.
Qed.
(** The last task of a generation is dropped. *)
Lemma inv_gone trace P g l1 l2 S t past :
  ids P = l1 ++ g :: l2 -> option_list t ++ map tk_id past = l1 ++ l2 -> Forall (.∈ pr_past P) past ->
  state_ok (pr_alive P) S -> (t = None -> ex_quiet S) -> (t = pr_tasks P \/ t = None /\ WBgp ∉ al_workers (pr_alive P)) ->
  proc_inv trace P -> proc_inv (trace ++ [OGone g]) (mkProc (pr_rest P) (pr_alive P) S t (pr_started P) past).
Proof.
  intros E1 E2 Hin Hst Hqt Hor Hinv.
  assert (Hlt : (g < pr_started P)%nat) by (eapply ids_lt; [exact Hinv|rewrite E1; set_solver]).
  destruct Hinv as [Hl Hv Hs Hn Hr Ht Hp Hd Hleft Hg Hq He Hsig Hord].
  split; cbn [pr_rest pr_alive pr_state pr_tasks pr_started pr_past]; try done.
  - by rewrite configs_app, app_nil_r.
  - intros Hw. destruct Hor as [->|[_ Hn']]; [by apply Hr|done].
  - intros g' ->. destruct Hor as [E|[E _]]; [|done]. destruct (Ht g' (eq_sym E)) as (c & Hc & Hb). exists c. split; [done|by apply born_app].
  - apply tasks_ok_app. rewrite Forall_forall in Hp. eapply Forall_impl; [exact Hin|]. intros k Hk. by apply Hp.
  - unfold ids. cbn. rewrite E2. rewrite E1 in Hd. apply NoDup_app in Hd as (Hd1 & Hd2 & [_ Hd3]%NoDup_cons).
    apply NoDup_app. split_and!; [done| |done]. intros x Hx Hx'. apply (Hd2 x Hx). by right.
  - unfold ids at 1. cbn. rewrite E2. rewrite E1 in Hd, Hleft. by apply left_gone.
  - intros g' [H|H]%elem_of_app; [by apply Hg|]. apply list_elem_of_singleton in H as [= ->]. done.
  - by apply enforced_silent.
  - intros g' Hlt'. destruct (Hsig g' Hlt') as [|]; [by left|by right; apply signalled_app].
  - apply ordered_app; [|done]. intros c H. by apply list_elem_of_singleton in H.
Qed.
Lemma proc_inv_step trace obs P P' :
  proc_step P obs P' -> proc_inv trace P -> proc_inv (trace ++ obs) P'.
Proof.
  intros Hstep Hinv. pose proof (pi_state _ _ Hinv) as Hs. pose proof (pi_past _ _ Hinv) as Hp.
  destruct Hstep as [act rest P now Er|rest a S g n past c S' Hw Hc Hstep|rest a S g n past c out S' Hc Hstep
    |rest a S g n past Hw|rest a S0 t n l1 l2 g c S out S' Hstep|rest a S0 t n l1 l2 g c S]; cbn [pr_alive pr_state pr_past] in Hs, Hp.
  - by apply inv_act.
  - rewrite app_nil_r. unfold state_ok in Hs. rewrite Hc in Hs. destruct Hs as [Hok Hi].
    apply (inv_state _ (mkProc rest a S g n past)); [|intros Hg; eapply ex_quiet_kernel; [exact Hstep|by apply (pi_quiet _ _ Hinv)]|done].
    unfold state_ok. cbn. rewrite Hc. split; [done|by eapply ex_inv_step].
  - destruct (pi_tasks _ _ Hinv g eq_refl) as (c' & Hc' & Hb). cbn in Hc'. rewrite Hc in Hc'. injection Hc' as <-.
    unfold state_ok in Hs. rewrite Hc in Hs. destruct Hs as [Hok Hi].
    apply (inv_state _ (mkProc rest a S (Some g) n past)); [unfold state_ok; cbn; rewrite Hc; split; [done|by eapply ex_inv_step]|done|].
    eapply inv_wrote; [by apply elem_of_app; left; left|done..].
  - apply (inv_gone _ (mkProc rest a S (Some g) n past) g [] (map tk_id past)); try done; [by apply Forall_forall| |by intros _; apply ex_quiet_close|by right].
    unfold state_ok in *. cbn. destruct (al_config a) eqn:Hc; [destruct Hs; split; [done|by apply ex_inv_close]|].
    destruct (pi_tasks _ _ Hinv g eq_refl) as (c' & Hc' & _). cbn in Hc'. congruence.
  - apply Forall_middle in Hp as (Hp1 & (Hb & Hok & Hi) & Hp2). cbn in Hb, Hok, Hi.
    apply (inv_past _ (mkProc rest a S0 t n (l1 ++ mkTasks g c S :: l2))); [|cbn; by rewrite !map_app|].
    + apply tasks_ok_app, Forall_app. split; [done|]. apply Forall_cons. split; [|done]. split_and!; [done..|by eapply ex_inv_step].
    + eapply inv_wrote; [|exact Hb|done..]. apply elem_of_app. right. cbn. rewrite map_app. set_solver.
  - apply (inv_gone _ (mkProc rest a S0 t n (l1 ++ mkTasks g c S :: l2)) g (option_list t ++ map tk_id l1) (map tk_id l2)).
    + unfold ids. cbn. by rewrite map_app, app_assoc.
    + by rewrite map_app, app_assoc.
    + apply Forall_forall. intros k. cbn. set_solver.
    + done.
    + exact (pi_quiet _ _ Hinv).
    + by left.
    + done.
Qed.

Lemma proc_reach_inv acts start trace P a :
  alive_steps none_alive acts a -> (forall w c, AStart w c ∈ acts -> config_ok c) ->
  proc_reach acts start trace P -> proc_inv trace P.
Proof.
  intros Hl Hv. induction 1 as [|trace obs P P' _ IH Hstep]; [|by eapply proc_inv_step].
  split; cbn [pr_rest pr_alive pr_state pr_tasks pr_started pr_past]; try done.
  - by exists a.
  - split; [done|by exists start].
  - intros H. by apply not_elem_of_nil in H.
  - by apply NoDup_nil.
  - intros g Hg. lia.
  - intros g H. by apply not_elem_of_nil in H.
  - intros _. apply ex_quiet_start.
  - apply enforced_nil.
  - intros g Hg. lia.
  - apply ordered_nil.
Qed.
End client.
End laws.

(** ** [System] keeps the promises of the interface *)
Section system.
Context (big : bool) (instant_max : Z) {api : IpNetApi}.

Lemma config_acls c : config_ok c -> Forall (fun p => is_Some (c_acls c !! p_export_acl p)) (c_peers c).
Proof. intros [_ _ _ _ _ _ _ _ H _]. eapply Forall_impl; [exact H|]. by intros p [_ ? _]. Qed.

Lemma sys_close_inv c S : sys_inv big c S -> sys_inv big c (close_sessions S).
Proof. intros [Hk Hl Hp _]. by split. Qed.

Lemma sys_allowed c S out S' :
  config_ok c -> sys_inv big c S -> sys_step big instant_max c S (ByBgp out) S' ->
  Forall (fun '(p, m) => permitted_message c p m) out.
Proof.
  intros Hok Hinv Hstep. pose proof (sys_inv_step big instant_max c (config_acls c Hok) _ _ _ Hstep Hinv) as [_ _ _ Hs'].
  inversion Hstep; subst; try by apply Forall_nil.
  cbn [sy_sessions sy_kernel] in Hs'. apply Forall_middle in Hs' as (_ & Hs' & _).
  apply Forall_forall. intros [p m] (m' & [= -> ->] & Hin)%list_elem_of_fmap batch q -> Hq.
  apply (si_sent _ _ _ Hs' batch q); [|done]. cbn. by eapply subseteq_drop.
Qed.

Lemma sys_quiet c S S' : sys_step big instant_max c S ByKernel S' -> sy_sessions S = [] -> sy_sessions S' = [].
Proof.
  intros Hstep. inversion Hstep; subst; cbn [sy_sessions]; intros ->; unfold broadcast; by destruct (_ =? _).
Qed.

#[local] Instance sys_laws : @ExporterLaws api Sys (sys_exporter big instant_max) permitted_message.
Proof.
  refine {| ex_inv := sys_inv big |}; cbn [ex_start ex_step ex_close ex_quiet sys_exporter].
  - intros c now _. apply sys_inv_init.
  - intros c S a S' Hok. apply (sys_inv_step big instant_max c (config_acls c Hok)).
  - apply sys_close_inv.
  - apply sys_allowed.
  - done.
  - done.
  - apply sys_quiet.
Qed.

(** One more action of the supervisor. *)
Lemma process_act acts start trace act rest P now :
  pr_rest P = act :: rest -> process big instant_max acts start trace P ->
  process big instant_max acts start (trace ++ [OAct act]) (on_act (exporter := sys_exporter big instant_max) now act rest P).
Proof. intros E H. eapply proc_next; [exact H|by apply proc_act]. Qed.

(** [C3] Policy across reloads: run the supervisor on any sequence of worker exits,
    signals and reloads, interleaved in any way with the workers of each generation and
    with the tasks of earlier ones that outlive their abort. Every prefix announced is
    permitted by the export ACL, for the peer it is written to, of the validated
    configuration with which the task that writes it was started, never by that of
    another generation, and the tasks of that generation are not all dropped yet. No BGP
    task is started before every earlier one ended or was aborted. An abort only signals
    the tasks, so old sessions may still be open beside the new ones; once the last task
    of every generation started is dropped, no session is open. *)
Theorem policy_enforced {laws : IpNetLaws} toml bind events cfg start trace P :
  config_ok cfg ->
  (forall kernel bind loaded, (kernel, bind, Hup loaded) ∈ events -> exists read, loaded = load toml read) ->
  process big instant_max (run bind events cfg).1 start trace P ->
  (forall before g p batch after q, trace = before ++ OWrote g p (MUpdate false batch) :: after -> q ∈ batch ->
     exists first since c acl, before = first ++ OAct (AStart WBgp c) :: since /\ length (configs first) = g /\
       OGone g ∉ before /\ config_ok c /\ c_acls c !! p_export_acl p = Some acl /\ permits acl q = true) /\
  ordered trace /\
  ((forall g, (g < length (configs trace))%nat -> OGone g ∈ trace) -> sy_sessions (pr_state P) = [] /\ pr_past P = []).
Proof.
  intros Hcfg Hload Hreach. destruct (run_alive bind events cfg) as (a & Ha & _).
  assert (Hv : forall w c, AStart w c ∈ (run bind events cfg).1 -> config_ok c)
    by by intros w c; apply (supervisor_validated toml).
  pose proof (proc_reach_inv (laws := sys_laws) _ start trace P a Ha Hv Hreach) as Hinv. split_and!; [|exact (pi_ordered _ _ Hinv)|].
  - intros before g p batch after q E Hin.
    destruct (pi_enforced _ _ Hinv _ _ _ _ _ E) as (c & (first & since & Hb & Hg) & Hok & Hm & Hgone).
    destruct (Hm batch q eq_refl Hin) as (acl & Hacl & Hperm). by exists first, since, c, acl.
  - intros Hall. assert (Hids : forall g, g ∉ ids P).
    { intros g Hin. assert (Hlt : (g < pr_started P)%nat) by by eapply ids_lt.
      apply (pi_left _ _ Hinv g Hlt) in Hin. apply Hin, Hall. by rewrite <- (pi_started _ _ Hinv). }
    unfold ids in Hids. split.
    + apply (pi_quiet _ _ Hinv). destruct (pr_tasks P) as [g|]; [|done]. destruct (Hids g). set_solver.
    + destruct (pr_past P) as [|k l]; [done|]. destruct (Hids (tk_id k)). set_solver.
Qed.
End system.
