(* ===== verification/Tests.v ===== *)
(** * The program's unit tests, on the model: fixtures, configuration and command line

    Each definition is a test function of the source; it returns [Ok tt] when every
    assertion holds, and the example after it runs it. [TestsWire] and [TestsBgp] hold
    the tests of the other files. They check the translation of the code against what
    its authors expect of it, on the concrete networks of [Net.model_api]. *)
From S2P Require Import Prelude Net Config Text Cli.

#[local] Existing Instance model_api.

(** ** Assertions *)
(** [Result::unwrap] and [Result::unwrap_err]. *)
Definition unwrap_ok {A} (r : res A) : res A := match r with Err _ => Panic | r => r end.
Definition unwrap_err {A} (r : res A) : res error :=
  match r with Ok _ => Panic | Err e => Ok e | Panic => Panic | Fuel => Fuel end.
Definition assert_is_err {A} (r : res A) : res unit := _ ← unwrap_err r; Ok tt.
Definition assert_eq {A} `{!EqDecision A} (x y : A) : res unit := assert_ (bool_decide (x = y)).

(** ** The example configuration (src/examples/ubgp.toml), as the TOML parser reads it *)
Definition example_peer : Peer :=
  mkPeer (IpV4 (ipv4_new 192 0 2 2)) (IpV4 (ipv4_new 192 0 2 1)) "eth0" 64513 "export" None 179 90 10 10
    false true None None None.
Definition example_kernel : Kernel := mkKernel [254] 67108864 250 300 30 10 2000000.
Definition example_acl : Acl := mkAcl [
  mkRule Deny (net4' 203 0 113 128 25) (Some 25) (Some 32);
  mkRule Permit (net4' 198 51 100 0 24) None None;
  mkRule Permit (net4' 203 0 113 0 24) (Some 26) (Some 32)].
Definition example_config : Config :=
  mkConfig 64512 (ipv4_new 192 0 2 1) false 179 example_kernel default_management {["export" := example_acl]} [example_peer].

(** Assignments to fields. *)
Definition set_asn (c : Config) (asn : Z) : Config :=
  mkConfig asn (c_router_id c) (c_ipv6 c) (c_listen_port c) (c_kernel c) (c_management c) (c_acls c) (c_peers c).
Definition set_router_id (c : Config) (id : Z) : Config :=
  mkConfig (c_asn c) id (c_ipv6 c) (c_listen_port c) (c_kernel c) (c_management c) (c_acls c) (c_peers c).
Definition set_kernel (c : Config) (k : Kernel) : Config :=
  mkConfig (c_asn c) (c_router_id c) (c_ipv6 c) (c_listen_port c) k (c_management c) (c_acls c) (c_peers c).
(** [c.peers[0] = f(c.peers[0])] *)
Definition on_peer0 (f : Peer -> Peer) (c : Config) : Config :=
  mkConfig (c_asn c) (c_router_id c) (c_ipv6 c) (c_listen_port c) (c_kernel c) (c_management c) (c_acls c)
    (alter f 0%nat (c_peers c)).
Definition set_md5 (key : option Md5Key) (p : Peer) : Peer :=
  mkPeer (p_address p) (p_local_address p) (p_interface p) (p_remote_asn p) (p_export_acl p) key (p_port p)
    (p_hold_time_secs p) (p_connect_timeout_secs p) (p_write_timeout_secs p) (p_ipv6 p) (p_ipv4 p)
    (p_next_hop_v4 p) (p_next_hop_v6 p) (p_next_hop_v6_link_local p).
Definition set_acl (acl : string) (p : Peer) : Peer :=
  mkPeer (p_address p) (p_local_address p) (p_interface p) (p_remote_asn p) acl (p_md5_password p) (p_port p)
    (p_hold_time_secs p) (p_connect_timeout_secs p) (p_write_timeout_secs p) (p_ipv6 p) (p_ipv4 p)
    (p_next_hop_v4 p) (p_next_hop_v6 p) (p_next_hop_v6_link_local p).
Definition set_remote_asn (asn : Z) (p : Peer) : Peer :=
  mkPeer (p_address p) (p_local_address p) (p_interface p) asn (p_export_acl p) (p_md5_password p) (p_port p)
    (p_hold_time_secs p) (p_connect_timeout_secs p) (p_write_timeout_secs p) (p_ipv6 p) (p_ipv4 p)
    (p_next_hop_v4 p) (p_next_hop_v6 p) (p_next_hop_v6_link_local p).
Definition set_families (ipv4 ipv6 : bool) (p : Peer) : Peer :=
  mkPeer (p_address p) (p_local_address p) (p_interface p) (p_remote_asn p) (p_export_acl p) (p_md5_password p) (p_port p)
    (p_hold_time_secs p) (p_connect_timeout_secs p) (p_write_timeout_secs p) ipv6 ipv4
    (p_next_hop_v4 p) (p_next_hop_v6 p) (p_next_hop_v6_link_local p).
Definition set_timeouts (connect write : Z) (p : Peer) : Peer :=
  mkPeer (p_address p) (p_local_address p) (p_interface p) (p_remote_asn p) (p_export_acl p) (p_md5_password p) (p_port p)
    (p_hold_time_secs p) connect write (p_ipv6 p) (p_ipv4 p)
    (p_next_hop_v4 p) (p_next_hop_v6 p) (p_next_hop_v6_link_local p).
Definition set_next_hops (v6 link_local : option Z) (p : Peer) : Peer :=
  mkPeer (p_address p) (p_local_address p) (p_interface p) (p_remote_asn p) (p_export_acl p) (p_md5_password p) (p_port p)
    (p_hold_time_secs p) (p_connect_timeout_secs p) (p_write_timeout_secs p) (p_ipv6 p) (p_ipv4 p)
    (p_next_hop_v4 p) v6 link_local.
Definition set_deadlines (reconcile stale dump : Z) (k : Kernel) : Kernel :=
  mkKernel (k_tables k) (k_receive_buffer_bytes k) (k_refresh_interval_ms k) reconcile stale dump (k_max_prefixes k).

(** The first peer of the example. *)
Definition example_peer0 : res Peer := idx (c_peers example_config) 0.
(** The addresses 2001:db8:: and fe80::1 of the tests. *)
Definition db8 : Z := 8193 * 2 ^ 112 + 3512 * 2 ^ 96.
Definition ll1 : Z := 65152 * 2 ^ 112 + 1.

(** ** src/src/config.rs *)
(** The text of é, two bytes. *)
Definition e_acute : list Z := [195; 169].
Definition secret : string := "test-secret-do-not-print".
Definition quoted (s : string) : string := let q := Ascii.ascii_of_nat 34 in String q (s +:+ String q "").
(** [toml] rejects both texts; what it reports of them is arbitrary. The error of a
    rejected text is a message with two numbers, so only its template is looked at. *)
Definition md5_keys_are_optional_bounded_by_bytes_and_redacted (error1 error2 : TomlError) : res unit :=
  let c := example_config in
  let with_key value := on_peer0 (set_md5 (Some (mkMd5Key value))) c in
  let contains needle text := is_some (String.index 0 needle text) in
  _ ← unwrap_ok (validate c);
  _ ← for_each (fun value => unwrap_ok (validate (with_key value)))
        [[120]; replicate 80 120; concat (replicate 40 e_acute)];
  _ ← for_each (fun value => assert_is_err (validate (with_key value)))
        [[]; replicate 81 120; concat (replicate 41 e_acute)];
  _ ← assert_ (negb (contains secret (md5key_debug (mkMd5Key (ascii_bytes secret)))));
  for_each (fun '(text, error) =>
    error ← unwrap_err (Config.parse (fun _ => inr error) (ascii_bytes text));
    match error with
    | EMessage template _ =>
        _ ← assert_ (negb (contains secret template));
        assert_ (contains "line" template)
    | EProtocol _ => Panic
    end)
    [("md5_password = " +:+ quoted secret +:+ " trailing", error1); ("asn = " +:+ quoted secret, error2)].
(** Errors that quote the key. *)
Example md5_keys_pass : md5_keys_are_optional_bounded_by_bytes_and_redacted
  (mkTomlError (Some (42, 50)) "unexpected key or value, expected newline"
     ("1 | md5_password = " +:+ quoted secret +:+ " trailing"))
  (mkTomlError None ("invalid type: string " +:+ quoted secret +:+ ", expected u32") secret) = Ok tt.
Proof. vm_compute. reflexivity. Qed.

Definition acl_order_ranges_and_default_deny : res unit :=
  let acl := mkAcl [
    mkRule Deny (net4' 10 1 0 0 16) (Some 16) (Some 32);
    mkRule Permit (net4' 10 0 0 0 8) (Some 24) (Some 28);
    mkRule Permit (net6' db8 32) None None] in
  _ ← for_each (fun p => assert_ (permits acl p)) [net4' 10 2 0 0 24; net4' 10 2 0 0 28; net6' db8 32];
  for_each (fun p => assert_ (negb (permits acl p)))
    [net4' 10 1 0 0 24; net4' 10 2 0 0 29; net4' 10 0 0 0 8; net4' 0 0 0 0 0; net6' db8 48].
Example acl_order_passes : acl_order_ranges_and_default_deny = Ok tt.
Proof. vm_compute. reflexivity. Qed.

(** [without_acl] is what the TOML parser makes of the example without the key. *)
Definition mandatory_acl_and_ipv6_gate (without_acl : Config + TomlError) : res unit :=
  let c := example_config in
  _ ← unwrap_ok (validate c);
  let c := on_peer0 (set_acl "missing") c in
  _ ← assert_is_err (validate c);
  let c := on_peer0 (fun p => set_families (p_ipv4 p) true (set_acl "export" p)) c in
  _ ← assert_is_err (validate c);
  assert_ (match without_acl with inr _ => true | inl _ => false end).
Example mandatory_acl_passes span : mandatory_acl_and_ipv6_gate (inr span) = Ok tt.
Proof. vm_compute. reflexivity. Qed.

Definition router_ids_are_nonzero_integers_without_relaxing_addresses : res unit :=
  let c := example_config in
  _ ← for_each (fun id => unwrap_ok (validate (set_router_id c id)))
        [ipv4_new 0 0 0 1; ipv4_new 224 0 0 1; ipv4_new 255 255 255 255];
  _ ← assert_is_err (validate (set_router_id c (ipv4_new 0 0 0 0)));
  _ ← assert_ (negb (valid_v4 (ipv4_new 224 0 0 1)));
  assert_ (negb (valid_v4 (ipv4_new 255 255 255 255))).
Example router_ids_pass : router_ids_are_nonzero_integers_without_relaxing_addresses = Ok tt.
Proof. vm_compute. reflexivity. Qed.

Definition I64_MAX : Z := 2 ^ 63 - 1.
Definition U64_MAX : Z := 2 ^ 64 - 1.
(** The parser's configurations are given; of the first error only that it is one. *)
Definition timeout_bounds_reject_overflowing_toml_and_keep_valid_limits : res unit :=
  let baseline := example_config in
  let peer f := on_peer0 f baseline in
  let kernel reconcile stale dump := set_kernel baseline (set_deadlines reconcile stale dump (c_kernel baseline)) in
  let k := c_kernel baseline in
  _ ← assert_is_err (validate (peer (fun p => set_timeouts I64_MAX (p_write_timeout_secs p) p)));
  _ ← for_each (fun value =>
        _ ← assert_is_err (validate (peer (fun p => set_timeouts value (p_write_timeout_secs p) p)));
        _ ← assert_is_err (validate (peer (fun p => set_timeouts (p_connect_timeout_secs p) value p)));
        _ ← assert_is_err (validate (kernel value (k_stale_timeout_secs k) (k_dump_timeout_secs k)));
        _ ← assert_is_err (validate (kernel (k_reconcile_interval_secs k) value (k_dump_timeout_secs k)));
        assert_is_err (validate (kernel (k_reconcile_interval_secs k) (k_stale_timeout_secs k) value)))
      [0; MAX_TIMEOUT_SECS + 1; I64_MAX; U64_MAX];
  _ ← for_each (fun value =>
        let c := on_peer0 (set_timeouts value value) baseline in
        unwrap_ok (validate (set_kernel c (set_deadlines value (k_stale_timeout_secs k) (k_dump_timeout_secs k) (c_kernel c)))))
      [1; MAX_TIMEOUT_SECS];
  _ ← unwrap_ok (validate (kernel (k_reconcile_interval_secs k) MAX_TIMEOUT_SECS (MAX_TIMEOUT_SECS - 1)));
  assert_is_err (validate (kernel (k_reconcile_interval_secs k) MAX_TIMEOUT_SECS MAX_TIMEOUT_SECS)).
Example timeout_bounds_pass : timeout_bounds_reject_overflowing_toml_and_keep_valid_limits = Ok tt.
Proof. vm_compute. reflexivity. Qed.

(** ** src/src/lib.rs: the documented example of an ACL *)
Definition acl_doc_example : res unit :=
  let acl := mkAcl [mkRule Permit (net4' 192 0 2 0 24) (Some 24) (Some 32)] in
  _ ← assert_ (permits acl (net4' 192 0 2 128 25));
  assert_ (negb (permits acl (net4' 198 51 100 0 24))).
Example acl_doc_passes : acl_doc_example = Ok tt.
Proof. vm_compute. reflexivity. Qed.

(** ** src/src/cli.rs *)
#[local] Instance command_eq_dec : EqDecision Command.
Proof. solve_decision. Defined.

Definition defaults_and_aliases : res unit :=
  command ← unwrap_ok (Cli.parse []);
  _ ← assert_eq command (Run "/etc/ubgp.toml" false false false);
  _ ← for_each (fun values =>
        command ← unwrap_ok (Cli.parse values);
        assert_eq command (Run "custom.toml" true false false))
      [["-c"; "custom.toml"; "-d"]; ["--daemon"; "--config=custom.toml"]];
  command ← unwrap_ok (Cli.parse ["--daemon"; "--debug"]);
  _ ← assert_ (match command with Run _ true true _ => true | _ => false end);
  command ← unwrap_ok (Cli.parse ["--help"]);
  _ ← assert_eq command Help;
  command ← unwrap_ok (Cli.parse ["--version"]);
  assert_eq command Version.
Example defaults_pass : defaults_and_aliases = Ok tt.
Proof. vm_compute. reflexivity. Qed.

Definition reject_missing_values_and_unknown_flags : res unit :=
  for_each (fun values => assert_is_err (Cli.parse values)) [["--config"]; ["-c"; "--daemon"]; ["--config="]; ["--bogus"]].
Example reject_passes : reject_missing_values_and_unknown_flags = Ok tt.
Proof. vm_compute. reflexivity. Qed.

Definition paths_need_not_be_utf8 : res unit :=
  let path := "config-" +:+ String (Ascii.ascii_of_nat 255) ".toml" in
  command ← unwrap_ok (Cli.parse ["-c"; path]);
  assert_eq command (Run path false false false).
Example paths_pass : paths_need_not_be_utf8 = Ok tt.
Proof. vm_compute. reflexivity. Qed.
