(* ===== verification/TestsWire.v ===== *)
(** * The unit tests of src/src/wire.rs, on the model *)
From S2P Require Import Prelude Net Config Frame Open Update Validate Tests.

#[local] Existing Instance model_api.

(** ** Fixtures *)
Definition fixture : res (Config * Peer * Negotiated) :=
  p ← example_peer0;
  Ok (example_config, p, mkNegotiated (ipv4_new 192 0 2 2) 90 true false true true).
Definition set_asn4 (asn4 : bool) (n : Negotiated) : Negotiated :=
  mkNegotiated (n_router_id n) (n_hold n) asn4 (n_internal n) (n_ipv4 n) (n_ipv6 n).
Definition set_internal (internal : bool) (n : Negotiated) : Negotiated :=
  mkNegotiated (n_router_id n) (n_hold n) (n_asn4 n) internal (n_ipv4 n) (n_ipv6 n).
(** [b[lo..lo + s.len()].copy_from_slice(s)], [b[i] = x] *)
Definition copy_at (b : list Z) (lo : Z) (s : list Z) : res (list Z) :=
  _ ← slice b lo (lo + len s);
  before ← slice_to b lo;
  after ← slice_from b (lo + len s);
  Ok (before ++ s ++ after).
(** [b.windows(3).any(|w| w == s)] *)
Fixpoint any_window3 (b s : list Z) : bool :=
  match b with
  | [] => false
  | _ :: b' => bool_decide (take 3 b = s) || any_window3 b' s
  end.
(** The integers [lo..hi]. *)
Definition range (lo hi : Z) : list Z := map (fun i => lo + Z.of_nat i) (seq 0 (Z.to_nat (hi - lo))).
Definition expect_action (action : UpdateAction) (b : list Z) (n : Negotiated) : res unit :=
  a ← unwrap_ok (validate_update b n); assert_eq a action.
Definition both : list bool := [false; true].

(** ** Encoding *)
Definition encode_ipv4_ipv6_announce_withdraw_and_eor : res unit :=
  '(c, p, n) ← fixture;
  let p := set_next_hops (Some (db8 + 1)) None p in
  _ ← for_each (fun prefix => for_each (fun withdraw =>
        msg ← update c p n [prefix] withdraw;
        l ← (s ← slice_from msg 16; u16b s);
        _ ← assert_eq l (len msg);
        body ← slice_from msg 19;
        _ ← unwrap_ok (validate_update body n);
        Ok tt) both)
      [net4' 0 0 0 0 0; net4' 203 0 113 0 24; net6' db8 32; net6' 0 0];
  for_each (fun v6 =>
    msg ← end_of_rib v6;
    body ← slice_from msg 19;
    _ ← unwrap_ok (validate_update body n);
    Ok tt) both.
Example encode_passes : encode_ipv4_ipv6_announce_withdraw_and_eor = Ok tt.
Proof. vm_compute. reflexivity. Qed.

Definition legacy_as4_and_internal_aspath : res unit :=
  '(c, p, n) ← fixture;
  let c := set_asn c 4200000001 in
  let n := set_asn4 false n in
  packet ← update c p n [net4' 10 0 0 0 8] false;
  body ← slice_from packet 19;
  _ ← unwrap_ok (validate_update body n);
  _ ← assert_ (any_window3 packet [192; 17; 6]);
  let c := set_asn c (p_remote_asn p) in
  packet ← update c p n [net4' 10 0 0 0 8] false;
  _ ← assert_ (any_window3 packet [64; 2; 0]);
  assert_ (any_window3 packet [64; 5; 4]).
Example legacy_as4_passes : legacy_as4_and_internal_aspath = Ok tt.
Proof. vm_compute. reflexivity. Qed.

Definition maximum_ipv6_batch_fits_standard_message_size : res unit :=
  '(c, p, n) ← fixture;
  let p := set_next_hops (Some (db8 + 1)) (Some ll1) p in
  let prefixes := replicate (Z.to_nat MAX_UPDATE_PREFIXES) (net6' (db8 + 255) 128) in
  for_each (fun withdraw =>
    msg ← update c p n prefixes withdraw;
    _ ← assert_ (len msg <=? MAX_MESSAGE);
    body ← slice_from msg 19;
    _ ← unwrap_ok (validate_update body n);
    Ok tt) both.
Example maximum_batch_passes : maximum_ipv6_batch_fits_standard_message_size = Ok tt.
Proof. vm_compute. reflexivity. Qed.

Definition multiprotocol_nlri_is_first_on_wire_but_legacy_order_is_accepted : res unit :=
  '(c, p, n) ← fixture;
  let p := set_next_hops (Some (db8 + 1)) (Some ll1) p in
  _ ← for_each (fun internal : bool =>
        let c := if internal then set_asn c (p_remote_asn p) else c in
        let n := if internal then set_internal true n else n in
        for_each (fun withdraw : bool =>
          packet ← update c p n [net6' (db8 + 256 * 2 ^ 80) 48] withdraw;
          body ← slice_from packet 19;
          start ← slice_to body 2;
          _ ← assert_eq start [0; 0];
          l ← (s ← slice_from body 2; u16b s);
          _ ← assert_eq (len body) (l + 4);
          attrs ← slice_from body 4;
          a0 ← idx attrs 0;
          _ ← assert_eq a0 128;
          a1 ← idx attrs 1;
          _ ← assert_eq a1 (if withdraw then 15 else 14);
          family ← slice attrs 3 6;
          _ ← assert_eq family [0; 2; 1];
          _ ← (if withdraw then Ok tt else
                a6 ← idx attrs 6;
                _ ← assert_eq a6 32;
                first_len ← (a2 ← idx attrs 2; Ok (3 + a2));
                origin ← slice attrs first_len (first_len + 4);
                _ ← assert_eq origin [64; 1; 1; 2];
                head ← slice_to body 4;
                others ← slice_from attrs first_len;
                mp ← slice_to attrs first_len;
                expect_action Valid (head ++ others ++ mp) n);
          expect_action Valid body n) both) both;
  eor ← end_of_rib true;
  body ← slice_from eor 19;
  assert_eq body [0; 0; 0; 6; 128; 15; 3; 0; 2; 1].
Example multiprotocol_passes : multiprotocol_nlri_is_first_on_wire_but_legacy_order_is_accepted = Ok tt.
Proof. vm_compute. reflexivity. Qed.

(** ** OPEN *)
Definition remote_of (c : Config) (p : Peer) (id : Z) : Config := set_router_id (set_asn c (p_remote_asn p)) id.
Definition open_negotiation_checks_asn_hold_and_family : res unit :=
  '(c, p, _) ← fixture;
  let remote := remote_of c p (ipv4_new 192 0 2 2) in
  msg ← open remote p;
  body ← slice_from msg 19;
  n ← unwrap_ok (parse_open body c p);
  _ ← assert_ (n_ipv4 n && n_asn4 n);
  _ ← assert_ (negb (n_ipv6 n));
  msg ← copy_at msg 22 (be_bytes 2 1);
  body ← slice_from msg 19;
  assert_is_err (parse_open body c p).
Example open_negotiation_passes : open_negotiation_checks_asn_hold_and_family = Ok tt.
Proof. vm_compute. reflexivity. Qed.

Definition open_accepts_integer_ids_and_equal_external_ids_only : res unit :=
  '(c, p, _) ← fixture;
  for_each (fun internal : bool =>
    let p := if internal then set_remote_asn (c_asn c) p else p in
    for_each (fun id =>
      let remote := remote_of c p id in
      packet ← open remote p;
      body ← slice_from packet 19;
      let result := parse_open body c p in
      let rejected := (id =? 0) || (internal && (c_router_id remote =? c_router_id c)) in
      if rejected then
        error ← unwrap_err result;
        match error with
        | EProtocol e => assert_eq (pe_code e, pe_subcode e) (2, 3)
        | EMessage _ _ => Panic
        end
      else _ ← unwrap_ok result; Ok tt)
      [0; ipv4_new 224 0 0 1; ipv4_new 255 255 255 255; ipv4_new 192 0 2 1]) both.
Example open_ids_pass : open_accepts_integer_ids_and_equal_external_ids_only = Ok tt.
Proof. vm_compute. reflexivity. Qed.

Definition extended_open (c : Config) (p : Peer) (params : list Z) : res (list Z) :=
  _ ← assert_ (negb (bool_decide (octets4 (c_router_id c) = [192; 0; 2; 2])));
  Ok ([4] ++ be_bytes 2 (as_u16 (p_remote_asn p)) ++ be_bytes 2 90 ++ [192; 0; 2; 2] ++ [255; 255] ++
      be_bytes 2 (as_u16 (len params)) ++ params).

Definition extended_open_accepts_short_long_and_multiple_parameters : res unit :=
  '(c, p, _) ← fixture;
  let params := [2; 0; 6; 65; 4] ++ be_bytes 4 (p_remote_asn p) ++ [2; 0; 6; 1; 4; 0; 1; 0; 1] in
  _ ← for_each (fun legacy_length =>
        b ← extended_open c p params;
        b ← set_idx b 9 legacy_length;
        n ← unwrap_ok (parse_open b c p);
        assert_ (n_asn4 n && n_ipv4 n)) [1; 254; 255];
  let caps := [65; 4] ++ be_bytes 4 (p_remote_asn p) ++ [1; 4; 0; 1; 0; 1; 200; 250] ++ replicate 250 0 in
  let params := [2] ++ be_bytes 2 (as_u16 (len caps)) ++ caps in
  b ← extended_open c p params;
  _ ← assert_ (255 <? len b);
  n ← unwrap_ok (parse_open b c p);
  _ ← assert_ (n_asn4 n && n_ipv4 n);
  b ← extended_open c p [];
  empty ← unwrap_ok (parse_open b c p);
  assert_ (n_ipv4 empty && negb (n_asn4 empty)).
Example extended_open_passes : extended_open_accepts_short_long_and_multiple_parameters = Ok tt.
Proof. vm_compute. reflexivity. Qed.

Definition extended_open_rejects_truncation_and_inconsistent_nested_lengths : res unit :=
  '(c, p, _) ← fixture;
  b ← extended_open c p [2; 0; 6; 1; 4; 0; 1; 0; 1];
  _ ← for_each (fun length => s ← slice_to b length; assert_is_err (parse_open s c p)) (range 0 (len b));
  for_each (fun '(position, value) =>
    bad ← set_idx b position value;
    assert_is_err (parse_open bad c p))
    [(9, 0); (12, 8); (12, 10); (15, 5); (15, 7); (17, 5)].
Example extended_truncation_passes : extended_open_rejects_truncation_and_inconsistent_nested_lengths = Ok tt.
Proof. vm_compute. reflexivity. Qed.

(** ** Framing: the fragments of a frame are read as the stream they form *)
Definition framing_handles_fragmentation_and_rejects_oversize : res unit :=
  f ← frame 4 [];
  '(kind, body, _) ← unwrap_ok (read_frame (concat (map (fun byte => [byte]) f)));
  _ ← assert_eq (kind, body) (4, []);
  bad ← copy_at f 16 (be_bytes 2 4097);
  assert_is_err (read_frame bad).
Example framing_passes : framing_handles_fragmentation_and_rejects_oversize = Ok tt.
Proof. vm_compute. reflexivity. Qed.

(** ** UPDATE validation *)
Definition received_update (asn4 : bool) (extra : list Z) : list Z :=
  let attrs := [64; 1; 1; 2] ++
    (if asn4 then [64; 2; 6; 2; 1; 0; 0; 252; 1] else [64; 2; 4; 2; 1; 252; 1]) ++
    [64; 3; 4; 192; 0; 2; 2] ++ extra in
  [0; 0] ++ be_bytes 2 (as_u16 (len attrs)) ++ attrs ++ [24; 10; 1; 0].

Definition update_recovery_and_fatal_boundaries : res unit :=
  '(_, _, n) ← fixture;
  bad_origin ← set_idx (received_update true []) 7 3;
  _ ← expect_action TreatAsWithdraw bad_origin n;
  prefixes ← update_prefixes (api := model_api) bad_origin;
  _ ← assert_eq prefixes [net4' 10 1 0 0 24];
  _ ← expect_action AttributeDiscard (received_update true [64; 1; 1; 3]) n;
  _ ← for_each (fun extra => expect_action TreatAsWithdraw (received_update true extra) n)
        [[192; 8; 0]; [192; 16; 1; 0]; [192; 32; 0]; [128; 4; 1; 0]; [64; 8; 4; 0; 0; 0; 1]; [128]; [128; 8; 255]];
  _ ← for_each (fun extra => expect_action AttributeDiscard (received_update true extra) n)
        [[64; 6; 1; 0]; [192; 7; 1; 0]; [128; 6; 0]];
  _ ← expect_action TreatAsWithdraw [0; 0; 0; 0; 24; 10; 1; 0] n;
  _ ← expect_action Valid [0; 0; 0; 0] n;
  without_nlri ← slice_to bad_origin (len bad_origin - 4);
  _ ← assert_is_err (validate_update without_nlri n);
  bad_nlri ← set_idx bad_origin (len bad_origin - 1) 0;
  bad_nlri ← set_idx bad_nlri (len bad_nlri - 4) 33;
  _ ← assert_is_err (validate_update bad_nlri n);
  _ ← for_each (fun extra => assert_is_err (validate_update (received_update true extra) n))
        [[128; 14; 3; 0; 2; 1]; [128; 15; 4; 0; 2; 1; 129];
         [128; 15; 3; 0; 2; 1; 128; 15; 3; 0; 2; 1]; [64; 99; 1; 0]];
  both ← set_idx (received_update true [128; 14; 3; 0; 2; 1]) 7 3;
  assert_is_err (validate_update both n).
Example update_recovery_passes : update_recovery_and_fatal_boundaries = Ok tt.
Proof. vm_compute. reflexivity. Qed.

Definition as4_attributes_and_external_only_discards_preserve_updates : res unit :=
  '(_, _, n) ← fixture;
  _ ← for_each (fun asn4 => for_each (fun extra =>
        expect_action AttributeDiscard (received_update asn4 extra) (set_asn4 asn4 n))
        [[192; 17; 1; 0]; [192; 18; 1; 0]]) both;
  let n := set_asn4 true n in
  _ ← for_each (fun kind =>
        let extra := [128; kind; 1; 0] in
        _ ← expect_action AttributeDiscard (received_update true extra) n;
        expect_action TreatAsWithdraw (received_update true extra) (set_internal true n)) [5; 9; 10];
  let n := set_internal true n in
  _ ← expect_action TreatAsWithdraw (received_update true []) n;
  expect_action Valid (received_update true [64; 5; 4; 0; 0; 0; 100]) n.
Example as4_attributes_pass : as4_attributes_and_external_only_discards_preserve_updates = Ok tt.
Proof. vm_compute. reflexivity. Qed.

(** ** NOTIFICATIONs *)
Definition notification_data (error : error) (expected : list Z) : res unit :=
  match error with
  | EProtocol e =>
      packet ← notification (pe_code e) (pe_subcode e) (pe_data e);
      marker ← slice_to packet 16;
      _ ← assert_eq marker (replicate 16 255);
      l ← (s ← slice_from packet 16; u16b s);
      _ ← assert_eq l (19 + len expected);
      kind ← idx packet 18;
      _ ← assert_eq kind 3;
      data ← slice_from packet 19;
      assert_eq data expected
  | EMessage _ _ => Panic
  end.

Definition notifications_include_capabilities_and_offending_attributes : res unit :=
  '(c, p, n) ← fixture;
  let remote := remote_of c p (ipv4_new 192 0 2 2) in
  packet ← open remote p;
  body ← slice_from packet 19;
  let p := set_families false true p in
  error ← unwrap_err (parse_open body c p);
  _ ← notification_data error [2; 7; 1; 4; 0; 2; 0; 1];
  let remote_peer := set_families false false p in
  unsupported ← (o ← open remote remote_peer; slice_from o 19);
  unsupported ← (x ← idx unsupported 9; set_idx unsupported 9 (x + 6));
  unsupported ← (x ← idx unsupported 11; set_idx unsupported 11 (x + 6));
  let unsupported := unsupported ++ [1; 4; 0; 25; 0; 70] in
  let p := set_families true true p in
  error ← unwrap_err (parse_open unsupported c p);
  _ ← notification_data error [2; 7; 1; 4; 0; 1; 0; 1; 1; 4; 0; 2; 0; 1];
  _ ← for_each (fun attr =>
        error ← unwrap_err (validate_update (received_update true attr) n);
        notification_data error ([3; 2] ++ attr))
      [[64; 99; 1; 42]; [80; 99; 0; 1; 42]];
  optional ← slice packet 19 29;
  optional ← set_idx optional 9 3;
  error ← unwrap_err (parse_open (optional ++ [99; 1; 42]) c p);
  notification_data error [2; 4; 99; 1; 42].
Example notifications_pass : notifications_include_capabilities_and_offending_attributes = Ok tt.
Proof. vm_compute. reflexivity. Qed.

Definition fsm_notifications_identify_state_and_unexpected_message : res unit :=
  for_each (fun '(state, subcode, kind) =>
    error ← unexpected state kind [];
    _ ← notification_data error [5; subcode; kind];
    error ← unexpected state 3 [6; 0];
    assert_ (match error with EProtocol _ => false | EMessage _ _ => true end))
    [(OpenSent, 1, 4); (OpenConfirm, 2, 2); (Established, 3, 1)].
Example fsm_notifications_pass : fsm_notifications_identify_state_and_unexpected_message = Ok tt.
Proof. vm_compute. reflexivity. Qed.

(** ** Arbitrary and truncated input *)
(** [let _ = r]: the result is dropped; a panic is not. *)
Definition ignore {A} (r : res A) : res unit :=
  match r with Panic => Panic | Fuel => Fuel | _ => Ok tt end.
Definition parsers_never_panic_on_truncated_input : res unit :=
  '(c, p, n) ← fixture;
  o ← open c p;
  _ ← for_each (fun l => s ← slice o 19 (19 + l); assert_is_err (parse_open s c p)) (range 0 (len o - 19));
  u ← update c p n [net4' 10 0 0 0 8] false;
  _ ← for_each (fun l => s ← slice u 19 (19 + l); ignore (validate_update s n)) (range 0 (len u - 20));
  for_each (fun l => ignore (validate_update (replicate (Z.to_nat l) 255) n)) (range 0 512).
Example truncated_passes : parsers_never_panic_on_truncated_input = Ok tt.
Proof. vm_compute. reflexivity. Qed.

(** The generator of the bytes: a [u64]. *)
Definition xorshift (state : Z) : Z :=
  let state := Z.lxor state (Z.shiftl state 13 mod 2 ^ 64) in
  let state := Z.lxor state (Z.shiftr state 7) in
  Z.lxor state (Z.shiftl state 17 mod 2 ^ 64).
Fixpoint random_bytes (n : nat) (state : Z) : list Z * Z :=
  match n with
  | O => ([], state)
  | S n => let state := xorshift state in let '(bytes, last) := random_bytes n state in (as_u8 state :: bytes, last)
  end.
Fixpoint arbitrary_rounds (count : nat) (l : nat) (state : Z) (c : Config) (p : Peer) (n : Negotiated) : res unit :=
  match count with
  | O => Ok tt
  | S count =>
      let '(bytes, state) := random_bytes l state in
      _ ← ignore (parse_open bytes c p);
      _ ← ignore (validate_update bytes n);
      _ ← ignore (update_prefixes bytes);
      arbitrary_rounds count (S l) state c p n
  end.
(** The test runs [count = 4096] rounds; it passes for every number of them. *)
Definition arbitrary_protocol_input_does_not_panic (count : nat) : res unit :=
  '(c, p, n) ← fixture;
  arbitrary_rounds count 0 81985529216486895 c p n.

Lemma random_bytes_ok n state : bytes_ok (random_bytes n state).1.
Proof.
  revert state. induction n as [|n IH]; intros state; [by apply Forall_nil|]. cbn [random_bytes].
  specialize (IH (xorshift state)). destruct (random_bytes n (xorshift state)) as [bytes last].
  apply Forall_cons. split; [|done]. unfold byte_ok, as_u8. by apply Z.mod_pos_bound.
Qed.

Lemma ignore_wp {A} (r : res A) Q X : wp r Q X -> ignore r = Ok tt.
Proof. by destruct r. Qed.

Theorem arbitrary_protocol_input_passes count : arbitrary_protocol_input_does_not_panic count = Ok tt.
Proof.
  unfold arbitrary_protocol_input_does_not_panic.
  change fixture with (Ok (example_config, example_peer, mkNegotiated (ipv4_new 192 0 2 2) 90 true false true true)).
  cbn [mbind res_bind].
  generalize 0%nat as l, 81985529216486895 as state. induction count as [|count IH]; intros l state; [done|].
  cbn [arbitrary_rounds]. pose proof (random_bytes_ok l state) as Hb.
  destruct (random_bytes l state) as [bytes state']. cbn [fst] in Hb.
  rewrite (ignore_wp _ _ _ (parse_open_safe bytes example_config example_peer Hb ltac:(done))). cbn [mbind res_bind].
  rewrite (ignore_wp _ _ _ (validate_update_safe bytes _ Hb)). cbn [mbind res_bind].
  destruct (update_prefixes_safe (laws := model_laws) bytes Hb) as [ps ->]. apply IH.
Qed.
