(* ===== verification/TestsBgp.v ===== *)
(** * The unit tests of src/src/bgp.rs and src/src/netlink.rs, on the model

    Tests that run the writer task drive [Writer.work] and [Writer.wake] with a paused
    clock: time passes only while the task waits, up to its next timer. *)
From S2P Require Import Prelude Net Config Frame Open Update Validate Planning Export Writer Session Worker Socket Connection.
From S2P Require Import Netsock Netlink Dump Kernel Tests TestsWire.

#[local] Existing Instance model_api.

Definition test_negotiated : Negotiated := mkNegotiated (ipv4_new 192 0 2 2) 3 true false true false.
Definition set_hold (hold : Z) (n : Negotiated) : Negotiated :=
  mkNegotiated (n_router_id n) hold (n_asn4 n) (n_internal n) (n_ipv4 n) (n_ipv6 n).
Definition set_ipv6 (ipv6 : bool) (n : Negotiated) : Negotiated :=
  mkNegotiated (n_router_id n) (n_hold n) (n_asn4 n) (n_internal n) (n_ipv4 n) ipv6.
Definition set_interface (interface : string) (p : Peer) : Peer :=
  mkPeer (p_address p) (p_local_address p) interface (p_remote_asn p) (p_export_acl p) (p_md5_password p) (p_port p)
    (p_hold_time_secs p) (p_connect_timeout_secs p) (p_write_timeout_secs p) (p_ipv6 p) (p_ipv4 p)
    (p_next_hop_v4 p) (p_next_hop_v6 p) (p_next_hop_v6_link_local p).
Definition set_of (l : list model_net) : Prefixes := list_to_set l.
Definition is_message (template : string) (e : error) : bool :=
  match e with EMessage t _ => String.eqb t template | EProtocol _ => false end.

(** ** Connections *)
(** The interface does not exist: [if_nametoindex] returns 0. *)
Definition selection_preserves_outgoing_failure_when_no_peer_connects
    (sockaddr : SocketAddr -> list Z) (os : SockOp -> res unit) : res unit :=
  peer ← example_peer0;
  let peer := set_timeouts 0 (p_write_timeout_secs peer) (set_interface "ubgp-missing" peer) in
  outgoing ← unwrap_err (connect (fun _ => 0) sockaddr os peer).2;
  _ ← assert_ (is_message "interface {} does not exist" outgoing);
  error ← unwrap_err (choose (2 ^ 63) example_config peer 0 [EvJoin 0 (Err outgoing) 0; EvDeadline 2000]).2;
  assert_ (is_message "no usable BGP connection: {}; {incoming_status}" error).
Example selection_passes sockaddr os :
  selection_preserves_outgoing_failure_when_no_peer_connects sockaddr os = Ok tt.
Proof. vm_compute. reflexivity. Qed.

Definition collision_uses_full_asn_only_when_identifiers_match : res unit :=
  let c := example_config in
  p ← example_peer0;
  let with_id id n := mkNegotiated id (n_hold n) (n_asn4 n) (n_internal n) (n_ipv4 n) (n_ipv6 n) in
  let negotiated := with_id (c_router_id c) test_negotiated in
  let c := set_asn c 4200000001 in
  let p := set_remote_asn 4200000002 p in
  _ ← assert_ (prefer_incoming c p negotiated);
  let '(c, p) := (set_asn c (p_remote_asn p), set_remote_asn (c_asn c) p) in
  _ ← assert_ (negb (prefer_incoming c p negotiated));
  _ ← assert_ (prefer_incoming c p (with_id (ipv4_new 255 255 255 255) negotiated));
  assert_ (negb (prefer_incoming c p (with_id (ipv4_new 0 0 0 1) negotiated))).
Example collision_passes : collision_uses_full_asn_only_when_identifiers_match = Ok tt.
Proof. vm_compute. reflexivity. Qed.

(** The clock counts milliseconds from its epoch in 64 bits. *)
Definition unchecked_timeout_returns_error_instead_of_panicking : res unit :=
  for_each (fun seconds =>
    p ← example_peer0;
    error ← unwrap_err (choose (2 ^ 64 - 1) example_config (set_timeouts seconds (p_write_timeout_secs p) p) 0 []).2;
    assert_ (match error with EMessage t _ => is_some (String.index 0 "deadline" t) | EProtocol _ => false end))
    [I64_MAX; U64_MAX].
Example unchecked_timeout_passes : unchecked_timeout_returns_error_instead_of_panicking = Ok tt.
Proof. vm_compute. reflexivity. Qed.

(** ** The reader *)
Definition hold_timer_expires_with_partial_frame : res unit :=
  e ← unwrap_err (receive test_negotiated [3001] [] (receive_init test_negotiated 0 0));
  match e with EProtocol e => assert_eq (pe_code e) 4 | EMessage _ _ => Panic end.
Example hold_timer_passes : hold_timer_expires_with_partial_frame = Ok tt.
Proof. vm_compute. reflexivity. Qed.

Definition recoverable_update_does_not_stop_receive_loop : res unit :=
  f1 ← frame UPDATE [0; 0; 0; 0; 24; 10; 1; 0];
  f2 ← frame KEEPALIVE [];
  f3 ← notification 6 0 [];
  error ← unwrap_err (receive test_negotiated [0; 0; 0] (f1 ++ f2 ++ f3) (receive_init test_negotiated 0 0));
  match error with
  | EMessage t args =>
      _ ← assert_eq t "peer sent NOTIFICATION code={} subcode={}";
      code ← idx args 0;
      assert_eq code 6
  | EProtocol _ => Panic
  end.
Example recoverable_update_passes : recoverable_update_does_not_stop_receive_loop = Ok tt.
Proof. vm_compute. reflexivity. Qed.

Definition established_state_reports_unexpected_open_on_wire : res unit :=
  p ← example_peer0;
  input ← open example_config p;
  error ← unwrap_err (receive test_negotiated [0] input (receive_init test_negotiated 0 0));
  match (report error).1 with
  | [ASend packet] =>
      '(kind, body, _) ← unwrap_ok (read_frame packet);
      assert_eq (kind, body) (3, [5; 3; 1])
  | _ => Panic
  end.
Example established_open_passes : established_state_reports_unexpected_open_on_wire = Ok tt.
Proof. vm_compute. reflexivity. Qed.

(** ** Plans *)
Definition changing_snapshot_preserves_withdrawals_and_family_gate : res unit :=
  let advertised := set_of [net4' 10 0 0 0 24; net4' 10 1 0 0 24] in
  let desired := set_of [net4' 10 1 0 0 24; net4' 10 2 0 0 24; net6' db8 32] in
  let plan := plan_new elements advertised desired test_negotiated ∅ in
  let is_batch withdraw q r := match r with
                               | Some (w, [q']) => Bool.eqb w withdraw && bool_decide (q' = q)
                               | _ => false
                               end in
  let '(r, plan) := plan_next plan in
  _ ← assert_ (is_batch true (net4' 10 0 0 0 24) r);
  let '(r, plan) := plan_next plan in
  _ ← assert_ (is_batch false (net4' 10 2 0 0 24) r);
  let '(r, plan) := plan_next plan in
  _ ← assert_ (negb (is_some r));
  let refresh := plan_new elements advertised desired test_negotiated desired in
  _ ← assert_eq (length (withdrawals refresh)) 1%nat;
  assert_eq (length (additions refresh)) 2%nat.
Example changing_snapshot_passes : changing_snapshot_preserves_withdrawals_and_family_gate = Ok tt.
Proof. vm_compute. reflexivity. Qed.

(** ** The writer *)
(** The paused clock, the task, the permit of [Refresh::ready], and how many of the
    messages written the test has read. *)
Record Sim := mkSim { sm_clock : Z; sm_world : World; sm_ready : bool; sm_read : nat }.
Definition sim_start (p : Peer) (n : Negotiated) (exports : Exports) : Sim :=
  mkSim 0 (mkWorld PReplan (tx_init elements p n 0 exports) (mkShared exports false 0) []) false 0.
(** The timers of [select!]. *)
Definition next_timer (n : Negotiated) (w : World) : option Z :=
  let t := tx w in
  match (if (eor t =? 0) && negb (pending (shared w) =? 0) then Some (next_refresh t) else None),
        (if negb (n_hold n =? 0) then Some (next_keepalive t) else None) with
  | Some x, Some y => Some (Z.min x y)
  | Some x, None => Some x
  | None, y => y
  end.
(** The next part, or the branch of the wait that is ready first; [None]: it waits for ever. *)
Definition sim_step (p : Peer) (n : Negotiated) (s : Sim) : option Sim :=
  let w := sm_world s in let now := sm_clock s in
  match work p n elements now now w with
  | Some w' => Some (mkSim now w' (sm_ready s) (sm_read s))
  | None =>
      if changed (shared w) then w' ← wake p n elements now BChanged w; Some (mkSim now w' (sm_ready s) (sm_read s))
      else if sm_ready s then w' ← wake p n elements now BRefresh w; Some (mkSim now w' false (sm_read s))
      else t ← next_timer n w;
           w' ← wake p n elements (Z.max now t) (if negb (n_hold n =? 0) && (next_keepalive (tx w) <=? t) then BKeepalive else BCooldown) w;
           Some (mkSim (Z.max now t) w' (sm_ready s) (sm_read s))
  end.
(** Run until [stop]; [None] when it waits for ever or [fuel] parts are not enough. *)
Fixpoint sim_until (fuel : nat) (p : Peer) (n : Negotiated) (stop : Sim -> bool) (s : Sim) : option Sim :=
  if stop s then Some s else
  match fuel with
  | O => None
  | S fuel => s ← sim_step p n s; sim_until fuel p n stop s
  end.
Definition unread (s : Sim) : list Msg := drop (sm_read s) (sent (sm_world s)).
Definition SIM_FUEL : nat := 200.
(** [read_frame] by the test: the next message, decoded. *)
Definition sim_read (c : Config) (p : Peer) (n : Negotiated) (s : Sim) : res (Z * list Z * Sim) :=
  s ← unwrap (sim_until SIM_FUEL p n (fun s => negb (is_empty (unread s))) s);
  m ← idx (unread s) 0;
  f ← encode_msg c p n m;
  '(kind, body, _) ← unwrap_ok (read_frame f);
  Ok (kind, body, mkSim (sm_clock s) (sm_world s) (sm_ready s) (S (sm_read s))).
(** Nothing is written in the next [ms] milliseconds. *)
Definition sim_silent (p : Peer) (n : Negotiated) (ms : Z) (s : Sim) : bool :=
  match sim_until SIM_FUEL p n (fun s' => negb (is_empty (unread s')) || (sm_clock s + ms <? sm_clock s')) s with
  | Some s' => is_empty (unread s')
  | None => true
  end.
Definition sim_request (v6 : bool) (s : Sim) : Sim :=
  let w := sm_world s in let sh := shared w in
  mkSim (sm_clock s) (mkWorld (phase w) (tx w) (mkShared (watch sh) (changed sh) (Export.request (pending sh) v6)) (sent w)) true (sm_read s).
Definition sim_publish (exports : Exports) (s : Sim) : Sim :=
  let w := sm_world s in
  mkSim (sm_clock s) (mkWorld (phase w) (tx w) (mkShared exports true (pending (shared w))) (sent w)) (sm_ready s) (sm_read s).

Fixpoint exported_from (fuel : nat) (c : Config) (p : Peer) (n : Negotiated) (v6 : bool) (prefixes : Prefixes) (s : Sim)
  : res (Prefixes * Sim) :=
  match fuel with
  | O => Fuel
  | S fuel =>
      '(kind, body, s) ← sim_read c p n s;
      _ ← assert_eq kind UPDATE;
      eor ← (f ← end_of_rib v6; slice_from f 19);
      if bool_decide (body = eor) then Ok (prefixes, s) else
      carried ← update_prefixes (api := model_api) body;
      exported_from fuel c p n v6 (prefixes ∪ set_of carried) s
  end.
Definition exported (c : Config) (p : Peer) (n : Negotiated) (v6 : bool) (s : Sim) : res (Prefixes * Sim) :=
  exported_from 20 c p n v6 ∅ s.
Definition assert_same (x y : Prefixes) : res unit := assert_ (bool_decide (x = y)).

Definition writer_sends_initial_routes_and_later_withdrawal : res unit :=
  let c := example_config in
  p ← example_peer0;
  let n := test_negotiated in
  let s := sim_start p n {[p_export_acl p := set_of [net4' 198 51 100 0 24]]} in
  '(kind, body, s) ← sim_read c p n s;
  _ ← assert_eq kind 2;
  start ← slice_to body 2;
  _ ← assert_eq start [0; 0];
  '(_, eor, s) ← sim_read c p n s;
  _ ← assert_eq eor [0; 0; 0; 0];
  let s := sim_publish ∅ s in
  '(_, body, s) ← sim_read c p n s;
  start ← slice_to body 2;
  assert_eq start [0; 4].
Example writer_passes : writer_sends_initial_routes_and_later_withdrawal = Ok tt.
Proof. vm_compute. reflexivity. Qed.

Definition refresh_during_cooldown_is_delayed_and_replayed : res unit :=
  let c := example_config in
  p ← example_peer0;
  let n := set_hold 0 test_negotiated in
  let prefixes := set_of [net4' 10 1 0 0 24] in
  let s := sim_start p n {[p_export_acl p := prefixes]} in
  '(got, s) ← exported c p n false s;
  _ ← assert_same got prefixes;
  '(got, s) ← exported c p n false (sim_request false s);
  _ ← assert_same got prefixes;
  let first := sm_clock s in
  '(got, s) ← exported c p n false (sim_request false (sim_request false s));
  _ ← assert_same got prefixes;
  _ ← assert_ (1000 <=? sm_clock s - first);
  assert_ (sim_silent p n 2000 s).
Example refresh_during_cooldown_passes : refresh_during_cooldown_is_delayed_and_replayed = Ok tt.
Proof. vm_compute. reflexivity. Qed.

Definition refresh_replays_only_requested_family : res unit :=
  let c := example_config in
  p ← example_peer0;
  let p := set_next_hops (Some (db8 + 1)) None p in
  let n := set_ipv6 true (set_hold 0 test_negotiated) in
  let s := sim_start p n {[p_export_acl p := set_of [net4' 10 1 0 0 24; net6' db8 32]]} in
  '(_, s) ← exported c p n true s;
  let negotiated := set_ipv6 true test_negotiated in
  f1 ← frame ROUTE_REFRESH [0; 2; 0; 1];
  f2 ← notification 6 0 [];
  '(rx, rest) ← unwrap_ok (receive negotiated [0] (f1 ++ f2) (receive_init negotiated 0 (pending (shared (sm_world s)))));
  e ← unwrap_err (receive negotiated [0] rest rx);
  _ ← assert_ (is_message "peer sent NOTIFICATION code={} subcode={}" e);
  _ ← assert_eq (rx_pending rx) (Export.request 0 true);
  '(got, s) ← exported c p n true (sim_request true s);
  _ ← assert_same got (set_of [net6' db8 32]);
  assert_ (sim_silent p n 2000 s).
Example refresh_family_passes : refresh_replays_only_requested_family = Ok tt.
Proof. vm_compute. reflexivity. Qed.

(** ** src/src/netlink.rs, on either byte order *)
Definition EINVAL : Z := 22.
(** The native bytes of an [i32]. *)
Definition i32_ne (big : bool) (x : Z) : list Z := ne_bytes big 4 (x mod 2 ^ 32).
Definition empty_table_status_is_distinct_from_failed_partial_dump (big : bool) : res unit :=
  _ ← unwrap_ok (dump_status big [] false);
  _ ← unwrap_ok (dump_status big (i32_ne big 0) true);
  _ ← unwrap_ok (dump_status big (i32_ne big (- ENOENT)) false);
  _ ← assert_is_err (dump_status big (i32_ne big (- ENOENT)) true);
  _ ← assert_is_err (dump_status big (i32_ne big (- EINVAL)) false);
  assert_is_err (dump_status big [0] false).
Example empty_table_passes big : empty_table_status_is_distinct_from_failed_partial_dump big = Ok tt.
Proof. destruct big; vm_compute; reflexivity. Qed.

(** Times in milliseconds from [now]. *)
Definition failed_refreshes_do_not_extend_stale_deadline (now : Z) : res unit :=
  let exports : Exports := {["export" := set_of [net4' 10 0 0 0 24]]} in
  let tx := mkWatch exports 0 in
  let health := invalidate now (mkFreshness None false) in
  let '(health, tx) := expire (now + 2000) 3000 health tx in
  _ ← assert_ (bool_decide (w_value tx = exports));
  let health := invalidate (now + 2000) health in
  let '(health, tx) := expire (now + 3000) 3000 health tx in
  _ ← assert_ (bool_decide (w_value tx = ∅));
  let '(health, tx) := publish (now + 4000) false tx exports health in
  let '(_, tx) := expire (now + 100000) 3000 health tx in
  assert_ (bool_decide (w_value tx = exports)).
Example failed_refreshes_pass : failed_refreshes_do_not_extend_stale_deadline 0 = Ok tt.
Proof. vm_compute. reflexivity. Qed.

Definition rt (big : bool) (table : Z) (net : model_net) : list Z :=
  let ip := match ipnet_addr (IpNetApi := model_api) net with IpV4 a => octets4 a | IpV6 a => octets6 a end in
  [if len ip =? 4 then 2 else 10; ipnet_prefix_len (IpNetApi := model_api) net; 0; 0; 0; 0; 0; 1; 0; 0; 0; 0] ++
  ne_bytes big 2 8 ++ ne_bytes big 2 15 ++ ne_bytes big 4 table ++
  ne_bytes big 2 (as_u16 (len ip + 4)) ++ ne_bytes big 2 1 ++ ip.
Definition assert_route (big : bool) (b : list Z) (tables : list Z) (expected : option model_net) : res unit :=
  r ← unwrap_ok (route (api := model_api) big b tables);
  assert_ (bool_decide (r = expected)).
Definition selected_tables_families_defaults_and_route_types (big : bool) : res unit :=
  for_each (fun p =>
    let b := rt big 1000 p in
    _ ← assert_route big b [1000] (Some p);
    _ ← assert_route big b [254] None;
    b ← set_idx b 7 6;
    assert_route big b [1000] None)
    [net4' 0 0 0 0 0; net4' 10 1 0 0 16; net6' 0 0; net6' db8 32].
Example selected_tables_pass big : selected_tables_families_defaults_and_route_types big = Ok tt.
Proof. destruct big; vm_compute; reflexivity. Qed.

Definition decode_rows (big : bool) (rows : list (list Z)) : res (list model_net) :=
  for_fold (fun found b =>
    r ← unwrap_ok (route (api := model_api) big b [100; 200]);
    Ok (found ++ match r with Some q => [q] | None => [] end)) [] rows.
Definition duplicates_across_tables_do_not_withdraw_remaining_route (big : bool) : res unit :=
  let rows := [rt big 100 (net4' 10 0 0 0 24); rt big 200 (net4' 10 0 0 0 24)] in
  before ← decode_rows big rows;
  after ← decode_rows big (drop 1 rows);
  assert_same (set_of before) (set_of after).
Example duplicates_pass big : duplicates_across_tables_do_not_withdraw_remaining_route big = Ok tt.
Proof. destruct big; vm_compute; reflexivity. Qed.

Definition malformed_datagrams_and_attributes_are_errors (big : bool) : res unit :=
  _ ← for_each (fun n => assert_is_err (messages big (fun s _ => (s, Ok tt)) (replicate (Z.to_nat n) 0) tt).2) (range 1 16);
  b ← set_idx (rt big 254 (net4' 10 0 0 0 8)) 12 255;
  assert_is_err (route (api := model_api) big b [254]).
Example malformed_pass big : malformed_datagrams_and_attributes_are_errors big = Ok tt.
Proof. destruct big; vm_compute; reflexivity. Qed.

(** [count] is 1,000,000 in the benchmark. *)
Definition million_route_snapshot (big : bool) (count : nat) : res unit :=
  prefixes ← for_fold (fun prefixes n =>
      let p := default net_default (model_make (IpV4 (10 * 2 ^ 24 + Z.of_nat n)) 32) in
      r ← unwrap_ok (route (api := model_api) big (rt big 254 p) [254]);
      q ← unwrap r;
      Ok ({[q]} ∪ prefixes)) (∅ : gset model_net) (List.seq 0 count);
  assert_eq (size prefixes) count.
Example million_route_passes big : million_route_snapshot big 16 = Ok tt.
Proof. destruct big; vm_compute; reflexivity. Qed.
