(* ===== verification/Witness.v ===== *)
(** * Concrete instances of the properties

    A two-router deployment (AS 65001 and AS 65002 on one link, each exporting part
    of 10.0.0.0/8 to the other) over the concrete [IpNet] of [Net]. Each lemma below
    applies one property of the development to it, so every hypothesis of the
    properties is satisfiable. *)
From S2P Require Import Prelude Net Config Text Management Console Frame Open Update Validate Grammar RoundTrip Planning Export Writer Deadline Session Interop Live Worker.
From S2P Require Import Netsock Netlink Dump Kernel System Cli Socket Connection Dispatch Daemon Process.

#[local] Existing Instance model_api.
#[local] Existing Instance model_laws.

(** ** The deployment *)
Definition q1 : IpNet := net4' 10 1 0 0 16.
Definition q2 : IpNet := net4' 10 2 0 0 16.
Definition ip1 : Z := ipv4_new 10 0 0 1.
Definition ip2 : Z := ipv4_new 10 0 0 2.
Definition peer_ex : Peer :=
  mkPeer (IpV4 ip2) (IpV4 ip1) "eth0" 65002 "export" (Some (mkMd5Key [115; 101; 99])) 179 90 10 10 false true None None None.
Definition peer_ex' : Peer :=
  mkPeer (IpV4 ip1) (IpV4 ip2) "eth0" 65001 "export" (Some (mkMd5Key [115; 101; 99])) 179 30 10 10 false true None None None.
Definition acl_ex : Acl := mkAcl [mkRule Permit (net4' 10 0 0 0 8) (Some 8) (Some 24)].
Definition cfg_ex : Config :=
  mkConfig 65001 ip1 false 179 default_kernel default_management {["export" := acl_ex]} [peer_ex].
Definition cfg_ex' : Config :=
  mkConfig 65002 ip2 false 179 default_kernel default_management {["export" := acl_ex]} [peer_ex'].
Definition neg_ex : Negotiated := mkNegotiated ip2 30 true false true false.
Definition neg_ex' : Negotiated := mkNegotiated ip1 30 true false true false.
Definition exports_ex : Exports := {["export" := {[q1]}]}.

Lemma cfg_ex_ok : config_ok cfg_ex.
Proof. apply validate_config_ok. by vm_compute. Qed.
Lemma cfg_ex_ok' : config_ok cfg_ex'.
Proof. apply validate_config_ok. by vm_compute. Qed.
Lemma peer_ex_ok : peer_ok cfg_ex peer_ex.
Proof. exact (proj1 (Forall_singleton _ _) (ok_peers _ cfg_ex_ok)). Qed.
Lemma peer_ex_ok' : peer_ok cfg_ex' peer_ex'.
Proof. exact (proj1 (Forall_singleton _ _) (ok_peers _ cfg_ex_ok')). Qed.
Lemma peer_ex_typed : peer_typed peer_ex.
Proof. split; try done; by split; vm_compute. Qed.
Lemma peer_ex_typed' : peer_typed peer_ex'.
Proof. split; try done; by split; vm_compute. Qed.
Lemma cfg_ex_typed' : config_typed cfg_ex'.
Proof. split; try (by split; vm_compute). apply Forall_singleton, peer_ex_typed'. Qed.
Lemma neg_ex_ok : negotiated_ok cfg_ex peer_ex neg_ex.
Proof. split; cbn; try done; try lia; by left. Qed.
Lemma bytes_decide l : forallb (fun b => (0 <=? b) && (b <? 256)) l = true -> bytes_ok l.
Proof. rewrite forallb_forall. intros H. apply Forall_forall. intros b Hb%list_elem_of_In. specialize (H b Hb). unfold byte_ok. lia. Qed.
Lemma elements_order : order_ok elements.
Proof. by intros s. Qed.

(** ** Configuration and console *)
(** Two texts with the secrets "sec" and "xyz", which the parser quotes. *)
Definition toml_bad (text : list Z) : Config + TomlError :=
  inr (if bool_decide (head text = Some 115) then mkTomlError (Some (4, 5)) "expected = after sec" "sec"
       else mkTomlError (Some (4, 4)) "expected = after xyz" "xyz").
Lemma parse_error_redacts_witness :
  exists e, Config.parse toml_bad [115; 101; 99; 10; 65] = Err e /\ load toml_bad (Ok [120; 121; 122; 10; 66]) = Err e.
Proof.
  destruct (parse_error_redacts toml_bad [115; 101; 99; 10; 65] [120; 121; 122; 10; 66] _ _ eq_refl eq_refl
              ltac:(by vm_compute) eq_refl eq_refl) as (line & column & H1 & _ & _ & H2).
  eexists. exact (conj H1 H2).
Defined.

Lemma line_bounded_witness :
  exists replies, (line (Ok tt) [115; 104; 10] false).1 = concat replies /\ Forall refusal replies.
Proof. apply (line_bounded (Ok tt) [115; 104; 10] false). by left. Defined.

(** A client that asks for the routes of the ACL and leaves. *)
Definition env_ex (text : list Z) : CommandEnv :=
  mkCommand (text ++ [13; 10]) false (Ok tt) 0 [mkPeerStatus Idle 0 None] exports_ex (fun _ => Ok tt).
Definition net_text (q : IpNet) : list Z := display_ip (ipnet_addr q).
Definition message_text (template : string) (args : list Z) : list Z := ascii_bytes template.
Lemma typed_ex text : Forall printable text -> len text <= 512 -> typed text (env_ex text).
Proof. intros H1 H2. by split. Qed.
Lemma printable_decide l : forallb (fun b => (32 <=? b) && (b <=? 126)) l = true -> Forall printable l.
Proof. rewrite forallb_forall. intros H. apply Forall_forall. intros b Hb%list_elem_of_In. specialize (H b Hb). unfold printable. lia. Qed.

Definition cmds_ex : list CommandEnv := [env_ex (ascii_bytes "show peers")].
Lemma cmds_ex_ok : Forall env_ok cmds_ex.
Proof. apply Forall_singleton. split; [exact I|intros i; exact I]. Qed.
Lemma console_clean_witness :
  Forall sent_ok (console elements (fun _ => []) (fun _ => None) net_text message_text cfg_ex (Ok tt) cmds_ex).1.
Proof.
  exact (proj1 (console_clean elements (fun _ => []) (fun _ => None) net_text message_text (fun q => clean_ip (ipnet_addr q))
           cfg_ex (Ok tt) cmds_ex I cmds_ex_ok)).
Defined.

Definition text1_ex : list Z := ascii_bytes "show routes export".
Definition quit_ex : list Z := ascii_bytes "quit".
Lemma typed1_ex : typed text1_ex (env_ex text1_ex).
Proof. apply typed_ex; [by apply printable_decide|by vm_compute]. Qed.
Lemma typed_quit : typed quit_ex (env_ex quit_ex).
Proof. apply typed_ex; [by apply printable_decide|by vm_compute]. Qed.
Definition names_ex (m : gmap string Acl) : list string := (map_to_list m).*1.
Lemma names_ex_all m : names_ex m ≡ₚ (map_to_list m).*1.
Proof. done. Qed.
Lemma words1_ex words : words_of text1_ex words -> ~ quits words.
Proof. intros ->%words_split H. assert (E : length (split_whitespace text1_ex) = 3%nat) by by vm_compute. by destruct H as [H|H]; rewrite H in E. Qed.
Lemma words_quit : words_of quit_ex [word "quit"].
Proof. pose proof (split_words quit_ex) as H. assert (E : split_whitespace quit_ex = [word "quit"]) by by vm_compute. by rewrite E in H. Qed.
Lemma console_answers_witness :
  exists answers, length answers = 1%nat /\
    console elements names_ex (fun _ => None) net_text message_text cfg_ex (Ok tt) ([env_ex text1_ex] ++ [env_ex quit_ex])
      = (greeting :: concat answers ++ [said [word "Bye"]], Ok (Some tt)).
Proof.
  destruct (console_answers elements names_ex (fun _ => None) net_text message_text elements_order names_ex_all cfg_ex
              [text1_ex] [env_ex text1_ex] (List.Forall2_cons _ _ typed1_ex (List.Forall2_nil _))) as (answers & H1 & _ & H2).
  - apply Forall_singleton. exact words1_ex.
  - exists answers. split; [symmetry; exact (Forall2_length _ _ _ H1)|].
    exact (H2 quit_ex (env_ex quit_ex) [word "quit"] typed_quit words_quit (or_introl eq_refl)).
Defined.
Lemma clients_bounded_witness :
  wp (for_fold run_step [] [REAccept (Ok (IpV4 ip1)); REAccept (Ok (IpV4 (ipv4_new 127 0 0 1)))])
    (fun clients => len clients <= 16 /\ Forall (fun a => is_loopback a = true) clients)
    (fun e => REAccept (Err e) ∈ [REAccept (Ok (IpV4 ip1)); REAccept (Ok (IpV4 (ipv4_new 127 0 0 1)))]).
Proof.
  destruct (clients_bounded cfg_ex (fun _ => Ok tt) [REAccept (Ok (IpV4 ip1)); REAccept (Ok (IpV4 (ipv4_new 127 0 0 1)))] cfg_ex_ok)
    as [_ H].
  - by repeat (apply Forall_cons; split).
  - exact (H _ eq_refl).
Defined.

(** ** Wire formats *)
Lemma read_frame_frame_witness :
  exists f, frame 4 [] = Ok f /\ len f <= MAX_MESSAGE /\ forall rest, read_frame (f ++ rest) = Ok (4, [], rest).
Proof. apply (read_frame_frame 4 []); by vm_compute. Defined.

Lemma read_frame_sound_witness : read_frame (message_bytes 4 [] ++ [7]) = Ok (4, [], [7]).
Proof.
  apply (proj2 (read_frame_sound (message_bytes 4 [] ++ [7]) ltac:(by apply bytes_decide))). split; [apply length_keepalive|reflexivity].
Defined.

Lemma parse_open_sound_witness :
  wp (parse_open [4; 253; 234; 0; 30; 10; 0; 0; 2; 0] cfg_ex peer_ex) (negotiated_ok cfg_ex peer_ex) (protocol_code 2).
Proof. apply (parse_open_sound [4; 253; 234; 0; 30; 10; 0; 0; 2; 0] cfg_ex peer_ex); [by apply bytes_decide|done]. Defined.

Lemma parse_open_open_witness :
  exists f body, open cfg_ex' peer_ex' = Ok f /\ (forall rest, read_frame (f ++ rest) = Ok (1, body, rest)) /\
    parse_open body cfg_ex peer_ex = Ok neg_ex.
Proof. apply (parse_open_open cfg_ex cfg_ex' peer_ex peer_ex' cfg_ex_typed' peer_ex_typed' peer_ex_ok'); done. Defined.

Lemma update_accepted_witness :
  exists f body, update cfg_ex peer_ex neg_ex [q1; q2] true = Ok f /\ len f <= MAX_MESSAGE /\
    (forall rest, read_frame (f ++ rest) = Ok (UPDATE, body, rest)) /\ update_says body [q1; q2] [] /\
    validate_update body neg_ex = Ok Valid /\ update_prefixes body = Ok [].
Proof.
  apply (update_accepted cfg_ex peer_ex neg_ex false true [q1; q2] peer_ex_typed peer_ex_ok neg_ex_ok); try done.
  by repeat (apply Forall_cons; split).
Defined.

Lemma validate_update_total_witness :
  wp (validate_update [0; 0; 0; 3; 64; 1; 1] neg_ex) (fun _ => True) (protocol_code 3).
Proof. apply (validate_update_total [0; 0; 0; 3; 64; 1; 1] neg_ex). by apply bytes_decide. Defined.

Lemma treat_as_withdraw_has_prefixes_witness :
  exists p ps, update_prefixes [0; 0; 0; 4; 64; 1; 1; 7; 16; 10; 1] = Ok (p :: ps).
Proof.
  apply (treat_as_withdraw_has_prefixes [0; 0; 0; 4; 64; 1; 1; 7; 16; 10; 1] neg_ex); [by apply bytes_decide|by vm_compute].
Defined.

Lemma validate_path_spec_witness :
  path_segments 4 [2; 1; 0; 0; 253; 233].
Proof. apply (validate_path_spec [2; 1; 0; 0; 253; 233] 4); [by apply bytes_decide|done|by vm_compute]. Defined.

(** ** The writer task *)
Definition sh_ex : Shared := mkShared exports_ex false 0.
Definition t0 : Tx := tx_init elements peer_ex neg_ex 0 exports_ex.
Definition t1 : Tx := mark_sent false [q1] (set_plan (mkPlan [] []) t0).
Definition t2 : Tx := clear_eor (set_plan (mkPlan [] []) t1).
Definition s1 : list Msg := [] ++ [MUpdate false [q1]].
Definition s2 : list Msg := s1 ++ [MEndOfRib false].
Lemma plan_one pl : withdrawals pl = [] -> additions pl = [q1] -> plan_next pl = (Some (false, [q1]), mkPlan [] []).
Proof. destruct pl. cbn. intros -> ->. reflexivity. Qed.
Lemma plan_t0 : plan_next (plan t0) = (Some (false, [q1]), mkPlan [] []).
Proof. apply plan_one; by vm_compute. Qed.

(** The pass that finds nothing to do before the batch. *)
Lemma idle_pass t s :
  eor t <> 0 -> keepalive_due neg_ex 0 t = false ->
  rtc (own_step peer_ex neg_ex) (mkWorld PReplan t sh_ex s) (mkWorld PBatch t sh_ex s).
Proof.
  intros He Hk. eapply rtc_l; [by apply (step_no_replan peer_ex neg_ex 0)|].
  eapply rtc_l; [eapply (step_refresh peer_ex neg_ex elements 0 0 t sh_ex s t 0); [apply elements_order|done|]|].
  { unfold check_refresh. by destruct (Z.eqb_spec (eor t) 0). }
  eapply rtc_l; [by apply (step_no_keepalive peer_ex neg_ex 0)|]. apply rtc_refl.
Qed.
Lemma run_eor :
  rtc (own_step peer_ex neg_ex) (mkWorld PReplan t0 sh_ex []) (mkWorld PEor (set_plan (mkPlan [] []) t1) sh_ex s1).
Proof.
  etransitivity; [by apply idle_pass|].
  eapply rtc_l; [exact (step_batch peer_ex neg_ex t0 sh_ex [] false [q1] (mkPlan [] []) plan_t0)|].
  etransitivity; [by apply idle_pass|]. apply rtc_once, step_no_batch. reflexivity.
Qed.
Lemma run_select :
  rtc (own_step peer_ex neg_ex) (mkWorld PReplan t0 sh_ex []) (mkWorld PSelect t2 sh_ex s2).
Proof.
  eapply rtc_r; [exact run_eor|]. apply (step_eor peer_ex neg_ex (set_plan (mkPlan [] []) t1) sh_ex s1).
Qed.

Lemma run_reachable w w' :
  rtc (own_step peer_ex neg_ex) w w' -> tx_reachable peer_ex neg_ex w -> tx_reachable peer_ex neg_ex w'.
Proof. induction 1; [done|]. intros. apply IHrtc. eapply reach_step; [done|by right]. Qed.
Lemma reach_start : tx_reachable peer_ex neg_ex (mkWorld PReplan t0 sh_ex []).
Proof. apply (reach_init peer_ex neg_ex elements 0 exports_ex 0 elements_order). Qed.
Lemma reach_eor : tx_reachable peer_ex neg_ex (mkWorld PEor (set_plan (mkPlan [] []) t1) sh_ex s1).
Proof. eapply run_reachable; [exact run_eor|exact reach_start]. Qed.
Lemma reach_select : tx_reachable peer_ex neg_ex (mkWorld PSelect t2 sh_ex s2).
Proof. eapply run_reachable; [exact run_select|exact reach_start]. Qed.

Lemma transmit_view_witness :
  peer_view s2 = enabled_set neg_ex (target t2).
Proof. apply (proj2 (transmit_view peer_ex neg_ex _ reach_select)). by right. Defined.

Lemma end_of_rib_synchronized_witness :
  peer_view s1 = enabled_set neg_ex (target t1) /\ n_ipv4 neg_ex = true.
Proof.
  destruct (end_of_rib_synchronized peer_ex neg_ex (mkWorld PEor (set_plan (mkPlan [] []) t1) sh_ex s1)
              (mkWorld PSelect t2 sh_ex s2) false [MEndOfRib false] reach_eor) as (H1 & _ & H2).
  - right. apply (step_eor peer_ex neg_ex (set_plan (mkPlan [] []) t1) sh_ex s1).
  - reflexivity.
  - by left.
  - by split.
Defined.

(** A refresh request that arrives while the task waits. *)
Definition sh_req : Shared := mkShared exports_ex false (Export.request 0 false).
Definition w_req : World := mkWorld PRefresh t2 sh_req s2.
Lemma reach_req : tx_reachable peer_ex neg_ex w_req.
Proof.
  eapply reach_step; [|right; by apply (step_no_replan peer_ex neg_ex 0)].
  eapply reach_step; [|right; apply step_wake].
  eapply reach_step; [exact reach_select|left]. apply (step_request PSelect t2 sh_ex s2 false).
Qed.
Definition t3 : Tx := start_refresh elements neg_ex 0 1 t2.
Definition sh_done : Shared := mkShared exports_ex false 0.
Lemma refresh_starts : own_step peer_ex neg_ex w_req (mkWorld PKeepalive t3 sh_done s2).
Proof. apply (step_refresh peer_ex neg_ex elements 0 0 t2 sh_req s2 t3 0); [apply elements_order|done|reflexivity]. Qed.

Lemma refresh_not_lost_witness :
  exists order now, phase w_req = PRefresh /\ t3 = start_refresh order neg_ex now 1 t2 /\ next_refresh t3 = now + 1000.
Proof.
  destruct (refresh_not_lost peer_ex neg_ex w_req (mkWorld PKeepalive t3 sh_done s2) false) as [H|(order & now & later & H)].
  - right. exact refresh_starts.
  - reflexivity.
  - discriminate H.
  - destruct H as (H1 & _ & _ & H2 & H3). exists order, later. exact (conj H1 (conj H2 H3)).
Defined.

Definition t4 : Tx := mark_sent false [q1] (set_plan (mkPlan [] []) t3).
Lemma plan_t3 : plan_next (plan t3) = (Some (false, [q1]), mkPlan [] []).
Proof. apply plan_one; by vm_compute. Qed.
Lemma refresh_run :
  rtc (refresh_step peer_ex neg_ex q1) (mkWorld PKeepalive t3 sh_done s2)
    (mkWorld PEor (set_plan (mkPlan [] []) t4) sh_done (s2 ++ s1)).
Proof.
  assert (Hq : q1 ∈ target t4) by (apply (bool_decide_eq_true (q1 ∈ target t4)); by vm_compute).
  eapply rtc_l; [split_and!; [right; by apply (step_no_keepalive peer_ex neg_ex 0)|done|exact Hq]|].
  eapply rtc_l; [split_and!; [right; exact (step_batch peer_ex neg_ex t3 sh_done s2 false [q1] (mkPlan [] []) plan_t3)|done|exact Hq]|].
  eapply rtc_l; [split_and!; [right; by apply (step_no_replan peer_ex neg_ex 0)|done|exact Hq]|].
  eapply rtc_l; [split_and!; [right; eapply (step_refresh peer_ex neg_ex elements 0 0 t4 sh_done _ t4 0); [apply elements_order|done|reflexivity]|done|exact Hq]|].
  eapply rtc_l; [split_and!; [right; by apply (step_no_keepalive peer_ex neg_ex 0)|done|exact Hq]|].
  eapply rtc_l; [split_and!; [right; apply step_no_batch; reflexivity|done|exact Hq]|]. apply rtc_refl.
Qed.

Lemma refresh_resends_witness : exists ms, s2 ++ s1 = s2 ++ ms /\ announced q1 ms.
Proof.
  apply (refresh_resends peer_ex neg_ex elements 0 1 t2 sh_done s2 q1 (mkWorld PEor (set_plan (mkPlan [] []) t4) sh_done (s2 ++ s1))).
  - eapply reach_step; [exact reach_req|right; exact refresh_starts].
  - apply (bool_decide_eq_true (q1 ∈ target t2)). by vm_compute.
  - reflexivity.
  - done.
  - exact refresh_run.
  - reflexivity.
Defined.

Lemma refresh_replay_gap_witness :
  let t' := retarget elements peer_ex neg_ex 200 exports_ex (retarget elements peer_ex neg_ex 100 ∅ t3) in
  q1 ∈ target t' /\ q1 ∉ replay t' /\ q1 ∉ additions (plan t').
Proof.
  destruct (refresh_replay_gap peer_ex neg_ex elements elements elements 0 100 200 1 ∅ exports_ex t2 q1)
    as (H1 & _ & H2 & H3 & _).
  - exact elements_order.
  - apply (bool_decide_eq_true (q1 ∈ advertised t2)). by vm_compute.
  - reflexivity.
  - apply (bool_decide_eq_false (q1 ∈ desired ∅ (p_export_acl peer_ex))). by vm_compute.
  - apply (bool_decide_eq_true (q1 ∈ desired exports_ex (p_export_acl peer_ex))). by vm_compute.
  - exact (conj H1 (conj H2 H3)).
Defined.

Lemma plan_next_optimal_witness :
  plan_cost (mkPlan [] []) = plan_cost (plan t0) - 1.
Proof.
  pose proof (plan_next_optimal neg_ex ∅ (target t0) ∅ (plan t0) (Some (false, [q1])) (mkPlan [] [])) as H.
  destruct H as (_ & _ & _ & H); [|exact plan_t0|exact H].
  apply (plan_new_ok elements ∅ (target t0) neg_ex ∅). apply elements_order.
Defined.

(** The first UPDATE, written ten milliseconds after the start with a latency of 100 ms,
    and read by the other router within 200 ms. *)
Lemma timed_ex :
  timed_reach peer_ex neg_ex 100 0 (mkTimed 20 (mkWorld PReplan t1 sh_ex s1) [10]).
Proof.
  assert (Hwork : forall t t' T, 0 <= t <= t' -> t' <= 20 -> timed_reach peer_ex neg_ex 100 0 (mkTimed t T []) ->
    forall T', work peer_ex neg_ex elements t t T = Some T' -> length (sent T') = length (sent T) ->
    timed_reach peer_ex neg_ex 100 0 (mkTimed t' T' [])).
  { intros t t' T H1 H2 HT T' Hw Hlen. eapply timed_next; [exact HT|].
    apply (timed_work peer_ex neg_ex 100 elements t t t t' T T' [] []);
      [apply elements_order|lia|lia|lia|by apply Forall_nil|exact Hw|cbn; lia|unfold paced; lia]. }
  assert (H0 : timed_reach peer_ex neg_ex 100 0 (mkTimed 0 (mkWorld PReplan t0 sh_ex []) [])).
  { apply (timed_init peer_ex neg_ex 100 0 elements exports_ex 0 elements_order). }
  assert (H1 := Hwork 0 0 _ ltac:(lia) ltac:(lia) H0 (mkWorld PRefresh t0 sh_ex []) eq_refl eq_refl).
  assert (H2 := Hwork 0 0 _ ltac:(lia) ltac:(lia) H1 (mkWorld PKeepalive t0 sh_ex []) eq_refl eq_refl).
  assert (H3 := Hwork 0 0 _ ltac:(lia) ltac:(lia) H2 (mkWorld PBatch t0 sh_ex []) eq_refl eq_refl).
  eapply timed_next; [exact H3|].
  apply (timed_work peer_ex neg_ex 100 elements 0 0 15 20 (mkWorld PBatch t0 sh_ex []) (mkWorld PReplan t1 sh_ex s1) [] [10]);
    [apply elements_order|lia|lia|lia|apply Forall_singleton; lia| |reflexivity|].
  - unfold work. cbn [phase tx shared sent]. by rewrite plan_t0.
  - unfold paced, write_ms. cbn. lia.
Qed.
Lemma session_stays_up_witness :
  exists frames, length frames = 1%nat /\
    receive neg_ex' [150] (concat frames) (receive_init neg_ex' 0 0) = Ok (mkRx 30150 0, []) /\ 20 <= 30150.
Proof.
  destruct (session_stays_up cfg_ex peer_ex neg_ex None peer_ex_typed peer_ex_ok neg_ex_ok 100 200 0
              (mkTimed 20 (mkWorld PReplan t1 sh_ex s1) [10]) neg_ex' ltac:(lia) ltac:(lia) ltac:(reflexivity) eq_refl eq_refl
              ltac:(by vm_compute) timed_ex) as (frames & Hf & Hr).
  apply Forall2_length in Hf. exists frames. split; [symmetry; exact Hf|].
  destruct (Hr [150] 0 0) as [H1 H2]; [constructor; [lia|constructor]|lia|].
  split; [exact H1|]. apply H2. discriminate.
Defined.

(** From the start: one prefix, so at most four UPDATEs a plan. *)
Lemma settles_in_time_witness :
  deadline_ms peer_ex 100 (mkWorld PReplan t0 sh_ex []) = 308900 /\
  inevitably (timed_drain peer_ex neg_ex 100)
    (fun T' => settled (td_world T') /\ td_clock T' <= 308900 /\ peer_view (sent (td_world T')) =
       enabled_set neg_ex (desired exports_ex (p_export_acl peer_ex)))
    (mkTimed 0 (mkWorld PReplan t0 sh_ex []) []).
Proof.
  assert (E : deadline_ms peer_ex 100 (mkWorld PReplan t0 sh_ex []) = 308900) by by vm_compute.
  split; [exact E|].
  pose proof (settles_in_time peer_ex neg_ex 100 ltac:(lia) ltac:(by vm_compute) 0 (mkTimed 0 (mkWorld PReplan t0 sh_ex []) [])
    (timed_init peer_ex neg_ex 100 0 elements exports_ex 0 elements_order) ltac:(discriminate)) as H.
  cbn [td_clock td_world shared watch sh_ex] in H. rewrite E in H. exact H.
Defined.

(** ** Sessions *)
Lemma collision_agreement_witness :
  prefer_incoming cfg_ex peer_ex neg_ex = negb (prefer_incoming cfg_ex' peer_ex' neg_ex').
Proof. apply (collision_agreement cfg_ex cfg_ex' peer_ex peer_ex' neg_ex neg_ex' neg_ex_ok); reflexivity. Defined.

Definition cand_ex : Candidate := mkCandidate keepalive_packet neg_ex true None.
Definition choose_ex : ChooseState := mkChoose [false; true] [] None true 12000.
Lemma choose_result_witness :
  (choose_step cfg_ex peer_ex choose_ex (EvJoin 1 (Ok cand_ex) 500)).2 = Ok (inr cand_ex) /\ deadline choose_ex = 12000.
Proof.
  destruct (choose_result cfg_ex peer_ex 12000 [EvIncoming true] choose_ex (EvJoin 1 (Ok cand_ex) 500))
    as (_ & Hd & H & _).
  - eapply run_cons; [reflexivity|reflexivity|apply run_nil].
  - reflexivity.
  - split; [exact (H 1%nat cand_ex 500 eq_refl eq_refl)|exact Hd].
Defined.

Lemma receive_total_witness : total (receive neg_ex [100] keepalive_packet (receive_init neg_ex 0 0)).
Proof. apply (receive_total neg_ex [100] keepalive_packet). by apply bytes_decide. Defined.

Lemma receive_hold_timer_witness :
  receive neg_ex ([100] ++ [30101]) keepalive_packet (receive_init neg_ex 0 0) = Err hold_expired.
Proof.
  apply (receive_hold_timer neg_ex [100] keepalive_packet 0 0 (mkRx 30100 0) []); [by apply bytes_decide|by vm_compute|done|done].
Defined.

(** A session that has read a KEEPALIVE at 100 ms. *)
Definition live_ex : Live :=
  mkLive 100 30100 [] (mkWorld PReplan t0 sh_ex []) None.
Lemma live_ex_reach : live_reach peer_ex neg_ex keepalive_packet 0 live_ex.
Proof.
  eapply live_next; [eapply live_next; [by apply (live_start peer_ex neg_ex keepalive_packet 0 elements exports_ex), elements_order|]|].
  - by apply (live_tick peer_ex neg_ex 100).
  - by apply (live_read peer_ex neg_ex (mkLive 100 30000 keepalive_packet (mkWorld PReplan t0 sh_ex []) None) (mkRx 30100 0) []); vm_compute.
Qed.
Lemma live_refines_witness : tx_reachable peer_ex neg_ex (lv_world live_ex) /\ total (read_once neg_ex live_ex).
Proof.
  destruct (live_refines peer_ex neg_ex keepalive_packet 0 live_ex) as (H1 & _ & H2 & _);
    [by apply bytes_decide|exact live_ex_reach|exact (conj H1 H2)].
Defined.

Lemma check_local_addresses_spec_witness :
  p_local_address peer_ex ∈ interface_ips peer_ex [mkIfaddr "eth0" (Some (IpV4 ip1))].
Proof. apply (check_local_addresses_spec peer_ex [mkIfaddr "eth0" (Some (IpV4 ip1))] None). by vm_compute. Defined.

Definition open_ex : list Z := match open cfg_ex peer_ex with Ok f => f | _ => [] end.
Definition open_ex' : list Z := match open cfg_ex' peer_ex' with Ok f => f | _ => [] end.
Definition handshake_io : HandshakeIO :=
  mkHandshakeIO (Ok tt) (Ok [mkIfaddr "eth0" (Some (IpV4 ip1))]) (Ok tt) open_ex' false.
Lemma handshake_sound_witness :
  handshake cfg_ex peer_ex false handshake_io = ([ASend open_ex], Ok (mkCandidate [] neg_ex false None)) /\
  negotiated_ok cfg_ex peer_ex neg_ex.
Proof.
  assert (E : handshake cfg_ex peer_ex false handshake_io = ([ASend open_ex], Ok (mkCandidate [] neg_ex false None)))
    by by vm_compute.
  split; [exact E|].
  pose proof (handshake_sound cfg_ex peer_ex false handshake_io [mkIfaddr "eth0" (Some (IpV4 ip1))] open_ex) as H.
  rewrite E in H.
  destruct H as (_ & _ & _ & _ & _ & H & _); [by apply bytes_decide; vm_compute|done|done|done|done|by vm_compute|exact H].
Defined.

Definition session_io : SessionIO := mkSessionIO (Ok tt) false (fun _ _ _ => Err hold_expired).
Lemma session_fsm_witness :
  exists acts, (session peer_ex cand_ex session_io).1 = [AStatus OpenConfirmState None; ASend (message_bytes 4 [])] ++ acts.
Proof.
  destruct (session_fsm peer_ex cand_ex session_io) as (acts & H & _); [by apply bytes_decide|done|done|].
  exists acts. exact H.
Defined.

(** An attempt whose connection fails, followed by a full backoff, and one in which
    the listener goes away. *)
Definition connect_failed : error := EMessage "TCP connect failed" [].
Definition attempt_ex (wait : Wait) : Attempt :=
  mkAttempt 0 [EvJoin 0 (Err connect_failed) 100; EvDeadline 12000] session_io [] 0 999 wait.
Definition no_connection : error := EMessage "no usable BGP connection: {}; {incoming_status}" [].
Definition attempt_acts : list Act :=
  [AStatus Connect None; AStatus Active (Some no_connection); AStatus Active None; AWait 2999].
Lemma attempt_ex_ok wait : wait = WElapsed \/ wait = WClosed -> attempt_ok (attempt_ex wait).
Proof.
  intros Hw. split; cbn; [by repeat constructor|by split|lia|by destruct Hw as [->| ->]].
Qed.
Lemma attempt_value : peer_iteration (10 ^ 15) cfg_ex peer_ex 0 (attempt_ex WElapsed) = (attempt_acts, Ok (Some 1)).
Proof. by vm_compute. Qed.

Lemma backoff_paced_witness : 1 <= 1 < 2 ^ 32 /\ exists ms, List.filter is_wait attempt_acts = [AWait ms].
Proof.
  destruct (backoff_paced (10 ^ 15) cfg_ex peer_ex 0 (attempt_ex WElapsed) attempt_acts 1) as (H1 & (ms & H2 & _) & _);
    [by vm_compute|by apply attempt_ex_ok; left|exact attempt_value|].
  split; [exact H1|by exists ms].
Defined.
Lemma errors_visible_witness :
  ps_last_error (show 5 attempt_acts (mkPeerStatus Idle 0 None)) = Some no_connection.
Proof.
  apply (errors_visible (10 ^ 15) cfg_ex peer_ex 0 (attempt_ex WElapsed) attempt_acts 1 no_connection 5);
    [exact attempt_value|reflexivity|by vm_compute].
Defined.
Lemma worker_survives_witness :
  Exists channel_closed [attempt_ex WElapsed; attempt_ex WClosed] /\
  exists st, fsm_run Idle (peer_loop (10 ^ 15) cfg_ex peer_ex [attempt_ex WElapsed; attempt_ex WClosed]).1 = Some st.
Proof.
  pose proof (worker_survives (10 ^ 15) cfg_ex peer_ex) as H. specialize (H (proj1 (typed_hold _ peer_ex_typed))).
  destruct (H [attempt_ex WElapsed; attempt_ex WClosed]) as (H1 & H2 & _).
  - apply Forall_cons. split; [by apply attempt_ex_ok; left|].
    apply Forall_singleton. by apply attempt_ex_ok; right.
  - assert (E : (peer_loop (10 ^ 15) cfg_ex peer_ex [attempt_ex WElapsed; attempt_ex WClosed]).2 = bail "listener stopped")
      by by vm_compute.
    rewrite E in H1. split; [exact (proj2 H1)|exact H2].
Defined.

(** ** Connections *)
Definition sockaddr_ex (a : SocketAddr) : list Z :=
  match a with SockV4 ip port => [2; 0] ++ be_bytes 2 port ++ octets4 ip ++ replicate 8 0 | _ => [] end.
Lemma sockaddr_ex_fits : sockaddr_fits sockaddr_ex.
Proof. intros [ip port|ip port flow scope]; by vm_compute. Qed.
Definition ifindex_ex (_ : string) : Z := 3.
Definition connected_ex : list SockOp :=
  [NewSocket true; BindDevice "eth0"; SetTtl 1; SetNodelay; BindTo (SockV4 ip1 0);
   InstallMd5 (md5_signature sockaddr_ex peer_ex 3 (mkMd5Key [115; 101; 99]))].
Lemma connect_protected_witness : protected sockaddr_ex 3 peer_ex connected_ex.
Proof.
  destruct (connect_protected ifindex_ex sockaddr_ex sockaddr_ex_fits (fun _ => Ok tt) cfg_ex peer_ex peer_ex_ok (fun _ => I))
    as [_ H].
  destruct (H connected_ex (SockV4 ip2 179) []) as (idx & Hi & _ & _ & Hp & _); [by vm_compute|].
  assert (E : Ok 3 = Ok idx) by exact Hi. injection E as <-. exact Hp.
Defined.

Definition key_ex : ListenerKey := (IpV4 ip1, "eth0").
Definition setup_ex := open_listeners ifindex_ex sockaddr_ex (fun _ _ => Ok tt) cfg_ex (elements (dom (listeners cfg_ex))).
Lemma listeners_protected_witness : (key_ex, Listen 64) ∈ setup_ex.1.
Proof.
  destruct (listeners_protected ifindex_ex sockaddr_ex (fun _ _ => Ok tt) cfg_ex sockaddr_ex_fits cfg_ex_ok (fun _ _ => I)
              (elements (dom (listeners cfg_ex))) (Permutation_refl _)) as (_ & _ & H).
  apply (H eq_refl peer_ex). by left.
Defined.

Lemma dispatch_spec_witness :
  dispatch (listeners cfg_ex) key_ex (IpV4 ip2) = Some 0%nat.
Proof.
  apply (dispatch_spec cfg_ex key_ex (IpV4 ip2) 0%nat cfg_ex_ok). by exists peer_ex.
Defined.

Definition conn_ex : Conn := mkConn key_ex (IpV4 ip2).
Lemma queues_ex : queue_reach cfg_ex [[conn_ex]].
Proof.
  eapply queue_next; [apply queue_start|].
  assert (E : accept (listeners cfg_ex) conn_ex (map (fun _ => []) (c_peers cfg_ex)) = [[conn_ex]]) by by vm_compute.
  rewrite <- E. apply queue_accept.
Qed.
Lemma connections_delivered_witness : accept (listeners cfg_ex) conn_ex [[conn_ex]] = [[conn_ex; conn_ex]].
Proof.
  destruct (connections_delivered cfg_ex [[conn_ex]] conn_ex cfg_ex_ok queues_ex) as (_ & H & _).
  exact (H 0%nat [conn_ex] peer_ex eq_refl eq_refl (conj eq_refl eq_refl)).
Defined.

(** ** Kernel routes *)
Definition route_msg : Message :=
  mkMessage RTM_NEWROUTE 2 1 (encode_route false q1 254 254 0 3 0 [0; 0; 0; 0] [] [] []).
Definition done_msg : Message := mkMessage NLMSG_DONE 2 1 [0; 0; 0; 0].
Definition dump_bytes : list Z := concat (map (fun m => pad (encode_message false m)) [route_msg; done_msg]).

Lemma route_roundtrip_witness :
  route false (encode_route false q1 254 254 0 3 0 [0; 0; 0; 0] [] [] []) [254] = Ok (Some q1).
Proof. apply (route_roundtrip false q1 254 254 0 3 0 [0; 0; 0; 0] [] [] [] [254]); try done; by apply Forall_nil. Defined.

Lemma drain_spec_witness :
  exists ev rest, drain false [Datagram dump_bytes; WouldBlock] = Ok (ev, rest) /\ ev_datagrams ev <= 128.
Proof.
  destruct (drain_spec false [Datagram dump_bytes; WouldBlock]) as (ev & used & rest & H & _ & Hu & _ & _ & Hd).
  - apply Forall_cons. split; [by apply bytes_decide; vm_compute|by apply Forall_singleton].
  - exists ev, rest. split; [exact H|]. rewrite Hd. unfold count_datagrams.
    etransitivity; [|exact Hu]. apply Nat2Z.inj_le, filter_length_le.
Defined.

Definition raw_pass_ex : RawPass := mkRawPass false 5 [] [RawDatagram dump_bytes 0 12 0] (mkPoll None 0 0).
Definition pass_ex : Pass := mkPass false 5 [] [Datagram dump_bytes] (Ok tt).
Lemma raw_pass_ex_ok : Forall raw_pass_ok [raw_pass_ex].
Proof. apply Forall_singleton. split; [by apply Forall_nil|]. apply Forall_singleton. by apply bytes_decide; vm_compute. Qed.
Lemma raw_pass_value : map pass_of [raw_pass_ex] = [pass_ex].
Proof. by vm_compute. Qed.
Lemma pass_ex_ok : Forall pass_ok [pass_ex].
Proof. rewrite <- raw_pass_value. apply Forall_map. eapply Forall_impl; [exact raw_pass_ex_ok|apply pass_of_ok]. Qed.
Lemma snapshot_value :
  (snapshot false cfg_ex (fun _ => Ok tt) (fun req => Ok (len req)) 0 [pass_ex] []).2 = Ok (Some ({[q1]}, false)).
Proof. by vm_compute. Qed.
Lemma snapshot_complete_witness :
  (snapshot false cfg_ex (fun _ => Ok tt) (fun req => Ok (len req)) 0 [pass_ex] []).2 = Ok (Some ({[q1]}, false)) /\
    exists runs, Forall2 (complete_dump false cfg_ex) [1] runs /\
      ({[q1]} : Prefixes) = list_to_set (concat (map (run_routes false cfg_ex) runs)).
Proof.
  pose proof (snapshot_complete false cfg_ex (fun _ => Ok tt) (fun req => Ok (len req)) 0 [pass_ex] []) as H.
  pose proof snapshot_value as E. split; [exact E|].
  destruct (snapshot _ _ _ _ _ _ _) as [[sq reqs] r]. cbn [snd] in E. subst r.
  destruct H with (result := ({[q1]} : Prefixes)) (changed := false) as (runs & _ & H1 & _ & H2 & _);
    [done|done|done|exact pass_ex_ok|by apply Forall_nil|done|].
  by exists runs.
Defined.

Lemma snapshot_from_kernel_witness : exists bytes, from_kernel (RawDatagram dump_bytes 0 12 0) bytes.
Proof.
  destruct (snapshot_from_kernel false cfg_ex (fun _ => Ok tt) (fun req => Ok (len req)) 0 [raw_pass_ex] []
              {[q1]} false q1) as (p & raw & bytes & m & Hp & Hraw & Hk & _);
    [done|done|done|exact raw_pass_ex_ok|by apply Forall_nil|rewrite raw_pass_value; exact snapshot_value|by apply elem_of_singleton|].
  apply list_elem_of_singleton in Hp as ->. apply list_elem_of_singleton in Hraw as ->. by exists bytes.
Defined.

Lemma kernel_subscribed_witness :
  exists mask, (kernel_start (fun _ => Ok tt) cfg_ex (Ok tt) 0).1 = [NlSocket; NlSetRcvbuf 67108864; NlGetRcvbuf; NlBind mask].
Proof.
  destruct (kernel_subscribed cfg_ex (fun _ => Ok tt) (Ok tt) 0 [NlSocket; NlSetRcvbuf 67108864; NlGetRcvbuf; NlBind 81]
              (kernel_init 0) cfg_ex_ok eq_refl) as (mask & H & _).
  exists mask. exact H.
Defined.

Lemma filter_exports_spec_witness :
  exists out, filter_exports cfg_ex {[q1]} = Ok out /\ out !! "export" = Some (permitted acl_ex {[q1]}).
Proof.
  destruct (filter_exports_spec cfg_ex {[q1]}) as (out & H1 & H2).
  - apply Forall_singleton. exact (peer_acl _ _ peer_ex_ok).
  - exists out. split; [exact H1|]. rewrite H2. reflexivity.
Defined.

(** ** The reconciliation loop *)
Definition clock_end : Z := 2 ^ 62.
Definition quiet : Events := no_events.
Definition k0 : KWorld := kernel_init 0.
Definition k1 : KWorld := do_top quiet 0 k0.

Lemma reach_k1 : kreach clock_end cfg_ex 0 k1.
Proof. eapply kreach_step; [apply kreach_init|]. by apply (step_top clock_end cfg_ex k0 quiet 0). Qed.

Lemma kernel_invariant_witness : l_dirty (k_loop k1) = true /\ w_value (k_tx k1) = ∅.
Proof.
  pose proof (kernel_invariant clock_end cfg_ex 0 k1 reach_k1) as [H1 _ H2 _ _ _].
  split; [apply H2; by eexists|exact H1].
Defined.

(** The clock reaches 40 s while the first dump has not returned. *)
Definition k2 : KWorld := watch_check (set_env 40000 false k1).
Lemma stalled : unpublished clock_end cfg_ex k1 k2.
Proof.
  eapply unpublished_step; [|apply (step_env clock_end cfg_ex k1 40000 false); [by vm_compute|done]|]; [done|].
  eapply unpublished_step; [|by apply step_check|apply unpublished_refl]. done.
Qed.
Lemma stale_exports_withdrawn_witness :
  withdrawn (k_fresh (watch_expire (stale_limit cfg_ex) k2)) = true.
Proof.
  apply (stale_exports_withdrawn clock_end cfg_ex 0 0 k1 k2 (watch_expire (stale_limit cfg_ex) k2) reach_k1);
    [reflexivity|exact stalled|reflexivity|done|apply unpublished_refl].
Defined.

Definition k3 : KWorld :=
  default k1 (do_dump clock_end cfg_ex (Ok (Some ({[q1]}, true))) quiet k1).
Lemma publish_complete_witness :
  exists exports, k_phase k3 = KPublish exports true /\
    w_value (k_tx (do_publish clock_end cfg_ex 7 exports true k3)) = exports.
Proof.
  destruct (filter_total cfg_ex {[q1]}) as (exports & Hf).
  { apply Forall_singleton. exact (peer_acl _ _ peer_ex_ok). }
  assert (E : do_dump clock_end cfg_ex (Ok (Some ({[q1]}, true))) quiet k1 = Some k3).
  { unfold k3, do_dump, loop_dump. by rewrite Hf. }
  assert (Hp : k_phase k3 = KPublish exports true).
  { unfold k3, do_dump, loop_dump. by rewrite Hf. }
  exists exports. split; [exact Hp|].
  apply (publish_complete clock_end cfg_ex (Ok (Some ({[q1]}, true))) quiet k1 k3 exports true 7); [reflexivity|exact E|exact Hp].
Defined.

Lemma failed_dump_retries_witness :
  exists w', do_dump clock_end cfg_ex (bail "interrupted netlink dump") quiet k1 = Some w' /\
    l_due (k_loop w') = 200.
Proof.
  destruct (failed_dump_retries clock_end cfg_ex (EMessage "interrupted netlink dump" []) quiet k1)
    as (w' & H & _ & _ & _ & _ & Hr & Hd & _); [reflexivity|reflexivity|done|done|].
  exists w'. split; [exact H|]. rewrite Hd, Hr. reflexivity.
Defined.

(** A failed dump, then five seconds in [poll]. *)
Definition k_failed : KWorld := default k1 (do_dump clock_end cfg_ex (bail "interrupted netlink dump") quiet k1).
Definition k_later : KWorld := do_poll (Ok tt) (set_env 5000 false k_failed).
Lemma reach_failed : kreach clock_end cfg_ex 0 k_failed.
Proof.
  eapply kreach_step; [exact reach_k1|].
  by apply (Kernel.step_dump clock_end cfg_ex k1 (bail "interrupted netlink dump") quiet).
Qed.
Lemma undumped_later : undumped clock_end cfg_ex k_failed k_later.
Proof.
  apply (undumped_step _ _ LEnv _ (set_env 5000 false k_failed)); [done|done|by apply step_env|].
  apply (undumped_step _ _ LPoll _ k_later); [done|done|by apply step_poll|]. apply undumped_refl.
Qed.
Lemma dump_within_witness : k_phase (do_top quiet 5000 k_later) = KDump.
Proof.
  apply (dump_within clock_end cfg_ex 0 k_failed k_later quiet 5000 cfg_ex_ok reach_failed undumped_later);
    [reflexivity|reflexivity|by vm_compute|].
  right. left. exists k1. split; [exact reach_k1|].
  by apply (wants_failed clock_end cfg_ex k1 (EMessage "interrupted netlink dump" []) quiet).
Defined.

(** ** The composed system *)
Definition k4 : KWorld :=
  default k1 (do_dump clock_end cfg_ex (Ok (Some ({[q1]}, false))) quiet k1).
Definition k5 : KWorld := do_publish clock_end cfg_ex (k_clock k4) exports_ex false k4.
Lemma filter_ex : filter_exports cfg_ex {[q1]} = Ok exports_ex.
Proof.
  destruct (filter_total cfg_ex {[q1]}) as (e & He); [apply Forall_singleton; exact (peer_acl _ _ peer_ex_ok)|].
  assert (H : match filter_exports cfg_ex {[q1]} with Ok e => bool_decide (e = exports_ex) | _ => false end = true)
    by by vm_compute.
  rewrite He in H |- *. f_equal. by apply bool_decide_eq_true in H.
Qed.
Lemma acls_ex : Forall (fun p => is_Some (c_acls cfg_ex !! p_export_acl p)) (c_peers cfg_ex).
Proof. apply Forall_singleton. exact (peer_acl _ _ peer_ex_ok). Qed.
Definition w_start : World := mkWorld PReplan t0 sh_ex [].

Lemma sys_writes w w' :
  rtc (own_step peer_ex neg_ex) w w' -> sys_reach false clock_end cfg_ex 0 (mkSys k5 [mkSess peer_ex neg_ex w]) ->
  sys_reach false clock_end cfg_ex 0 (mkSys k5 [mkSess peer_ex neg_ex w']).
Proof.
  induction 1 as [|w1 w2 w3 Hstep _ IH]; [done|]. intros Hr. apply IH.
  eapply sys_next; [exact Hr|]. by apply (sys_write false clock_end cfg_ex k5 [] (mkSess peer_ex neg_ex w1) w2 []).
Qed.
Lemma k4_dump : do_dump clock_end cfg_ex (Ok (Some ({[q1]}, false))) quiet k1 = Some k4.
Proof. unfold k4, do_dump, loop_dump. by rewrite filter_ex. Qed.
Lemma k4_phase : k_phase k4 = KPublish exports_ex false.
Proof. unfold k4, do_dump, loop_dump. by rewrite filter_ex. Qed.
Lemma reach_open : sys_reach false clock_end cfg_ex 0 (mkSys k5 [mkSess peer_ex neg_ex w_start]).
Proof.
  eapply sys_next; [|apply (sys_open false clock_end cfg_ex k5 [] elements peer_ex None neg_ex 0); [apply elements_order|by left]].
  eapply sys_next; [|apply (sys_kernel false clock_end cfg_ex LPublish k4 k5 []); [done|]].
  - eapply sys_next; [|apply (sys_dump false clock_end cfg_ex (Ok (Some ({[q1]}, false))) quiet k1 k4 [])].
    + eapply sys_next; [apply sys_init|].
      by apply (sys_kernel false clock_end cfg_ex LTop k0 k1 []); [|apply (step_top clock_end cfg_ex k0 quiet 0)].
    + reflexivity.
    + rewrite <- snapshot_value, <- raw_pass_value. by apply (snapshot_returns false cfg_ex _ _ 0 [raw_pass_ex] []); [| |exact raw_pass_ex_ok|apply Forall_nil].
    + exact k4_dump.
  - exact (Kernel.step_publish clock_end cfg_ex k4 (k_clock k4) exports_ex false k4_phase (Z.le_refl _)).
Qed.

Lemma reach_sys :
  sys_reach false clock_end cfg_ex 0 (mkSys k5 [mkSess peer_ex neg_ex (mkWorld PSelect t2 sh_ex s2)]).
Proof. apply (sys_writes w_start); [exact run_select|exact reach_open]. Qed.

(** The session just opened, nothing written yet. *)
Lemma peers_converge_witness :
  inevitably (drain_step peer_ex neg_ex)
    (fun w => settled w /\ sys_reach false clock_end cfg_ex 0 (mkSys k5 [mkSess peer_ex neg_ex w]) /\
       holds_snapshot false cfg_ex k5 (mkSess peer_ex neg_ex w)) w_start.
Proof.
  exact (peers_converge false clock_end cfg_ex acls_ex 0 k5 [] (mkSess peer_ex neg_ex w_start) [] reach_open
           ltac:(discriminate)).
Defined.
Lemma announcements_permitted_witness : permits acl_ex q1 = true.
Proof.
  destruct (announcements_permitted false clock_end cfg_ex acls_ex 0 _ (mkSess peer_ex neg_ex (mkWorld PSelect t2 sh_ex s2))
              [q1] q1 reach_sys) as (acl & H1 & H2); [by left|by left|by left|].
  assert (E : Some acl_ex = Some acl) by exact H1. injection E as ->. exact H2.
Defined.
Lemma peers_hold_snapshot_witness :
  exists prefixes, filter_exports cfg_ex prefixes = Ok (k_last k5) /\ (q1 ∈ peer_view s2 -> q1 ∈ prefixes).
Proof.
  destruct (peers_hold_snapshot false clock_end cfg_ex acls_ex 0 _ (mkSess peer_ex neg_ex (mkWorld PSelect t2 sh_ex s2))
              reach_sys) as (prefixes & acl & _ & _ & Hf & Hq); [by left|by right|reflexivity|].
  exists prefixes. split.
  - apply Hf. apply (bool_decide_eq_false (k_last k5 = ∅)). by vm_compute.
  - intros H. by apply (Hq q1) in H as (_ & H & _).
Defined.

(** ** Sockets, startup and supervision *)
Lemma install_spec_witness :
  (install sockaddr_ex peer_ex 3 (fun _ => bail "installing TCP-MD5")).2 = bail "installing TCP-MD5".
Proof.
  rewrite (install_spec sockaddr_ex cfg_ex peer_ex 3); [reflexivity|exact sockaddr_ex_fits|exact peer_ex_ok].
Defined.

Definition main_io : MainIO :=
  mkMainIO "1.0.0" Ok (fun _ => Ok cfg_ex) (fun _ _ => 0) false (Ok tt) (fun _ _ => Ok tt).
Definition main_acts : list MainAct :=
  [Detach; Log (OpenLog "ubgp" 9 24); Log (InstallSubscriber (mkSubscriber (Directives "ubgp=info") false false true));
   RunDaemon cfg_ex].
Lemma main_starts_loaded_witness :
  mi_daemon main_io 0 0 = 0 /\ main main_io ["-d"; "-c"; "/x"] = (main_acts, Ok tt).
Proof.
  split; [|reflexivity].
  destruct (main_starts_loaded main_io ["-d"; "-c"; "/x"] cfg_ex main_acts (Ok tt))
    as (p & a & b & d & H1 & _ & _ & _ & _ & H2 & _).
  - reflexivity.
  - right. right. right. left.
  - injection H1 as <- <- <-. by apply H2.
Defined.

Definition toml_ex (text : list Z) : Config + TomlError := inl cfg_ex'.
(** ** The process *)
(** A reload is announced; before it, the first generation opens a session and writes
    its first announcement. *)
Definition reload_ex : list (Joined * res unit * SupEvent) := [(JoinResult (Ok tt), Ok tt, Hup (load toml_ex (Ok [])))].
Definition running_ex : Alive := mkAlive [WBgp; WConsole; WKernel] (Some cfg_ex) false.
Definition after_start : list SupAct := (sup_events reload_ex cfg_ex).1.
Lemma run_ex : (run (Ok tt) reload_ex cfg_ex).1 = (ABind :: start_acts cfg_ex) ++ after_start.
Proof. unfold run, after_start. cbn [generation]. by destruct (sup_events reload_ex cfg_ex). Qed.
Definition proc_ex (S : Sys) : Proc Sys := mkProc after_start running_ex S (Some 0%nat) 1 [].
Lemma process_started :
  process false clock_end (run (Ok tt) reload_ex cfg_ex).1 0 (map OAct (ABind :: start_acts cfg_ex))
    (proc_ex (mkSys (kernel_init 0) [])).
Proof.
  rewrite run_ex. unfold start_acts. cbn [map app].
  pose proof (proc_init (exporter := sys_exporter false clock_end) (ABind :: start_acts cfg_ex ++ after_start) 0) as H.
  eapply (process_act false clock_end _ 0 [] ABind (start_acts cfg_ex ++ after_start) _ 0) in H; [|reflexivity].
  eapply (process_act false clock_end _ 0 [OAct ABind] (AStart WKernel cfg_ex) _ _ 0) in H; [|reflexivity].
  eapply (process_act false clock_end _ 0 _ (AStart WConsole cfg_ex) _ _ 0) in H; [|reflexivity].
  eapply (process_act false clock_end _ 0 _ (AStart WBgp cfg_ex) after_start _ 0) in H; [exact H|reflexivity].
Qed.
(** What the composed system does, the process can do. *)
Lemma process_lift S :
  sys_reach false clock_end cfg_ex 0 S ->
  exists trace, process false clock_end (run (Ok tt) reload_ex cfg_ex).1 0 trace (proc_ex S).
Proof.
  induction 1 as [|S a S' _ (trace & IH) Hstep]; [eexists; exact process_started|].
  destruct a as [|out].
  - eexists. eapply proc_next; [exact IH|]. eapply proc_kernel; [right; right; left|reflexivity|exact Hstep].
  - eexists. eapply proc_next; [exact IH|]. eapply proc_bgp; [reflexivity|exact Hstep].
Qed.

Lemma policy_enforced_witness :
  exists (trace : list Obs) c acl, OAct (AStart WBgp c) ∈ trace /\ c_acls c !! p_export_acl peer_ex = Some acl /\ permits acl q1 = true.
Proof.
  assert (Hb : sys_reach false clock_end cfg_ex 0 (mkSys k5 [mkSess peer_ex neg_ex (mkWorld PBatch t0 sh_ex [])])).
  { apply (sys_writes w_start); [by apply idle_pass|exact reach_open]. }
  destruct (process_lift _ Hb) as (trace & Ht).
  assert (Hw : process false clock_end (run (Ok tt) reload_ex cfg_ex).1 0 (trace ++ [OWrote 0 peer_ex (MUpdate false [q1])])
            (proc_ex (mkSys k5 [mkSess peer_ex neg_ex (mkWorld PReplan t1 sh_ex s1)]))).
  { eapply (proc_next _ _ trace [OWrote 0 peer_ex (MUpdate false [q1])]); [exact Ht|].
    eapply (proc_bgp (exporter := sys_exporter false clock_end) after_start running_ex _ 0 1 [] cfg_ex [(peer_ex, MUpdate false [q1])]);
      [reflexivity|].
    exact (sys_write false clock_end cfg_ex k5 [] (mkSess peer_ex neg_ex (mkWorld PBatch t0 sh_ex [])) _ []
             (step_batch peer_ex neg_ex t0 sh_ex [] false [q1] (mkPlan [] []) plan_t0)). }
  assert (Hload : forall kernel bind loaded, (kernel, bind, Hup loaded) ∈ reload_ex ->
    exists read, loaded = load toml_ex read).
  { intros kernel bind loaded H%list_elem_of_singleton. exists (Ok []).
    exact (f_equal (fun t : Joined * res unit * SupEvent => match t.2 with Hup l => l | _ => loaded end) H). }
  destruct (policy_enforced false clock_end toml_ex (Ok tt) reload_ex cfg_ex 0 _ _ cfg_ex_ok Hload Hw) as [H _].
  destruct (H trace 0%nat peer_ex [q1] [] q1 eq_refl ltac:(by left)) as (first & since & c & acl & H1 & _ & _ & _ & H2 & H3).
  exists trace, c, acl. split; [rewrite H1; apply elem_of_app; right; left|exact (conj H2 H3)].
Defined.
