(* ===== verification/WitnessTime.v ===== *)
(** * Concrete runs in time

    One session from its first announcement to the withdrawal of stale routes, with the
    netlink worker beside it; the deployment is that of [Witness], without a hold timer. *)
From S2P Require Import Prelude Net Config Frame Open Update Validate Grammar RoundTrip Planning Export Writer Deadline Withdrawal.
From S2P Require Import Netsock Netlink Dump Kernel Staleness Witness.

#[local] Existing Instance model_api.
#[local] Existing Instance model_laws.

Definition neg0 : Negotiated := mkNegotiated ip2 0 true false true false.
Definition lat : Z := 100000.

(** Parts of the loop at one instant. *)
Fixpoint run_parts (k : nat) (t : Z) (w : World) : option World :=
  match k with O => Some w | S k => w' ← work peer_ex neg0 elements t t w; run_parts k t w' end.
Definition parts (k : nat) (t : Z) (w : World) : World := default w (run_parts k t w).

(** The session until it waits, notified that nothing is exported, and until it waits again. *)
Definition w_init : World := td_world (session_start peer_ex neg0 elements 0 0 exports_ex).
Definition w_waits : World := parts 9 0 w_init.
Definition T_waits (times : list Z) : Timed := mkTimed 40000 w_waits times.
Definition w_told : World := td_world (notify_timed ∅ (T_waits [])).
Definition w_woken : World := default w_told (wake peer_ex neg0 elements 40000 BChanged w_told).
Definition w_done : World := parts 9 40000 w_woken.

Lemma work_quiet t w w' times :
  work peer_ex neg0 elements t t w = Some w' ->
  exists times', silent_step peer_ex neg0 lat (mkTimed t w times) (mkTimed t w' times').
Proof.
  intros Hw. assert (Hown : own_step peer_ex neg0 w w') by (by apply (work_step _ _ elements t t); [apply elements_order|lia|]).
  assert (Hk : exists k, length (sent w') = (length (sent w) + k)%nat).
  { destruct Hown; cbn; rewrite ?length_app; first [by exists 0%nat; rewrite Nat.add_0_r|by eexists]. }
  destruct Hk as (k & Hk). exists (times ++ replicate k t). split_and!; cbn [td_world].
  - apply (timed_work _ _ _ elements t t t t); try done; try lia.
    + apply elements_order.
    + apply Forall_forall. intros s [-> _]%elem_of_replicate. lia.
    + rewrite length_replicate. lia.
    + apply paced_now; [unfold lat; lia|by vm_compute].
  - by apply (own_step_watch peer_ex neg0).
  - intros Hc. destruct (changed (shared w)) eqn:E; [done|]. by rewrite (seen_work _ _ _ _ _ _ _ E Hw) in Hc.
Qed.
Lemma parts_quiet k t w times :
  is_some (run_parts k t w) = true ->
  exists times', rtc (silent_step peer_ex neg0 lat) (mkTimed t w times) (mkTimed t (parts k t w) times').
Proof.
  unfold parts. revert w times. induction k as [|k IH]; intros w times Hs; [exists times; apply rtc_refl|].
  cbn [run_parts] in *. destruct (work peer_ex neg0 elements t t w) as [w'|] eqn:Hw; [|done].
  destruct (work_quiet t w w' times Hw) as (ts & H1). cbn [mbind option_bind] in *. destruct (IH w' ts Hs) as (ts' & H2). exists ts'.
  destruct (run_parts k t w') eqn:E; [|done]. by eapply rtc_l.
Qed.
Lemma idle_quiet t t' w times :
  phase w = PSelect -> changed (shared w) = false -> pending (shared w) = 0 -> t <= t' ->
  silent_step peer_ex neg0 lat (mkTimed t w times) (mkTimed t' w times).
Proof. intros H1 H2 H3 Ht. split_and!; [|done|done]. apply timed_idle; try done. by intros [_ []]. Qed.

(** ** The session *)
Lemma init_reach : timed_reach peer_ex neg0 lat 0 (mkTimed 0 w_init []).
Proof. apply (timed_init peer_ex neg0 lat 0 elements exports_ex 0 elements_order). Qed.
Lemma waits_run : exists times, rtc (silent_step peer_ex neg0 lat) (mkTimed 0 w_init []) (T_waits times).
Proof.
  destruct (parts_quiet 9 0 w_init [] ltac:(by vm_compute)) as (times & H). exists times. eapply rtc_r; [exact H|].
  apply (idle_quiet 0 40000); [by vm_compute..|lia].
Qed.
(** From the notification on, for a long time. *)
Lemma done_run times :
  exists times', rtc (silent_step peer_ex neg0 lat) (notify_timed ∅ (T_waits times)) (mkTimed 10000000 w_done times').
Proof.
  destruct (parts_quiet 9 40000 w_woken times ltac:(by vm_compute)) as (times' & H). exists times'.
  eapply rtc_l; [|eapply rtc_r; [exact H|apply (idle_quiet 40000 10000000); [by vm_compute..|lia]]].
  split_and!; cbn [td_world notify_timed T_waits td_clock].
  - apply (timed_wake _ _ _ elements 40000 40000 BChanged); [apply elements_order|unfold lat; lia|].
    assert (Hs : is_some (wake peer_ex neg0 elements 40000 BChanged w_told) = true) by by vm_compute.
    change (wake peer_ex neg0 elements 40000 BChanged w_told = Some w_woken). unfold w_woken.
    by destruct (wake peer_ex neg0 elements 40000 BChanged w_told).
  - assert (E : watch (shared w_woken) = ∅) by (apply (bool_decide_eq_true (watch (shared w_woken) = ∅)); by vm_compute). exact E.
  - intros _. done.
Qed.

(** A route is announced, then withdrawn in time. *)
Lemma withdrawn_in_time_witness :
  bool_decide (q1 ∈ peer_view (sent w_told)) = true /\ q1 ∉ peer_view (sent w_done).
Proof.
  split; [by vm_compute|]. destruct waits_run as (times & Hw). destruct (done_run times) as (times' & Hd).
  apply (withdrawn_in_time peer_ex neg0 lat ltac:(unfold lat; lia) ltac:(by vm_compute) 0 (notify_timed ∅ (T_waits times))
    (mkTimed 10000000 w_done times') q1).
  - apply notify_reach. eapply silent_timed; [exact init_reach|exact Hw].
  - exact Hd.
  - by vm_compute.
  - by vm_compute.
  - apply not_elem_of_empty.
Defined.

(** ** The netlink worker *)
(** One snapshot during which routes changed; then none completes. *)
Definition kd : KWorld := default k1 (do_dump clock_end cfg_ex (Ok (Some ({[q1]}, true))) quiet k1).
Definition kp : KWorld := do_publish clock_end cfg_ex 0 exports_ex true kd.
Definition K_published : KTimed := mkKTimed kp lat.
Definition k_waiting : KWorld := watch_check (set_env 40000 false kp).
Definition K_waiting : KTimed := mkKTimed k_waiting lat.
Definition k_expired : KWorld := watch_expire (stale_limit cfg_ex) k_waiting.
Definition K_expired : KTimed := mkKTimed k_expired 140100.
Definition k_late : KWorld := set_env 140100 false k_expired.
Definition k_again : KWorld := watch_expire (stale_limit cfg_ex) (watch_check k_late).
Definition K_again : KTimed := mkKTimed k_again 240200.
Definition K_end : KTimed := mkKTimed (set_env 240000 false k_again) 240200.

Lemma kd_dump : do_dump clock_end cfg_ex (Ok (Some ({[q1]}, true))) quiet k1 = Some kd.
Proof. unfold kd, do_dump, loop_dump. by rewrite filter_ex. Qed.
Lemma kd_phase : k_phase kd = KPublish exports_ex true.
Proof. unfold kd, do_dump, loop_dump. by rewrite filter_ex. Qed.
Lemma reach_kd : ktimed_reach clock_end cfg_ex lat 0 (mkKTimed kd lat).
Proof.
  eapply ktimed_next; [eapply ktimed_next; [apply ktimed_start|]|].
  - by apply (kt_top clock_end cfg_ex lat k0 quiet 0 lat).
  - exact (kt_dump clock_end cfg_ex lat k1 _ quiet kd lat eq_refl kd_dump).
Qed.
Lemma reach_published : ktimed_reach clock_end cfg_ex lat 0 K_published.
Proof.
  eapply ktimed_next; [exact reach_kd|].
  apply (kt_publish clock_end cfg_ex lat kd 0 exports_ex true lat kd_phase). by vm_compute.
Qed.
(** Two seconds after the last dump the watchdog has waited for its deadline, and expires. *)
Lemma kernel_runs :
  ktimed_step clock_end cfg_ex lat K_published (mkKTimed (set_env 40000 false kp) lat) /\
  ktimed_step clock_end cfg_ex lat (mkKTimed (set_env 40000 false kp) lat) K_waiting /\
  ktimed_step clock_end cfg_ex lat K_waiting K_expired /\
  ktimed_step clock_end cfg_ex lat K_expired (mkKTimed k_late 140100) /\
  ktimed_step clock_end cfg_ex lat (mkKTimed k_late 140100) (mkKTimed (watch_check k_late) 140100) /\
  ktimed_step clock_end cfg_ex lat (mkKTimed (watch_check k_late) 140100) K_again /\
  ktimed_step clock_end cfg_ex lat K_again K_end.
Proof.
  split_and!.
  - apply kt_env; [by vm_compute|by vm_compute|intros _; by vm_compute].
  - apply kt_check. by vm_compute.
  - apply (kt_expire clock_end cfg_ex lat k_waiting). by vm_compute.
  - apply kt_env; [by vm_compute|by vm_compute|intros _; by vm_compute].
  - apply kt_check. by vm_compute.
  - apply (kt_expire clock_end cfg_ex lat (watch_check k_late)). by vm_compute.
  - apply kt_env; [by vm_compute|by vm_compute|intros _; by vm_compute].
Qed.
Definition publishing (w : KWorld) : bool := match k_phase w with KPublish _ _ => true | _ => false end.
Lemma unpublished_quiet K K' :
  publishing (kt_world K) = false -> ktimed_step clock_end cfg_ex lat K K' -> unpublished_step clock_end cfg_ex lat K K'.
Proof. intros Hp Hs. split; [done|]. intros exports c E. unfold publishing in Hp. by rewrite E in Hp. Qed.
(** What was published had changed meanwhile, and nothing is published after it. *)
Lemma stale_end : stale_since clock_end cfg_ex lat 0 K_end 0.
Proof.
  exists K_published. split.
  - apply (noticed_changed clock_end cfg_ex lat 0 kd 0 exports_ex lat reach_kd kd_phase). by vm_compute.
  - destruct kernel_runs as (H1 & H2 & H3 & H4 & H5 & H6 & H7).
    do 7 (eapply rtc_l; [apply unpublished_quiet; [|eassumption]; by vm_compute|]). apply rtc_refl.
Qed.
Lemma expired_in_time_witness : offered K_end = ∅.
Proof.
  apply (expired_in_time clock_end cfg_ex lat ltac:(unfold lat; lia) ltac:(by vm_compute) 0 K_end 0 stale_end);
    by vm_compute.
Defined.

(** ** Both *)
Definition joint : Joint -> Prop := joint_reach clock_end cfg_ex lat peer_ex neg0 0.
Lemma joint_silent K T T' T0 :
  rtc (silent_step peer_ex neg0 lat) T T' -> joint (mkJoint K T T0) -> joint (mkJoint K T' T0).
Proof. induction 1 as [|T1 T2 T3 H _ IH]; [done|]. intros Hj. apply IH. eapply joint_next; [exact Hj|by apply joint_session]. Qed.
Lemma offered_published : offered K_published = exports_ex.
Proof. apply (bool_decide_eq_true (offered K_published = exports_ex)). by vm_compute. Qed.
Lemma offered_expired : offered K_expired = ∅.
Proof. apply (bool_decide_eq_true (offered K_expired = ∅)). by vm_compute. Qed.
Lemma joint_end : exists times times', joint (mkJoint K_end (mkTimed 10000000 w_done times') (notify_timed ∅ (T_waits times))).
Proof.
  destruct waits_run as (times & Hw). destruct (done_run times) as (times' & Hd). exists times, times'.
  destruct kernel_runs as (H1 & H2 & H3 & H4 & H5 & H6 & H7).
  pose proof (joint_init clock_end cfg_ex lat peer_ex neg0 0 K_published elements 0 0 reach_published elements_order) as J0.
  cbn zeta in J0. rewrite offered_published in J0.
  assert (J1 : joint (mkJoint K_waiting (T_waits times) (session_start peer_ex neg0 elements 0 0 exports_ex))).
  { eapply joint_next; [eapply joint_next; [exact (joint_silent _ _ _ _ Hw J0)|]|]; [eapply joint_kernel; [exact H1|done]|eapply joint_kernel; [exact H2|done]]. }
  assert (J2 : joint (mkJoint K_expired (notify_timed ∅ (T_waits times)) (notify_timed ∅ (T_waits times)))).
  { rewrite <- offered_expired. eapply joint_next; [exact J1|]. apply joint_publish; [exact H3|by vm_compute|split; by vm_compute]. }
  eapply joint_next; [eapply joint_next; [eapply joint_next; [eapply joint_next; [exact (joint_silent _ _ _ _ Hd J2)|]|]|]|];
    (apply joint_kernel; [eassumption|by vm_compute]).
Qed.
Lemma stale_routes_leave_witness : peer_view (sent w_done) = ∅.
Proof.
  destruct joint_end as (times & times' & Hj).
  apply (stale_routes_leave clock_end cfg_ex lat peer_ex neg0 ltac:(unfold lat; lia) ltac:(by vm_compute) ltac:(by vm_compute)
    0 _ 0 Hj stale_end); by vm_compute.
Defined.
